(** * Orchestration core: storage, org tree, delegation flow and engine

    A shallow embedding of the TypeScript sources of the orchestration
    package (storage/org.ts, storage/tasks.ts, storage/messages.ts,
    storage/board.ts, storage/agents.ts, delegation-flow.ts, engine.ts and
    mcp/tools/finish-task.ts) together with the properties its
    specification states about them.

    Conventions of the embedding:
    - a JS string is a [string]; [null] is [None];
    - a directory is a finite map from file name to file content; a JSON
      file is represented by the record it serialises (JSON.stringify and
      JSON.parse are taken to be inverse on these records);
    - every [new Date()] of the source is an explicit argument of the
      operation that reads the clock;
    - an object that the source mutates through a reference obtained from a
      search ([findNode]) is updated functionally at the place the search
      returns. *)

From stdpp Require Import gmap strings list fin_maps.
From Stdlib Require Import ZArith Ascii Sorted.
From Stdlib Require QArith.

Set Warnings "-clear-no-such-hyp".

Open Scope string_scope.
Open Scope list_scope.
Open Scope stdpp_scope.

(** Closed decidable facts are settled by evaluation. *)
Ltac by_decide :=
  lazymatch goal with
  | |- ?P => apply (@bool_decide_unpack P _); vm_compute; exact I
  end.

(* ===================================================================== *)
(** * Org tree (storage/org.ts) *)
(* ===================================================================== *)

Module OrgStorage.

(** [interface OrgNode] of types.ts.  The induction principle used below is
    [forest_ind]. *)
Local Unset Elimination Schemes.
Inductive OrgNode : Type :=
  mkOrgNode {
    agentName : string;
    parentAgentName : option string;
    children : list OrgNode;
    position : nat
  }.
Local Set Elimination Schemes.

(** [interface OrgTree]. *)
Record OrgTree : Type := mkOrgTree { roots : list OrgNode }.

Definition setChildren (n : OrgNode) (cs : list OrgNode) : OrgNode :=
  mkOrgNode (agentName n) (parentAgentName n) cs (position n).

(** The predicate of [filter(n => n.agentName !== agentName)]. *)
Definition isNot (a : string) (n : OrgNode) : bool :=
  negb (String.eqb (agentName n) a).

(** Structural induction on forests: the hypothesis is available for the
    children of the head node and for the remaining siblings. *)
Definition forest_ind (Q : list OrgNode -> Prop)
    (Hnil : Q [])
    (Hcons : forall n rest, Q (children n) -> Q rest -> Q (n :: rest)) :
    forall ns, Q ns :=
  let G :=
    fix G (n : OrgNode) : Q (children n) :=
      match n with
      | mkOrgNode _ _ cs _ =>
          (fix F (l : list OrgNode) : Q l :=
             match l with
             | [] => Hnil
             | c :: l' => Hcons c l' (G c) (F l')
             end) cs
      end in
  fix F (l : list OrgNode) : Q l :=
    match l with
    | [] => Hnil
    | c :: l' => Hcons c l' (G c) (F l')
    end.

(** ** findNode

    [for (const node of nodes) { if (node.agentName === agentName) return
    node; const found = this.findNode(node.children, agentName); if (found)
    return found } return null]: the first match in a pre-order walk. *)
Fixpoint findNodeIn (a : string) (node : OrgNode) : option OrgNode :=
  match node with
  | mkOrgNode nm _ cs _ =>
      if String.eqb nm a then Some node
      else
        (fix scan (l : list OrgNode) : option OrgNode :=
           match l with
           | [] => None
           | c :: l' =>
               match findNodeIn a c with
               | Some found => Some found
               | None => scan l'
               end
           end) cs
  end.

Definition findNode (nodes : list OrgNode) (a : string) : option OrgNode :=
  (fix scan (l : list OrgNode) : option OrgNode :=
     match l with
     | [] => None
     | c :: l' =>
         match findNodeIn a c with
         | Some found => Some found
         | None => scan l'
         end
     end) nodes.

(** ** removeFromChildren / removeFromTree

    [for (const node of nodes) { node.children = node.children.filter(n =>
    n.agentName !== agentName); this.removeFromChildren(node.children,
    agentName) }].  The function returns the list of the mutated nodes. *)
Fixpoint removeFromChildrenIn (a : string) (node : OrgNode) : OrgNode :=
  match node with
  | mkOrgNode nm p cs pos =>
      mkOrgNode nm p
        ((fix go (l : list OrgNode) : list OrgNode :=
            match l with
            | [] => []
            | c :: l' =>
                if isNot a c then removeFromChildrenIn a c :: go l' else go l'
            end) cs)
        pos
  end.

Definition removeFromChildren (nodes : list OrgNode) (a : string) : list OrgNode :=
  map (removeFromChildrenIn a) nodes.

(** [tree.roots = tree.roots.filter(n => n.agentName !== agentName);
    this.removeFromChildren(tree.roots, agentName)]. *)
Definition removeFromTree (tree : OrgTree) (a : string) : OrgTree :=
  mkOrgTree (removeFromChildren (List.filter (isNot a) (roots tree)) a).

(** ** Mutation of the node returned by findNode

    [const parent = this.findNode(tree.roots, name); ...;
    parent.children.push(node)] mutates the object that the search returned.
    [mutateFound nodes a f] rebuilds the forest with [f] applied to the node
    [findNode nodes a] returns, and is [None] when the search fails. *)
Fixpoint mutateFoundIn (a : string) (f : OrgNode -> OrgNode) (node : OrgNode)
    : option OrgNode :=
  match node with
  | mkOrgNode nm p cs pos =>
      if String.eqb nm a then Some (f node)
      else
        match
          (fix scan (l : list OrgNode) : option (list OrgNode) :=
             match l with
             | [] => None
             | c :: l' =>
                 match mutateFoundIn a f c with
                 | Some c' => Some (c' :: l')
                 | None =>
                     match scan l' with
                     | Some l'' => Some (c :: l'')
                     | None => None
                     end
                 end
             end) cs
        with
        | Some cs' => Some (mkOrgNode nm p cs' pos)
        | None => None
        end
  end.

Definition mutateFound (nodes : list OrgNode) (a : string) (f : OrgNode -> OrgNode)
    : option (list OrgNode) :=
  (fix scan (l : list OrgNode) : option (list OrgNode) :=
     match l with
     | [] => None
     | c :: l' =>
         match mutateFoundIn a f c with
         | Some c' => Some (c' :: l')
         | None =>
             match scan l' with
             | Some l'' => Some (c :: l'')
             | None => None
             end
         end
     end) nodes.

(** [node.position = parent.children.length; parent.children.push(node)],
    where the node to push is given up to its position. *)
Definition pushChild (mk : nat -> OrgNode) (parent : OrgNode) : OrgNode :=
  setChildren parent (children parent ++ [mk (length (children parent))]).

(** [node.position = tree.roots.length; tree.roots.push(node)]. *)
Definition pushRoot (mk : nat -> OrgNode) (tree : OrgTree) : OrgTree :=
  mkOrgTree (roots tree ++ [mk (length (roots tree))]).

(** The common tail of [setParent] and of the loop body of [removeAgent]:
    insert under the named parent when it is found, else as a root. *)
Definition attach (tree : OrgTree) (parentName : option string) (mk : nat -> OrgNode)
    : OrgTree :=
  match parentName with
  | None => pushRoot mk tree
  | Some pn =>
      match findNode (roots tree) pn with
      | Some _ =>
          match mutateFound (roots tree) pn (pushChild mk) with
          | Some rs => mkOrgTree rs
          | None => tree
          end
      | None => pushRoot mk tree
      end
  end.

(** The body of [setParent] between [get] and [save]. *)
Definition setParentTree (tree : OrgTree) (a : string) (p : option string) : OrgTree :=
  let tree1 := removeFromTree tree a in
  attach tree1 p (fun pos => mkOrgNode a p [] pos).

(** [child.parentAgentName = parentName] followed by the insertion. *)
Definition reparent (parentName : option string) (child : OrgNode) (pos : nat) : OrgNode :=
  mkOrgNode (agentName child) parentName (children child) pos.

(** The body of [removeAgent] between [get] and [save]; when the node is
    absent the method returns before saving. *)
Definition removeAgentTree (tree : OrgTree) (a : string) : option OrgTree :=
  match findNode (roots tree) a with
  | None => None
  | Some node =>
      let parentName := parentAgentName node in
      let orphans := children node in
      let tree1 := removeFromTree tree a in
      Some (fold_left (fun t child => attach t parentName (reparent parentName child))
              orphans tree1)
  end.

(** *** The store: the single document org.json ([None]: no such file). *)
Definition Store : Type := option OrgTree.

Definition get (s : Store) : OrgTree :=
  match s with
  | Some tree => tree
  | None => mkOrgTree []
  end.

Definition save (tree : OrgTree) : Store := Some tree.

Definition setParent (s : Store) (a : string) (p : option string) : Store :=
  save (setParentTree (get s) a p).

Definition getParent (s : Store) (a : string) : option string :=
  match findNode (roots (get s)) a with
  | Some node => parentAgentName node
  | None => None
  end.

Definition getChildren (s : Store) (a : string) : list OrgNode :=
  match findNode (roots (get s)) a with
  | Some node => children node
  | None => []
  end.

Definition removeAgent (s : Store) (a : string) : Store :=
  match removeAgentTree (get s) a with
  | Some tree => save tree
  | None => s
  end.

(** The agent names of a forest, in pre-order. *)
Fixpoint namesIn (node : OrgNode) : list string :=
  match node with
  | mkOrgNode nm _ cs _ =>
      nm :: (fix go (l : list OrgNode) : list string :=
               match l with
               | [] => []
               | c :: l' => namesIn c ++ go l'
               end) cs
  end.

Definition names (nodes : list OrgNode) : list string :=
  (fix go (l : list OrgNode) : list string :=
     match l with
     | [] => []
     | c :: l' => namesIn c ++ go l'
     end) nodes.

(** Every node stores the name of the node it hangs under ([None] at the
    top level). *)
Fixpoint parentsOkIn (par : option string) (node : OrgNode) : Prop :=
  match node with
  | mkOrgNode nm p cs _ =>
      p = par /\
      (fix go (l : list OrgNode) : Prop :=
         match l with
         | [] => True
         | c :: l' => parentsOkIn (Some nm) c /\ go l'
         end) cs
  end.

Definition parentsOk (par : option string) (nodes : list OrgNode) : Prop :=
  (fix go (l : list OrgNode) : Prop :=
     match l with
     | [] => True
     | c :: l' => parentsOkIn par c /\ go l'
     end) nodes.

(** The invariant of the data model: a forest in which every agent name
    occurs at most once and [parentAgentName] is the actual parent. *)
Definition wellFormed (tree : OrgTree) : Prop :=
  NoDup (names (roots tree)) /\ parentsOk None (roots tree).

(** *** Histories of calls on the store *)
Inductive Op : Type :=
| SetParent (a : string) (p : option string)
| RemoveAgent (a : string).

Definition step (s : Store) (op : Op) : Store :=
  match op with
  | SetParent a p => setParent s a p
  | RemoveAgent a => removeAgent s a
  end.

Definition run (s : Store) (ops : list Op) : Store := fold_left step ops s.

End OrgStorage.

(* ===================================================================== *)
(** * JavaScript strings and dates *)
(* ===================================================================== *)

(** Strings are sequences of code units; the embedding takes the code
    units of the Latin-1 range, which covers every character the sources
    test for. *)
Module JS.

Definition LF : ascii := "010"%char.

(** The line feed as a string: the "\n" of the sources. *)
Definition nl : string := String LF "".

(** [s.startsWith(p)] *)
Fixpoint startsWith (p s : string) : bool :=
  match p, s with
  | EmptyString, _ => true
  | String a p', String b s' => Ascii.eqb a b && startsWith p' s'
  | String _ _, EmptyString => false
  end.

(** [s.includes(needle)] *)
Fixpoint includes (needle s : string) : bool :=
  startsWith needle s ||
  match s with
  | EmptyString => false
  | String _ s' => includes needle s'
  end.

(** [s.endsWith(suffix)] *)
Fixpoint endsWith (suffix s : string) : bool :=
  String.eqb suffix s ||
  match s with
  | EmptyString => false
  | String _ s' => endsWith suffix s'
  end.

Fixpoint drop (n : nat) (s : string) : string :=
  match n, s with
  | O, _ => s
  | S n', String _ s' => drop n' s'
  | S _, EmptyString => EmptyString
  end.

(** The text before and after the first occurrence of [sep] in [s]:
    [s.slice(0, i)] and [s.slice(i + sep.length)] for [i = s.indexOf(sep)],
    and [None] when [indexOf] is [-1]. *)
Fixpoint breakOn (sep s : string) : option (string * string) :=
  if startsWith sep s then Some (EmptyString, drop (String.length sep) s)
  else
    match s with
    | EmptyString => None
    | String c s' =>
        match breakOn sep s' with
        | Some (before, after) => Some (String c before, after)
        | None => None
        end
    end.

(** [s.replace(pattern, replacement)] for a string pattern: the first
    occurrence only. *)
Definition replaceFirst (pattern replacement s : string) : string :=
  match breakOn pattern s with
  | Some (before, after) => before +:+ replacement +:+ after
  | None => s
  end.

(** [s.split("\n")] *)
Fixpoint splitLines (s : string) : list string :=
  match s with
  | EmptyString => [EmptyString]
  | String c s' =>
      if Ascii.eqb c LF then EmptyString :: splitLines s'
      else
        match splitLines s' with
        | line :: lines => String c line :: lines
        | [] => [String c EmptyString]
        end
  end.

(** [lines.join("\n")] *)
Fixpoint joinLines (lines : list string) : string :=
  match lines with
  | [] => EmptyString
  | [line] => line
  | line :: rest => line +:+ nl +:+ joinLines rest
  end.

(** White space and line terminators, as [trim] understands them, among
    the code units below 256: tab, line feed, vertical tab, form feed,
    carriage return, space and no-break space. *)
Definition isWhite (c : ascii) : bool :=
  let n := nat_of_ascii c in
  (Nat.leb 9 n && Nat.leb n 13) || Nat.eqb n 32 || Nat.eqb n 160.

(** [s.trimStart()] *)
Fixpoint trimStart (s : string) : string :=
  match s with
  | EmptyString => EmptyString
  | String c s' => if isWhite c then trimStart s' else s
  end.

(** [s.trimEnd()] *)
Fixpoint trimEnd (s : string) : string :=
  match s with
  | EmptyString => EmptyString
  | String c s' =>
      match trimEnd s' with
      | EmptyString => if isWhite c then EmptyString else String c EmptyString
      | r => String c r
      end
  end.

(** [s.trim()] *)
Definition trim (s : string) : string := trimStart (trimEnd s).

Fixpoint mapChars (f : ascii -> ascii) (s : string) : string :=
  match s with
  | EmptyString => EmptyString
  | String c s' => String (f c) (mapChars f s')
  end.

(** Truthiness of a [string | null]: neither null nor empty. *)
Definition truthy (o : option string) : bool :=
  match o with
  | Some s => negb (String.eqb s "")
  | None => false
  end.

(** [path.join(a, b)] for a directory [a] and a single segment [b]; no
    normalisation takes place on such arguments. *)
Definition pathJoin (a b : string) : string := a +:+ "/" +:+ b.

(** [array.slice(0, end)] for an integer [end]: a negative [end] counts
    from the end of the array. *)
Definition sliceTo {A : Type} (end_ : Z) (l : list A) : list A :=
  if (end_ <? 0)%Z then take (Z.to_nat (Z.of_nat (length l) + end_)) l
  else take (Z.to_nat end_) l.

(** [s.slice(0, n)] on a string, for a natural number [n]. *)
Definition prefix (n : nat) (s : string) : string := String.substring 0 n s.

(** The test of the regular expression [^[a-z0-9-]+$]. *)
Definition isSlugChar (c : ascii) : bool :=
  let n := nat_of_ascii c in
  (Nat.leb 97 n && Nat.leb n 122) || (Nat.leb 48 n && Nat.leb n 57) || Nat.eqb n 45.

Fixpoint allChars (p : ascii -> bool) (s : string) : bool :=
  match s with
  | EmptyString => true
  | String c s' => p c && allChars p s'
  end.

Definition isSlug (s : string) : bool :=
  negb (String.eqb s "") && allChars isSlugChar s.

End JS.

(** A [Date], represented by its UTC calendar fields, which is what
    [toISOString] prints.  The time order of dates is the lexicographic
    order of the fields. *)
Module Date.

Record t : Type := mk {
  year : nat;
  month : nat;
  day : nat;
  hours : nat;
  minutes : nat;
  seconds : nat;
  milliseconds : nat
}.

(** The dates [toISOString] prints with a four-digit year. *)
Definition valid (d : t) : Prop :=
  (year d < 10 ^ 4 /\ 1 <= month d <= 12 /\ 1 <= day d <= 31 /\
   hours d < 24 /\ minutes d < 60 /\ seconds d < 60 /\ milliseconds d < 1000)%nat.

Definition digit (n : nat) : ascii := ascii_of_nat (48 + n mod 10).

(** [n] in decimal on [width] digits, zero padded. *)
Fixpoint pad (width n : nat) : string :=
  match width with
  | O => EmptyString
  | S w => String (digit (n / 10 ^ w)) (pad w (n mod 10 ^ w))
  end.

(** [d.toISOString()]: YYYY-MM-DDTHH:mm:ss.sssZ *)
Definition toISOString (d : t) : string :=
  pad 4 (year d) +:+ "-" +:+ pad 2 (month d) +:+ "-" +:+ pad 2 (day d) +:+ "T" +:+
  pad 2 (hours d) +:+ ":" +:+ pad 2 (minutes d) +:+ ":" +:+ pad 2 (seconds d) +:+ "." +:+
  pad 3 (milliseconds d) +:+ "Z".

Definition fields (d : t) : list nat :=
  [year d; month d; day d; hours d; minutes d; seconds d; milliseconds d].

Fixpoint lexCompare (l1 l2 : list nat) : comparison :=
  match l1, l2 with
  | [], [] => Eq
  | [], _ :: _ => Lt
  | _ :: _, [] => Gt
  | x :: l1', y :: l2' =>
      match Nat.compare x y with
      | Eq => lexCompare l1' l2'
      | c => c
      end
  end.

(** [d1 < d2] on dates. *)
Definition before (d1 d2 : t) : Prop := lexCompare (fields d1) (fields d2) = Lt.

(** *** Reading a date string

    [new Date(s).getTime()] is a parameter of the listings below, [None]
    standing for [NaN].  [parse] is the instance used in the examples: it
    reads the format [toISOString] writes and nothing else. *)
Definition digitValue (c : ascii) : option Z :=
  let n := nat_of_ascii c in
  if Nat.leb 48 n && Nat.leb n 57 then Some (Z.of_nat (n - 48)) else None.

Fixpoint number (s : string) (acc : Z) : option Z :=
  match s with
  | EmptyString => Some acc
  | String c s' =>
      match digitValue c with
      | Some d => number s' (10 * acc + d)%Z
      | None => None
      end
  end.

Definition field (s : string) (start len : nat) : option Z :=
  number (String.substring start len s) 0.

Definition isChar (s : string) (i : nat) (c : ascii) : bool :=
  match String.get i s with
  | Some x => Ascii.eqb x c
  | None => false
  end.

(** Days from 1970-01-01 to the given civil date. *)
Definition daysFromCivil (y m d : Z) : Z :=
  let y' := (if m <=? 2 then y - 1 else y)%Z in
  let era := (y' / 400)%Z in
  let yoe := (y' - era * 400)%Z in
  let doy := ((153 * (if m >? 2 then m - 3 else m + 9) + 2) / 5 + d - 1)%Z in
  let doe := (yoe * 365 + yoe / 4 - yoe / 100 + doy)%Z in
  (era * 146097 + doe - 719468)%Z.

Definition parse (s : string) : option Z :=
  if Nat.eqb (String.length s) 24 &&
     isChar s 4 "-" && isChar s 7 "-" && isChar s 10 "T" && isChar s 13 ":" &&
     isChar s 16 ":" && isChar s 19 "." && isChar s 23 "Z"
  then
    match field s 0 4, field s 5 2, field s 8 2, field s 11 2, field s 14 2,
          field s 17 2, field s 20 3 with
    | Some y, Some mo, Some d, Some h, Some mi, Some sec, Some ms =>
        if ((1 <=? mo) && (mo <=? 12) && (1 <=? d) && (d <=? 31) &&
            (h <? 24) && (mi <? 60) && (sec <? 60))%Z
        then Some ((((daysFromCivil y mo d * 24 + h) * 60 + mi) * 60 + sec) * 1000 + ms)%Z
        else None
    | _, _, _, _, _, _, _ => None
    end
  else None.

End Date.

(* ===================================================================== *)
(** * Entities (types.ts, constants.ts) *)
(* ===================================================================== *)

(** [TASK_STATUSES] *)
Module TaskStatus.
Inductive t : Type := pending | running | review | completed | failed | blocked.

Definition toString (s : t) : string :=
  match s with
  | pending => "pending"
  | running => "running"
  | review => "review"
  | completed => "completed"
  | failed => "failed"
  | blocked => "blocked"
  end.

(** The terminal states of the task life cycle. *)
Definition terminal (s : t) : bool :=
  match s with
  | completed | failed | blocked => true
  | pending | running | review => false
  end.

#[global] Instance eq_dec : EqDecision t.
Proof. solve_decision. Defined.
End TaskStatus.

(** The type ["completed" | "failed" | "blocked"] of the status argument
    of [completeAgent] and of [finish_task]. *)
Module FinalStatus.
Inductive t : Type := completed | failed | blocked.

Definition toStatus (s : t) : TaskStatus.t :=
  match s with
  | completed => TaskStatus.completed
  | failed => TaskStatus.failed
  | blocked => TaskStatus.blocked
  end.
End FinalStatus.

(** [AGENT_STATUSES] *)
Module AgentStatus.
Inductive t : Type := idle | running | error | offline.
#[global] Instance eq_dec : EqDecision t.
Proof. solve_decision. Defined.
End AgentStatus.

(** [AGENT_LEVELS] *)
Module AgentLevel.
Inductive t : Type := ic | lead | manager | vp | c_suite.
#[global] Instance eq_dec : EqDecision t.
Proof. solve_decision. Defined.
End AgentLevel.

(** [interface AgentConfig] *)
Module AgentConfig.
Record t : Type := mk {
  name : string;
  displayName : string;
  role : string;
  department : string;
  level : AgentLevel.t;
  personality : string;
  status : AgentStatus.t;
  currentTaskId : option string;
  avatarColor : option string;
  createdAt : string;
  updatedAt : string
}.

(** [agent.status = s; agent.currentTaskId = task; agent.updatedAt = now] *)
Definition setRun (a : t) (s : AgentStatus.t) (task : option string) (now : string) : t :=
  mk (name a) (displayName a) (role a) (department a) (level a) (personality a)
     s task (avatarColor a) (createdAt a) now.
End AgentConfig.

(** [interface TaskTag] *)
Record TaskTag : Type := mkTaskTag { label : string; color : string; bg : string }.

(** [interface TaskState].  The numbers are the finite ones; [costUsd] is
    a rational. *)
Module TaskState.
Record t : Type := mk {
  id : string;
  parentTaskId : option string;
  assigneeId : string;
  delegatorId : option string;
  prompt : string;
  context : option string;
  priority : Z;
  status : TaskStatus.t;
  tags : list TaskTag;
  result : option string;
  costUsd : option QArith_base.Q;
  durationMs : option Z;
  numTurns : option Z;
  createdAt : string;
  startedAt : option string;
  completedAt : option string
}.

(** [task.status = "running"; task.startedAt = now] *)
Definition start (task : t) (now : string) : t :=
  mk (id task) (parentTaskId task) (assigneeId task) (delegatorId task) (prompt task)
     (context task) (priority task) TaskStatus.running (tags task) (result task)
     (costUsd task) (durationMs task) (numTurns task) (createdAt task)
     (Some now) (completedAt task).

(** [task.status = status; task.result = result; task.completedAt = now] *)
Definition finish (task : t) (s : TaskStatus.t) (res : option string) (now : string) : t :=
  mk (id task) (parentTaskId task) (assigneeId task) (delegatorId task) (prompt task)
     (context task) (priority task) s (tags task) res
     (costUsd task) (durationMs task) (numTurns task) (createdAt task)
     (startedAt task) (Some now).

(** [if (costUsd !== undefined) task.costUsd = costUsd], and the same for
    [durationMs] and [numTurns]. *)
Definition setTelemetry (task : t) (cost : option QArith_base.Q) (duration turns : option Z) : t :=
  mk (id task) (parentTaskId task) (assigneeId task) (delegatorId task) (prompt task)
     (context task) (priority task) (status task) (tags task) (result task)
     (match cost with Some c => Some c | None => costUsd task end)
     (match duration with Some d => Some d | None => durationMs task end)
     (match turns with Some n => Some n | None => numTurns task end)
     (createdAt task) (startedAt task) (completedAt task).
End TaskState.

(** [interface Message] *)
Module Message.
Inductive kind : Type := direct | system | chat.
Inductive state : Type := pending | delivered | read.

#[global] Instance state_eq_dec : EqDecision state.
Proof. solve_decision. Defined.

Record t : Type := mk {
  id : string;
  fromAgentId : option string;
  toAgentId : string;
  threadId : string;
  subject : option string;
  body : string;
  type : kind;
  status : state;
  createdAt : string;
  readAt : option string
}.

(** [message.status = "read"; message.readAt = now] *)
Definition setRead (m : t) (now : string) : t :=
  mk (id m) (fromAgentId m) (toAgentId m) (threadId m) (subject m) (body m) (type m)
     read (createdAt m) (Some now).
End Message.

(** [interface BoardItem].  At run time [type] holds whatever string the
    front matter gave, or [undefined] ([None]) when it gave none: the cast
    [fields.type as BoardItemType] checks nothing. *)
Module BoardItem.
Record t : Type := mk {
  id : string;
  type : option string;
  author : string;
  summary : string;
  body : string;
  createdAt : string;
  path : string
}.
End BoardItem.

(** [BOARD_TYPE_TO_FOLDER[type]] ([None]: no such key). *)
Definition BOARD_TYPE_TO_FOLDER (type : string) : option string :=
  if String.eqb type "status_update" then Some "status-updates"
  else if String.eqb type "blocker" then Some "blockers"
  else if String.eqb type "finding" then Some "findings"
  else if String.eqb type "request" then Some "requests"
  else None.

(** [BOARD_ITEM_TYPES] *)
Module BoardItemType.
Inductive t : Type := status_update | blocker | finding | request.

Definition toString (x : t) : string :=
  match x with
  | status_update => "status_update"
  | blocker => "blocker"
  | finding => "finding"
  | request => "request"
  end.
End BoardItemType.

(** [KANBAN_COLUMNS] and [STATUS_TO_COLUMN] *)
Module KanbanColumn.
Inductive t : Type := backlog | in_progress | review | done.
End KanbanColumn.

Definition STATUS_TO_COLUMN (status : TaskStatus.t) : KanbanColumn.t :=
  match status with
  | TaskStatus.pending => KanbanColumn.backlog
  | TaskStatus.running => KanbanColumn.in_progress
  | TaskStatus.review => KanbanColumn.review
  | TaskStatus.completed => KanbanColumn.done
  | TaskStatus.failed => KanbanColumn.done
  | TaskStatus.blocked => KanbanColumn.backlog
  end.

(** [interface PendingResult] *)
Module PendingResult.
Record t : Type := mk { childTaskId : string; result : string }.
End PendingResult.

(** [interface OrgReport] *)
Module OrgReport.
Record t : Type := mk {
  name : string;
  role : string;
  status : AgentStatus.t;
  currentTask : option string
}.
End OrgReport.

(** [interface ManagerInfo] *)
Module ManagerInfo.
Record t : Type := mk { name : string; role : string; status : AgentStatus.t }.
End ManagerInfo.

(* ===================================================================== *)
(** * Files *)
(* ===================================================================== *)

(** A directory maps file names to contents.  [writeFile] creates or
    replaces a file; [rename] moves a file over its target. *)
Module Fs.
Section Dir.
Context {V : Type}.

Definition writeFile (name : string) (content : V) (dir : gmap string V) : gmap string V :=
  <[name := content]> dir.

Definition rename (from to : string) (dir : gmap string V) : gmap string V :=
  match dir !! from with
  | Some content => <[to := content]> (delete from dir)
  | None => dir
  end.

(** [const tmpPath = `${filePath}.tmp`; await writeFile(tmpPath, data);
    await rename(tmpPath, filePath)] *)
Definition writeAtomic (name : string) (content : V) (dir : gmap string V) : gmap string V :=
  let tmpPath := name +:+ ".tmp" in
  rename tmpPath name (writeFile tmpPath content dir).

(** [readdir(dir)]: the entries, in the order the map enumerates them. *)
Definition readdir (dir : gmap string V) : list string := (map_to_list dir).*1.

End Dir.

(** ** The sub-directories of a container

    A container of directories ([agents/], [messages/]) is a map from the
    path of each directory that [mkdir(join(container, key), { recursive:
    true })] made, relative to the container, to what the directory
    holds.  The entry of the container that such a path lies in or under
    is its first segment; the empty path is the container itself and has
    none.  Paths that [join] would normalise (a segment [.] or [..], an
    empty segment) are outside the model and are given no entry. *)
Definition firstSegment (key : string) : option string :=
  let segment :=
    match JS.breakOn "/" key with
    | Some (before, _) => before
    | None => key
    end in
  if String.eqb segment "" || String.eqb segment "." || String.eqb segment ".." then None
  else Some segment.

(** The path is one segment: it names an entry of the container itself. *)
Definition isEntryName (name : string) : bool :=
  bool_decide (firstSegment name = Some name).

(** [(await readdir(container, { withFileTypes: true })).filter(e =>
    e.isDirectory()).map(e => e.name)]: the entries of the container that
    are directories, each once. *)
Definition subdirs {V : Type} (dir : gmap string V) : list string :=
  remove_dups (omap firstSegment (readdir dir)).

(** Whether the path [key] is the path [name] or lies under it.  The
    empty path is the container itself: [join(container, "")] is
    [container], and every path lies under it. *)
Definition under (name key : string) : bool :=
  String.eqb name "" || String.eqb key name || JS.startsWith (name +:+ "/") key.

(** [rm(join(container, name), { recursive: true, force: true })]: the
    directory [name] goes with everything under it. *)
Definition rmRecursive {V : Type} (name : string) (dir : gmap string V) : gmap string V :=
  filter (fun entry => under name entry.1 = false) dir.

End Fs.

(** [Array.prototype.sort(compare)]: a stable sort; a comparator result
    [NaN] counts as [+0].  For a comparator that orders the elements
    consistently every stable sort returns the same array, here computed
    by insertion. *)
Module Sort.
Section Sort.
Context {A : Type} (compare : A -> A -> option Z).

Definition before (x y : A) : bool :=
  match compare x y with
  | Some v => (v <=? 0)%Z
  | None => true
  end.

Fixpoint insert (x : A) (l : list A) : list A :=
  match l with
  | [] => [x]
  | y :: l' => if before x y then x :: l else y :: insert x l'
  end.

Definition sort (l : list A) : list A := foldr insert [] l.
End Sort.

(** [(a, b) => new Date(a).getTime() - new Date(b).getTime()] on two date
    strings, [None] standing for [NaN]. *)
Definition timeDiff (getTime : string -> option Z) (a b : string) : option Z :=
  match getTime a, getTime b with
  | Some x, Some y => Some (x - y)%Z
  | _, _ => None
  end.
End Sort.

(* ===================================================================== *)
(** * Stores *)
(* ===================================================================== *)

(** storage/tasks.ts: the directory [tasks/]. *)
Module TaskStorage.

Abbreviation Dir := (gmap string TaskState.t).

Definition save (dir : Dir) (task : TaskState.t) : Dir :=
  Fs.writeAtomic (TaskState.id task +:+ ".json") task dir.

Definition get (dir : Dir) (id : string) : option TaskState.t :=
  dir !! (id +:+ ".json").

Record Filter : Type := mkFilter { assigneeId : option string; status : option string }.

(** The two [continue] tests on a task that was read. *)
Definition passes (filter : option Filter) (task : TaskState.t) : bool :=
  match filter with
  | None => true
  | Some f =>
      negb (JS.truthy (assigneeId f) &&
            negb (bool_decide (Some (TaskState.assigneeId task) = assigneeId f))) &&
      negb (JS.truthy (status f) &&
            negb (bool_decide (Some (TaskStatus.toString (TaskState.status task)) = status f)))
  end.

(** The body of the loop over the directory entries. *)
Definition visit (dir : Dir) (filter : option Filter) (tasks : list TaskState.t)
    (entry : string) : list TaskState.t :=
  if negb (JS.endsWith ".json" entry) || JS.endsWith ".tmp" entry then tasks
  else
    let id := JS.replaceFirst ".json" "" entry in
    match get dir id with
    | None => tasks
    | Some task => if passes filter task then tasks ++ [task] else tasks
    end.

(** [tasks.sort((a, b) => new Date(b.createdAt).getTime() -
    new Date(a.createdAt).getTime())] *)
Definition newestFirst (getTime : string -> option Z) (a b : TaskState.t) : option Z :=
  Sort.timeDiff getTime (TaskState.createdAt b) (TaskState.createdAt a).

Definition list (getTime : string -> option Z) (dir : Dir) (filter : option Filter)
    : list TaskState.t :=
  Sort.sort (newestFirst getTime) (fold_left (visit dir filter) (Fs.readdir dir) []).

Definition delete (dir : Dir) (id : string) : Dir :=
  base.delete (id +:+ ".json") dir.

End TaskStorage.

(** storage/agents.ts: the directory [agents/], one sub-directory per
    agent holding [config.json] and the mailbox [results/].  The directory
    of an agent is found under its name as the caller gives it: the name
    is a path below [agents/], of one segment for an agent that [list]
    returns.  A name that lies inside the [results/] of another (the name
    [results] beside the empty name, [a/results] beside [a]) would share
    files with that mailbox and is outside the model. *)
Module AgentStorage.

Record AgentDir : Type := mkAgentDir {
  config : option AgentConfig.t;
  results : gmap string string
}.

Abbreviation Dir := (gmap string AgentDir).

Definition emptyDir : AgentDir := mkAgentDir None ∅.

(** [mkdir(dir, { recursive: true })] *)
Definition ensureAgentDir (dir : Dir) (name : string) : Dir :=
  match dir !! name with
  | Some _ => dir
  | None => <[name := emptyDir]> dir
  end.

Definition agentDir (dir : Dir) (name : string) : AgentDir :=
  default emptyDir (dir !! name).

Definition save (dir : Dir) (agent : AgentConfig.t) : Dir :=
  let name := AgentConfig.name agent in
  <[name := mkAgentDir (Some agent) (results (agentDir dir name))]> dir.

Definition get (dir : Dir) (name : string) : option AgentConfig.t :=
  match dir !! name with
  | Some d => config d
  | None => None
  end.

(** The files of [agents/<name>/results/]. *)
Definition mailbox (dir : Dir) (name : string) : gmap string string :=
  results (agentDir dir name).

(** [delete(name)]: [rm(dir, { recursive: true, force: true })] removes the
    directory of the agent with its mailbox and with the directories of
    the agents filed under it, and is silent when there is none.  With the
    empty name the directory is [agents/] itself, and every agent goes. *)
Definition delete (dir : Dir) (name : string) : Dir := Fs.rmRecursive name dir.

(** [exists(name)]: [agent !== null]. *)
Definition exists_ (dir : Dir) (name : string) : bool :=
  match get dir name with
  | Some _ => true
  | None => false
  end.

(** [list()]: the configurations found in the sub-directories of
    [agents/], in the order [readdir] gives the directories.  Only the
    entries of [agents/] itself are visited: a configuration saved under
    the name [""] is the file [agents/config.json], and one saved under
    [a/b] lies a level below the entry [a]; [get] reads both, [list]
    returns neither. *)
Definition list (dir : Dir) : list AgentConfig.t :=
  fold_left
    (fun agents name =>
       match get dir name with
       | Some agent => agents ++ [agent]
       | None => agents
       end)
    (Fs.subdirs dir) [].

End AgentStorage.

(** storage/messages.ts: the directory [messages/], one sub-directory per
    thread. *)
Module MessageStorage.

Abbreviation Dir := (gmap string (gmap string Message.t)).

Definition threadDir (dir : Dir) (threadId : string) : gmap string Message.t :=
  default ∅ (dir !! threadId).

Definition save (dir : Dir) (message : Message.t) : Dir :=
  let threadId := Message.threadId message in
  <[threadId := Fs.writeAtomic (Message.id message +:+ ".json") message (threadDir dir threadId)]> dir.

Definition get (dir : Dir) (messageId threadId : string) : option Message.t :=
  match dir !! threadId with
  | Some thread => thread !! (messageId +:+ ".json")
  | None => None
  end.

Definition visit (dir : Dir) (threadId : string) (messages : list Message.t)
    (entry : string) : list Message.t :=
  if negb (JS.endsWith ".json" entry) || JS.endsWith ".tmp" entry then messages
  else
    match get dir (JS.replaceFirst ".json" "" entry) threadId with
    | Some msg => messages ++ [msg]
    | None => messages
    end.

(** [(a, b) => new Date(a.createdAt).getTime() -
    new Date(b.createdAt).getTime()] *)
Definition oldestFirst (getTime : string -> option Z) (a b : Message.t) : option Z :=
  Sort.timeDiff getTime (Message.createdAt a) (Message.createdAt b).

Definition listThread (getTime : string -> option Z) (dir : Dir) (threadId : string)
    : list Message.t :=
  match dir !! threadId with
  | None => []
  | Some thread =>
      Sort.sort (oldestFirst getTime) (fold_left (visit dir threadId) (Fs.readdir thread) [])
  end.

(** [listThreads()]: the sub-directories of [messages/].  A message saved
    with the thread id [""] lies in [messages/] itself, in no thread that
    is listed. *)
Definition listThreads (dir : Dir) : list string := Fs.subdirs dir.

Definition isUnreadFor (agentName : string) (msg : Message.t) : bool :=
  String.eqb (Message.toAgentId msg) agentName &&
  negb (bool_decide (Message.status msg = Message.read)).

Definition getUnread (getTime : string -> option Z) (dir : Dir) (agentName : string)
    : list Message.t :=
  Sort.sort (oldestFirst getTime)
    (fold_left
       (fun unread threadId =>
          unread ++ List.filter (isUnreadFor agentName) (listThread getTime dir threadId))
       (listThreads dir) []).

Definition markRead (dir : Dir) (messageId threadId : string) (now : Date.t) : Dir :=
  match get dir messageId threadId with
  | None => dir
  | Some message => save dir (Message.setRead message (Date.toISOString now))
  end.

End MessageStorage.

(** storage/board.ts: the directory [board/], one folder per item type,
    one markdown file per item. *)
Module BoardStorage.

Record t : Type := mk {
  boardDir : string;
  folders : gmap string (gmap string string)
}.

Definition toMarkdown (item : BoardItem.t) : string :=
  let frontmatter :=
    JS.joinLines
      ["---";
       "id: " +:+ BoardItem.id item;
       "type: " +:+ default "undefined" (BoardItem.type item);
       "author: " +:+ BoardItem.author item;
       "summary: " +:+ BoardItem.summary item;
       "createdAt: " +:+ BoardItem.createdAt item;
       "---"] in
  frontmatter +:+ JS.nl +:+ JS.nl +:+ BoardItem.body item +:+ JS.nl.

(** The two groups of the regular expression of [fromMarkdown], which is
    anchored at both ends: an opening line of three hyphens, a first group
    that matches lazily up to a closing line of three hyphens, one optional
    line feed, and a second group that takes the rest.  The first group is
    the text before the first closing line. *)
Definition matchDocument (content : string) : option (string * string) :=
  if JS.startsWith ("---" +:+ JS.nl) content then
    match JS.breakOn (JS.nl +:+ "---" +:+ JS.nl) (JS.drop 4 content) with
    | Some (frontmatter, rest) =>
        Some (frontmatter, if JS.startsWith JS.nl rest then JS.drop 1 rest else rest)
    | None => None
    end
  else None.

(** The loop over the front matter lines. *)
Definition readField (fields : gmap string string) (line : string) : gmap string string :=
  match JS.breakOn ":" line with
  | None => fields
  | Some (key, value) => <[JS.trim key := JS.trim value]> fields
  end.

Definition fromMarkdown (content filePath : string) : option BoardItem.t :=
  match matchDocument content with
  | None => None
  | Some (frontmatter, rest) =>
      if String.eqb frontmatter "" then None
      else
        let body := JS.trimEnd rest in
        let fields := fold_left readField (JS.splitLines frontmatter) ∅ in
        Some (BoardItem.mk
                (default "" (fields !! "id"))
                (fields !! "type")
                (default "" (fields !! "author"))
                (default "" (fields !! "summary"))
                body
                (default "" (fields !! "createdAt"))
                filePath)
  end.

Definition folderDir (s : t) (folder : string) : gmap string string :=
  default ∅ (folders s !! folder).

(** [save]; [None] when [BOARD_TYPE_TO_FOLDER[item.type]] is undefined and
    [join] throws. *)
Definition save (s : t) (item : BoardItem.t) : option t :=
  match BoardItem.type item ≫= BOARD_TYPE_TO_FOLDER with
  | None => None
  | Some folder =>
      Some (mk (boardDir s)
              (<[folder := Fs.writeAtomic (BoardItem.id item +:+ ".md") (toMarkdown item)
                             (folderDir s folder)]> (folders s)))
  end.

Definition get (s : t) (type id : string) : option BoardItem.t :=
  match BOARD_TYPE_TO_FOLDER type with
  | None => None
  | Some folder =>
      let filePath := JS.pathJoin (JS.pathJoin (boardDir s) folder) (id +:+ ".md") in
      match folders s !! folder with
      | None => None
      | Some dir =>
          match dir !! (id +:+ ".md") with
          | None => None
          | Some content => fromMarkdown content filePath
          end
      end
  end.

(** The argument of [list]. *)
Record Filter : Type := mkFilter {
  type : option string;
  author : option string;
  limit : option Z
}.

(** [Object.keys(BOARD_TYPE_TO_FOLDER)], in the order of the literal. *)
Definition BOARD_TYPES : list string := ["status_update"; "blocker"; "finding"; "request"].

(** The body of the loop over the entries of one folder. *)
Definition visit (s : t) (filter : option Filter) (type : string)
    (items : list BoardItem.t) (entry : string) : list BoardItem.t :=
  if negb (JS.endsWith ".md" entry) then items
  else
    match get s type (JS.replaceFirst ".md" "" entry) with
    | None => items
    | Some item =>
        if JS.truthy (filter ≫= author) &&
           negb (bool_decide (Some (BoardItem.author item) = filter ≫= author))
        then items
        else items ++ [item]
    end.

(** The body of the loop over the types; [None] once [join] has thrown on
    an undefined folder.  A folder that does not exist is skipped. *)
Definition visitType (s : t) (filter : option Filter)
    (acc : option (list BoardItem.t)) (type : string) : option (list BoardItem.t) :=
  match acc with
  | None => None
  | Some items =>
      match BOARD_TYPE_TO_FOLDER type with
      | None => None
      | Some folder =>
          match folders s !! folder with
          | None => Some items
          | Some dir => Some (fold_left (visit s filter type) (Fs.readdir dir) items)
          end
      end
  end.

(** [(a, b) => new Date(b.createdAt).getTime() -
    new Date(a.createdAt).getTime()] *)
Definition newestFirst (getTime : string -> option Z) (a b : BoardItem.t) : option Z :=
  Sort.timeDiff getTime (BoardItem.createdAt b) (BoardItem.createdAt a).

(** [list(filter)]; [None] when it throws. *)
Definition list (getTime : string -> option Z) (s : t) (filter : option Filter)
    : option (list BoardItem.t) :=
  let types :=
    match filter ≫= type with
    | Some ty => if JS.truthy (Some ty) then [ty] else BOARD_TYPES
    | None => BOARD_TYPES
    end in
  match fold_left (visitType s filter) types (Some []) with
  | None => None
  | Some items =>
      let items := Sort.sort (newestFirst getTime) items in
      match filter ≫= limit with
      | Some n => if (n =? 0)%Z then Some items else Some (JS.sliceTo n items)
      | None => Some items
      end
  end.

End BoardStorage.

(* ===================================================================== *)
(** * Delegation flow (delegation-flow.ts) *)
(* ===================================================================== *)

Module DelegationFlow.

(** [now.toISOString().replace(/[:.]/g, "-")] *)
Definition stamp (now : Date.t) : string :=
  JS.mapChars
    (fun c => if Ascii.eqb c ":" || Ascii.eqb c "." then "-"%char else c)
    (Date.toISOString now).

Definition fileName (now : Date.t) (childTaskId : string) : string :=
  stamp now +:+ "-" +:+ childTaskId +:+ ".md".

Definition noResult : string := "(no result provided)".

(** [childResult?.trim() ?? "(no result provided)"] *)
Definition resultText (childResult : option string) : string :=
  match childResult with
  | Some r => JS.trim r
  | None => noResult
  end.

Definition body (now : Date.t) (childTaskId : string) (childResult : option string)
    (childStatus : string) : string :=
  "# Child Task Result" +:+ JS.nl +:+
  JS.nl +:+
  "**Task ID**: " +:+ childTaskId +:+ JS.nl +:+
  "**Status**: " +:+ childStatus +:+ JS.nl +:+
  "**Completed**: " +:+ Date.toISOString now +:+ JS.nl +:+
  JS.nl +:+
  "---" +:+ JS.nl +:+
  JS.nl +:+
  resultText childResult +:+ JS.nl.

(** [handleChildCompletion(basePath, childTaskId, childResult, childStatus,
    parentTaskId, parentAgentName)] on the directory [agents/] of
    [basePath], [now] being its [new Date()]. *)
Definition handleChildCompletion (agents : AgentStorage.Dir) (now : Date.t)
    (childTaskId : string) (childResult : option string) (childStatus : string)
    (parentTaskId : string) (parentAgentName : string) : AgentStorage.Dir :=
  let parentDir := AgentStorage.agentDir agents parentAgentName in
  <[parentAgentName :=
      AgentStorage.mkAgentDir (AgentStorage.config parentDir)
        (Fs.writeAtomic (fileName now childTaskId)
           (body now childTaskId childResult childStatus)
           (AgentStorage.results parentDir))]> agents.

End DelegationFlow.

(* ===================================================================== *)
(** * Engine (engine.ts) and the finish_task tool *)
(* ===================================================================== *)

Module Engine.

(** What lives under [basePath]. *)
Record Workspace : Type := mkWorkspace {
  agents : AgentStorage.Dir;
  tasks : TaskStorage.Dir;
  messages : MessageStorage.Dir;
  board : gmap string (gmap string string);
  org : OrgStorage.Store
}.

(** [interface RunningAgent], without the abort handle. *)
Record RunningAgent : Type := mkRunningAgent {
  name : string;
  taskId : string;
  startedAt : Date.t
}.

(** The events the engine emits, in the order of emission. *)
Inductive Event : Type :=
| agent_status_changed (agentName : string) (status : AgentStatus.t)
| task_status_changed (taskId : string) (status : TaskStatus.t)
| task_created (taskId assignee : string) (delegator : option string).

Record State : Type := mkState {
  workspace : Workspace;
  runningAgents : gmap string RunningAgent;
  concurrencyLimit : Z;
  emitted : list Event
}.

Definition DEFAULT_CONCURRENCY_LIMIT : Z := 3.

(** [new OrchestrationEngine(basePath)] *)
Definition create (ws : Workspace) : State :=
  mkState ws ∅ DEFAULT_CONCURRENCY_LIMIT [].

Inductive Error : Type :=
| ConcurrencyLimitReached (limit : Z) (agentName : string).

Inductive Result (A : Type) : Type :=
| Ok (a : A)
| Throw (e : Error).
Arguments Ok {A} a.
Arguments Throw {A} e.

(** A method of the engine: it returns or throws, and leaves a state. *)
Definition M (A : Type) : Type := State -> Result A * State.

Definition ret {A} (a : A) : M A := fun st => (Ok a, st).

Definition bind {A B} (m : M A) (k : A -> M B) : M B :=
  fun st =>
    match m st with
    | (Ok a, st') => k a st'
    | (Throw e, st') => (Throw e, st')
    end.

Definition throw {A} (e : Error) : M A := fun st => (Throw e, st).

Definition gets {A} (f : State -> A) : M A := fun st => (Ok (f st), st).

Definition modify (f : State -> State) : M unit := fun st => (Ok tt, f st).

Notation "x <- m ;; k" := (bind m (fun x => k))
  (at level 100, m at next level, right associativity).
Notation "m ;;; k" := (bind m (fun _ => k))
  (at level 100, right associativity).

Definition setAgents (f : AgentStorage.Dir -> AgentStorage.Dir) (st : State) : State :=
  let ws := workspace st in
  mkState (mkWorkspace (f (agents ws)) (tasks ws) (messages ws) (board ws) (org ws))
    (runningAgents st) (concurrencyLimit st) (emitted st).

Definition setTasks (f : TaskStorage.Dir -> TaskStorage.Dir) (st : State) : State :=
  let ws := workspace st in
  mkState (mkWorkspace (agents ws) (f (tasks ws)) (messages ws) (board ws) (org ws))
    (runningAgents st) (concurrencyLimit st) (emitted st).

Definition setRunning (f : gmap string RunningAgent -> gmap string RunningAgent)
    (st : State) : State :=
  mkState (workspace st) (f (runningAgents st)) (concurrencyLimit st) (emitted st).

(** [this.emit(event, payload)] *)
Definition emit (e : Event) : M unit :=
  modify (fun st =>
            mkState (workspace st) (runningAgents st) (concurrencyLimit st)
              (emitted st ++ [e])).

Definition saveAgent (agent : AgentConfig.t) : M unit :=
  modify (setAgents (fun dir => AgentStorage.save dir agent)).

Definition saveTask (task : TaskState.t) : M unit :=
  modify (setTasks (fun dir => TaskStorage.save dir task)).

Definition getTask (id : string) : M (option TaskState.t) :=
  gets (fun st => TaskStorage.get (tasks (workspace st)) id).

Definition getAgent (name : string) : M (option AgentConfig.t) :=
  gets (fun st => AgentStorage.get (agents (workspace st)) name).

(** [setConcurrencyLimit(limit)] *)
Definition setConcurrencyLimit (limit : Z) : M unit :=
  modify (fun st => mkState (workspace st) (runningAgents st) limit (emitted st)).

Definition getRunningAgentCount (st : State) : nat := size (runningAgents st).

Definition isAgentRunning (st : State) (agentName : string) : bool :=
  bool_decide (is_Some (runningAgents st !! agentName)).

(** [interface SpawnOptions] *)
Record SpawnOptions : Type := mkSpawnOptions {
  agentConfig : AgentConfig.t;
  task : TaskState.t
}.

(** The three [new Date()] of [spawnAgent], in program order. *)
Record SpawnClock : Type := mkSpawnClock {
  agentUpdatedAt : Date.t;
  taskStartedAt : Date.t;
  trackedAt : Date.t
}.

(** [spawnAgent(options)].  Between the second event and the registration
    the method reads the org tree, the mailbox, the context file and the
    board to build a prompt and a tool server that it then drops; these
    reads write nothing and are left out. *)
Definition spawnAgent (options : SpawnOptions) (clock : SpawnClock) : M string :=
  let agentConfig := agentConfig options in
  let task := task options in
  running <- gets runningAgents ;;
  limit <- gets concurrencyLimit ;;
  if (Z.of_nat (size running) >=? limit)%Z then
    throw (ConcurrencyLimitReached limit (AgentConfig.name agentConfig))
  else
    saveAgent (AgentConfig.setRun agentConfig AgentStatus.running
                 (Some (TaskState.id task))
                 (Date.toISOString (agentUpdatedAt clock))) ;;;
    emit (agent_status_changed (AgentConfig.name agentConfig) AgentStatus.running) ;;;
    saveTask (TaskState.start task (Date.toISOString (taskStartedAt clock))) ;;;
    emit (task_status_changed (TaskState.id task) TaskStatus.running) ;;;
    modify (setRunning
              (fun r => <[AgentConfig.name agentConfig :=
                            mkRunningAgent (AgentConfig.name agentConfig)
                              (TaskState.id task) (trackedAt clock)]> r)) ;;;
    ret (TaskState.id task).

(** The delegation block shared by [completeAgent] and [finish_task]:
    [if (task.parentTaskId && task.delegatorId) { const parentTask = await
    tasks.get(task.parentTaskId); if (parentTask) await
    handleChildCompletion(...) }]. *)
Definition deliver (task : TaskState.t) (now : Date.t) (taskId : string)
    (result : option string) (status : FinalStatus.t) : M unit :=
  if JS.truthy (TaskState.parentTaskId task) && JS.truthy (TaskState.delegatorId task) then
    let parentTaskId := default "" (TaskState.parentTaskId task) in
    parentTask <- getTask parentTaskId ;;
    match parentTask with
    | Some parent =>
        modify (setAgents (fun dir =>
          DelegationFlow.handleChildCompletion dir now taskId result
            (TaskStatus.toString (FinalStatus.toStatus status))
            parentTaskId (TaskState.assigneeId parent)))
    | None => ret tt
    end
  else ret tt.

(** The three [new Date()] that [completeAgent] may reach. *)
Record CompleteClock : Type := mkCompleteClock {
  completedAt : Date.t;
  deliveredAt : Date.t;
  agentResetAt : Date.t
}.

(** [completeAgent(agentName, taskId, status, result, costUsd?,
    durationMs?, numTurns?)] *)
Definition completeAgent (agentName taskId : string) (status : FinalStatus.t)
    (result : option string) (costUsd : option QArith_base.Q)
    (durationMs numTurns : option Z) (clock : CompleteClock) : M unit :=
  found <- getTask taskId ;;
  match found with
  | Some task =>
      let task :=
        TaskState.setTelemetry
          (TaskState.finish task (FinalStatus.toStatus status) result
             (Date.toISOString (completedAt clock)))
          costUsd durationMs numTurns in
      saveTask task ;;;
      emit (task_status_changed taskId (FinalStatus.toStatus status)) ;;;
      deliver task (deliveredAt clock) taskId result status
  | None => ret tt
  end ;;;
  agent <- getAgent agentName ;;
  match agent with
  | Some agent =>
      saveAgent (AgentConfig.setRun agent AgentStatus.idle None
                   (Date.toISOString (agentResetAt clock))) ;;;
      emit (agent_status_changed agentName AgentStatus.idle)
  | None => ret tt
  end ;;;
  modify (setRunning (fun r => delete agentName r)).

(** The two [new Date()] that [finish_task] may reach. *)
Record FinishClock : Type := mkFinishClock {
  finishedAt : Date.t;
  resultDeliveredAt : Date.t
}.

(** The handler of the [finish_task] tool of mcp/tools/finish-task.ts for
    the task [deps.taskId]; it returns the text of its answer. *)
Definition finish_task (depsTaskId : string) (status : FinalStatus.t) (result : string)
    (clock : FinishClock) : M string :=
  found <- getTask depsTaskId ;;
  match found with
  | None => ret ("Unknown task: " +:+ depsTaskId)
  | Some task =>
      let task :=
        TaskState.finish task (FinalStatus.toStatus status) (Some result)
          (Date.toISOString (finishedAt clock)) in
      saveTask task ;;;
      emit (task_status_changed depsTaskId (FinalStatus.toStatus status)) ;;;
      deliver task (resultDeliveredAt clock) depsTaskId (Some result) status ;;;
      ret ("Task " +:+ depsTaskId +:+ " marked as " +:+
           TaskStatus.toString (FinalStatus.toStatus status) +:+ ".")
  end.

(** [createTask(assigneeName, prompt, context, delegatorName, parentTaskId,
    priority)], [id] being the [randomUUID()] and [now] the [new Date()]. *)
Definition createTask (id : string) (now : Date.t) (assigneeName prompt : string)
    (context delegatorName parentTaskId : option string) (priority : Z)
    : M TaskState.t :=
  let task :=
    TaskState.mk id parentTaskId assigneeName delegatorName prompt context priority
      TaskStatus.pending [] None None None None (Date.toISOString now) None None in
  saveTask task ;;;
  emit (task_created id assigneeName delegatorName) ;;;
  ret task.

(** The operations that move a task through its life cycle. *)
Inductive Op : Type :=
| SpawnAgent (options : SpawnOptions) (clock : SpawnClock)
| CompleteAgent (agentName taskId : string) (status : FinalStatus.t)
    (result : option string) (costUsd : option QArith_base.Q)
    (durationMs numTurns : option Z) (clock : CompleteClock)
| FinishTask (depsTaskId : string) (status : FinalStatus.t) (result : string)
    (clock : FinishClock).

(** The state an operation leaves, whether it returned or threw. *)
Definition step (st : State) (op : Op) : State :=
  match op with
  | SpawnAgent options clock => snd (spawnAgent options clock st)
  | CompleteAgent agentName taskId status result costUsd durationMs numTurns clock =>
      snd (completeAgent agentName taskId status result costUsd durationMs numTurns clock st)
  | FinishTask depsTaskId status result clock =>
      snd (finish_task depsTaskId status result clock st)
  end.

Definition run (st : State) (ops : list Op) : State := fold_left step ops st.

(** ** The private helpers that read the workspace for the prompt *)

(** [getOrgReports(agentName)] *)
Definition getOrgReports (ws : Workspace) (agentName : string) : list OrgReport.t :=
  fold_left
    (fun reports child =>
       match AgentStorage.get (agents ws) (OrgStorage.agentName child) with
       | Some agent =>
           reports ++ [OrgReport.mk (AgentConfig.name agent) (AgentConfig.role agent)
                         (AgentConfig.status agent) (AgentConfig.currentTaskId agent)]
       | None => reports
       end)
    (OrgStorage.getChildren (org ws) agentName) [].

(** [getManager(agentName)] *)
Definition getManager (ws : Workspace) (agentName : string) : option ManagerInfo.t :=
  let parentName := OrgStorage.getParent (org ws) agentName in
  if negb (JS.truthy parentName) then None
  else
    match AgentStorage.get (agents ws) (default "" parentName) with
    | None => None
    | Some parent =>
        Some (ManagerInfo.mk (AgentConfig.displayName parent) (AgentConfig.role parent)
                (AgentConfig.status parent))
    end.

(** The character class [[a-f0-9-]]. *)
Definition isHexOrHyphen (c : ascii) : bool :=
  let n := nat_of_ascii c in
  (Nat.leb 97 n && Nat.leb n 102) || (Nat.leb 48 n && Nat.leb n 57) || Nat.eqb n 45.

(** The group of [([a-f0-9-]+)\.md$] when the expression matches at the
    start of [s]: [s] is one or more characters of the class followed by
    [.md] and the end of the string. *)
Fixpoint hexGroup (s : string) : option string :=
  match s with
  | EmptyString => None
  | String c s' =>
      if isHexOrHyphen c then
        if String.eqb s' ".md" then Some (String c EmptyString)
        else
          match hexGroup s' with
          | Some w => Some (String c w)
          | None => None
          end
      else None
  end.

(** [entry.match(/-([a-f0-9-]+)\.md$/)?.[1]]: the group of the leftmost
    match. *)
Fixpoint taskIdMatch (entry : string) : option string :=
  match entry with
  | EmptyString => None
  | String c rest =>
      match (if Ascii.eqb c "-" then hexGroup rest else None) with
      | Some w => Some w
      | None => taskIdMatch rest
      end
  end.

(** [getPendingResults(agentName)]: one result per [.md] file of the
    mailbox, in the order of [readdir]; a mailbox that does not exist
    gives none. *)
Definition getPendingResults (ws : Workspace) (agentName : string) : list PendingResult.t :=
  let resultsDir := AgentStorage.mailbox (agents ws) agentName in
  fold_left
    (fun results entry =>
       if negb (JS.endsWith ".md" entry) then results
       else
         match resultsDir !! entry with
         | Some content =>
             results ++ [PendingResult.mk (default entry (taskIdMatch entry)) content]
         | None => results
         end)
    (Fs.readdir resultsDir) [].

(** [getRecentBoardItems()]: the [type], [author], [summary] and
    [createdAt] of [board.list({ limit: 5 })]. *)
Definition getRecentBoardItems (getTime : string -> option Z) (basePath : string)
    (ws : Workspace) : option (list (option string * string * string * string)) :=
  match
    BoardStorage.list getTime
      (BoardStorage.mk (JS.pathJoin basePath "board") (board ws))
      (Some (BoardStorage.mkFilter None None (Some 5%Z)))
  with
  | None => None
  | Some items =>
      Some (map (fun item =>
                   (BoardItem.type item, BoardItem.author item, BoardItem.summary item,
                    BoardItem.createdAt item))
              items)
  end.

End Engine.

(* ===================================================================== *)
(** * Event bus (events.ts) *)
(* ===================================================================== *)

(** Handlers are functions, told apart by identity.  The [Map] from event
    names to [Set]s of handlers holds references: a [Set] is an object
    that [on] and the unsubscribe functions change in place, also while
    [emit] iterates over it, and that stays what it is when
    [removeAllListeners] empties the [Map]. *)
Module EventBus.

(** What a call of a handler, or of [emit], comes to: it returns, or it
    throws. *)
Inductive Outcome (Error : Type) : Type :=
| Returned
| Threw (error : Error).
Arguments Returned {Error}.
Arguments Threw {Error} error.

(** ** A [Set] of handlers

    The entries of a [Set] in insertion order.  [set.delete] leaves a
    hole where the entry was, so that an iteration that is under way
    keeps its place; [set.add] appends. *)
Abbreviation Entries Handler := (list (option Handler)).

Section Bus.
Context {Handler : Type} `{EqDecision Handler}.

(** The elements of the set, in insertion order. *)
Definition elements (set : Entries Handler) : list Handler := omap id set.

(** [set.add(handler)] *)
Definition setAdd (handler : Handler) (set : Entries Handler) : Entries Handler :=
  if bool_decide (handler ∈ elements set) then set else set ++ [Some handler].

(** [set.delete(handler)] *)
Definition setDelete (handler : Handler) (set : Entries Handler) : Entries Handler :=
  map (fun entry => if bool_decide (entry = Some handler) then None else entry) set.

(** [set.size] *)
Definition size (set : Entries Handler) : nat := length (elements set).

(** ** The bus

    [handlers] is the [Map] of the class, from an event name to the
    reference of a [Set]; [objects] holds the [Set]s made so far, and
    [allocated] is the reference of the next one. *)
Record t : Type := mk {
  handlers : gmap string nat;
  objects : gmap nat (Entries Handler);
  allocated : nat
}.

(** [new EventBus()] *)
Definition new : t := mk ∅ ∅ 0.

(** The [Set] behind a reference. *)
Definition setOf (bus : t) (ref : nat) : Entries Handler := default [] (objects bus !! ref).

(** [on(event, handler)], as far as the bus is concerned; the function it
    returns is [off event handler]. *)
Definition on (bus : t) (event : string) (handler : Handler) : t :=
  match handlers bus !! event with
  | Some existing =>
      mk (<[event := existing]> (handlers bus))
         (<[existing := setAdd handler (setOf bus existing)]> (objects bus))
         (allocated bus)
  | None =>
      let existing := allocated bus in
      mk (<[event := existing]> (handlers bus))
         (<[existing := setAdd handler []]> (objects bus))
         (S existing)
  end.

(** The function [on(event, handler)] returns. *)
Definition off (bus : t) (event : string) (handler : Handler) : t :=
  match handlers bus !! event with
  | None => bus
  | Some set =>
      let entries := setDelete handler (setOf bus set) in
      let objects := <[set := entries]> (objects bus) in
      if Nat.eqb (size entries) 0
      then mk (delete event (handlers bus)) objects (allocated bus)
      else mk (handlers bus) objects (allocated bus)
  end.

(** [removeAllListeners()]: [this.handlers.clear()] empties the [Map] and
    leaves the [Set]s as they are. *)
Definition removeAllListeners (bus : t) : t := mk ∅ (objects bus) (allocated bus).

(** The entries of the [Set] of an event. *)
Definition entries (bus : t) (event : string) : Entries Handler :=
  match handlers bus !! event with
  | Some set => setOf bus set
  | None => []
  end.

(** The handlers subscribed to an event, in the order of their
    subscription. *)
Definition subscribed (bus : t) (event : string) : list Handler :=
  elements (entries bus event).

(** ** emit

    A handler is code of the subscriber.  [call handler payload bus] is
    what calling it comes to: whether it returns or throws, and the bus it
    leaves, which differs from [bus] when the handler subscribes,
    unsubscribes or emits in turn. *)
Section Emit.
Context {Payload Error : Type}.
Variable call : Handler -> Payload -> t -> Outcome Error * t.

(** What [emit] comes to: its outcome, the bus it leaves and the calls it
    made, in order. *)
Record Emitted : Type := mkEmitted {
  outcome : Outcome Error;
  after : t;
  calls : list (Handler * Payload)
}.

(** [for (const handler of set) { handler(payload) }] from position
    [index] on.  The iteration reads the [Set] anew at every step: it skips
    the holes, reaches the entries added meanwhile and ends at the end of
    the entries or at the first handler that throws.  [fuel] bounds the
    number of steps; [None] is an iteration that needs more. *)
Fixpoint iterate (fuel : nat) (set index : nat) (payload : Payload) (bus : t)
    (made : list (Handler * Payload)) : option Emitted :=
  match fuel with
  | O => None
  | S fuel =>
      match setOf bus set !! index with
      | None => Some (mkEmitted Returned bus made)
      | Some None => iterate fuel set (S index) payload bus made
      | Some (Some handler) =>
          match call handler payload bus with
          | (Threw error, bus) => Some (mkEmitted (Threw error) bus (made ++ [(handler, payload)]))
          | (Returned, bus) => iterate fuel set (S index) payload bus (made ++ [(handler, payload)])
          end
      end
  end.

(** [emit(event, payload)] *)
Definition emit (fuel : nat) (bus : t) (event : string) (payload : Payload)
    : option Emitted :=
  match handlers bus !! event with
  | None => Some (mkEmitted Returned bus [])
  | Some set => iterate fuel set 0 payload bus []
  end.

End Emit.

(** Histories of calls that change the bus. *)
Inductive Op : Type :=
| On (event : string) (handler : Handler)
| Off (event : string) (handler : Handler)
| RemoveAllListeners.

Definition step (bus : t) (op : Op) : t :=
  match op with
  | On event handler => on bus event handler
  | Off event handler => off bus event handler
  | RemoveAllListeners => removeAllListeners bus
  end.

Definition run (bus : t) (ops : list Op) : t := fold_left step ops bus.

End Bus.
Arguments t Handler : clear implicits.
Arguments Op Handler : clear implicits.
Arguments Emitted Handler Payload Error : clear implicits.

End EventBus.

(* ===================================================================== *)
(** * The tools of the orchestration server (mcp/tools) *)
(* ===================================================================== *)

(** A handler reads and writes the workspace under [deps.basePath] and
    passes events to [deps.emit]; it returns a text.  A text made with
    [JSON.stringify] is represented by the value it prints.  Every
    [randomUUID()] and [new Date()] is an argument. *)
Module Tools.

(** [interface McpToolDeps], without [emit]. *)
Record Deps : Type := mkDeps {
  basePath : string;
  agentName : string;
  taskId : string
}.

(** The events the handlers emit, with their payloads. *)
Inductive Event : Type :=
| agent_created (name : string)
| agent_updated (name : string)
| agent_deleted (name : string)
| org_changed
| task_created (id assignee delegator : string)
| message_created (messageId from to threadId : string)
| board_item_created (itemType author path : string).

(** What a handler answers: a text, a printed value, or the text of its
    [catch] branch. *)
Inductive Reply (A : Type) : Type :=
| Text (text : string)
| Json (value : A)
| Failed (tool : string).
Arguments Text {A} text.
Arguments Json {A} value.
Arguments Failed {A} tool.

Record Outcome (A : Type) : Type := mkOutcome {
  reply : Reply A;
  disk : Engine.Workspace;
  emitted : list Event
}.
Arguments mkOutcome {A} reply disk emitted.
Arguments reply {A} o.
Arguments disk {A} o.
Arguments emitted {A} o.

Definition withAgents (ws : Engine.Workspace) (dir : AgentStorage.Dir) : Engine.Workspace :=
  Engine.mkWorkspace dir (Engine.tasks ws) (Engine.messages ws) (Engine.board ws)
    (Engine.org ws).

Definition withTasks (ws : Engine.Workspace) (dir : TaskStorage.Dir) : Engine.Workspace :=
  Engine.mkWorkspace (Engine.agents ws) dir (Engine.messages ws) (Engine.board ws)
    (Engine.org ws).

Definition withMessages (ws : Engine.Workspace) (dir : MessageStorage.Dir)
    : Engine.Workspace :=
  Engine.mkWorkspace (Engine.agents ws) (Engine.tasks ws) dir (Engine.board ws)
    (Engine.org ws).

Definition withBoard (ws : Engine.Workspace) (folders : gmap string (gmap string string))
    : Engine.Workspace :=
  Engine.mkWorkspace (Engine.agents ws) (Engine.tasks ws) (Engine.messages ws) folders
    (Engine.org ws).

Definition withOrg (ws : Engine.Workspace) (store : OrgStorage.Store) : Engine.Workspace :=
  Engine.mkWorkspace (Engine.agents ws) (Engine.tasks ws) (Engine.messages ws)
    (Engine.board ws) store.

(** [new BoardStorage(deps.basePath)] on the workspace. *)
Definition boardOf (deps : Deps) (ws : Engine.Workspace) : BoardStorage.t :=
  BoardStorage.mk (JS.pathJoin (basePath deps) "board") (Engine.board ws).

(** ** create_agent (mcp/tools/create-agent.ts) *)

Module CreateAgentArgs.
Record t : Type := mk {
  name : string;
  displayName : string;
  role : string;
  department : string;
  level : AgentLevel.t;
  personality : option string
}.
End CreateAgentArgs.

Definition create_agent (deps : Deps) (args : CreateAgentArgs.t) (now : Date.t)
    (ws : Engine.Workspace) : Outcome (string * string) :=
  let name := CreateAgentArgs.name args in
  match AgentStorage.get (Engine.agents ws) name with
  | Some _ => mkOutcome (Text ("Agent already exists: " +:+ name)) ws []
  | None =>
      let agent :=
        AgentConfig.mk name (CreateAgentArgs.displayName args) (CreateAgentArgs.role args)
          (CreateAgentArgs.department args) (CreateAgentArgs.level args)
          (default "" (CreateAgentArgs.personality args))
          AgentStatus.idle None None (Date.toISOString now) (Date.toISOString now) in
      let dir := AgentStorage.save (Engine.agents ws) agent in
      let dir := AgentStorage.ensureAgentDir dir name in
      mkOutcome (Json (AgentConfig.name agent, AgentConfig.displayName agent))
        (withAgents ws dir) [agent_created name]
  end.

(** ** update_agent (mcp/tools/update-agent.ts) *)

Module UpdateAgentArgs.
Record t : Type := mk {
  agentName : string;
  displayName : option string;
  role : option string;
  department : option string;
  personality : option string
}.
End UpdateAgentArgs.

Definition update_agent (deps : Deps) (args : UpdateAgentArgs.t) (now : Date.t)
    (ws : Engine.Workspace) : Outcome unit :=
  let agentName := UpdateAgentArgs.agentName args in
  match AgentStorage.get (Engine.agents ws) agentName with
  | None => mkOutcome (Text ("Unknown agent: " +:+ agentName)) ws []
  | Some agent =>
      let changed :=
        bool_decide (is_Some (UpdateAgentArgs.displayName args)) ||
        bool_decide (is_Some (UpdateAgentArgs.role args)) ||
        bool_decide (is_Some (UpdateAgentArgs.department args)) ||
        bool_decide (is_Some (UpdateAgentArgs.personality args)) in
      if negb changed then mkOutcome (Text "No fields to update.") ws []
      else
        let agent :=
          AgentConfig.mk (AgentConfig.name agent)
            (default (AgentConfig.displayName agent) (UpdateAgentArgs.displayName args))
            (default (AgentConfig.role agent) (UpdateAgentArgs.role args))
            (default (AgentConfig.department agent) (UpdateAgentArgs.department args))
            (AgentConfig.level agent)
            (default (AgentConfig.personality agent) (UpdateAgentArgs.personality args))
            (AgentConfig.status agent) (AgentConfig.currentTaskId agent)
            (AgentConfig.avatarColor agent) (AgentConfig.createdAt agent)
            (Date.toISOString now) in
        mkOutcome (Text ("Agent " +:+ agentName +:+ " updated."))
          (withAgents ws (AgentStorage.save (Engine.agents ws) agent))
          [agent_updated agentName]
  end.

(** ** delete_agent (mcp/tools/delete-agent.ts) *)

Definition delete_agent (deps : Deps) (agentName : string) (ws : Engine.Workspace)
    : Outcome unit :=
  match AgentStorage.get (Engine.agents ws) agentName with
  | None => mkOutcome (Text ("Unknown agent: " +:+ agentName)) ws []
  | Some agent =>
      if bool_decide (AgentConfig.status agent = AgentStatus.running) then
        mkOutcome
          (Text ("Cannot delete agent " +:+ agentName +:+ ": currently running task " +:+
                 default "null" (AgentConfig.currentTaskId agent) +:+ ". " +:+
                 "Wait for the task to complete or cancel it first."))
          ws []
      else
        let ws := withAgents ws (AgentStorage.delete (Engine.agents ws) agentName) in
        let ws := withOrg ws (OrgStorage.removeAgent (Engine.org ws) agentName) in
        mkOutcome (Text ("Agent " +:+ agentName +:+ " deleted.")) ws
          [agent_deleted agentName]
  end.

(** ** set_org_parent (mcp/tools/set-org-parent.ts) *)

Definition set_org_parent (deps : Deps) (agentName : string)
    (parentAgentName : option string) (ws : Engine.Workspace) : Outcome unit :=
  match AgentStorage.get (Engine.agents ws) agentName with
  | None => mkOutcome (Text ("Unknown agent: " +:+ agentName)) ws []
  | Some _ =>
      let proceed :=
        mkOutcome
          (Text (if JS.truthy parentAgentName
                 then agentName +:+ " now reports to " +:+ default "" parentAgentName +:+ "."
                 else agentName +:+ " set as root (no manager)."))
          (withOrg ws (OrgStorage.setParent (Engine.org ws) agentName parentAgentName))
          [org_changed] in
      match parentAgentName with
      | None => proceed
      | Some parentName =>
          match AgentStorage.get (Engine.agents ws) parentName with
          | None => mkOutcome (Text ("Unknown parent agent: " +:+ parentName)) ws []
          | Some _ => proceed
          end
      end
  end.

(** ** list_agents (mcp/tools/list-agents.ts) *)

Module AgentSummary.
Record t : Type := mk {
  name : string;
  displayName : string;
  role : string;
  department : string;
  level : AgentLevel.t;
  status : AgentStatus.t;
  currentTaskId : option string;
  parentAgentName : option string;
  directReports : list string
}.
End AgentSummary.

Definition list_agents (deps : Deps) (department : option string)
    (status : option AgentStatus.t) (ws : Engine.Workspace)
    : Outcome (list AgentSummary.t) :=
  let result := AgentStorage.list (Engine.agents ws) in
  let result :=
    if JS.truthy department
    then List.filter
           (fun a => bool_decide (Some (AgentConfig.department a) = department)) result
    else result in
  let result :=
    match status with
    | Some s => List.filter (fun a => bool_decide (AgentConfig.status a = s)) result
    | None => result
    end in
  let formatted :=
    map (fun a =>
           AgentSummary.mk (AgentConfig.name a) (AgentConfig.displayName a)
             (AgentConfig.role a) (AgentConfig.department a) (AgentConfig.level a)
             (AgentConfig.status a) (AgentConfig.currentTaskId a)
             (OrgStorage.getParent (Engine.org ws) (AgentConfig.name a))
             (map OrgStorage.agentName
                (OrgStorage.getChildren (Engine.org ws) (AgentConfig.name a))))
        result in
  mkOutcome (Json formatted) ws [].

(** ** delegate_task (mcp/tools/delegate-task.ts) *)

Module DelegateTaskArgs.
Record t : Type := mk {
  targetAgent : string;
  prompt : string;
  context : string;
  priority : option Z
}.
End DelegateTaskArgs.

(** The task the handler builds, [id] being its [randomUUID()]. *)
Definition delegatedTask (deps : Deps) (args : DelegateTaskArgs.t) (target : AgentConfig.t)
    (id : string) (now : Date.t) : TaskState.t :=
  TaskState.mk id
    (if JS.truthy (Some (taskId deps)) then Some (taskId deps) else None)
    (AgentConfig.name target)
    (Some (agentName deps))
    (DelegateTaskArgs.prompt args)
    (Some (DelegateTaskArgs.context args))
    (default 0%Z (DelegateTaskArgs.priority args))
    TaskStatus.pending [] None None None None
    (Date.toISOString now) None None.

Definition delegate_task (deps : Deps) (args : DelegateTaskArgs.t) (id : string)
    (now : Date.t) (ws : Engine.Workspace) : Outcome unit :=
  match AgentStorage.get (Engine.agents ws) (agentName deps) with
  | None => mkOutcome (Text ("Unknown caller agent: " +:+ agentName deps)) ws []
  | Some _ =>
      match AgentStorage.get (Engine.agents ws) (DelegateTaskArgs.targetAgent args) with
      | None =>
          mkOutcome (Text ("Unknown agent: " +:+ DelegateTaskArgs.targetAgent args)) ws []
      | Some target =>
          let task := delegatedTask deps args target id now in
          mkOutcome
            (Text ("Delegated to " +:+ AgentConfig.name target +:+ ". Task " +:+
                   TaskState.id task +:+ " queued."))
            (withTasks ws (TaskStorage.save (Engine.tasks ws) task))
            [task_created (TaskState.id task) (AgentConfig.name target) (agentName deps)]
      end
  end.

(** ** send_message (mcp/tools/send-message.ts) *)

Module SendMessageArgs.
Record t : Type := mk {
  toAgent : string;
  subject : option string;
  body : string;
  threadId : option string
}.
End SendMessageArgs.

(** The message the handler builds: [newThread] is the [randomUUID()] read
    when no thread is given, [id] the one read for the message. *)
Definition sentMessage (deps : Deps) (args : SendMessageArgs.t) (newThread id : string)
    (now : Date.t) : Message.t :=
  Message.mk id (Some (agentName deps)) (SendMessageArgs.toAgent args)
    (default newThread (SendMessageArgs.threadId args))
    (SendMessageArgs.subject args) (SendMessageArgs.body args)
    Message.direct Message.delivered (Date.toISOString now) None.

Definition send_message (deps : Deps) (args : SendMessageArgs.t) (newThread id : string)
    (now : Date.t) (ws : Engine.Workspace) : Outcome unit :=
  let message := sentMessage deps args newThread id now in
  mkOutcome
    (Text ("Message sent to " +:+ SendMessageArgs.toAgent args +:+ " (thread " +:+
           JS.prefix 8 (Message.threadId message) +:+ ")."))
    (withMessages ws (MessageStorage.save (Engine.messages ws) message))
    [message_created (Message.id message) (agentName deps) (SendMessageArgs.toAgent args)
       (Message.threadId message)].

(** ** read_messages (mcp/tools/read-messages.ts) *)

(** The loop that marks the messages of a thread read: [calls] counts the
    calls of [markRead] so far, the [n]-th of which reads the date
    [clock n]. *)
Definition markThread (agentName threadId : string) (clock : nat -> Date.t)
    (threadMessages : list Message.t) (dir : MessageStorage.Dir)
    : MessageStorage.Dir * nat :=
  fold_left
    (fun '(dir, calls) msg =>
       if MessageStorage.isUnreadFor agentName msg
       then (MessageStorage.markRead dir (Message.id msg) threadId (clock calls), S calls)
       else (dir, calls))
    threadMessages (dir, 0).

(** The objects the answer prints for a thread and for the unread list. *)
Module ThreadView.
Record t : Type := mk {
  id : string;
  from : option string;
  to : string;
  subject : option string;
  body : string;
  createdAt : string;
  status : Message.state
}.

Definition view (m : Message.t) : t :=
  mk (Message.id m) (Message.fromAgentId m) (Message.toAgentId m) (Message.subject m)
    (Message.body m) (Message.createdAt m) (Message.status m).
End ThreadView.

Module UnreadView.
Record t : Type := mk {
  id : string;
  from : option string;
  threadId : string;
  subject : option string;
  body : string;
  createdAt : string
}.

Definition view (m : Message.t) : t :=
  mk (Message.id m) (Message.fromAgentId m) (Message.threadId m) (Message.subject m)
    (Message.body m) (Message.createdAt m).
End UnreadView.

(** The answer for a thread prints the messages as they were listed,
    before the loop marked any of them. *)
Definition read_messages (deps : Deps) (threadId : option string)
    (getTime : string -> option Z) (clock : nat -> Date.t) (ws : Engine.Workspace)
    : Outcome (list ThreadView.t + list UnreadView.t) :=
  if JS.truthy threadId then
    let thread := default "" threadId in
    let threadMessages := MessageStorage.listThread getTime (Engine.messages ws) thread in
    let dir := fst (markThread (agentName deps) thread clock threadMessages
                      (Engine.messages ws)) in
    mkOutcome (Json (inl (map ThreadView.view threadMessages))) (withMessages ws dir) []
  else
    let unread := MessageStorage.getUnread getTime (Engine.messages ws) (agentName deps) in
    mkOutcome (Json (inr (map UnreadView.view unread))) ws [].

(** ** post_to_board (mcp/tools/post-to-board.ts) *)

(** The item the handler builds, [id] being its [randomUUID()]. *)
Definition postedItem (deps : Deps) (type : BoardItemType.t) (summary body id : string)
    (now : Date.t) : BoardItem.t :=
  BoardItem.mk id (Some (BoardItemType.toString type)) (agentName deps) summary body
    (Date.toISOString now) "".

Definition post_to_board (deps : Deps) (type : BoardItemType.t) (summary body id : string)
    (now : Date.t) (ws : Engine.Workspace) : Outcome unit :=
  let item := postedItem deps type summary body id now in
  match BoardStorage.save (boardOf deps ws) item with
  | None => mkOutcome (Failed "post_to_board") ws []
  | Some board =>
      mkOutcome
        (Text ("Board item posted: [" +:+ BoardItemType.toString type +:+ "] " +:+ summary))
        (withBoard ws (BoardStorage.folders board))
        [board_item_created (BoardItemType.toString type) (agentName deps)
           (BoardItem.path item)]
  end.

(** ** query_board (mcp/tools/query-board.ts) *)

Module BoardView.
Record t : Type := mk {
  id : string;
  type : option string;
  author : string;
  summary : string;
  body : string;
  createdAt : string
}.

Definition view (i : BoardItem.t) : t :=
  mk (BoardItem.id i) (BoardItem.type i) (BoardItem.author i) (BoardItem.summary i)
    (BoardItem.body i) (BoardItem.createdAt i).
End BoardView.

Definition query_board (deps : Deps) (type : option BoardItemType.t)
    (author : option string) (limit : option Z) (getTime : string -> option Z)
    (ws : Engine.Workspace) : Outcome (list BoardView.t) :=
  match
    BoardStorage.list getTime (boardOf deps ws)
      (Some (BoardStorage.mkFilter (BoardItemType.toString <$> type) author
               (Some (default 10%Z limit))))
  with
  | None => mkOutcome (Failed "query_board") ws []
  | Some items => mkOutcome (Json (map BoardView.view items)) ws []
  end.

(** ** The tool list (mcp/server.ts)

    The calls an agent can make on the server [createOrchestrationMcpServer]
    builds, [update_context] apart, and the workspace each leaves. *)
Inductive Call : Type :=
| CreateAgent (args : CreateAgentArgs.t) (now : Date.t)
| UpdateAgent (args : UpdateAgentArgs.t) (now : Date.t)
| DeleteAgent (name : string)
| SetOrgParent (name : string) (parent : option string)
| ListAgents (department : option string) (status : option AgentStatus.t)
| DelegateTask (args : DelegateTaskArgs.t) (id : string) (now : Date.t)
| FinishTask (status : FinalStatus.t) (result : string) (clock : Engine.FinishClock)
| SendMessage (args : SendMessageArgs.t) (newThread id : string) (now : Date.t)
| ReadMessages (threadId : option string) (getTime : string -> option Z)
    (clock : nat -> Date.t)
| PostToBoard (type : BoardItemType.t) (summary body id : string) (now : Date.t)
| QueryBoard (type : option BoardItemType.t) (author : option string) (limit : option Z)
    (getTime : string -> option Z).

Definition call (deps : Deps) (c : Call) (ws : Engine.Workspace) : Engine.Workspace :=
  match c with
  | CreateAgent args now => disk (create_agent deps args now ws)
  | UpdateAgent args now => disk (update_agent deps args now ws)
  | DeleteAgent name => disk (delete_agent deps name ws)
  | SetOrgParent name parent => disk (set_org_parent deps name parent ws)
  | ListAgents department status => disk (list_agents deps department status ws)
  | DelegateTask args id now => disk (delegate_task deps args id now ws)
  | FinishTask status result clock =>
      Engine.workspace
        (snd (Engine.finish_task (taskId deps) status result clock
                (Engine.mkState ws ∅ 0%Z [])))
  | SendMessage args newThread id now => disk (send_message deps args newThread id now ws)
  | ReadMessages threadId getTime clock => disk (read_messages deps threadId getTime clock ws)
  | PostToBoard type summary body id now =>
      disk (post_to_board deps type summary body id now ws)
  | QueryBoard type author limit getTime =>
      disk (query_board deps type author limit getTime ws)
  end.

(** A session: calls made by agents, each with its own [deps]. *)
Definition session (ws : Engine.Workspace) (calls : list (Deps * Call)) : Engine.Workspace :=
  fold_left (fun ws dc => call (fst dc) (snd dc) ws) calls ws.

End Tools.

(** * The engine and its tool server on one workspace

    [spawnAgent] hands the agent it starts a tool server built on
    [this.basePath]: the calls of the agents and the methods of the engine
    read and write the same directories.  The registry of running agents
    and the limit live in the engine only; [emitted] keeps the events of
    the engine's own methods, those of a tool call being in its outcome.
    A history is a sequence of calls each of which runs to its end before
    the next one starts: two calls interleaved at their [await]s are not
    modelled. *)
Module Orchestration.

Inductive Action : Type :=
| EngineOp (op : Engine.Op)
| ToolCall (deps : Tools.Deps) (c : Tools.Call).

Definition step (st : Engine.State) (a : Action) : Engine.State :=
  match a with
  | EngineOp op => Engine.step st op
  | ToolCall deps c =>
      Engine.mkState (Tools.call deps c (Engine.workspace st)) (Engine.runningAgents st)
        (Engine.concurrencyLimit st) (Engine.emitted st)
  end.

Definition run (st : Engine.State) (actions : list Action) : Engine.State :=
  fold_left step actions st.

End Orchestration.

(* ===================================================================== *)
(** * Facts about the org tree *)
(* ===================================================================== *)

Module OrgFacts.
Import OrgStorage.

(** ** The recursive equations of the source functions *)

Lemma findNode_cons n rest a :
  findNode (n :: rest) a =
  if String.eqb (agentName n) a then Some n
  else match findNode (children n) a with
       | Some found => Some found
       | None => findNode rest a
       end.
Proof. destruct n; simpl. destruct (String.eqb _ _); reflexivity. Qed.

Lemma removeFromChildrenIn_eq a n :
  removeFromChildrenIn a n =
  setChildren n (removeFromChildren (List.filter (isNot a) (children n)) a).
Proof.
  destruct n as [nm p cs pos]; unfold setChildren; simpl. f_equal.
  induction cs as [|c cs IH]; simpl; [reflexivity|].
  destruct (isNot a c); simpl; rewrite IH; reflexivity.
Qed.

(** The forest left when every node named [a] is cut out with its
    subtree: what [removeFromTree] stores in [tree.roots]. *)
Definition prune (nodes : list OrgNode) (a : string) : list OrgNode :=
  removeFromChildren (List.filter (isNot a) nodes) a.

Lemma prune_nil a : prune [] a = [].
Proof. reflexivity. Qed.

Lemma prune_cons n rest a :
  prune (n :: rest) a =
  if isNot a n then setChildren n (prune (children n) a) :: prune rest a
  else prune rest a.
Proof.
  unfold prune; simpl. destruct (isNot a n); [|reflexivity].
  unfold removeFromChildren; simpl. rewrite removeFromChildrenIn_eq. reflexivity.
Qed.

Lemma removeFromTree_roots tree a : roots (removeFromTree tree a) = prune (roots tree) a.
Proof. reflexivity. Qed.

Lemma mutateFound_cons n rest a f :
  mutateFound (n :: rest) a f =
  if String.eqb (agentName n) a then Some (f n :: rest)
  else match mutateFound (children n) a f with
       | Some cs' => Some (setChildren n cs' :: rest)
       | None =>
           match mutateFound rest a f with
           | Some l => Some (n :: l)
           | None => None
           end
       end.
Proof.
  destruct n as [nm p cs pos]; unfold setChildren; simpl.
  destruct (String.eqb nm a); [reflexivity|].
  fold (mutateFound cs a f). destruct (mutateFound cs a f); reflexivity.
Qed.

Lemma names_cons n rest :
  names (n :: rest) = agentName n :: names (children n) ++ names rest.
Proof. destruct n; reflexivity. Qed.

Lemma parentsOk_cons par n rest :
  parentsOk par (n :: rest) <->
  parentAgentName n = par /\
  parentsOk (Some (agentName n)) (children n) /\ parentsOk par rest.
Proof. destruct n; simpl; tauto. Qed.

Lemma names_app l1 l2 : names (l1 ++ l2) = names l1 ++ names l2.
Proof.
  induction l1 as [|n l1 IH]; [reflexivity|].
  change ((n :: l1) ++ l2) with (n :: (l1 ++ l2)).
  rewrite !names_cons, IH. simpl. rewrite <- app_assoc. reflexivity.
Qed.

Lemma isNot_true a n : isNot a n = true <-> agentName n <> a.
Proof.
  unfold isNot. rewrite negb_true_iff. apply String.eqb_neq.
Qed.

Lemma isNot_false a n : isNot a n = false <-> agentName n = a.
Proof.
  unfold isNot. rewrite negb_false_iff. apply String.eqb_eq.
Qed.

Ltac case_name n a :=
  let E := fresh "Ename" in
  destruct (String.eqb (agentName n) a) eqn:E;
  [apply String.eqb_eq in E | apply String.eqb_neq in E].

(** ** findNode and the names of a forest *)

Lemma findNode_None nodes a : findNode nodes a = None <-> a ∉ names nodes.
Proof.
  induction nodes as [|n rest IHc IHr] using forest_ind.
  - simpl. split; [intros _; apply not_elem_of_nil | reflexivity].
  - rewrite findNode_cons, names_cons, not_elem_of_cons, not_elem_of_app.
    case_name n a.
    + split; [discriminate | intros [Hne _]; congruence].
    + destruct (findNode (children n) a) eqn:Hc.
      * split; [discriminate|]. intros (_ & Hn & _).
        apply IHc in Hn. discriminate.
      * rewrite IHr. pose proof (proj1 IHc eq_refl). split; [intros; split_and!; auto | tauto].
Qed.

Lemma findNode_Some_name nodes a found :
  findNode nodes a = Some found -> agentName found = a.
Proof.
  induction nodes as [|n rest IHc IHr] using forest_ind; [discriminate|].
  rewrite findNode_cons. case_name n a.
  - intros [= <-]; assumption.
  - destruct (findNode (children n) a); [intros [= <-]; auto | auto].
Qed.

Lemma findNode_is_Some nodes a : a ∈ names nodes -> is_Some (findNode nodes a).
Proof.
  intros Hin. destruct (findNode nodes a) eqn:E; [eauto|].
  apply findNode_None in E. contradiction.
Qed.

(** The names of the subtree of a node that the search returns are names
    of the forest. *)
Lemma findNode_names_sub nodes a found x :
  findNode nodes a = Some found -> x ∈ names (children found) -> x ∈ names nodes.
Proof.
  induction nodes as [|n rest IHc IHr] using forest_ind; [discriminate|].
  rewrite findNode_cons, names_cons. case_name n a.
  - intros [= <-] Hx. set_solver.
  - destruct (findNode (children n) a) eqn:Hc.
    + intros [= <-] Hx. specialize (IHc eq_refl Hx). set_solver.
    + intros Hr Hx. specialize (IHr Hr Hx). set_solver.
Qed.

(** ** prune *)

Lemma prune_names_sub nodes a x : x ∈ names (prune nodes a) -> x ∈ names nodes.
Proof.
  induction nodes as [|n rest IHc IHr] using forest_ind; [auto|].
  rewrite prune_cons, names_cons. destruct (isNot a n).
  - rewrite names_cons. simpl. set_solver.
  - set_solver.
Qed.

Lemma prune_not_in nodes a : a ∉ names (prune nodes a).
Proof.
  induction nodes as [|n rest IHc IHr] using forest_ind.
  - apply not_elem_of_nil.
  - rewrite prune_cons. destruct (isNot a n) eqn:E; [|assumption].
    apply isNot_true in E. rewrite names_cons. simpl. set_solver.
Qed.

Lemma prune_id nodes a : a ∉ names nodes -> prune nodes a = nodes.
Proof.
  induction nodes as [|n rest IHc IHr] using forest_ind; [reflexivity|].
  rewrite names_cons, prune_cons, not_elem_of_cons, not_elem_of_app.
  intros (Hne & Hc & Hr).
  destruct (isNot a n) eqn:E.
  - rewrite IHc, IHr by assumption. destruct n; reflexivity.
  - apply isNot_false in E. congruence.
Qed.

Lemma isNot_eqb a n : String.eqb (agentName n) a = negb (isNot a n).
Proof. unfold isNot. rewrite negb_involutive. reflexivity. Qed.

Lemma prune_subtree_gone nodes a found d :
  NoDup (names nodes) -> findNode nodes a = Some found ->
  d ∈ names (children found) -> d ∉ names (prune nodes a).
Proof.
  induction nodes as [|n rest IHc IHr] using forest_ind; [discriminate|].
  rewrite names_cons, findNode_cons, prune_cons, NoDup_cons, NoDup_app, isNot_eqb.
  intros (Hn & Hdc & Hdisj & Hdr). destruct (isNot a n); cbn [negb].
  - rewrite names_cons. cbn [agentName children setChildren].
    destruct (findNode (children n) a) eqn:Hc.
    + intros [= <-] Hd.
      pose proof (findNode_names_sub _ _ _ _ Hc Hd) as Hdn.
      rewrite not_elem_of_cons, not_elem_of_app. split_and!.
      * intros ->. apply Hn. set_solver.
      * auto.
      * intros Hp. apply prune_names_sub in Hp. exact (Hdisj _ Hdn Hp).
    + intros Hr Hd.
      pose proof (findNode_names_sub _ _ _ _ Hr Hd) as Hdn.
      rewrite not_elem_of_cons, not_elem_of_app. split_and!.
      * intros ->. apply Hn. set_solver.
      * intros Hp. apply prune_names_sub in Hp. exact (Hdisj _ Hp Hdn).
      * auto.
  - intros [= <-] Hd Hp. apply prune_names_sub in Hp. exact (Hdisj _ Hd Hp).
Qed.

Lemma findNode_sub_NoDup nodes a found :
  NoDup (names nodes) -> findNode nodes a = Some found ->
  NoDup (agentName found :: names (children found)).
Proof.
  induction nodes as [|n rest IHc IHr] using forest_ind; [discriminate|].
  rewrite names_cons, findNode_cons, NoDup_cons, NoDup_app.
  intros (Hn & Hdc & Hdisj & Hdr). destruct (String.eqb (agentName n) a).
  - intros [= <-]. apply NoDup_cons. split; [set_solver | auto].
  - destruct (findNode (children n) a) eqn:Hc; [intros [= <-]|]; auto.
Qed.

Lemma elem_of_names_cons x n rest :
  x ∈ names (n :: rest) <-> x = agentName n \/ x ∈ names (children n) \/ x ∈ names rest.
Proof. rewrite names_cons, elem_of_cons, elem_of_app. reflexivity. Qed.

Lemma elem_of_names_app x l1 l2 :
  x ∈ names (l1 ++ l2) <-> x ∈ names l1 \/ x ∈ names l2.
Proof. rewrite names_app, elem_of_app. reflexivity. Qed.

Lemma findNode_app l1 l2 a :
  findNode (l1 ++ l2) a =
  match findNode l1 a with
  | Some found => Some found
  | None => findNode l2 a
  end.
Proof.
  induction l1 as [|n l1 IH]; [reflexivity|].
  change ((n :: l1) ++ l2) with (n :: (l1 ++ l2)). rewrite !findNode_cons, IH.
  destruct (String.eqb (agentName n) a); [reflexivity|].
  destruct (findNode (children n) a); reflexivity.
Qed.

(** ** mutateFound *)

Lemma mutateFound_None nodes a f :
  findNode nodes a = None -> mutateFound nodes a f = None.
Proof.
  induction nodes as [|n rest IHc IHr] using forest_ind; [reflexivity|].
  rewrite findNode_cons, mutateFound_cons.
  destruct (String.eqb (agentName n) a); [discriminate|].
  destruct (findNode (children n) a); [discriminate|].
  intros Hr. rewrite IHc, IHr by auto. reflexivity.
Qed.

(** Pushing a child onto the node found under the name [a]: the search for
    [a] now returns the mutated node, the names gain those of the new
    child, and a name that was absent is found, if at all, in the new
    child. *)
Lemma mutateFound_push nodes a mk parent :
  findNode nodes a = Some parent ->
  exists nodes',
    mutateFound nodes a (pushChild mk) = Some nodes' /\
    findNode nodes' a = Some (pushChild mk parent) /\
    (forall x, x ∈ names nodes' <->
               x ∈ names nodes \/ x ∈ names [mk (length (children parent))]) /\
    (forall b, findNode nodes b = None ->
               findNode nodes' b = findNode [mk (length (children parent))] b).
Proof.
  induction nodes as [|n rest IHc IHr] using forest_ind; [discriminate|].
  rewrite findNode_cons, mutateFound_cons.
  destruct (String.eqb (agentName n) a) eqn:En.
  - intros [= <-]. eexists; split_and!; [reflexivity| | |].
    + rewrite findNode_cons. cbn [pushChild setChildren agentName]. rewrite En. reflexivity.
    + intros x. set (N := names [mk _]).
      rewrite !elem_of_names_cons. cbn [pushChild setChildren agentName children].
      rewrite elem_of_names_app. fold N. tauto.
    + intros b. set (F := findNode [mk _] b).
      rewrite !findNode_cons. cbn [pushChild setChildren agentName children].
      destruct (String.eqb (agentName n) b); [discriminate|].
      rewrite findNode_app.
      destruct (findNode (children n) b); [discriminate|]. intros ->.
      fold F. destruct F; reflexivity.
  - destruct (findNode (children n) a) eqn:Hc.
    + intros [= <-]. destruct (IHc eq_refl) as (cs' & -> & Hf & Hn & Hb).
      eexists; split_and!; [reflexivity| | |].
      * rewrite findNode_cons. cbn [setChildren agentName children].
        rewrite En, Hf. reflexivity.
      * intros x. set (N := names [mk _]) in *.
        rewrite !elem_of_names_cons. cbn [setChildren agentName children].
        rewrite (Hn x). tauto.
      * intros b. specialize (Hb b). set (F := findNode [mk _] b) in *.
        rewrite !findNode_cons. cbn [setChildren agentName children].
        destruct (String.eqb (agentName n) b); [discriminate|].
        destruct (findNode (children n) b) eqn:Hcb; [discriminate|]. intros ->.
        rewrite (Hb eq_refl). destruct F; reflexivity.
    + intros Hr. rewrite (mutateFound_None _ _ _ Hc).
      destruct (IHr Hr) as (rs' & -> & Hf & Hn & Hb).
      eexists; split_and!; [reflexivity| | |].
      * rewrite findNode_cons, En, Hc. exact Hf.
      * intros x. set (N := names [mk _]) in *.
        rewrite !elem_of_names_cons, (Hn x). tauto.
      * intros b. specialize (Hb b). set (F := findNode [mk _] b) in *.
        rewrite !findNode_cons.
        destruct (String.eqb (agentName n) b); [discriminate|].
        destruct (findNode (children n) b) eqn:Hcb; [discriminate|]. auto.
Qed.

(** ** attach *)

Lemma attach_root tree p mk :
  (p = None \/ exists pn, p = Some pn /\ findNode (roots tree) pn = None) ->
  attach tree p mk = pushRoot mk tree.
Proof.
  intros [-> | (pn & -> & Hnone)]; [reflexivity|].
  unfold attach. rewrite Hnone. reflexivity.
Qed.

Lemma attach_child tree pn mk parent :
  findNode (roots tree) pn = Some parent ->
  findNode (roots (attach tree (Some pn) mk)) pn = Some (pushChild mk parent) /\
  (forall x, x ∈ names (roots (attach tree (Some pn) mk)) <->
             x ∈ names (roots tree) \/ x ∈ names [mk (length (children parent))]) /\
  (forall b, findNode (roots tree) b = None ->
             findNode (roots (attach tree (Some pn) mk)) b =
             findNode [mk (length (children parent))] b).
Proof.
  intros Hf. unfold attach. rewrite Hf.
  destruct (mutateFound_push _ _ mk _ Hf) as (rs & -> & Hf' & Hn & Hb). auto.
Qed.

(** Wherever the new node lands, it is the one a search for a name that
    was absent can return. *)
Lemma attach_find_new tree p mk b :
  findNode (roots tree) b = None ->
  exists k, findNode (roots (attach tree p mk)) b = findNode [mk k] b.
Proof.
  intros Hb. destruct p as [pn|].
  - destruct (findNode (roots tree) pn) eqn:Hf.
    + destruct (attach_child tree pn mk _ Hf) as (_ & _ & H). eauto.
    + rewrite attach_root by eauto. unfold pushRoot. cbn [roots].
      rewrite findNode_app, Hb. eauto.
  - unfold attach, pushRoot. cbn [roots]. rewrite findNode_app, Hb. eauto.
Qed.

Lemma attach_names tree p mk x :
  (forall k, names [mk k] = names [mk 0]) ->
  x ∈ names (roots (attach tree p mk)) <->
  x ∈ names (roots tree) \/ x ∈ names [mk 0].
Proof.
  intros Hmk. destruct p as [pn|].
  - destruct (findNode (roots tree) pn) eqn:Hf.
    + destruct (attach_child tree pn mk _ Hf) as (_ & Hn & _). rewrite Hn, Hmk. reflexivity.
    + rewrite attach_root by eauto. unfold pushRoot. cbn [roots].
      rewrite names_app, elem_of_app, Hmk. reflexivity.
  - unfold attach, pushRoot. cbn [roots]. rewrite names_app, elem_of_app, Hmk. reflexivity.
Qed.

(** The node that [setParent] inserts is the one a search for its name
    returns. *)
Lemma setParentTree_find tree a p :
  exists pos, findNode (roots (setParentTree tree a p)) a = Some (mkOrgNode a p [] pos).
Proof.
  unfold setParentTree.
  destruct (attach_find_new (removeFromTree tree a) p (fun pos => mkOrgNode a p [] pos) a)
    as [k Hk].
  { apply findNode_None. apply prune_not_in. }
  exists k. rewrite Hk, findNode_cons. cbn [agentName].
  rewrite String.eqb_refl. reflexivity.
Qed.

(** ** The loop of removeAgent *)

Definition reattachAll (p : option string) (orphans : list OrgNode) (tree : OrgTree)
    : OrgTree :=
  fold_left (fun t child => attach t p (reparent p child)) orphans tree.

Lemma reparent_names p c k : names [reparent p c k] = names [c].
Proof. rewrite !names_cons. reflexivity. Qed.

Lemma reattachAll_names p orphans tree x :
  x ∈ names (roots (reattachAll p orphans tree)) <->
  x ∈ names (roots tree) \/ x ∈ names orphans.
Proof.
  unfold reattachAll. revert tree.
  induction orphans as [|c cs IH]; intros tree; cbn [fold_left].
  - cbn [names]. rewrite elem_of_nil. tauto.
  - rewrite IH, attach_names by (intros; rewrite !reparent_names; reflexivity).
    rewrite reparent_names. change (c :: cs) with ([c] ++ cs).
    rewrite (elem_of_names_app x [c] cs). tauto.
Qed.

Lemma reattachAll_root orphans tree :
  roots (reattachAll None orphans tree) =
  roots tree ++ imap (fun i c => reparent None c (length (roots tree) + i)) orphans.
Proof.
  unfold reattachAll. revert tree.
  induction orphans as [|c cs IH]; intros tree; cbn [fold_left imap].
  - rewrite app_nil_r. reflexivity.
  - rewrite IH. cbn [attach pushRoot roots]. rewrite <- app_assoc, length_app.
    cbn [length app]. rewrite Nat.add_0_r. do 2 f_equal.
    apply imap_ext. intros i x _. cbn. f_equal. lia.
Qed.

Lemma setChildren_setChildren n cs cs' :
  setChildren (setChildren n cs) cs' = setChildren n cs'.
Proof. reflexivity. Qed.

Lemma reattachAll_child pn orphans tree parent :
  findNode (roots tree) pn = Some parent ->
  findNode (roots (reattachAll (Some pn) orphans tree)) pn =
  Some (setChildren parent
          (children parent ++
           imap (fun i c => reparent (Some pn) c (length (children parent) + i)) orphans)).
Proof.
  unfold reattachAll. revert tree parent.
  induction orphans as [|c cs IH]; intros tree parent Hf; cbn [fold_left imap].
  - rewrite app_nil_r, Hf. destruct parent; reflexivity.
  - destruct (attach_child tree pn (reparent (Some pn) c) _ Hf) as (Hf' & _ & _).
    rewrite (IH _ _ Hf'). cbn [pushChild setChildren children agentName parentAgentName position].
    rewrite <- app_assoc, length_app. cbn [length app]. rewrite Nat.add_0_r.
    do 4 f_equal. apply imap_ext. intros i x _. cbn. f_equal. lia.
Qed.

(** ** Consequences of well-formedness *)

Lemma elem_names_top (c : OrgNode) (l : list OrgNode) :
  c ∈ l ->
  agentName c ∈ names l /\ forall x, x ∈ names (children c) -> x ∈ names l.
Proof.
  induction l as [|m l IH]; [intros H; inversion H|].
  rewrite elem_of_cons. intros [-> | Hin].
  - split; [|intros x Hx]; apply elem_of_names_cons; auto.
  - destruct (IH Hin) as [H1 H2].
    split; [|intros x Hx]; apply elem_of_names_cons; auto.
Qed.

Lemma NoDup_names_top (l : list OrgNode) (node c : OrgNode) :
  NoDup (names l) -> node ∈ l -> c ∈ l ->
  agentName node ∉ names (children c).
Proof.
  induction l as [|m l IH]; [intros _ H; inversion H|].
  rewrite names_cons, NoDup_cons, NoDup_app, not_elem_of_app, !elem_of_cons.
  intros ((Hmc & Hml) & Hdc & Hdisj & Hdl) [-> | Hn] [-> | Hc].
  - assumption.
  - intros Hx. apply Hml. apply (proj2 (elem_names_top _ _ Hc)). assumption.
  - intros Hx. apply (Hdisj _ Hx). apply (proj1 (elem_names_top _ _ Hn)).
  - auto.
Qed.

Lemma removeFromChildren_id (l : list OrgNode) a :
  (forall c, c ∈ l -> a ∉ names (children c)) -> removeFromChildren l a = l.
Proof.
  unfold removeFromChildren. induction l as [|c l IH]; intros H; [reflexivity|].
  cbn [map]. rewrite IH by (intros; apply H; right; assumption).
  rewrite removeFromChildrenIn_eq. fold (prune (children c) a).
  rewrite prune_id by (apply H; left). destruct c; reflexivity.
Qed.

(** When a node named [a] sits at the top of a duplicate-free forest,
    cutting [a] out only filters the top level. *)
Lemma prune_top (l : list OrgNode) (node : OrgNode) :
  NoDup (names l) -> node ∈ l ->
  prune l (agentName node) = List.filter (isNot (agentName node)) l.
Proof.
  intros Hnd Hin. unfold prune. apply removeFromChildren_id.
  intros c Hc. apply list_elem_of_In, filter_In in Hc as [Hc _].
  apply list_elem_of_In in Hc. eapply NoDup_names_top; eassumption.
Qed.

(** Where the search finds a node of a well-formed forest: at the top, or
    among the children of the node its [parentAgentName] names. *)
Lemma findNode_structure nodes a node :
  forall par,
  NoDup (names nodes) -> parentsOk par nodes -> findNode nodes a = Some node ->
  (node ∈ nodes /\ parentAgentName node = par) \/
  (exists parent pn, parentAgentName node = Some pn /\
                     findNode nodes pn = Some parent /\ node ∈ children parent).
Proof.
  induction nodes as [|n rest IHc IHr] using forest_ind; [discriminate|].
  intros par. rewrite names_cons, NoDup_cons, NoDup_app, not_elem_of_app, parentsOk_cons.
  intros ((Hnc & Hnr) & Hdc & Hdisj & Hdr) (Hp & Hpc & Hpr). rewrite findNode_cons.
  destruct (String.eqb (agentName n) a) eqn:En.
  - intros [= <-]. left. split; [left | assumption].
  - destruct (findNode (children n) a) eqn:Hc.
    + intros [= <-]. right.
      destruct (IHc _ Hdc Hpc eq_refl) as [[Hin Hpar] | (parent & pn & Hpar & Hf & Hin)].
      * exists n, (agentName n). rewrite findNode_cons, String.eqb_refl. auto.
      * exists parent, pn. split_and!; [assumption| |assumption].
        rewrite findNode_cons, Hf.
        destruct (String.eqb (agentName n) pn) eqn:Ep; [|reflexivity].
        apply String.eqb_eq in Ep. exfalso. apply Hnc. rewrite Ep.
        destruct (decide (pn ∈ names (children n))) as [|Hnot]; [assumption|].
        apply findNode_None in Hnot. congruence.
    + intros Hr.
      destruct (IHr _ Hdr Hpr Hr) as [[Hin Hpar] | (parent & pn & Hpar & Hf & Hin)].
      * left. split; [right|]; assumption.
      * right. exists parent, pn. split_and!; [assumption| |assumption].
        assert (Hpn : pn ∈ names rest).
        { destruct (decide (pn ∈ names rest)) as [|Hnot]; [assumption|].
          apply findNode_None in Hnot. congruence. }
        rewrite findNode_cons.
        destruct (String.eqb (agentName n) pn) eqn:Ep.
        { apply String.eqb_eq in Ep. exfalso. apply Hnr. rewrite Ep. assumption. }
        destruct (findNode (children n) pn) eqn:Hcp; [|assumption].
        exfalso. apply (Hdisj pn); [|assumption].
        destruct (decide (pn ∈ names (children n))) as [|Hnot]; [assumption|].
        apply findNode_None in Hnot. congruence.
Qed.

(** Cutting out a child of [parent]: the search for [parent] returns it
    with that child filtered out of its children and nothing else changed. *)
Lemma prune_parent nodes pn parent node :
  NoDup (names nodes) -> findNode nodes pn = Some parent -> node ∈ children parent ->
  findNode (prune nodes (agentName node)) pn =
  Some (setChildren parent (List.filter (isNot (agentName node)) (children parent))).
Proof.
  set (a := agentName node).
  induction nodes as [|n rest IHc IHr] using forest_ind; [discriminate|].
  rewrite names_cons, NoDup_cons, NoDup_app, not_elem_of_app, findNode_cons, prune_cons.
  intros ((Hnc & Hnr) & Hdc & Hdisj & Hdr).
  destruct (String.eqb (agentName n) pn) eqn:En.
  - intros [= <-] Hin.
    assert (Ha : isNot a n = true).
    { apply isNot_true. intros E. apply Hnc. rewrite E.
      apply (proj1 (elem_names_top _ _ Hin)). }
    rewrite Ha, findNode_cons. cbn [setChildren agentName]. rewrite En.
    do 2 f_equal. apply prune_top; assumption.
  - destruct (findNode (children n) pn) eqn:Hc.
    + intros [= <-] Hin.
      assert (Ha : isNot a n = true).
      { apply isNot_true. intros E. apply Hnc. rewrite E.
        apply (findNode_names_sub _ _ _ _ Hc). apply (proj1 (elem_names_top _ _ Hin)). }
      rewrite Ha, findNode_cons. cbn [setChildren agentName children].
      rewrite En, (IHc Hdc eq_refl Hin). reflexivity.
    + intros Hr Hin. specialize (IHr Hdr Hr Hin).
      destruct (isNot a n); [|assumption].
      rewrite findNode_cons. cbn [setChildren agentName children]. rewrite En.
      replace (findNode (prune (children n) a) pn) with (@None OrgNode); [assumption|].
      symmetry. apply findNode_None. intros Hp. apply prune_names_sub in Hp.
      apply findNode_None in Hc. contradiction.
Qed.

(** ** setParent *)


Definition demoForest : Store :=
  Some (mkOrgTree
          [mkOrgNode "ceo" None
             [mkOrgNode "vp" (Some "ceo")
                [mkOrgNode "eng1" (Some "vp") [] 0;
                 mkOrgNode "eng2" (Some "vp") [mkOrgNode "intern" (Some "eng2") [] 0] 1] 0;
              mkOrgNode "cfo" (Some "ceo") [] 1] 0]).


Lemma mutateFound_push_names nodes a mk parent :
  findNode nodes a = Some parent ->
  exists nodes',
    mutateFound nodes a (pushChild mk) = Some nodes' /\
    names nodes' ≡ₚ names nodes ++ names [mk (length (children parent))].
Proof.
  induction nodes as [|n rest IHc IHr] using forest_ind; [discriminate|].
  rewrite findNode_cons, mutateFound_cons.
  destruct (String.eqb (agentName n) a) eqn:En.
  - intros [= <-]. eexists; split; [reflexivity|].
    set (N := names [mk _]).
    rewrite !names_cons. cbn [pushChild setChildren agentName children].
    rewrite names_app. fold N. solve_Permutation.
  - destruct (findNode (children n) a) eqn:Hc.
    + intros [= <-]. destruct (IHc eq_refl) as (cs' & -> & Hp).
      eexists; split; [reflexivity|]. set (N := names [mk _]) in *.
      rewrite !names_cons. cbn [setChildren agentName children].
      rewrite Hp. solve_Permutation.
    + intros Hr. rewrite (mutateFound_None _ _ _ Hc).
      destruct (IHr Hr) as (rs' & -> & Hp).
      eexists; split; [reflexivity|]. set (N := names [mk _]) in *.
      rewrite !names_cons, Hp. solve_Permutation.
Qed.

Lemma attach_names_perm tree p mk :
  exists k, names (roots (attach tree p mk)) ≡ₚ names (roots tree) ++ names [mk k].
Proof.
  destruct p as [pn|]; unfold attach.
  - destruct (findNode (roots tree) pn) eqn:Hf.
    + destruct (mutateFound_push_names _ _ mk _ Hf) as (rs & -> & Hp). eauto.
    + exists (length (roots tree)). unfold pushRoot. cbn [roots]. rewrite names_app. reflexivity.
  - exists (length (roots tree)). unfold pushRoot. cbn [roots]. rewrite names_app. reflexivity.
Qed.

(** ** What a detachment cuts out *)

Lemma prune_names_submseteq nodes a : names (prune nodes a) ⊆+ names nodes.
Proof.
  induction nodes as [|n rest IHc IHr] using forest_ind; [reflexivity|].
  rewrite prune_cons, names_cons. destruct (isNot a n).
  - rewrite names_cons. unfold setChildren. cbn [agentName children].
    apply submseteq_skip, submseteq_app; assumption.
  - apply submseteq_cons, submseteq_inserts_l. assumption.
Qed.

(** The names kept by the detachment of [a] and the names of the subtree
    found under [a] are, counted with their multiplicity, names of the
    forest: the nodes of that subtree are among the nodes cut out. *)
Lemma prune_subtree_submseteq nodes a node :
  findNode nodes a = Some node ->
  names (prune nodes a) ++ a :: names (children node) ⊆+ names nodes.
Proof.
  induction nodes as [|n rest IHc IHr] using forest_ind; [discriminate|].
  rewrite findNode_cons, prune_cons, names_cons, isNot_eqb.
  destruct (isNot a n) eqn:Ea; cbn [negb].
  - rewrite names_cons. unfold setChildren. cbn [agentName children].
    destruct (findNode (children n) a) as [found|] eqn:Hc.
    + intros [= <-]. specialize (IHc eq_refl).
      rewrite <- app_comm_cons. apply submseteq_skip.
      rewrite <- (assoc_L (++)).
      rewrite (Permutation_app_comm (names (prune rest a))).
      rewrite (assoc_L (++)).
      apply submseteq_app; [exact IHc | apply prune_names_submseteq].
    + intros Hr. specialize (IHr Hr).
      rewrite <- app_comm_cons. apply submseteq_skip.
      rewrite <- (assoc_L (++)).
      apply submseteq_app; [apply prune_names_submseteq | exact IHr].
  - intros [= <-]. apply isNot_false in Ea. rewrite Ea.
    rewrite Permutation_app_comm. rewrite <- !app_comm_cons.
    apply submseteq_skip, submseteq_app; [reflexivity | apply prune_names_submseteq].
Qed.

(** C10. After [setParent(A, p)] the tree holds a node for [A], the one a
    search for [A] returns, and this node has no children: it is a fresh
    node, and the subtree of the old one is dropped, not moved along and
    not put back anywhere.  The names of the tree afterwards together with
    the names of the former descendants of [A] are, counted with their
    multiplicity, names of the tree before; so in a tree without duplicate
    names no former descendant of [A] can be found afterwards. *)
Theorem setParent_discards_subtree (s : Store) (a : string) (p : option string) :
  (exists pos, findNode (roots (get (setParent s a p))) a = Some (mkOrgNode a p [] pos)) /\
  getChildren (setParent s a p) a = [] /\
  (forall node,
     findNode (roots (get s)) a = Some node ->
     names (roots (get (setParent s a p))) ++ names (children node)
       ⊆+ names (roots (get s)) /\
     (NoDup (names (roots (get s))) ->
      forall d, d ∈ names (children node) ->
                findNode (roots (get (setParent s a p))) d = None)).
Proof.
  split_and!.
  - unfold setParent. cbn [get save]. apply setParentTree_find.
  - unfold getChildren, setParent. cbn [get save].
    destruct (setParentTree_find (get s) a p) as [k ->]. reflexivity.
  - intros node Hf. split.
    + unfold setParent, setParentTree. cbn [get save].
      destruct (attach_names_perm (removeFromTree (get s) a) p
                  (fun pos => mkOrgNode a p [] pos)) as [k ->].
      rewrite removeFromTree_roots, names_cons.
      cbn [agentName children names app].
      rewrite <- (assoc_L (++)). cbn [app].
      exact (prune_subtree_submseteq _ _ _ Hf).
    + intros Hnd d Hd. apply findNode_None.
      unfold setParent, setParentTree. cbn [get save].
      rewrite attach_names by reflexivity.
      intros [Hp | Hnew].
      * revert Hp. apply (prune_subtree_gone _ _ _ _ Hnd Hf Hd).
      * rewrite names_cons in Hnew. cbn in Hnew. apply list_elem_of_singleton in Hnew.
        pose proof (findNode_sub_NoDup _ _ _ Hnd Hf) as Hsub.
        rewrite (findNode_Some_name _ _ _ Hf) in Hsub.
        apply NoDup_cons in Hsub as [Hsub _]. subst d. contradiction.
Qed.

Lemma setParent_discards_subtree_witness :
  findNode (roots (get (setParent demoForest "vp" (Some "cfo")))) "vp" =
    Some (mkOrgNode "vp" (Some "cfo") [] 0) /\
  getChildren (setParent demoForest "vp" (Some "cfo")) "vp" = [] /\
  findNode (roots (get (setParent demoForest "vp" (Some "cfo")))) "intern" = None.
Proof.
  destruct (setParent_discards_subtree demoForest "vp" (Some "cfo")) as ([pos H0] & H1 & H2).
  split_and!.
  - rewrite H0. vm_compute in H0. injection H0 as <-. reflexivity.
  - exact H1.
  - eapply (proj2 (H2 _ eq_refl)); by_decide.
Defined.

(** ** removeAgent *)

Lemma removeAgent_get s a node :
  findNode (roots (get s)) a = Some node ->
  get (removeAgent s a) =
  reattachAll (parentAgentName node) (children node) (removeFromTree (get s) a).
Proof.
  intros Hf. unfold removeAgent, removeAgentTree. rewrite Hf. reflexivity.
Qed.

(** C5, as the specification states it, fails on a tree that [setParent]
    itself builds: with no node "ghost", [setParent("B", "ghost")] makes
    "B" a root that stores the parent name "ghost"; after
    [setParent("C", "B")], removing the root "B" leaves "C" at the top
    level with [parentAgentName = "ghost"], not null, and under no node. *)
Lemma removeAgent_root_counterexample :
  let s0 := setParent (setParent None "B" (Some "ghost")) "C" (Some "B") in
  roots (get s0) = [mkOrgNode "B" (Some "ghost") [mkOrgNode "C" (Some "B") [] 0] 0] /\
  roots (get (removeAgent s0 "B")) = [mkOrgNode "C" (Some "ghost") [] 0] /\
  getParent (removeAgent s0 "B") "C" <> None /\
  findNode (roots (get (removeAgent s0 "B"))) "ghost" = None.
Proof.
  cbv zeta. split_and!; [reflexivity | reflexivity | | reflexivity].
  vm_compute. discriminate.
Qed.

(** C5 (amended). In a well-formed tree (no agent name occurs twice and
    every node stores the name of its actual parent, null at the top
    level), [removeAgent(A)] on a node that is present deletes it, and
    appends its children, in their order, with their subtrees as they
    were, after the remaining children of its former parent, or after the
    remaining roots when it was a root; each of them gets the former
    parent's name (null for a former root) as [parentAgentName] and its
    new index as [position]. *)
Theorem removeAgent_reparents (s : Store) (a : string) (node : OrgNode) :
  wellFormed (get s) ->
  findNode (roots (get s)) a = Some node ->
  let s' := removeAgent s a in
  let kept := List.filter (isNot a) in
  findNode (roots (get s')) a = None /\
  match parentAgentName node with
  | None =>
      node ∈ roots (get s) /\
      roots (get s') =
        kept (roots (get s)) ++
        imap (fun i c => reparent None c (length (kept (roots (get s))) + i))
             (children node)
  | Some pn =>
      exists parent,
        findNode (roots (get s)) pn = Some parent /\
        node ∈ children parent /\
        findNode (roots (get s')) pn =
          Some (setChildren parent
                  (kept (children parent) ++
                   imap (fun i c =>
                           reparent (Some pn) c (length (kept (children parent)) + i))
                        (children node)))
  end.
Proof.
  intros [Hnd Hpar] Hf. cbv zeta.
  pose proof (findNode_Some_name _ _ _ Hf) as Hname.
  rewrite (removeAgent_get _ _ _ Hf). split.
  - apply findNode_None. rewrite reattachAll_names, removeFromTree_roots.
    intros [Hp | Hc].
    + exact (prune_not_in _ _ Hp).
    + pose proof (findNode_sub_NoDup _ _ _ Hnd Hf) as Hsub.
      apply NoDup_cons in Hsub as [Hsub _]. rewrite Hname in Hsub. contradiction.
  - destruct (findNode_structure _ _ _ None Hnd Hpar Hf)
      as [[Hin Hnone] | (parent & pn & Hsome & Hfp & Hin)].
    + rewrite Hnone. split; [assumption|].
      rewrite reattachAll_root, removeFromTree_roots, <- Hname.
      rewrite (prune_top _ _ Hnd Hin). reflexivity.
    + rewrite Hsome. exists parent. split_and!; [assumption | assumption |].
      pose proof (prune_parent _ _ _ _ Hnd Hfp Hin) as Hpruned.
      rewrite Hname in Hpruned.
      rewrite <- removeFromTree_roots in Hpruned.
      rewrite (reattachAll_child _ _ _ _ Hpruned). reflexivity.
Qed.

Lemma removeAgent_reparents_witness :
  findNode (roots (get (removeAgent demoForest "vp"))) "vp" = None /\
  exists parent,
    findNode (roots (get demoForest)) "ceo" = Some parent /\
    mkOrgNode "vp" (Some "ceo")
      [mkOrgNode "eng1" (Some "vp") [] 0;
       mkOrgNode "eng2" (Some "vp") [mkOrgNode "intern" (Some "eng2") [] 0] 1] 0
      ∈ children parent /\
    findNode (roots (get (removeAgent demoForest "vp"))) "ceo" =
      Some (mkOrgNode "ceo" None
              [mkOrgNode "cfo" (Some "ceo") [] 1;
               mkOrgNode "eng1" (Some "ceo") [] 1;
               mkOrgNode "eng2" (Some "ceo") [mkOrgNode "intern" (Some "eng2") [] 0] 2] 0).
Proof.
  assert (Hwf : wellFormed (get demoForest)).
  { split; [by_decide | vm_compute; tauto]. }
  destruct (removeAgent_reparents demoForest "vp" _ Hwf eq_refl) as [Hgone Hmoved].
  split; [exact Hgone|].
  cbn [parentAgentName] in Hmoved. destruct Hmoved as (parent & Hp & Hin & Hres).
  exists parent. split_and!; [exact Hp | exact Hin |].
  rewrite Hres. vm_compute in Hp. injection Hp as <-. reflexivity.
Defined.

End OrgFacts.

(* ===================================================================== *)
(** * Facts about strings and files *)
(* ===================================================================== *)

Module JSFacts.
Import JS.

Lemma app_cons (x : ascii) (a b : string) : String x a +:+ b = String x (a +:+ b).
Proof. reflexivity. Qed.

Lemma app_nil_l (a : string) : "" +:+ a = a.
Proof. reflexivity. Qed.

(** Evaluation of appends whose left operand is known. *)
Ltac eval_app := rewrite ?app_cons, ?app_nil_l.

Lemma app_assoc (a b c : string) : (a +:+ b) +:+ c = a +:+ b +:+ c.
Proof.
  induction a as [|x a IH]; [reflexivity|]. rewrite !app_cons, IH. reflexivity.
Qed.

Lemma app_nil_r (a : string) : a +:+ "" = a.
Proof.
  induction a as [|x a IH]; [reflexivity|]. rewrite app_cons, IH. reflexivity.
Qed.

Lemma length_app (a b : string) :
  String.length (a +:+ b) = String.length a + String.length b.
Proof.
  induction a as [|x a IH]; [reflexivity|]. rewrite app_cons. cbn [String.length].
  rewrite IH. reflexivity.
Qed.

(** The last code unit of a string. *)
Fixpoint lastChar (s : string) : option ascii :=
  match s with
  | EmptyString => None
  | String c EmptyString => Some c
  | String _ s' => lastChar s'
  end.

Lemma lastChar_app (a b : string) : b <> "" -> lastChar (a +:+ b) = lastChar b.
Proof.
  intros Hb. induction a as [|x a IH]; [reflexivity|].
  rewrite app_cons. cbn [lastChar]. rewrite IH.
  destruct (a +:+ b) eqn:E; [|reflexivity].
  destruct a; [rewrite app_nil_l in E; contradiction | discriminate].
Qed.

(** A name made with the suffix [.json] or [.md] is never a [.tmp] name. *)
Lemma json_not_tmp (a b : string) : a +:+ ".json" <> b +:+ ".tmp".
Proof.
  intros E. apply (f_equal lastChar) in E.
  rewrite !lastChar_app in E by discriminate. discriminate.
Qed.

Lemma md_not_tmp (a b : string) : a +:+ ".md" <> b +:+ ".tmp".
Proof.
  intros E. apply (f_equal lastChar) in E.
  rewrite !lastChar_app in E by discriminate. discriminate.
Qed.

Lemma app_inj_r (a b suffix : string) : a +:+ suffix = b +:+ suffix -> a = b.
Proof.
  revert b. induction a as [|x a IH]; intros [|y b] E.
  - reflexivity.
  - exfalso. apply (f_equal String.length) in E. rewrite app_nil_l, app_cons in E.
    cbn [String.length] in E. rewrite length_app in E. lia.
  - exfalso. apply (f_equal String.length) in E. rewrite app_nil_l, app_cons in E.
    cbn [String.length] in E. rewrite length_app in E. lia.
  - rewrite !app_cons in E. injection E as -> E. f_equal. auto.
Qed.

Lemma startsWith_app (p s : string) : startsWith p (p +:+ s) = true.
Proof.
  induction p as [|x p IH]; [reflexivity|]. rewrite app_cons. cbn [startsWith].
  rewrite Ascii.eqb_refl, IH. reflexivity.
Qed.

Lemma includes_here (needle s : string) : includes needle (needle +:+ s) = true.
Proof.
  destruct (needle +:+ s) eqn:E; cbn [includes]; rewrite <- E, startsWith_app; reflexivity.
Qed.

Lemma includes_app (a needle b : string) : includes needle (a +:+ needle +:+ b) = true.
Proof.
  induction a as [|x a IH]; [rewrite app_nil_l; apply includes_here|].
  rewrite app_cons. cbn [includes]. rewrite IH. apply orb_true_r.
Qed.

Lemma endsWith_app (a suffix : string) : endsWith suffix (a +:+ suffix) = true.
Proof.
  induction a as [|x a IH].
  - rewrite app_nil_l. destruct suffix; cbn [endsWith]; rewrite String.eqb_refl; reflexivity.
  - rewrite app_cons. cbn [endsWith]. rewrite IH. apply orb_true_r.
Qed.

Lemma endsWith_lastChar (suffix s : string) :
  suffix <> "" -> endsWith suffix s = true -> lastChar s = lastChar suffix.
Proof.
  intros Hs. induction s as [|x s IH]; cbn [endsWith].
  - rewrite orb_false_r. intros E. apply String.eqb_eq in E. congruence.
  - intros E. apply orb_true_iff in E as [E | E].
    + apply String.eqb_eq in E. rewrite E. reflexivity.
    + rewrite <- (IH E). destruct s; [|reflexivity].
      cbn [endsWith] in E. rewrite orb_false_r in E. apply String.eqb_eq in E. contradiction.
Qed.

Lemma tmp_not_md (a : string) : endsWith ".md" (a +:+ ".tmp") = false.
Proof.
  destruct (endsWith ".md" (a +:+ ".tmp")) eqn:E; [|reflexivity].
  apply endsWith_lastChar in E; [|discriminate].
  rewrite lastChar_app in E by discriminate. discriminate.
Qed.

End JSFacts.

Module FsFacts.
Section Dir.
Context {V : Type}.
Implicit Types dir : gmap string V.

(** After the temporary file is written and renamed, the target holds the
    content, the temporary name is free and every other entry is as it
    was. *)
Lemma writeAtomic_eq name content dir :
  Fs.writeAtomic name content dir = <[name := content]> (delete (name +:+ ".tmp") dir).
Proof.
  unfold Fs.writeAtomic, Fs.rename, Fs.writeFile.
  rewrite lookup_insert_eq, delete_insert_eq. reflexivity.
Qed.

Lemma writeAtomic_lookup name content dir :
  Fs.writeAtomic name content dir !! name = Some content.
Proof. rewrite writeAtomic_eq. apply lookup_insert_eq. Qed.

Lemma writeAtomic_lookup_ne name content dir k :
  k <> name -> k <> name +:+ ".tmp" ->
  Fs.writeAtomic name content dir !! k = dir !! k.
Proof.
  intros H1 H2. rewrite writeAtomic_eq, lookup_insert_ne, lookup_delete_ne by congruence.
  reflexivity.
Qed.

End Dir.
End FsFacts.

(* ===================================================================== *)
(** * Facts about the stores *)
(* ===================================================================== *)

Module StoreFacts.

Lemma task_get_save_eq (dir : TaskStorage.Dir) (task : TaskState.t) :
  TaskStorage.get (TaskStorage.save dir task) (TaskState.id task) = Some task.
Proof. apply FsFacts.writeAtomic_lookup. Qed.

Lemma task_get_save_ne (dir : TaskStorage.Dir) (task : TaskState.t) (id : string) :
  id <> TaskState.id task ->
  TaskStorage.get (TaskStorage.save dir task) id = TaskStorage.get dir id.
Proof.
  intros Hne. unfold TaskStorage.get, TaskStorage.save.
  apply FsFacts.writeAtomic_lookup_ne.
  - intros E. apply Hne. exact (JSFacts.app_inj_r _ _ _ E).
  - apply JSFacts.json_not_tmp.
Qed.

Lemma task_get_save (dir : TaskStorage.Dir) (task : TaskState.t) (id : string) :
  TaskStorage.get (TaskStorage.save dir task) id =
  if decide (id = TaskState.id task) then Some task else TaskStorage.get dir id.
Proof.
  case_decide as E; [subst; apply task_get_save_eq | apply task_get_save_ne; assumption].
Qed.

Lemma agent_get_save_eq (dir : AgentStorage.Dir) (agent : AgentConfig.t) :
  AgentStorage.get (AgentStorage.save dir agent) (AgentConfig.name agent) = Some agent.
Proof. unfold AgentStorage.get, AgentStorage.save. rewrite lookup_insert_eq. reflexivity. Qed.

Lemma agent_get_save_ne (dir : AgentStorage.Dir) (agent : AgentConfig.t) (name : string) :
  name <> AgentConfig.name agent ->
  AgentStorage.get (AgentStorage.save dir agent) name = AgentStorage.get dir name.
Proof.
  intros Hne. unfold AgentStorage.get, AgentStorage.save.
  rewrite lookup_insert_ne by congruence. reflexivity.
Qed.

Lemma mailbox_save (dir : AgentStorage.Dir) (agent : AgentConfig.t) (name : string) :
  AgentStorage.mailbox (AgentStorage.save dir agent) name = AgentStorage.mailbox dir name.
Proof.
  unfold AgentStorage.mailbox, AgentStorage.agentDir, AgentStorage.save.
  destruct (decide (name = AgentConfig.name agent)) as [->|Hne].
  - rewrite lookup_insert_eq. reflexivity.
  - rewrite lookup_insert_ne by congruence. reflexivity.
Qed.

(** A delivery writes one file into the mailbox of the parent's assignee
    and touches neither a configuration nor another mailbox. *)
Lemma agent_get_deliver dir now childTaskId childResult childStatus parentTaskId
    parentAgentName name :
  AgentStorage.get
    (DelegationFlow.handleChildCompletion dir now childTaskId childResult childStatus
       parentTaskId parentAgentName) name =
  AgentStorage.get dir name.
Proof.
  unfold AgentStorage.get, DelegationFlow.handleChildCompletion, AgentStorage.agentDir.
  destruct (decide (name = parentAgentName)) as [->|Hne].
  - rewrite lookup_insert_eq. destruct (dir !! parentAgentName); reflexivity.
  - rewrite lookup_insert_ne by congruence. reflexivity.
Qed.

Lemma mailbox_deliver dir now childTaskId childResult childStatus parentTaskId
    parentAgentName :
  AgentStorage.mailbox
    (DelegationFlow.handleChildCompletion dir now childTaskId childResult childStatus
       parentTaskId parentAgentName) parentAgentName =
  Fs.writeAtomic (DelegationFlow.fileName now childTaskId)
    (DelegationFlow.body now childTaskId childResult childStatus)
    (AgentStorage.mailbox dir parentAgentName).
Proof.
  unfold AgentStorage.mailbox, DelegationFlow.handleChildCompletion, AgentStorage.agentDir.
  rewrite lookup_insert_eq. reflexivity.
Qed.

Lemma mailbox_deliver_ne dir now childTaskId childResult childStatus parentTaskId
    parentAgentName name :
  name <> parentAgentName ->
  AgentStorage.mailbox
    (DelegationFlow.handleChildCompletion dir now childTaskId childResult childStatus
       parentTaskId parentAgentName) name =
  AgentStorage.mailbox dir name.
Proof.
  intros Hne.
  unfold AgentStorage.mailbox, DelegationFlow.handleChildCompletion, AgentStorage.agentDir.
  rewrite lookup_insert_ne by congruence. reflexivity.
Qed.

End StoreFacts.

(* ===================================================================== *)
(** * Facts about the engine *)
(* ===================================================================== *)

Module EngineFacts.
Import Engine.

Definition tasksOf (st : State) : TaskStorage.Dir := tasks (workspace st).
Definition agentsOf (st : State) : AgentStorage.Dir := agents (workspace st).

(** The record [completeAgent] saves for the task it found. *)
Definition completedTask (task : TaskState.t) (status : FinalStatus.t)
    (result : option string) (costUsd : option QArith_base.Q)
    (durationMs numTurns : option Z) (clock : CompleteClock) : TaskState.t :=
  TaskState.setTelemetry
    (TaskState.finish task (FinalStatus.toStatus status) result
       (Date.toISOString (completedAt clock)))
    costUsd durationMs numTurns.

(** The record [finish_task] saves for the task it found. *)
Definition finishedTask (task : TaskState.t) (status : FinalStatus.t) (result : string)
    (clock : FinishClock) : TaskState.t :=
  TaskState.finish task (FinalStatus.toStatus status) (Some result)
    (Date.toISOString (finishedAt clock)).

(** The directory [agents/] after the delegation block. *)
Definition afterDelivery (dir : AgentStorage.Dir) (tasks : TaskStorage.Dir)
    (task : TaskState.t) (now : Date.t) (taskId : string) (result : option string)
    (status : FinalStatus.t) : AgentStorage.Dir :=
  if JS.truthy (TaskState.parentTaskId task) && JS.truthy (TaskState.delegatorId task) then
    let parentTaskId := default "" (TaskState.parentTaskId task) in
    match TaskStorage.get tasks parentTaskId with
    | Some parent =>
        DelegationFlow.handleChildCompletion dir now taskId result
          (TaskStatus.toString (FinalStatus.toStatus status))
          parentTaskId (TaskState.assigneeId parent)
    | None => dir
    end
  else dir.

(** The directory [agents/] after the reset of the agent. *)
Definition afterReset (dir : AgentStorage.Dir) (agentName : string) (now : Date.t)
    : AgentStorage.Dir :=
  match AgentStorage.get dir agentName with
  | Some agent =>
      AgentStorage.save dir
        (AgentConfig.setRun agent AgentStatus.idle None (Date.toISOString now))
  | None => dir
  end.

Ltac run_monad :=
  unfold spawnAgent, completeAgent, finish_task, deliver, saveAgent, saveTask, getTask,
    getAgent, emit, bind, gets, modify, ret, throw, setAgents, setTasks, setRunning;
  cbn [fst snd workspace runningAgents concurrencyLimit emitted agents tasks messages
       board org agentConfig task].

Lemma spawnAgent_rejected options clock st :
  (Z.of_nat (size (runningAgents st)) >= concurrencyLimit st)%Z ->
  spawnAgent options clock st =
  (Throw (ConcurrencyLimitReached (concurrencyLimit st)
            (AgentConfig.name (agentConfig options))), st).
Proof.
  intros Hfull. run_monad.
  destruct (Z.geb_spec (Z.of_nat (size (runningAgents st))) (concurrencyLimit st));
    [reflexivity | lia].
Qed.

Lemma spawnAgent_accepted options clock st :
  (Z.of_nat (size (runningAgents st)) < concurrencyLimit st)%Z ->
  spawnAgent options clock st =
  (Ok (TaskState.id (task options)),
   mkState
     (mkWorkspace
        (AgentStorage.save (agentsOf st)
           (AgentConfig.setRun (agentConfig options) AgentStatus.running
              (Some (TaskState.id (task options)))
              (Date.toISOString (agentUpdatedAt clock))))
        (TaskStorage.save (tasksOf st)
           (TaskState.start (task options) (Date.toISOString (taskStartedAt clock))))
        (messages (workspace st)) (board (workspace st)) (org (workspace st)))
     (<[AgentConfig.name (agentConfig options) :=
          mkRunningAgent (AgentConfig.name (agentConfig options))
            (TaskState.id (task options)) (trackedAt clock)]> (runningAgents st))
     (concurrencyLimit st)
     ((emitted st ++
       [agent_status_changed (AgentConfig.name (agentConfig options)) AgentStatus.running]) ++
      [task_status_changed (TaskState.id (task options)) TaskStatus.running])).
Proof.
  intros Hfree. run_monad.
  destruct (Z.geb_spec (Z.of_nat (size (runningAgents st))) (concurrencyLimit st));
    [lia | reflexivity].
Qed.

Lemma spawnAgent_tasks options clock st :
  tasksOf (snd (spawnAgent options clock st)) = tasksOf st \/
  tasksOf (snd (spawnAgent options clock st)) =
  TaskStorage.save (tasksOf st)
    (TaskState.start (task options) (Date.toISOString (taskStartedAt clock))).
Proof.
  destruct (Z_lt_ge_dec (Z.of_nat (size (runningAgents st))) (concurrencyLimit st)).
  - right. rewrite spawnAgent_accepted by assumption. reflexivity.
  - left. rewrite spawnAgent_rejected by assumption. reflexivity.
Qed.

Lemma completeAgent_ok agentName taskId status result costUsd durationMs numTurns clock st :
  fst (completeAgent agentName taskId status result costUsd durationMs numTurns clock st)
  = Ok tt.
Proof.
  run_monad. destruct (TaskStorage.get _ taskId) as [task|]; cbn.
  - destruct (JS.truthy _ && JS.truthy _); cbn.
    + destruct (TaskStorage.get _ _); cbn; destruct (AgentStorage.get _ _); reflexivity.
    + destruct (AgentStorage.get _ _); reflexivity.
  - destruct (AgentStorage.get _ _); reflexivity.
Qed.

Lemma completeAgent_tasks agentName taskId status result costUsd durationMs numTurns clock st :
  tasksOf (snd (completeAgent agentName taskId status result costUsd durationMs numTurns
                  clock st)) =
  match TaskStorage.get (tasksOf st) taskId with
  | Some task =>
      TaskStorage.save (tasksOf st)
        (completedTask task status result costUsd durationMs numTurns clock)
  | None => tasksOf st
  end.
Proof.
  unfold tasksOf. run_monad. destruct (TaskStorage.get _ taskId) as [task|]; cbn.
  - destruct (JS.truthy _ && JS.truthy _); cbn.
    + destruct (TaskStorage.get _ _); cbn; destruct (AgentStorage.get _ _); reflexivity.
    + destruct (AgentStorage.get _ _); reflexivity.
  - destruct (AgentStorage.get _ _); reflexivity.
Qed.

Lemma completeAgent_agents agentName taskId status result costUsd durationMs numTurns clock st :
  agentsOf (snd (completeAgent agentName taskId status result costUsd durationMs numTurns
                   clock st)) =
  afterReset
    (match TaskStorage.get (tasksOf st) taskId with
     | Some task =>
         let task' := completedTask task status result costUsd durationMs numTurns clock in
         afterDelivery (agentsOf st) (TaskStorage.save (tasksOf st) task') task'
           (deliveredAt clock) taskId result status
     | None => agentsOf st
     end)
    agentName (agentResetAt clock).
Proof.
  unfold agentsOf, tasksOf, afterReset, afterDelivery. run_monad.
  destruct (TaskStorage.get _ taskId) as [task|]; cbn.
  - fold (completedTask task status result costUsd durationMs numTurns clock).
    destruct (JS.truthy _ && JS.truthy _); cbn.
    + destruct (TaskStorage.get _ _); cbn; destruct (AgentStorage.get _ _); reflexivity.
    + destruct (AgentStorage.get _ _); reflexivity.
  - destruct (AgentStorage.get _ _); reflexivity.
Qed.

Lemma finish_task_tasks depsTaskId status result clock st :
  tasksOf (snd (finish_task depsTaskId status result clock st)) =
  match TaskStorage.get (tasksOf st) depsTaskId with
  | Some task => TaskStorage.save (tasksOf st) (finishedTask task status result clock)
  | None => tasksOf st
  end.
Proof.
  unfold tasksOf. run_monad. destruct (TaskStorage.get _ depsTaskId) as [task|]; cbn.
  - destruct (JS.truthy _ && JS.truthy _); cbn; [|reflexivity].
    destruct (TaskStorage.get _ _); reflexivity.
  - reflexivity.
Qed.

(** ** Concurrency gate *)

(** C1. When the number of running agents has reached the concurrency
    limit, [spawnAgent] throws and leaves the state as it found it: no
    record of any store is written, no event is emitted, nothing is
    registered or queued.  A new engine has the limit 3. *)
Theorem spawnAgent_rejected_without_effect (options : SpawnOptions) (clock : SpawnClock)
    (st : State) :
  (Z.of_nat (getRunningAgentCount st) >= concurrencyLimit st)%Z ->
  spawnAgent options clock st =
    (Throw (ConcurrencyLimitReached (concurrencyLimit st)
              (AgentConfig.name (agentConfig options))), st) /\
  (forall ws, concurrencyLimit (create ws) = 3%Z).
Proof.
  intros Hfull. split; [|reflexivity]. apply spawnAgent_rejected. exact Hfull.
Qed.

Definition demoClock : Date.t := Date.mk 2024 6 15 10 30 45 123.
Definition demoLater : Date.t := Date.mk 2024 6 15 10 30 45 124.

Definition demoAgent (name : string) : AgentConfig.t :=
  AgentConfig.mk name name "Engineer" "Engineering" AgentLevel.ic "Hardworking"
    AgentStatus.idle None None "2024-06-15T10:00:00.000Z" "2024-06-15T10:00:00.000Z".

Definition demoTask (id : string) (parent : option string) (assignee : string)
    (delegator : option string) : TaskState.t :=
  TaskState.mk id parent assignee delegator "Do something" None 0 TaskStatus.pending []
    None None None None "2024-06-15T10:00:00.000Z" None None.

Definition demoSpawn (agent task : string) : Op :=
  SpawnAgent (mkSpawnOptions (demoAgent agent) (demoTask task None agent None))
    (mkSpawnClock demoClock demoClock demoClock).

(** Three agents are running under the default limit. *)
Definition demoFull : State :=
  run (create (mkWorkspace ∅ ∅ ∅ ∅ None))
    [demoSpawn "a1" "t1"; demoSpawn "a2" "t2"; demoSpawn "a3" "t3"].

Lemma spawnAgent_rejected_without_effect_witness :
  spawnAgent (mkSpawnOptions (demoAgent "a4") (demoTask "t4" None "a4" None))
    (mkSpawnClock demoClock demoClock demoClock) demoFull =
    (Throw (ConcurrencyLimitReached (concurrencyLimit demoFull) "a4"), demoFull) /\
  (forall ws, concurrencyLimit (create ws) = 3%Z).
Proof.
  apply (spawnAgent_rejected_without_effect
           (mkSpawnOptions (demoAgent "a4") (demoTask "t4" None "a4" None))).
  vm_compute. discriminate.
Defined.

(** ** Completion with a missing record *)

(** C9. [completeAgent] never throws.  When no task record is found for
    [taskId], the task store is left alone and the agent record found for
    [agentName] is still written back with [status = idle] and
    [currentTaskId = null], the time of the reset as [updatedAt] and its
    other fields as they were; no other agent record changes.  When no
    agent record is found for [agentName], no agent record changes and
    the task record found for [taskId] is still written back with the
    terminal status, the result and the completion time.  [save] files an
    agent under its [name] and a task under its [id]: the record is
    written back under the name, or the id, it carries, which is
    [agentName], or [taskId], for a record filed where it belongs. *)
Theorem completeAgent_skips_missing_side (agentName taskId : string)
    (status : FinalStatus.t) (result : option string) (costUsd : option QArith_base.Q)
    (durationMs numTurns : option Z) (clock : CompleteClock) (st : State) :
  let r := completeAgent agentName taskId status result costUsd durationMs numTurns clock st in
  fst r = Ok tt /\
  (TaskStorage.get (tasksOf st) taskId = None ->
   tasksOf (snd r) = tasksOf st /\
   forall agent,
     AgentStorage.get (agentsOf st) agentName = Some agent ->
     exists reset,
       AgentStorage.get (agentsOf (snd r)) (AgentConfig.name agent) = Some reset /\
       (AgentConfig.name agent = agentName ->
        AgentStorage.get (agentsOf (snd r)) agentName = Some reset) /\
       AgentConfig.status reset = AgentStatus.idle /\
       AgentConfig.currentTaskId reset = None /\
       AgentConfig.updatedAt reset = Date.toISOString (agentResetAt clock) /\
       AgentConfig.name reset = AgentConfig.name agent /\
       (AgentConfig.displayName reset, AgentConfig.role reset, AgentConfig.department reset,
        AgentConfig.level reset, AgentConfig.personality reset, AgentConfig.avatarColor reset,
        AgentConfig.createdAt reset) =
       (AgentConfig.displayName agent, AgentConfig.role agent, AgentConfig.department agent,
        AgentConfig.level agent, AgentConfig.personality agent, AgentConfig.avatarColor agent,
        AgentConfig.createdAt agent) /\
       forall other,
         other <> AgentConfig.name agent ->
         AgentStorage.get (agentsOf (snd r)) other = AgentStorage.get (agentsOf st) other) /\
  (AgentStorage.get (agentsOf st) agentName = None ->
   (forall name, AgentStorage.get (agentsOf (snd r)) name = AgentStorage.get (agentsOf st) name) /\
   forall task,
     TaskStorage.get (tasksOf st) taskId = Some task ->
     exists done,
       TaskStorage.get (tasksOf (snd r)) (TaskState.id task) = Some done /\
       (TaskState.id task = taskId ->
        TaskStorage.get (tasksOf (snd r)) taskId = Some done) /\
       TaskState.status done = FinalStatus.toStatus status /\
       TaskStatus.terminal (TaskState.status done) = true /\
       TaskState.result done = result /\
       TaskState.completedAt done = Some (Date.toISOString (completedAt clock)) /\
       TaskState.id done = TaskState.id task /\
       (TaskState.parentTaskId done, TaskState.assigneeId done, TaskState.delegatorId done,
        TaskState.prompt done, TaskState.context done, TaskState.priority done,
        TaskState.createdAt done, TaskState.startedAt done) =
       (TaskState.parentTaskId task, TaskState.assigneeId task, TaskState.delegatorId task,
        TaskState.prompt task, TaskState.context task, TaskState.priority task,
        TaskState.createdAt task, TaskState.startedAt task)).
Proof.
  cbv zeta. split_and!.
  - apply completeAgent_ok.
  - intros Hnone. rewrite completeAgent_tasks, completeAgent_agents, Hnone.
    split; [reflexivity|]. intros agent Hagent.
    unfold afterReset. rewrite Hagent.
    exists (AgentConfig.setRun agent AgentStatus.idle None
              (Date.toISOString (agentResetAt clock))).
    split_and!; try reflexivity.
    + apply (StoreFacts.agent_get_save_eq _
               (AgentConfig.setRun agent AgentStatus.idle None
                  (Date.toISOString (agentResetAt clock)))).
    + intros <-.
      apply (StoreFacts.agent_get_save_eq _
               (AgentConfig.setRun agent AgentStatus.idle None
                  (Date.toISOString (agentResetAt clock)))).
    + intros other Hother. apply StoreFacts.agent_get_save_ne. exact Hother.
  - intros Hnone. rewrite completeAgent_tasks, completeAgent_agents. split.
    + intros name. unfold afterReset, afterDelivery.
      destruct (TaskStorage.get (tasksOf st) taskId) as [task|].
      * cbv zeta. destruct (JS.truthy _ && JS.truthy _).
        -- destruct (TaskStorage.get _ _).
           ++ rewrite StoreFacts.agent_get_deliver, Hnone.
              apply StoreFacts.agent_get_deliver.
           ++ rewrite Hnone. reflexivity.
        -- rewrite Hnone. reflexivity.
      * rewrite Hnone. reflexivity.
    + intros task Htask. rewrite Htask.
      exists (completedTask task status result costUsd durationMs numTurns clock).
      split_and!; try reflexivity.
      * apply (StoreFacts.task_get_save_eq _
                 (completedTask task status result costUsd durationMs numTurns clock)).
      * intros <-.
        apply (StoreFacts.task_get_save_eq _
                 (completedTask task status result costUsd durationMs numTurns clock)).
      * destruct status; reflexivity.
Qed.

(** An agent record without its task, and a task record without its agent. *)
Definition demoOrphans : State :=
  setAgents (fun dir =>
               AgentStorage.save dir
                 (AgentConfig.setRun (demoAgent "lonely") AgentStatus.running (Some "missing")
                    "2024-06-15T10:00:00.000Z"))
    (setTasks (fun dir => TaskStorage.save dir (demoTask "stray" None "nobody" None))
       (create (mkWorkspace ∅ ∅ ∅ ∅ None))).

Lemma completeAgent_skips_missing_side_witness :
  (let agents :=
     agentsOf (snd (completeAgent "lonely" "missing" FinalStatus.completed (Some "done")
                      None None None (mkCompleteClock demoLater demoLater demoLater)
                      demoOrphans)) in
   AgentConfig.status <$> AgentStorage.get (agentsOf demoOrphans) "lonely" =
     Some AgentStatus.running /\
   AgentConfig.status <$> AgentStorage.get agents "lonely" = Some AgentStatus.idle /\
   AgentConfig.currentTaskId <$> AgentStorage.get agents "lonely" = Some None) /\
  TaskState.status <$>
    TaskStorage.get
      (tasksOf (snd (completeAgent "nobody" "stray" FinalStatus.failed None
                       None None None (mkCompleteClock demoLater demoLater demoLater)
                       demoOrphans))) "stray" =
    Some TaskStatus.failed.
Proof.
  cbv zeta. split.
  - destruct (proj2 (proj1 (proj2 (completeAgent_skips_missing_side "lonely" "missing"
                FinalStatus.completed (Some "done") None None None
                (mkCompleteClock demoLater demoLater demoLater) demoOrphans)) eq_refl)
                _ eq_refl) as (reset & _ & Hkey & Hstatus & Htask & _).
    rewrite (Hkey eq_refl). cbn [fmap option_fmap option_map]. rewrite Hstatus, Htask.
    split_and!; reflexivity.
  - destruct (proj2 (proj2 (proj2 (completeAgent_skips_missing_side "nobody" "stray"
                FinalStatus.failed None None None None
                (mkCompleteClock demoLater demoLater demoLater) demoOrphans)) eq_refl)
                (demoTask "stray" None "nobody" None) eq_refl)
      as (done & _ & Hkey & Hstatus & _).
    rewrite (Hkey eq_refl). cbn [fmap option_fmap option_map]. rewrite Hstatus.
    reflexivity.
Defined.

(** ** Terminal states *)

(** The task stored under [id] is in a terminal state. *)
Definition terminalAt (st : State) (id : string) : Prop :=
  exists task,
    TaskStorage.get (tasksOf st) id = Some task /\
    TaskStatus.terminal (TaskState.status task) = true.

(** The operation is a [spawnAgent] for the task [id]. *)
Definition spawns (id : string) (op : Op) : Prop :=
  match op with
  | SpawnAgent options _ => TaskState.id (task options) = id
  | _ => False
  end.

Lemma terminal_toStatus (s : FinalStatus.t) :
  TaskStatus.terminal (FinalStatus.toStatus s) = true.
Proof. destruct s; reflexivity. Qed.

Lemma terminal_after_save (dir : TaskStorage.Dir) (saved : TaskState.t) (id : string) :
  TaskStatus.terminal (TaskState.status saved) = true ->
  (exists task, TaskStorage.get dir id = Some task /\
                TaskStatus.terminal (TaskState.status task) = true) ->
  exists task, TaskStorage.get (TaskStorage.save dir saved) id = Some task /\
               TaskStatus.terminal (TaskState.status task) = true.
Proof.
  intros Hsaved (task & Hget & Hterm). rewrite StoreFacts.task_get_save.
  case_decide; eauto.
Qed.

Lemma step_terminal (st : State) (op : Op) (id : string) :
  terminalAt st id -> ~ spawns id op -> terminalAt (step st op) id.
Proof.
  unfold terminalAt. intros Hterm Hop.
  destruct op as [options clock
                 | agentName tid status result costUsd durationMs numTurns clock
                 | tid status result clock]; cbn [step].
  - destruct (spawnAgent_tasks options clock st) as [-> | ->]; [assumption|].
    rewrite StoreFacts.task_get_save_ne; [assumption|].
    intros E. apply Hop. cbn. symmetry. exact E.
  - rewrite completeAgent_tasks.
    destruct (TaskStorage.get (tasksOf st) tid) as [task|]; [|assumption].
    apply terminal_after_save; [apply terminal_toStatus | assumption].
  - rewrite finish_task_tasks.
    destruct (TaskStorage.get (tasksOf st) tid) as [task|]; [|assumption].
    apply terminal_after_save; [apply terminal_toStatus | assumption].
Qed.

(** C2, as the specification states it, fails: the engine never looks at
    the status a task has.  After [spawnAgent] and [completeAgent] have
    brought a task to [completed], a second [spawnAgent] on the record
    read back from the store sets it to [running], and a second
    [completeAgent] turns [completed] into [failed]. *)
Lemma terminal_state_left_counterexample :
  let clock := mkCompleteClock demoLater demoLater demoLater in
  let st0 :=
    setAgents (fun dir => AgentStorage.save dir (demoAgent "eng"))
      (setTasks (fun dir => TaskStorage.save dir (demoTask "T1" None "eng" None))
         (create (mkWorkspace ∅ ∅ ∅ ∅ None))) in
  let st1 :=
    run st0 [demoSpawn "eng" "T1";
             CompleteAgent "eng" "T1" FinalStatus.completed (Some "done") None None None clock] in
  let again :=
    match TaskStorage.get (tasksOf st1) "T1" with
    | Some stored =>
        [SpawnAgent (mkSpawnOptions (demoAgent "eng") stored)
           (mkSpawnClock demoLater demoLater demoLater)]
    | None => []
    end in
  TaskState.status <$> TaskStorage.get (tasksOf st1) "T1" = Some TaskStatus.completed /\
  TaskState.status <$> TaskStorage.get (tasksOf (run st1 again)) "T1" =
    Some TaskStatus.running /\
  TaskState.status <$>
    TaskStorage.get
      (tasksOf (run st1 [CompleteAgent "eng" "T1" FinalStatus.failed None None None None clock]))
      "T1" = Some TaskStatus.failed.
Proof. cbv zeta. split_and!; vm_compute; reflexivity. Qed.

(** C2 (amended). Once the task stored under an id is in a terminal
    state, it is in a terminal state after every sequence of
    [completeAgent], [finish_task] and [spawnAgent] calls in which no
    [spawnAgent] is given a task of that id; a later [completeAgent] or
    [finish_task] may replace its status by another terminal status. *)
Theorem terminal_stays_terminal (st : State) (ops : list Op) (id : string) :
  terminalAt st id ->
  Forall (fun op => ~ spawns id op) ops ->
  terminalAt (run st ops) id.
Proof.
  intros Hterm Hops. revert st Hterm.
  induction Hops as [|op ops Hop _ IH]; intros st Hterm; [assumption|].
  cbn [run fold_left]. apply IH. apply step_terminal; assumption.
Qed.

Lemma terminal_stays_terminal_witness :
  terminalAt
    (run
       (setTasks (fun dir =>
          TaskStorage.save dir
            (TaskState.finish (demoTask "T1" None "eng" None) TaskStatus.completed
               (Some "done") "2024-06-15T10:30:45.124Z"))
          (create (mkWorkspace ∅ ∅ ∅ ∅ None)))
       [demoSpawn "other" "T2";
        FinishTask "T1" FinalStatus.blocked "late" (mkFinishClock demoLater demoLater);
        CompleteAgent "eng" "T1" FinalStatus.failed None None None None
          (mkCompleteClock demoLater demoLater demoLater)])
    "T1".
Proof.
  apply terminal_stays_terminal.
  - eexists. split; [vm_compute; reflexivity | reflexivity].
  - repeat constructor; cbn; try tauto. discriminate.
Defined.

End EngineFacts.

(* ===================================================================== *)
(** * Facts about dates and the delegation flow *)
(* ===================================================================== *)

Module DateFacts.
Import JSFacts.

Lemma compare_cons (c : ascii) (s1 s2 : string) :
  String.compare (String c s1) (String c s2) = String.compare s1 s2.
Proof.
  cbn [String.compare]. unfold Ascii.compare. rewrite N.compare_refl. reflexivity.
Qed.

Lemma digit_compare (a b : nat) :
  a < 10 -> b < 10 -> Ascii.compare (Date.digit a) (Date.digit b) = Nat.compare a b.
Proof.
  intros Ha Hb.
  do 10 (destruct a as [|a]; [do 10 (destruct b as [|b]; [reflexivity|]); lia|]); lia.
Qed.

Lemma pow10_pos (w : nat) : 0 < 10 ^ w.
Proof. apply Nat.neq_0_lt_0. apply Nat.pow_nonzero. discriminate. Qed.

(** Zero-padded decimals of one width compare as the numbers do. *)
Lemma compare_pad (w n m : nat) (s1 s2 : string) :
  n < 10 ^ w -> m < 10 ^ w ->
  String.compare (Date.pad w n +:+ s1) (Date.pad w m +:+ s2) =
  match Nat.compare n m with
  | Eq => String.compare s1 s2
  | c => c
  end.
Proof.
  revert n m. induction w as [|w IH]; intros n m Hn Hm.
  - cbn in Hn, Hm. replace n with 0 by lia. replace m with 0 by lia. reflexivity.
  - cbn [Date.pad]. rewrite !app_cons. cbn [String.compare].
    pose proof (pow10_pos w) as Hpos.
    assert (Hqn : n / 10 ^ w < 10).
    { apply Nat.Div0.div_lt_upper_bound. rewrite Nat.pow_succ_r' in Hn. lia. }
    assert (Hqm : m / 10 ^ w < 10).
    { apply Nat.Div0.div_lt_upper_bound. rewrite Nat.pow_succ_r' in Hm. lia. }
    rewrite digit_compare by assumption.
    pose proof (Nat.div_mod_eq n (10 ^ w)) as En.
    pose proof (Nat.div_mod_eq m (10 ^ w)) as Em.
    pose proof (Nat.mod_upper_bound n (10 ^ w)) as Hrn.
    pose proof (Nat.mod_upper_bound m (10 ^ w)) as Hrm.
    destruct (Nat.compare_spec (n / 10 ^ w) (m / 10 ^ w)) as [Eq | Hlt | Hgt].
    + rewrite IH by lia.
      destruct (Nat.compare_spec (n mod 10 ^ w) (m mod 10 ^ w)) as [Er | Hr | Hr].
      * replace m with n by (rewrite En, Em, Eq, Er; reflexivity).
        rewrite Nat.compare_refl. reflexivity.
      * assert (n < m) as ->%Nat.compare_lt_iff; [rewrite En, Em, Eq; lia | reflexivity].
      * assert (m < n) as ->%Nat.compare_gt_iff; [rewrite En, Em, Eq; lia | reflexivity].
    + assert (n < m) as ->%Nat.compare_lt_iff; [|reflexivity]. nia.
    + assert (m < n) as ->%Nat.compare_gt_iff; [|reflexivity]. nia.
Qed.

Lemma mapChars_app (f : ascii -> ascii) (a b : string) :
  JS.mapChars f (a +:+ b) = JS.mapChars f a +:+ JS.mapChars f b.
Proof.
  induction a as [|x a IH]; [reflexivity|].
  rewrite app_cons. cbn [JS.mapChars]. rewrite IH, app_cons. reflexivity.
Qed.

Lemma mapChars_pad (f : ascii -> ascii) (w n : nat) :
  (forall k, k < 10 -> f (ascii_of_nat (48 + k)) = ascii_of_nat (48 + k)) ->
  JS.mapChars f (Date.pad w n) = Date.pad w n.
Proof.
  intros Hf. revert n. induction w as [|w IH]; intros n; [reflexivity|].
  cbn [Date.pad JS.mapChars]. rewrite IH. f_equal.
  unfold Date.digit. apply Hf. apply Nat.mod_upper_bound. discriminate.
Qed.

(** The time stamp of a file name, field by field. *)
Lemma stamp_eq (d : Date.t) :
  DelegationFlow.stamp d =
  Date.pad 4 (Date.year d) +:+ "-" +:+ Date.pad 2 (Date.month d) +:+ "-" +:+
  Date.pad 2 (Date.day d) +:+ "T" +:+ Date.pad 2 (Date.hours d) +:+ "-" +:+
  Date.pad 2 (Date.minutes d) +:+ "-" +:+ Date.pad 2 (Date.seconds d) +:+ "-" +:+
  Date.pad 3 (Date.milliseconds d) +:+ "Z".
Proof.
  unfold DelegationFlow.stamp, Date.toISOString.
  rewrite !mapChars_app.
  rewrite !mapChars_pad; [reflexivity | ..];
    intros k Hk; do 10 (destruct k as [|k]; [reflexivity|]); lia.
Qed.

(** File names of deliveries sort as their time stamps do. *)
Lemma fileName_sorted (now1 now2 : Date.t) (id1 id2 : string) :
  Date.valid now1 -> Date.valid now2 -> Date.before now1 now2 ->
  String.ltb (DelegationFlow.fileName now1 id1) (DelegationFlow.fileName now2 id2) = true.
Proof.
  intros (Hy1 & Hm1 & Hd1 & Hh1 & Hmi1 & Hs1 & Hms1)
         (Hy2 & Hm2 & Hd2 & Hh2 & Hmi2 & Hs2 & Hms2).
  unfold Date.before, Date.fields, String.ltb, DelegationFlow.fileName. cbn [Date.lexCompare].
  rewrite !stamp_eq, !app_assoc, !app_cons, !app_nil_l.
  rewrite (compare_pad 4 _ _ _ _ Hy1 Hy2).
  destruct (Nat.compare (Date.year now1) (Date.year now2)); [|reflexivity|discriminate].
  rewrite compare_cons, compare_pad by (cbn; lia).
  destruct (Nat.compare (Date.month now1) (Date.month now2)); [|reflexivity|discriminate].
  rewrite compare_cons, compare_pad by (cbn; lia).
  destruct (Nat.compare (Date.day now1) (Date.day now2)); [|reflexivity|discriminate].
  rewrite compare_cons, compare_pad by (cbn; lia).
  destruct (Nat.compare (Date.hours now1) (Date.hours now2)); [|reflexivity|discriminate].
  rewrite compare_cons, compare_pad by (cbn; lia).
  destruct (Nat.compare (Date.minutes now1) (Date.minutes now2)); [|reflexivity|discriminate].
  rewrite compare_cons, compare_pad by (cbn; lia).
  destruct (Nat.compare (Date.seconds now1) (Date.seconds now2)); [|reflexivity|discriminate].
  rewrite compare_cons, compare_pad by (cbn; lia).
  destruct (Nat.compare (Date.milliseconds now1) (Date.milliseconds now2));
    [discriminate|reflexivity|discriminate].
Qed.

End DateFacts.

Module DelegationFacts.
Import JSFacts Engine EngineFacts.

Lemma includes_prefix (p needle s : string) :
  JS.includes needle s = true -> JS.includes needle (p +:+ s) = true.
Proof.
  intros H. induction p as [|x p IH]; [assumption|].
  rewrite app_cons. cbn [JS.includes]. rewrite IH. apply orb_true_r.
Qed.

Lemma includes_line (label value rest : string) :
  JS.includes (label +:+ value +:+ JS.nl) (label +:+ value +:+ JS.nl +:+ rest) = true.
Proof.
  rewrite <- (app_assoc value JS.nl rest), <- (app_assoc label (value +:+ JS.nl) rest).
  apply includes_here.
Qed.

Lemma endsWith_prefix (p suffix s : string) :
  JS.endsWith suffix s = true -> JS.endsWith suffix (p +:+ s) = true.
Proof.
  intros H. induction p as [|x p IH]; [assumption|].
  rewrite app_cons. cbn [JS.endsWith]. rewrite IH. apply orb_true_r.
Qed.

Lemma endsWith_refl (s : string) : JS.endsWith s s = true.
Proof. destruct s; cbn [JS.endsWith]; rewrite String.eqb_refl; reflexivity. Qed.

(** The label lines of a delivery body hold the values verbatim. *)
Lemma body_includes (now : Date.t) (childTaskId : string) (childResult : option string)
    (childStatus : string) :
  let text := DelegationFlow.body now childTaskId childResult childStatus in
  JS.includes ("**Task ID**: " +:+ childTaskId +:+ JS.nl) text = true /\
  JS.includes ("**Status**: " +:+ childStatus +:+ JS.nl) text = true /\
  JS.includes ("**Completed**: " +:+ Date.toISOString now +:+ JS.nl) text = true /\
  JS.endsWith ("---" +:+ JS.nl +:+ JS.nl +:+ DelegationFlow.resultText childResult +:+ JS.nl)
    text = true.
Proof.
  cbv zeta. unfold DelegationFlow.body. split_and!.
  - do 3 apply includes_prefix. apply includes_line.
  - do 6 apply includes_prefix. apply includes_line.
  - do 9 apply includes_prefix. apply includes_line.
  - do 13 apply endsWith_prefix. apply endsWith_refl.
Qed.

Lemma startsWith_split (p t : string) :
  JS.startsWith p t = true -> exists tail, t = p +:+ tail.
Proof.
  revert t. induction p as [|c p IH]; intros t Ht.
  - exists t. reflexivity.
  - destruct t as [|d t]; [discriminate|]. cbn [JS.startsWith] in Ht.
    apply andb_true_iff in Ht as [Hc Ht]. apply Ascii.eqb_eq in Hc. subst d.
    destruct (IH _ Ht) as [tail ->]. exists tail. reflexivity.
Qed.

Lemma includes_split (needle s : string) :
  JS.includes needle s = true -> exists a b, s = a +:+ needle +:+ b.
Proof.
  induction s as [|x s IH]; cbn [JS.includes]; intros H.
  - rewrite orb_false_r in H. destruct (startsWith_split _ _ H) as [tail ->].
    exists "", tail. reflexivity.
  - apply orb_true_iff in H as [H | H].
    + destruct (startsWith_split _ _ H) as [tail ->]. exists "", tail. reflexivity.
    + destruct (IH H) as (a & b & ->). exists (String x a), b. reflexivity.
Qed.

(** What a label line holds is held by the text. *)
Lemma includes_value (label value rest s : string) :
  JS.includes (label +:+ value +:+ rest) s = true -> JS.includes value s = true.
Proof.
  intros H. destruct (includes_split _ _ H) as (a & b & ->).
  rewrite !app_assoc, <- (app_assoc a label). apply includes_app.
Qed.

(** ** The artifact body *)

(** C4, as the specification states it, fails: an empty result is not
    replaced by the placeholder (only null is), and the result text is
    trimmed before it is written. *)
Lemma delivery_empty_result_counterexample :
  JS.includes "(no result provided)"
    (DelegationFlow.body demoClock "T1" (Some "") "completed") = false /\
  JS.includes " padded "
    (DelegationFlow.body demoClock "T1" (Some " padded ") "completed") = false.
Proof. split; vm_compute; reflexivity. Qed.

(** C4 (amended). Every delivery writes a body that holds the child task
    id, the status and the ISO time of the delivery verbatim on their
    label lines, and ends with the rule and the result text, which is the
    result with leading and trailing white space removed, or the
    placeholder "(no result provided)" when the result is null. *)
Theorem delivery_body_records (dir : AgentStorage.Dir) (now : Date.t)
    (childTaskId : string) (childResult : option string) (childStatus : string)
    (parentTaskId parentAgentName : string) :
  let text := DelegationFlow.body now childTaskId childResult childStatus in
  AgentStorage.mailbox
    (DelegationFlow.handleChildCompletion dir now childTaskId childResult childStatus
       parentTaskId parentAgentName) parentAgentName
    !! DelegationFlow.fileName now childTaskId = Some text /\
  JS.includes ("**Task ID**: " +:+ childTaskId +:+ JS.nl) text = true /\
  JS.includes ("**Status**: " +:+ childStatus +:+ JS.nl) text = true /\
  JS.includes ("**Completed**: " +:+ Date.toISOString now +:+ JS.nl) text = true /\
  JS.endsWith ("---" +:+ JS.nl +:+ JS.nl +:+ DelegationFlow.resultText childResult +:+ JS.nl)
    text = true /\
  DelegationFlow.resultText childResult =
    match childResult with
    | Some r => JS.trim r
    | None => "(no result provided)"
    end.
Proof.
  cbv zeta. split.
  - rewrite StoreFacts.mailbox_deliver. apply FsFacts.writeAtomic_lookup.
  - pose proof (body_includes now childTaskId childResult childStatus) as H.
    cbv zeta in H. split_and!; first [tauto | destruct childResult; reflexivity].
Qed.

(** ** The artifact file *)

(** The result files of a mailbox: the entries [getPendingResults] reads. *)
Definition artifacts (mailbox : gmap string string) : gmap string string :=
  filter (fun entry => JS.endsWith ".md" entry.1 = true) mailbox.

Lemma artifacts_writeAtomic (mailbox : gmap string string) (stem content : string) :
  artifacts (Fs.writeAtomic (stem +:+ ".md") content mailbox) =
  <[stem +:+ ".md" := content]> (artifacts mailbox).
Proof.
  unfold artifacts. rewrite FsFacts.writeAtomic_eq.
  rewrite map_filter_insert_True by (cbn; apply endsWith_app).
  rewrite map_filter_delete_not; [reflexivity|].
  intros y _. cbn. rewrite tmp_not_md. discriminate.
Qed.

Lemma fileName_md (now : Date.t) (childTaskId : string) :
  DelegationFlow.fileName now childTaskId =
  (DelegationFlow.stamp now +:+ "-" +:+ childTaskId) +:+ ".md".
Proof. unfold DelegationFlow.fileName. rewrite !app_assoc. reflexivity. Qed.

Lemma mailbox_afterReset dir agentName now name :
  AgentStorage.mailbox (afterReset dir agentName now) name = AgentStorage.mailbox dir name.
Proof.
  unfold afterReset. destruct (AgentStorage.get dir agentName); [|reflexivity].
  apply StoreFacts.mailbox_save.
Qed.

Lemma truthy_Some (s : string) : s <> "" -> JS.truthy (Some s) = true.
Proof.
  intros H. cbn. apply negb_true_iff. apply String.eqb_neq. exact H.
Qed.

(** The mailbox of the parent's assignee after [completeAgent] has
    delivered. *)
Lemma completeAgent_mailbox agentName taskId status result costUsd durationMs numTurns clock
    st task pid delegator parent :
  TaskStorage.get (tasksOf st) taskId = Some task ->
  TaskState.parentTaskId task = Some pid -> pid <> "" ->
  TaskState.delegatorId task = Some delegator -> delegator <> "" ->
  TaskStorage.get
    (TaskStorage.save (tasksOf st)
       (completedTask task status result costUsd durationMs numTurns clock)) pid
    = Some parent ->
  forall name,
    AgentStorage.mailbox
      (agentsOf (snd (completeAgent agentName taskId status result costUsd durationMs
                        numTurns clock st))) name =
    if decide (name = TaskState.assigneeId parent) then
      Fs.writeAtomic (DelegationFlow.fileName (deliveredAt clock) taskId)
        (DelegationFlow.body (deliveredAt clock) taskId result
           (TaskStatus.toString (FinalStatus.toStatus status)))
        (AgentStorage.mailbox (agentsOf st) name)
    else AgentStorage.mailbox (agentsOf st) name.
Proof.
  intros Htask Hpid Hpid' Hdel Hdel' Hparent name.
  rewrite completeAgent_agents, Htask, mailbox_afterReset. cbv zeta.
  unfold afterDelivery.
  replace (TaskState.parentTaskId (completedTask task status result costUsd durationMs
                                     numTurns clock)) with (Some pid)
    by (rewrite <- Hpid; reflexivity).
  replace (TaskState.delegatorId (completedTask task status result costUsd durationMs
                                    numTurns clock)) with (Some delegator)
    by (rewrite <- Hdel; reflexivity).
  rewrite !truthy_Some by assumption. cbn [andb from_option]. unfold id.
  rewrite Hparent.
  case_decide as E.
  - subst name. apply StoreFacts.mailbox_deliver.
  - apply StoreFacts.mailbox_deliver_ne. exact E.
Qed.

(** C3, as the specification states it, fails twice.  The guard of the
    delegation block is the truthiness of [parentTaskId] and
    [delegatorId]: a task whose [delegatorId] is the empty string, which
    is not null, delivers nothing although its parent is found.  And the
    file name repeats when the same child is completed again within the
    millisecond of the clock: the second delivery replaces the first and
    the mailbox still holds one artifact. *)
Lemma delivery_counterexample :
  let clock := mkCompleteClock demoLater demoLater demoLater in
  let start (delegator : string) :=
    setTasks (fun dir =>
      TaskStorage.save
        (TaskStorage.save dir (demoTask "T0" None "ceo" None))
        (demoTask "T1" (Some "T0") "eng" (Some delegator)))
      (create (mkWorkspace ∅ ∅ ∅ ∅ None)) in
  let once (delegator result : string) :=
    run (start delegator)
      [CompleteAgent "eng" "T1" FinalStatus.completed (Some result) None None None clock] in
  let twice :=
    run (once "ceo" "first")
      [CompleteAgent "eng" "T1" FinalStatus.completed (Some "second") None None None clock] in
  artifacts (AgentStorage.mailbox (agentsOf (once "" "first")) "ceo") = ∅ /\
  size (artifacts (AgentStorage.mailbox (agentsOf (once "ceo" "first")) "ceo")) = 1 /\
  size (artifacts (AgentStorage.mailbox (agentsOf twice) "ceo")) = 1 /\
  AgentStorage.mailbox (agentsOf (once "ceo" "first")) "ceo"
    !! DelegationFlow.fileName demoLater "T1" =
    Some (DelegationFlow.body demoLater "T1" (Some "first") "completed") /\
  AgentStorage.mailbox (agentsOf twice) "ceo"
    !! DelegationFlow.fileName demoLater "T1" =
    Some (DelegationFlow.body demoLater "T1" (Some "second") "completed").
Proof. cbv zeta. split_and!; vm_compute; reflexivity. Qed.

(** C3 (amended). For every call to [completeAgent] on a task whose
    [parentTaskId] and [delegatorId] are neither null nor empty and whose
    parent task is found, the mailbox of the parent task's assignee gets
    the file named by the time stamp of the delivery, a hyphen, the child
    task id and [.md], holding a body with the child task id and the
    status verbatim; the other result artifacts of that mailbox and the
    other mailboxes stay as they were, so that exactly one artifact is new
    whenever no file of that name was there (a file of that name is
    replaced).  For clock readings with a four-digit year the file names
    of two deliveries sort as their time stamps do. *)
Theorem completeAgent_delivers (agentName taskId : string) (status : FinalStatus.t)
    (result : option string) (costUsd : option QArith_base.Q)
    (durationMs numTurns : option Z) (clock : CompleteClock) (st : State)
    (task parent : TaskState.t) (pid delegator : string) :
  TaskStorage.get (tasksOf st) taskId = Some task ->
  TaskState.parentTaskId task = Some pid -> pid <> "" ->
  TaskState.delegatorId task = Some delegator -> delegator <> "" ->
  TaskStorage.get
    (TaskStorage.save (tasksOf st)
       (completedTask task status result costUsd durationMs numTurns clock)) pid
    = Some parent ->
  let st' :=
    snd (completeAgent agentName taskId status result costUsd durationMs numTurns clock st) in
  let assignee := TaskState.assigneeId parent in
  let name := DelegationFlow.fileName (deliveredAt clock) taskId in
  let text :=
    DelegationFlow.body (deliveredAt clock) taskId result
      (TaskStatus.toString (FinalStatus.toStatus status)) in
  let before := AgentStorage.mailbox (agentsOf st) assignee in
  let after := AgentStorage.mailbox (agentsOf st') assignee in
  name = DelegationFlow.stamp (deliveredAt clock) +:+ "-" +:+ taskId +:+ ".md" /\
  artifacts after = <[name := text]> (artifacts before) /\
  (before !! name = None -> size (artifacts after) = S (size (artifacts before))) /\
  (forall other,
     other <> assignee ->
     AgentStorage.mailbox (agentsOf st') other = AgentStorage.mailbox (agentsOf st) other) /\
  JS.includes taskId text = true /\
  JS.includes (TaskStatus.toString (FinalStatus.toStatus status)) text = true /\
  (forall now1 now2 id1 id2,
     Date.valid now1 -> Date.valid now2 -> Date.before now1 now2 ->
     String.ltb (DelegationFlow.fileName now1 id1) (DelegationFlow.fileName now2 id2) = true).
Proof.
  intros Htask Hpid Hpid' Hdel Hdel' Hparent. cbv zeta.
  pose proof (completeAgent_mailbox agentName taskId status result costUsd durationMs
                numTurns clock st task pid delegator parent
                Htask Hpid Hpid' Hdel Hdel' Hparent) as Hmail.
  pose proof (body_includes (deliveredAt clock) taskId result
                (TaskStatus.toString (FinalStatus.toStatus status))) as Hbody.
  cbv zeta in Hbody. destruct Hbody as (Hid & Hstatus & _ & _).
  assert (Hart :
    artifacts (AgentStorage.mailbox
                 (agentsOf (snd (completeAgent agentName taskId status result costUsd
                                   durationMs numTurns clock st)))
                 (TaskState.assigneeId parent)) =
    <[DelegationFlow.fileName (deliveredAt clock) taskId :=
        DelegationFlow.body (deliveredAt clock) taskId result
          (TaskStatus.toString (FinalStatus.toStatus status))]>
      (artifacts (AgentStorage.mailbox (agentsOf st) (TaskState.assigneeId parent)))).
  { rewrite Hmail. rewrite decide_True by reflexivity.
    rewrite fileName_md. apply artifacts_writeAtomic. }
  split_and!.
  - reflexivity.
  - exact Hart.
  - intros Hfresh. rewrite Hart. apply map_size_insert_None.
    unfold artifacts. apply map_lookup_filter_None. left. exact Hfresh.
  - intros other Hother. rewrite Hmail. rewrite decide_False by assumption. reflexivity.
  - exact (includes_value _ _ _ _ Hid).
  - exact (includes_value _ _ _ _ Hstatus).
  - apply DateFacts.fileName_sorted.
Qed.

(** The scenario of the specification: "eng" completes T1, delegated by
    "ceo" under T0. *)
Definition demoDelegation : State :=
  run
    (setAgents (fun dir => AgentStorage.save dir (demoAgent "eng"))
       (setTasks (fun dir =>
          TaskStorage.save
            (TaskStorage.save dir (demoTask "T0" None "ceo" None))
            (demoTask "T1" (Some "T0") "eng" (Some "ceo")))
          (create (mkWorkspace ∅ ∅ ∅ ∅ None))))
    [SpawnAgent (mkSpawnOptions (demoAgent "eng") (demoTask "T1" (Some "T0") "eng" (Some "ceo")))
       (mkSpawnClock demoClock demoClock demoClock)].

Lemma completeAgent_delivers_witness :
  let st' :=
    snd (completeAgent "eng" "T1" FinalStatus.completed (Some "done") None None None
           (mkCompleteClock demoLater demoLater demoLater) demoDelegation) in
  size (artifacts (AgentStorage.mailbox (agentsOf st') "ceo")) = 1 /\
  JS.includes "T1" (DelegationFlow.body demoLater "T1" (Some "done") "completed") = true /\
  String.ltb (DelegationFlow.fileName demoClock "T1") (DelegationFlow.fileName demoLater "T0")
    = true.
Proof.
  cbv zeta.
  destruct (completeAgent_delivers "eng" "T1" FinalStatus.completed (Some "done")
              None None None (mkCompleteClock demoLater demoLater demoLater) demoDelegation
              (TaskState.start (demoTask "T1" (Some "T0") "eng" (Some "ceo"))
                 (Date.toISOString demoClock))
              (demoTask "T0" None "ceo" None) "T0" "ceo")
    as (_ & _ & Hsize & _ & Hid & _ & Hsort).
  - vm_compute. reflexivity.
  - reflexivity.
  - discriminate.
  - reflexivity.
  - discriminate.
  - vm_compute. reflexivity.
  - split_and!.
    + etransitivity; [apply Hsize; vm_compute; reflexivity | vm_compute; reflexivity].
    + exact Hid.
    + apply Hsort; [vm_compute; lia | vm_compute; lia | reflexivity].
Defined.

End DelegationFacts.

(* ===================================================================== *)
(** * Facts about the listings *)
(* ===================================================================== *)

Module SortFacts.

Section Elements.
Context {A : Type} (compare : A -> A -> option Z).

Lemma elem_insert (a x : A) (l : list A) : x ∈ Sort.insert compare a l <-> x = a \/ x ∈ l.
Proof.
  induction l as [|y l IH]; cbn [Sort.insert].
  - rewrite list_elem_of_singleton, elem_of_nil. tauto.
  - destruct (Sort.before compare a y).
    + rewrite elem_of_cons. tauto.
    + rewrite !elem_of_cons, IH. tauto.
Qed.

Lemma elem_sort (x : A) (l : list A) : x ∈ Sort.sort compare l <-> x ∈ l.
Proof.
  induction l as [|y l IH]; [reflexivity|].
  cbn [Sort.sort foldr]. fold (Sort.sort compare l).
  rewrite elem_insert, IH, elem_of_cons. tauto.
Qed.

End Elements.

Section Sorting.
Context {A : Type} (compare : A -> A -> option Z) (key : A -> Z).

(** The comparator orders the elements of [l] by [key]. *)
Definition agrees (l : list A) : Prop :=
  forall x y, x ∈ l -> y ∈ l -> compare x y = Some (key x - key y)%Z.

Definition byKey (x y : A) : Prop := (key x <= key y)%Z.

Lemma insert_sorted (a : A) (l : list A) :
  agrees (a :: l) -> StronglySorted byKey l ->
  StronglySorted byKey (Sort.insert compare a l).
Proof.
  intros Hag Hs. induction Hs as [|y l Hs IH Hy]; cbn [Sort.insert].
  - constructor; constructor.
  - unfold Sort.before. rewrite (Hag a y) by set_solver.
    destruct (Z.leb_spec (key a - key y) 0) as [Hle | Hgt].
    + constructor; [constructor; assumption|].
      constructor; [unfold byKey; lia|].
      eapply Forall_impl; [exact Hy|]. unfold byKey. intros z Hz. cbn in Hz. lia.
    + constructor.
      * apply IH. intros u v Hu Hv. apply Hag; set_solver.
      * apply Forall_forall. intros z Hz. apply elem_insert in Hz as [-> | Hz].
        -- unfold byKey. lia.
        -- rewrite Forall_forall in Hy. auto.
Qed.

Lemma sort_sorted (l : list A) : agrees l -> StronglySorted byKey (Sort.sort compare l).
Proof.
  induction l as [|a l IH]; intros Hag; [constructor|].
  cbn [Sort.sort foldr]. fold (Sort.sort compare l). apply insert_sorted.
  - intros u v Hu Hv. apply Hag.
    + apply elem_of_cons in Hu as [-> | Hu]; [left | right; exact (proj1 (elem_sort _ _ _) Hu)].
    + apply elem_of_cons in Hv as [-> | Hv]; [left | right; exact (proj1 (elem_sort _ _ _) Hv)].
  - apply IH. intros u v Hu Hv. apply Hag; right; assumption.
Qed.

Lemma sorted_weaken (R R' : A -> A -> Prop) (l : list A) :
  (forall x y, x ∈ l -> y ∈ l -> R x y -> R' x y) ->
  StronglySorted R l -> StronglySorted R' l.
Proof.
  intros Himp Hs. induction Hs as [|a l Hs IH Ha]; [constructor|].
  constructor.
  - apply IH. intros x y Hx Hy. apply Himp; right; assumption.
  - apply Forall_forall. intros z Hz. rewrite Forall_forall in Ha.
    apply Himp; [left | right; assumption | auto].
Qed.

End Sorting.

(** The date strings [a] and [b] are read as times, [a] not after [b]. *)
Definition notAfter (getTime : string -> option Z) (a b : string) : Prop :=
  exists x y, getTime a = Some x /\ getTime b = Some y /\ (x <= y)%Z.

(** The same, [a] strictly before [b]. *)
Definition strictlyBefore (getTime : string -> option Z) (a b : string) : Prop :=
  exists x y, getTime a = Some x /\ getTime b = Some y /\ (x < y)%Z.

(** Sorting by [createdAt], oldest first or newest first, when every date
    string of the list can be read. *)
Lemma sort_by_date {A : Type} (getTime : string -> option Z) (date : A -> string)
    (l : list A) :
  (forall x, x ∈ l -> is_Some (getTime (date x))) ->
  StronglySorted (fun a b => notAfter getTime (date a) (date b))
    (Sort.sort (fun a b => Sort.timeDiff getTime (date a) (date b)) l) /\
  StronglySorted (fun a b => notAfter getTime (date b) (date a))
    (Sort.sort (fun a b => Sort.timeDiff getTime (date b) (date a)) l).
Proof.
  intros Hvalid. split.
  - apply (sorted_weaken (byKey (fun a => default 0%Z (getTime (date a))))).
    + intros x y Hx%elem_sort Hy%elem_sort.
      destruct (Hvalid x Hx) as [tx Ex], (Hvalid y Hy) as [ty Ey].
      unfold byKey, notAfter. rewrite Ex, Ey. cbn. eauto.
    + apply sort_sorted. intros x y Hx Hy.
      destruct (Hvalid x Hx) as [tx Ex], (Hvalid y Hy) as [ty Ey].
      unfold Sort.timeDiff. rewrite Ex, Ey. reflexivity.
  - apply (sorted_weaken (byKey (fun a => (- default 0 (getTime (date a)))%Z))).
    + intros x y Hx%elem_sort Hy%elem_sort.
      destruct (Hvalid x Hx) as [tx Ex], (Hvalid y Hy) as [ty Ey].
      unfold byKey, notAfter. rewrite Ex, Ey. cbn. intros H. exists ty, tx.
      split_and!; [reflexivity | reflexivity | lia].
    + apply sort_sorted. intros x y Hx Hy.
      destruct (Hvalid x Hx) as [tx Ex], (Hvalid y Hy) as [ty Ey].
      unfold Sort.timeDiff. rewrite Ex, Ey. cbn. f_equal. lia.
Qed.

End SortFacts.

Module ListingFacts.
Import SortFacts EngineFacts.

(** ** What the listings hold *)

Lemma task_visit_values (dir : TaskStorage.Dir) filter entries acc x :
  x ∈ fold_left (TaskStorage.visit dir filter) entries acc ->
  x ∈ acc \/ exists k, dir !! k = Some x.
Proof.
  revert acc. induction entries as [|e entries IH]; intros acc Hx; [left; exact Hx|].
  cbn [fold_left] in Hx. apply IH in Hx as [Hx | Hx]; [|right; exact Hx].
  unfold TaskStorage.visit in Hx.
  destruct (negb _ || _); [left; exact Hx|].
  destruct (TaskStorage.get dir _) as [task|] eqn:Hget; [|left; exact Hx].
  destruct (TaskStorage.passes filter task); [|left; exact Hx].
  apply elem_of_app in Hx as [Hx | Hx]; [left; exact Hx|].
  apply list_elem_of_singleton in Hx as ->. right. eexists. exact Hget.
Qed.

Lemma message_visit_values (dir : MessageStorage.Dir) threadId entries acc x :
  x ∈ fold_left (MessageStorage.visit dir threadId) entries acc ->
  x ∈ acc \/ exists thread k, dir !! threadId = Some thread /\ thread !! k = Some x.
Proof.
  revert acc. induction entries as [|e entries IH]; intros acc Hx; [left; exact Hx|].
  cbn [fold_left] in Hx. apply IH in Hx as [Hx | Hx]; [|right; exact Hx].
  unfold MessageStorage.visit in Hx.
  destruct (negb _ || _); [left; exact Hx|].
  destruct (MessageStorage.get dir _ threadId) as [msg|] eqn:Hget; [|left; exact Hx].
  apply elem_of_app in Hx as [Hx | Hx]; [left; exact Hx|].
  apply list_elem_of_singleton in Hx as ->. right.
  unfold MessageStorage.get in Hget.
  destruct (dir !! threadId) as [thread|]; [|discriminate]. eauto.
Qed.

Lemma listThread_values getTime (dir : MessageStorage.Dir) threadId x :
  x ∈ MessageStorage.listThread getTime dir threadId ->
  exists thread k, dir !! threadId = Some thread /\ thread !! k = Some x.
Proof.
  unfold MessageStorage.listThread. intros Hx.
  destruct (dir !! threadId) as [thread|] eqn:Hth; [|inversion Hx].
  apply elem_sort in Hx. apply message_visit_values in Hx as [Hx | Hx]; [inversion Hx|].
  rewrite Hth in Hx. destruct Hx as (thread' & k & [= <-] & Hk). eauto.
Qed.

Lemma unread_values getTime (dir : MessageStorage.Dir) agentName threads acc x :
  x ∈ fold_left
        (fun unread threadId =>
           unread ++ List.filter (MessageStorage.isUnreadFor agentName)
                       (MessageStorage.listThread getTime dir threadId))
        threads acc ->
  x ∈ acc \/ exists threadId thread k, dir !! threadId = Some thread /\ thread !! k = Some x.
Proof.
  revert acc. induction threads as [|th threads IH]; intros acc Hx; [left; exact Hx|].
  cbn [fold_left] in Hx. apply IH in Hx as [Hx | Hx]; [|right; exact Hx].
  apply elem_of_app in Hx as [Hx | Hx]; [left; exact Hx|].
  apply list_elem_of_In, filter_In in Hx as [Hx _]. apply list_elem_of_In in Hx.
  right. exists th. exact (listThread_values _ _ _ _ Hx).
Qed.

(** ** Order of the listings *)

(** C8, as the specification states it, fails on ties: two tasks, or two
    messages of a thread, created in the same millisecond carry the same
    [createdAt], and whatever the date parser, the listing that holds both
    is not strictly ordered. *)
Lemma strict_order_counterexample :
  let tasks : TaskStorage.Dir :=
    TaskStorage.save (TaskStorage.save ∅ (demoTask "t1" None "alice" None))
      (demoTask "t2" None "bob" None) in
  let message id :=
    Message.mk id (Some "sender") "receiver" "thread-1" (Some "Hello") "Test message body"
      Message.direct Message.pending "2024-06-15T10:00:00.000Z" None in
  let messages : MessageStorage.Dir :=
    MessageStorage.save (MessageStorage.save ∅ (message "m1")) (message "m2") in
  ~ (exists getTime,
       StronglySorted
         (fun a b => strictlyBefore getTime (TaskState.createdAt b) (TaskState.createdAt a))
         (TaskStorage.list getTime tasks None)) /\
  ~ (exists getTime,
       StronglySorted
         (fun a b => strictlyBefore getTime (Message.createdAt a) (Message.createdAt b))
         (MessageStorage.listThread getTime messages "thread-1")).
Proof.
  cbv zeta. split; intros [getTime Hsorted].
  - unfold TaskStorage.list in Hsorted.
    set (visited := fold_left _ _ _) in Hsorted. vm_compute in visited. subst visited.
    cbn [Sort.sort foldr Sort.insert] in Hsorted.
    unfold Sort.before, TaskStorage.newestFirst, Sort.timeDiff in Hsorted.
    cbn [TaskState.createdAt] in Hsorted.
    destruct (getTime _) as [t|] eqn:Et.
    + rewrite Z.sub_diag in Hsorted. cbn in Hsorted.
      apply StronglySorted_inv in Hsorted as [_ Hall].
      apply Forall_inv in Hall as (x & y & Hx & Hy & Hlt). cbn in Hx, Hy.
      rewrite Hx in Hy. injection Hy as ->. lia.
    + apply StronglySorted_inv in Hsorted as [_ Hall].
      apply Forall_inv in Hall as (x & y & Hx & Hy & Hlt). cbn in Hx. congruence.
  - unfold MessageStorage.listThread in Hsorted.
    set (found := _ !! "thread-1") in Hsorted. vm_compute in found. subst found.
    cbv beta iota in Hsorted.
    set (visited := fold_left _ _ _) in Hsorted. vm_compute in visited. subst visited.
    cbn [Sort.sort foldr Sort.insert] in Hsorted.
    unfold Sort.before, MessageStorage.oldestFirst, Sort.timeDiff in Hsorted.
    cbn [Message.createdAt] in Hsorted.
    destruct (getTime _) as [t|] eqn:Et.
    + rewrite Z.sub_diag in Hsorted. cbn in Hsorted.
      apply StronglySorted_inv in Hsorted as [_ Hall].
      apply Forall_inv in Hall as (x & y & Hx & Hy & Hlt). cbn in Hx, Hy.
      rewrite Hx in Hy. injection Hy as ->. lia.
    + apply StronglySorted_inv in Hsorted as [_ Hall].
      apply Forall_inv in Hall as (x & y & Hx & Hy & Hlt). cbn in Hx. congruence.
Qed.

(** C8 (amended). When every stored [createdAt] can be read as a date,
    the task listing is in descending order of [createdAt] (newest first),
    the listing of a thread and the unread messages of an agent across
    the threads are in ascending order; records with equal times may
    follow each other. *)
Theorem listings_sorted (getTime : string -> option Z) (tasks : TaskStorage.Dir)
    (filter : option TaskStorage.Filter) (messages : MessageStorage.Dir)
    (threadId agentName : string) :
  map_Forall (fun _ task => is_Some (getTime (TaskState.createdAt task))) tasks ->
  map_Forall
    (fun _ thread =>
       map_Forall (fun _ msg => is_Some (getTime (Message.createdAt msg)))
         (thread : gmap string Message.t))
    messages ->
  StronglySorted
    (fun a b => notAfter getTime (TaskState.createdAt b) (TaskState.createdAt a))
    (TaskStorage.list getTime tasks filter) /\
  StronglySorted
    (fun a b => notAfter getTime (Message.createdAt a) (Message.createdAt b))
    (MessageStorage.listThread getTime messages threadId) /\
  StronglySorted
    (fun a b => notAfter getTime (Message.createdAt a) (Message.createdAt b))
    (MessageStorage.getUnread getTime messages agentName).
Proof.
  intros Htasks Hmessages. split_and!.
  - apply (sort_by_date getTime TaskState.createdAt).
    intros x Hx. apply task_visit_values in Hx as [Hx | [k Hk]]; [inversion Hx|].
    exact (Htasks _ _ Hk).
  - unfold MessageStorage.listThread.
    destruct (messages !! threadId) as [thread|] eqn:Hth; [|constructor].
    apply (sort_by_date getTime Message.createdAt).
    intros x Hx. apply message_visit_values in Hx as [Hx | (th & k & Hth' & Hk)];
      [inversion Hx|].
    exact (Hmessages _ _ Hth' _ _ Hk).
  - apply (sort_by_date getTime Message.createdAt).
    intros x Hx. apply unread_values in Hx as [Hx | (th & thread & k & Hth & Hk)];
      [inversion Hx|].
    exact (Hmessages _ _ Hth _ _ Hk).
Qed.

Definition demoTasks : TaskStorage.Dir :=
  TaskStorage.save
    (TaskStorage.save ∅
       (TaskState.mk "t-old" None "alice" None "Do something" None 0 TaskStatus.pending []
          None None None None "2024-01-01T00:00:00.000Z" None None))
    (TaskState.mk "t-new" None "alice" None "Do something" None 0 TaskStatus.pending []
       None None None None "2024-06-01T00:00:00.000Z" None None).

Definition demoMessages : MessageStorage.Dir :=
  MessageStorage.save
    (MessageStorage.save ∅
       (Message.mk "msg-new" (Some "sender") "alice" "thread-1" (Some "Hello") "second"
          Message.direct Message.pending "2024-06-01T00:00:00.000Z" None))
    (Message.mk "msg-old" (Some "sender") "alice" "thread-1" (Some "Hello") "first"
       Message.direct Message.pending "2024-01-01T00:00:00.000Z" None).

Lemma listings_sorted_witness :
  StronglySorted
    (fun a b => notAfter Date.parse (TaskState.createdAt b) (TaskState.createdAt a))
    (TaskStorage.list Date.parse demoTasks None) /\
  StronglySorted
    (fun a b => notAfter Date.parse (Message.createdAt a) (Message.createdAt b))
    (MessageStorage.listThread Date.parse demoMessages "thread-1") /\
  StronglySorted
    (fun a b => notAfter Date.parse (Message.createdAt a) (Message.createdAt b))
    (MessageStorage.getUnread Date.parse demoMessages "alice").
Proof.
  apply (listings_sorted Date.parse demoTasks None demoMessages "thread-1" "alice");
    by_decide.
Defined.

Example list_newest_first :
  TaskState.id <$> TaskStorage.list Date.parse demoTasks None = ["t-new"; "t-old"].
Proof. vm_compute. reflexivity. Qed.

Example listThread_oldest_first :
  Message.id <$> MessageStorage.listThread Date.parse demoMessages "thread-1" =
  ["msg-old"; "msg-new"].
Proof. vm_compute. reflexivity. Qed.

End ListingFacts.

(* ===================================================================== *)
(** * Facts about the round trips *)
(* ===================================================================== *)

Module BoardFacts.
Import JSFacts.

(** The string holds no line feed. *)
Fixpoint oneLine (s : string) : bool :=
  match s with
  | EmptyString => true
  | String c s' => negb (Ascii.eqb c JS.LF) && oneLine s'
  end.

(** The string neither starts nor ends with white space. *)
Definition trimmed (s : string) : Prop := JS.trimStart s = s /\ JS.trimEnd s = s.

(** A front matter value that is read back as it was written. *)
Definition plain (s : string) : Prop := oneLine s = true /\ trimmed s.

Lemma trim_trimmed (s : string) : trimmed s -> JS.trim s = s.
Proof. intros [Hs He]. unfold JS.trim. rewrite He. exact Hs. Qed.

Lemma trim_after_space (v : string) : trimmed v -> JS.trim (String " " v) = v.
Proof.
  intros [Hs He]. unfold JS.trim. cbn [JS.trimEnd]. rewrite He.
  destruct v as [|c v]; [reflexivity|]. cbn [JS.trimStart]. 
  change (JS.isWhite " ") with true. cbn iota. exact Hs.
Qed.

Lemma trimEnd_nl (s : string) : JS.trimEnd (s +:+ JS.nl) = JS.trimEnd s.
Proof.
  induction s as [|c s IH]; [reflexivity|].
  rewrite app_cons. cbn [JS.trimEnd]. rewrite IH. reflexivity.
Qed.

(** *** Finding the closing line *)

Definition closing : string := JS.nl +:+ "---" +:+ JS.nl.

Lemma breakOn_closing (rest : string) :
  JS.breakOn closing (JS.nl +:+ "---" +:+ JS.nl +:+ rest) = Some ("", rest).
Proof. reflexivity. Qed.

Lemma breakOn_cons (sep : string) (c : ascii) (s : string) :
  JS.breakOn sep (String c s) =
  if JS.startsWith sep (String c s)
  then Some ("", JS.drop (String.length sep) (String c s))
  else match JS.breakOn sep s with
       | Some (before, after) => Some (String c before, after)
       | None => None
       end.
Proof. reflexivity. Qed.

Lemma breakOn_line (line rest before after : string) :
  oneLine line = true ->
  JS.breakOn closing rest = Some (before, after) ->
  JS.breakOn closing (line +:+ rest) = Some (line +:+ before, after).
Proof.
  intros Hline Hrest. induction line as [|c line IH]; [exact Hrest|].
  cbn [oneLine] in Hline. apply andb_true_iff in Hline as [Hc Hline].
  rewrite !app_cons, breakOn_cons, (IH Hline).
  replace (JS.startsWith closing (String c (line +:+ rest))) with false; [reflexivity|].
  unfold closing, JS.nl. rewrite app_cons. cbn [JS.startsWith].
  rewrite Ascii.eqb_sym. apply negb_true_iff in Hc. rewrite Hc. reflexivity.
Qed.

Lemma breakOn_last_line (line rest : string) :
  oneLine line = true ->
  JS.breakOn closing (line +:+ JS.nl +:+ "---" +:+ JS.nl +:+ rest) = Some (line, rest).
Proof.
  intros Hline. rewrite <- (app_nil_r line) at 2.
  apply breakOn_line; [assumption | apply breakOn_closing].
Qed.

Lemma breakOn_nl (c : ascii) (p rest before after : string) :
  c <> "-"%char ->
  JS.breakOn closing (String c p +:+ rest) = Some (before, after) ->
  JS.breakOn closing (JS.nl +:+ String c p +:+ rest) = Some (JS.nl +:+ before, after).
Proof.
  intros Hc Hrest. unfold JS.nl. rewrite !app_cons, !app_nil_l.
  rewrite app_cons in Hrest. rewrite breakOn_cons, Hrest.
  replace (JS.startsWith closing _) with false; [reflexivity|].
  change closing with (String JS.LF (String "-" (String "-" (String "-" (String JS.LF ""))))).
  cbn [JS.startsWith]. rewrite Ascii.eqb_refl. cbn [andb].
  destruct (Ascii.eqb_spec "-" c) as [E|_]; [congruence | reflexivity].
Qed.

(** *** Splitting the front matter into lines *)

Lemma splitLines_cons (c : ascii) (s : string) :
  JS.splitLines (String c s) =
  if Ascii.eqb c JS.LF then EmptyString :: JS.splitLines s
  else match JS.splitLines s with
       | line :: lines => String c line :: lines
       | [] => [String c EmptyString]
       end.
Proof. reflexivity. Qed.

Lemma oneLine_app (a b : string) : oneLine (a +:+ b) = oneLine a && oneLine b.
Proof.
  induction a as [|c a IH]; [reflexivity|].
  rewrite app_cons. cbn [oneLine]. rewrite IH, andb_assoc. reflexivity.
Qed.

Lemma splitLines_last (line : string) : oneLine line = true -> JS.splitLines line = [line].
Proof.
  induction line as [|c line IH]; [reflexivity|]. cbn [oneLine].
  intros [Hc Hline]%andb_true_iff. rewrite splitLines_cons, (IH Hline).
  apply negb_true_iff in Hc. rewrite Hc. reflexivity.
Qed.

Lemma splitLines_line (line rest : string) :
  oneLine line = true ->
  JS.splitLines (line +:+ JS.nl +:+ rest) = line :: JS.splitLines rest.
Proof.
  induction line as [|c line IH].
  - intros _. rewrite app_nil_l. unfold JS.nl. rewrite app_cons, app_nil_l, splitLines_cons.
    rewrite Ascii.eqb_refl. reflexivity.
  - cbn [oneLine]. intros [Hc Hline]%andb_true_iff.
    rewrite app_cons, splitLines_cons, (IH Hline).
    apply negb_true_iff in Hc. rewrite Hc. reflexivity.
Qed.

(** *** Reading a field *)

Lemma breakOn_colon_here (rest : string) :
  JS.breakOn ":" (String ":" rest) = Some ("", rest).
Proof. reflexivity. Qed.

Lemma breakOn_colon_skip (c : ascii) (rest before after : string) :
  Ascii.eqb ":" c = false ->
  JS.breakOn ":" rest = Some (before, after) ->
  JS.breakOn ":" (String c rest) = Some (String c before, after).
Proof.
  intros Hc Hrest. rewrite breakOn_cons, Hrest. cbn [JS.startsWith]. rewrite Hc.
  reflexivity.
Qed.

(** A line made of a key without colon, a colon, a space and a plain
    value sets that key to that value, colons of the value included. *)
Lemma readField_line (fields : gmap string string) (key value : string) :
  JS.includes ":" key = false -> JS.trim key = key -> trimmed value ->
  BoardStorage.readField fields (key +:+ ": " +:+ value) = <[key := value]> fields.
Proof.
  intros Hkey Htrim Hvalue. unfold BoardStorage.readField.
  assert (Hbreak : JS.breakOn ":" (key +:+ ": " +:+ value) = Some (key, String " " value)).
  { clear Htrim. induction key as [|c key IH].
    - rewrite app_nil_l. reflexivity.
    - rewrite app_cons. cbn [JS.includes JS.startsWith] in Hkey.
      apply orb_false_iff in Hkey as [Hc Hkey]. rewrite andb_true_r in Hc.
      apply breakOn_colon_skip; [exact Hc | exact (IH Hkey)]. }
  rewrite Hbreak, Htrim, trim_after_space by assumption. reflexivity.
Qed.

(** *** The document *)

Lemma toMarkdown_eq (item : BoardItem.t) :
  BoardStorage.toMarkdown item =
  "---" +:+ JS.nl +:+
  ("id: " +:+ BoardItem.id item) +:+ JS.nl +:+
  ("type: " +:+ default "undefined" (BoardItem.type item)) +:+ JS.nl +:+
  ("author: " +:+ BoardItem.author item) +:+ JS.nl +:+
  ("summary: " +:+ BoardItem.summary item) +:+ JS.nl +:+
  ("createdAt: " +:+ BoardItem.createdAt item) +:+ JS.nl +:+
  "---" +:+ JS.nl +:+
  JS.nl +:+ BoardItem.body item +:+ JS.nl.
Proof.
  unfold BoardStorage.toMarkdown. cbn [JS.joinLines].
  generalize ("id: " +:+ BoardItem.id item)
             ("type: " +:+ default "undefined" (BoardItem.type item))
             ("author: " +:+ BoardItem.author item)
             ("summary: " +:+ BoardItem.summary item)
             ("createdAt: " +:+ BoardItem.createdAt item).
  intros l1 l2 l3 l4 l5. rewrite !app_assoc. reflexivity.
Qed.

Lemma type_plain (type folder : string) :
  BOARD_TYPE_TO_FOLDER type = Some folder -> plain type.
Proof.
  unfold BOARD_TYPE_TO_FOLDER.
  destruct (String.eqb_spec type "status_update") as [->|_]; [intros _; repeat split|].
  destruct (String.eqb_spec type "blocker") as [->|_]; [intros _; repeat split|].
  destruct (String.eqb_spec type "finding") as [->|_]; [intros _; repeat split|].
  destruct (String.eqb_spec type "request") as [->|_]; [intros _; repeat split|].
  discriminate.
Qed.

(** Reading back what [toMarkdown] wrote. *)
Lemma fromMarkdown_toMarkdown (item : BoardItem.t) (type folder filePath : string) :
  BoardItem.type item = Some type ->
  BOARD_TYPE_TO_FOLDER type = Some folder ->
  plain (BoardItem.id item) -> plain (BoardItem.author item) ->
  plain (BoardItem.summary item) -> plain (BoardItem.createdAt item) ->
  JS.trimEnd (BoardItem.body item) = BoardItem.body item ->
  BoardStorage.fromMarkdown (BoardStorage.toMarkdown item) filePath =
  Some (BoardItem.mk (BoardItem.id item) (Some type) (BoardItem.author item)
          (BoardItem.summary item) (BoardItem.body item) (BoardItem.createdAt item)
          filePath).
Proof.
  intros Htype Hfolder [Hid1 Hid] [Hau1 Hau] [Hsu1 Hsu] [Hcr1 Hcr] Hbody.
  destruct (type_plain _ _ Hfolder) as [Hty1 Hty].
  rewrite toMarkdown_eq, Htype. cbn [default from_option id].
  set (l1 := "id: " +:+ BoardItem.id item).
  set (l2 := "type: " +:+ type).
  set (l3 := "author: " +:+ BoardItem.author item).
  set (l4 := "summary: " +:+ BoardItem.summary item).
  set (l5 := "createdAt: " +:+ BoardItem.createdAt item).
  assert (H1 : oneLine l1 = true) by (unfold l1; rewrite oneLine_app, Hid1; reflexivity).
  assert (H2 : oneLine l2 = true) by (unfold l2; rewrite oneLine_app, Hty1; reflexivity).
  assert (H3 : oneLine l3 = true) by (unfold l3; rewrite oneLine_app, Hau1; reflexivity).
  assert (H4 : oneLine l4 = true) by (unfold l4; rewrite oneLine_app, Hsu1; reflexivity).
  assert (H5 : oneLine l5 = true) by (unfold l5; rewrite oneLine_app, Hcr1; reflexivity).
  unfold BoardStorage.fromMarkdown, BoardStorage.matchDocument.
  rewrite <- (app_assoc "---" JS.nl) at 1. rewrite startsWith_app.
  change (JS.drop 4 ("---" +:+ JS.nl +:+ ?rest)) with rest.
  fold closing.
  erewrite (breakOn_line l1); [|assumption|].
  2:{ unfold l2 at 1. apply breakOn_nl; [discriminate|]. fold l2.
      apply breakOn_line; [assumption|].
      unfold l3 at 1. apply breakOn_nl; [discriminate|]. fold l3.
      apply breakOn_line; [assumption|].
      unfold l4 at 1. apply breakOn_nl; [discriminate|]. fold l4.
      apply breakOn_line; [assumption|].
      unfold l5 at 1. apply breakOn_nl; [discriminate|]. fold l5.
      apply breakOn_last_line; assumption. }
  rewrite startsWith_app. change (JS.drop 1 (JS.nl +:+ ?rest)) with rest.
  replace (String.eqb (l1 +:+ _) "") with false by reflexivity.
  rewrite trimEnd_nl, Hbody.
  rewrite !splitLines_line, splitLines_last by assumption.
  assert (R1 : forall f, BoardStorage.readField f l1 = <["id" := BoardItem.id item]> f).
  { intros f. apply (readField_line f "id" (BoardItem.id item)); done. }
  assert (R2 : forall f, BoardStorage.readField f l2 = <["type" := type]> f).
  { intros f. apply (readField_line f "type" type); done. }
  assert (R3 : forall f, BoardStorage.readField f l3 = <["author" := BoardItem.author item]> f).
  { intros f. apply (readField_line f "author" (BoardItem.author item)); done. }
  assert (R4 : forall f, BoardStorage.readField f l4 = <["summary" := BoardItem.summary item]> f).
  { intros f. apply (readField_line f "summary" (BoardItem.summary item)); done. }
  assert (R5 : forall f,
             BoardStorage.readField f l5 = <["createdAt" := BoardItem.createdAt item]> f).
  { intros f. apply (readField_line f "createdAt" (BoardItem.createdAt item)); done. }
  cbn [fold_left]. rewrite R1, R2, R3, R4, R5.
  reflexivity.
Qed.

(** ** save then get *)

Lemma message_get_save (dir : MessageStorage.Dir) (message : Message.t) :
  MessageStorage.get (MessageStorage.save dir message) (Message.id message)
    (Message.threadId message) = Some message.
Proof.
  unfold MessageStorage.get, MessageStorage.save. rewrite lookup_insert_eq.
  apply FsFacts.writeAtomic_lookup.
Qed.

(** The item of the test "handles colons in summary field". *)
Definition demoItem : BoardItem.t :=
  BoardItem.mk "colon-test" (Some "finding") "alice" "Bug found: API returns 500: timeout"
    "Details here" "2024-06-15T10:30:00.000Z" "".

Definition demoBoard : BoardStorage.t := BoardStorage.mk "/workspace/board" ∅.

(** C7, as the specification states it, fails for board items: [get]
    returns the item with [path] set to the path of its file, whatever
    [path] the saved item had, and a body that ends in white space comes
    back without it. *)
Lemma board_round_trip_counterexample :
  match BoardStorage.save demoBoard demoItem with
  | Some saved =>
      BoardStorage.get saved "finding" "colon-test" <> Some demoItem /\
      BoardItem.path <$> BoardStorage.get saved "finding" "colon-test" =
        Some "/workspace/board/findings/colon-test.md"
  | None => False
  end /\
  let spaced :=
    BoardItem.mk "spaced" (Some "finding") "alice" "Summary" ("Details" +:+ JS.nl)
      "2024-06-15T10:30:00.000Z" "/workspace/board/findings/spaced.md" in
  match BoardStorage.save demoBoard spaced with
  | Some saved => BoardItem.body <$> BoardStorage.get saved "finding" "spaced" = Some "Details"
  | None => False
  end.
Proof.
  split.
  - vm_compute. split; [discriminate | reflexivity].
  - vm_compute. reflexivity.
Qed.

(** C7 (amended). For Task, Agent and Message records and for the org
    tree, [save] followed by [get] with the key of the record returns the
    record saved.  For a board item whose type is one of the four item
    types, whose id, author, summary and createdAt hold no line feed and
    neither start nor end with white space, and whose body does not end
    with white space, [save] followed by [get] returns the item with every
    field as saved, colons of the summary included, except [path], which
    is the path of the item's file. *)
Theorem save_then_get :
  (forall (dir : TaskStorage.Dir) task,
     TaskStorage.get (TaskStorage.save dir task) (TaskState.id task) = Some task) /\
  (forall (dir : AgentStorage.Dir) agent,
     AgentStorage.get (AgentStorage.save dir agent) (AgentConfig.name agent) = Some agent) /\
  (forall (dir : MessageStorage.Dir) message,
     MessageStorage.get (MessageStorage.save dir message) (Message.id message)
       (Message.threadId message) = Some message) /\
  (forall tree, OrgStorage.get (OrgStorage.save tree) = tree) /\
  (forall (board : BoardStorage.t) (item : BoardItem.t) (type : string),
     BoardItem.type item = Some type ->
     is_Some (BOARD_TYPE_TO_FOLDER type) ->
     plain (BoardItem.id item) -> plain (BoardItem.author item) ->
     plain (BoardItem.summary item) -> plain (BoardItem.createdAt item) ->
     JS.trimEnd (BoardItem.body item) = BoardItem.body item ->
     exists saved folder,
       BoardStorage.save board item = Some saved /\
       BOARD_TYPE_TO_FOLDER type = Some folder /\
       BoardStorage.get saved type (BoardItem.id item) =
         Some (BoardItem.mk (BoardItem.id item) (Some type) (BoardItem.author item)
                 (BoardItem.summary item) (BoardItem.body item) (BoardItem.createdAt item)
                 (JS.pathJoin (JS.pathJoin (BoardStorage.boardDir board) folder)
                    (BoardItem.id item +:+ ".md")))).
Proof.
  split_and!.
  - apply StoreFacts.task_get_save_eq.
  - apply StoreFacts.agent_get_save_eq.
  - apply message_get_save.
  - reflexivity.
  - intros board item type Htype [folder Hfolder] Hid Hauthor Hsummary Hcreated Hbody.
    unfold BoardStorage.save. rewrite Htype. cbn [mbind option_bind]. rewrite Hfolder.
    eexists _, folder. split_and!; [reflexivity | reflexivity |].
    unfold BoardStorage.get. rewrite Hfolder. cbn [BoardStorage.folders BoardStorage.boardDir].
    rewrite lookup_insert_eq, FsFacts.writeAtomic_lookup.
    apply (fromMarkdown_toMarkdown item type folder); assumption.
Qed.

Lemma save_then_get_witness :
  exists saved folder,
    BoardStorage.save demoBoard demoItem = Some saved /\
    BOARD_TYPE_TO_FOLDER "finding" = Some folder /\
    BoardStorage.get saved "finding" "colon-test" =
      Some (BoardItem.mk "colon-test" (Some "finding") "alice"
              "Bug found: API returns 500: timeout" "Details here"
              "2024-06-15T10:30:00.000Z"
              (JS.pathJoin (JS.pathJoin "/workspace/board" folder) "colon-test.md")).
Proof.
  apply (proj2 (proj2 (proj2 (proj2 save_then_get))) demoBoard demoItem "finding");
    first [reflexivity | by eexists | by repeat split].
Defined.

End BoardFacts.

(* ===================================================================== *)
(** * Loops that collect into an array *)
(* ===================================================================== *)

Module FoldFacts.

(** A loop whose body pushes onto the array some values computed from the
    current element collects these values in order. *)
Lemma fold_collect {A B : Type} (f : list B -> A -> list B) (g : A -> list B) :
  (forall acc x, f acc x = acc ++ g x) ->
  forall l acc, fold_left f l acc = acc ++ (l ≫= g).
Proof.
  intros Hf. induction l as [|x l IH]; intros acc; cbn [fold_left].
  - cbn. rewrite app_nil_r. reflexivity.
  - rewrite IH, Hf. cbn. rewrite <- app_assoc. reflexivity.
Qed.

Lemma elem_fold_collect {A B : Type} (f : list B -> A -> list B) (g : A -> list B) :
  (forall acc x, f acc x = acc ++ g x) ->
  forall l y, y ∈ fold_left f l [] <-> exists x, x ∈ l /\ y ∈ g x.
Proof.
  intros Hf l y. rewrite (fold_collect f g Hf). cbn [app].
  rewrite list_elem_of_bind. split; intros (x & H1 & H2); eauto.
Qed.

(** The entries [readdir] gives are the names of the directory. *)
Lemma elem_readdir {V : Type} (dir : gmap string V) (entry : string) :
  entry ∈ Fs.readdir dir <-> is_Some (dir !! entry).
Proof.
  unfold Fs.readdir. rewrite list_elem_of_fmap. split.
  - intros ([k v] & -> & Hin). apply elem_of_map_to_list in Hin. eauto.
  - intros [v Hv]. exists (entry, v). split; [reflexivity|].
    apply elem_of_map_to_list. exact Hv.
Qed.

Lemma NoDup_readdir {V : Type} (dir : gmap string V) : NoDup (Fs.readdir dir).
Proof. apply NoDup_fst_map_to_list. Qed.

(** ** The entries of a container *)

Lemma breakOn_slash_before (s before after : string) :
  JS.breakOn "/" s = Some (before, after) -> JS.breakOn "/" before = None.
Proof.
  revert before after. induction s as [|c s IH]; intros before after.
  - cbn. discriminate.
  - cbn [JS.breakOn JS.startsWith]. destruct (Ascii.eqb "/" c) eqn:Ec; cbn [andb].
    + intros [= <- _]. reflexivity.
    + destruct (JS.breakOn "/" s) as [[b a]|]; [|discriminate].
      intros [= <- _]. cbn [JS.breakOn JS.startsWith]. rewrite Ec. cbn [andb].
      rewrite (IH _ _ eq_refl). reflexivity.
Qed.

(** The first segment of a path is one segment. *)
Lemma firstSegment_entry (key segment : string) :
  Fs.firstSegment key = Some segment -> Fs.isEntryName segment = true.
Proof.
  unfold Fs.isEntryName, Fs.firstSegment. intros H. apply bool_decide_eq_true.
  destruct (JS.breakOn "/" key) as [[before after]|] eqn:Hb.
  - destruct (_ || _) eqn:E; [discriminate|]. injection H as <-.
    rewrite (breakOn_slash_before _ _ _ Hb), E. reflexivity.
  - destruct (_ || _) eqn:E; [discriminate|]. injection H as <-.
    rewrite Hb, E. reflexivity.
Qed.

Lemma elem_subdirs {V : Type} (dir : gmap string V) (entry : string) :
  entry ∈ Fs.subdirs dir <->
  exists key, is_Some (dir !! key) /\ Fs.firstSegment key = Some entry.
Proof.
  unfold Fs.subdirs. rewrite elem_of_remove_dups, list_elem_of_omap.
  split; intros (key & H1 & H2); exists key; (split; [|exact H2]);
    apply elem_readdir; exact H1.
Qed.

(** A directory whose path is one segment is an entry of the container,
    and every entry of the container is one segment. *)
Lemma elem_subdirs_entry {V : Type} (dir : gmap string V) (name : string) :
  Fs.isEntryName name = true -> is_Some (dir !! name) -> name ∈ Fs.subdirs dir.
Proof.
  intros Hname Hdir. apply elem_subdirs. exists name. split; [exact Hdir|].
  apply bool_decide_eq_true in Hname. exact Hname.
Qed.

Lemma subdirs_entry {V : Type} (dir : gmap string V) (entry : string) :
  entry ∈ Fs.subdirs dir -> Fs.isEntryName entry = true.
Proof. intros (key & _ & H)%elem_subdirs. exact (firstSegment_entry _ _ H). Qed.

Lemma NoDup_subdirs {V : Type} (dir : gmap string V) : NoDup (Fs.subdirs dir).
Proof. apply NoDup_remove_dups. Qed.

(** ** Removing a directory *)

Lemma lookup_rmRecursive {V : Type} (name key : string) (dir : gmap string V) :
  Fs.rmRecursive name dir !! key = if Fs.under name key then None else dir !! key.
Proof.
  unfold Fs.rmRecursive. destruct (Fs.under name key) eqn:E.
  - apply map_lookup_filter_None. right. intros v _. cbn. rewrite E. discriminate.
  - destruct (dir !! key) as [v|] eqn:Hv.
    + apply map_lookup_filter_Some. split; [exact Hv | exact E].
    + apply map_lookup_filter_None. left. exact Hv.
Qed.

Lemma under_refl (name : string) : Fs.under name name = true.
Proof. unfold Fs.under. rewrite String.eqb_refl, orb_true_r. reflexivity. Qed.

Lemma entry_no_slash (name : string) :
  Fs.isEntryName name = true -> JS.breakOn "/" name = None.
Proof.
  unfold Fs.isEntryName, Fs.firstSegment. intros H. apply bool_decide_eq_true in H.
  destruct (JS.breakOn "/" name) as [[before after]|] eqn:Hb; [|reflexivity].
  destruct (_ || _); [discriminate|]. injection H as ->.
  rewrite (breakOn_slash_before _ _ _ Hb) in Hb. discriminate.
Qed.

Lemma startsWith_slash (name key : string) :
  JS.startsWith (name +:+ "/") key = true -> JS.breakOn "/" key <> None.
Proof.
  revert key. induction name as [|c name IH]; intros key H.
  - change ("" +:+ "/") with "/" in H. destruct key as [|d key]; [discriminate|].
    cbn [JS.breakOn]. rewrite H. discriminate.
  - destruct key as [|d key]; [discriminate|]. cbn [String.append JS.startsWith] in H.
    apply andb_true_iff in H as [_ H]. specialize (IH _ H).
    cbn [JS.breakOn]. destruct (JS.startsWith "/" (String d key)); [discriminate|].
    destruct (JS.breakOn "/" key) as [[b a]|]; [discriminate | contradiction].
Qed.

(** Among the entries of a container, only the directory itself lies
    under a directory. *)
Lemma under_entry (name key : string) :
  Fs.isEntryName name = true -> Fs.isEntryName key = true ->
  Fs.under name key = true -> key = name.
Proof.
  intros Hname Hkey. unfold Fs.under.
  destruct (String.eqb name "") eqn:E1.
  { apply String.eqb_eq in E1. subst name. discriminate Hname. }
  destruct (String.eqb key name) eqn:E2.
  { intros _. apply String.eqb_eq. exact E2. }
  cbn [orb]. intros H. apply startsWith_slash in H.
  rewrite (entry_no_slash _ Hkey) in H. contradiction.
Qed.

End FoldFacts.

(* ===================================================================== *)
(** * Invariants of the org tree *)
(* ===================================================================== *)

Module OrgInvariants.
Import OrgStorage OrgFacts.

(** ** What cutting a name out keeps *)

Lemma prune_sublist nodes a : sublist (names (prune nodes a)) (names nodes).
Proof.
  induction nodes as [|n rest IHc IHr] using forest_ind; [reflexivity|].
  rewrite prune_cons, names_cons. destruct (isNot a n).
  - rewrite names_cons. cbn [agentName children setChildren].
    apply sublist_skip, sublist_app; assumption.
  - apply sublist_cons, sublist_inserts_l. assumption.
Qed.

Lemma prune_NoDup nodes a : NoDup (names nodes) -> NoDup (names (prune nodes a)).
Proof. intros H. eapply sublist_NoDup; [exact H | apply prune_sublist]. Qed.

(** In a duplicate-free forest a name is the one cut out, or sits below
    it, or survives. *)
Lemma prune_complete nodes a node x :
  NoDup (names nodes) -> findNode nodes a = Some node -> x ∈ names nodes ->
  x = a \/ x ∈ names (children node) \/ x ∈ names (prune nodes a).
Proof.
  induction nodes as [|n rest IHc IHr] using forest_ind; [discriminate|].
  rewrite names_cons, NoDup_cons, NoDup_app, not_elem_of_app, findNode_cons, prune_cons.
  intros ((Hnc & Hnr) & Hdc & Hdisj & Hdr).
  rewrite isNot_eqb. destruct (isNot a n) eqn:Ea; cbn [negb].
  - rewrite names_cons. cbn [agentName children setChildren].
    rewrite !elem_of_cons, !elem_of_app.
    destruct (findNode (children n) a) eqn:Hc.
    + intros [= <-].
      assert (Har : a ∉ names rest).
      { intros Har. apply (Hdisj a); [|assumption].
        destruct (decide (a ∈ names (children n))) as [|Hnot]; [assumption|].
        apply findNode_None in Hnot. congruence. }
      rewrite (prune_id rest a Har).
      intros [-> | [Hx | Hx]]; [right; right; left; reflexivity | | tauto].
      destruct (IHc Hdc eq_refl Hx) as [? | [? | ?]]; tauto.
    + intros Hr.
      assert (Hac : a ∉ names (children n)) by (apply findNode_None; assumption).
      rewrite (prune_id (children n) a Hac).
      intros [-> | [Hx | Hx]]; [right; right; left; reflexivity | tauto |].
      destruct (IHr Hdr Hr Hx) as [? | [? | ?]]; tauto.
  - apply isNot_false in Ea. intros [= <-]. rewrite !elem_of_cons, !elem_of_app.
    assert (Har : a ∉ names rest) by (rewrite <- Ea; assumption).
    rewrite (prune_id rest a Har), Ea. tauto.
Qed.

(** ** What the re-insertion of the orphans adds *)

Lemma reattachAll_names_perm p orphans tree :
  names (roots (reattachAll p orphans tree)) ≡ₚ names (roots tree) ++ names orphans.
Proof.
  unfold reattachAll. revert tree.
  induction orphans as [|c cs IH]; intros tree; cbn [fold_left].
  - cbn [names]. rewrite app_nil_r. reflexivity.
  - rewrite IH. destruct (attach_names_perm tree p (reparent p c)) as [k ->].
    rewrite reparent_names. change (c :: cs) with ([c] ++ cs).
    rewrite (names_app [c] cs), <- app_assoc. reflexivity.
Qed.

(** ** The two mutations keep the names unique *)

Lemma setParentTree_NoDup tree a p :
  NoDup (names (roots tree)) -> NoDup (names (roots (setParentTree tree a p))).
Proof.
  intros Hnd. unfold setParentTree.
  destruct (attach_names_perm (removeFromTree tree a) p (fun pos => mkOrgNode a p [] pos))
    as [k ->].
  rewrite removeFromTree_roots. apply NoDup_app. split_and!.
  - apply prune_NoDup. assumption.
  - intros x Hx Hin. rewrite names_cons in Hin. cbn in Hin.
    apply list_elem_of_singleton in Hin. subst x. exact (prune_not_in _ _ Hx).
  - rewrite names_cons. cbn. apply NoDup_singleton.
Qed.

Lemma removeAgentTree_NoDup tree a tree' :
  NoDup (names (roots tree)) -> removeAgentTree tree a = Some tree' ->
  NoDup (names (roots tree')).
Proof.
  intros Hnd. unfold removeAgentTree.
  destruct (findNode (roots tree) a) as [node|] eqn:Hf; [|discriminate].
  intros [= <-]. fold (reattachAll (parentAgentName node) (children node)
                         (removeFromTree tree a)).
  rewrite reattachAll_names_perm, removeFromTree_roots.
  pose proof (findNode_sub_NoDup _ _ _ Hnd Hf) as Hsub.
  apply NoDup_cons in Hsub as [_ Hsub].
  apply NoDup_app. split_and!.
  - apply prune_NoDup. assumption.
  - intros x Hx Hc. exact (prune_subtree_gone _ _ _ _ Hnd Hf Hc Hx).
  - assumption.
Qed.

Lemma step_NoDup s op :
  NoDup (names (roots (get s))) -> NoDup (names (roots (get (step s op)))).
Proof.
  intros Hnd. destruct op as [a p | a]; cbn [step].
  - apply setParentTree_NoDup. assumption.
  - unfold removeAgent.
    destruct (removeAgentTree (get s) a) as [tree'|] eqn:E; [|assumption].
    exact (removeAgentTree_NoDup _ _ _ Hnd E).
Qed.

(** X1. Whatever calls of [setParent] and [removeAgent] are made on an org
    tree in which no agent name occurs twice, no agent name occurs twice
    afterwards; in particular every tree built from the empty tree by
    these calls names each agent at most once. *)
Theorem names_stay_unique (s : Store) (ops : list Op) :
  NoDup (names (roots (get s))) ->
  NoDup (names (roots (get (run s ops)))).
Proof.
  revert s. induction ops as [|op ops IH]; intros s Hnd; [exact Hnd|].
  cbn [run fold_left]. apply IH, step_NoDup, Hnd.
Qed.

Lemma names_stay_unique_witness :
  NoDup (names (roots (get (run None
    [SetParent "ceo" None; SetParent "vp" (Some "ceo"); SetParent "eng" (Some "vp");
     SetParent "vp" (Some "eng"); RemoveAgent "ceo"])))).
Proof.
  apply (names_stay_unique None). apply NoDup_nil_2.
Defined.

Lemma removeAgent_names (s : Store) (a x : string) :
  NoDup (names (roots (get s))) ->
  x ∈ names (roots (get (removeAgent s a))) <-> x ∈ names (roots (get s)) /\ x <> a.
Proof.
  intros Hnd. unfold removeAgent, removeAgentTree.
  destruct (findNode (roots (get s)) a) as [node|] eqn:Hf.
  - fold (reattachAll (parentAgentName node) (children node) (removeFromTree (get s) a)).
    cbn [get save]. rewrite reattachAll_names, removeFromTree_roots.
    pose proof (findNode_sub_NoDup _ _ _ Hnd Hf) as Hsub.
    rewrite (findNode_Some_name _ _ _ Hf) in Hsub.
    apply NoDup_cons in Hsub as [Hsub _]. split.
    + intros [Hp | Hc].
      * split; [exact (prune_names_sub _ _ _ Hp)|].
        intros ->. exact (prune_not_in _ _ Hp).
      * split; [exact (findNode_names_sub _ _ _ _ Hf Hc)|].
        intros ->. contradiction.
    + intros [Hin Hne].
      destruct (prune_complete _ _ _ _ Hnd Hf Hin) as [? | [? | ?]]; [contradiction | auto..].
  - apply findNode_None in Hf. split; [|tauto].
    intros Hin. split; [assumption|]. intros ->. contradiction.
Qed.

(** X2. In a tree without duplicate names [removeAgent(A)] removes the
    name [A] and no other: the agents of the tree afterwards are those of
    the tree before except [A] (when [A] is absent nothing changes). *)
Theorem removeAgent_removes_one (s : Store) (a : string) :
  NoDup (names (roots (get s))) ->
  forall x, x ∈ names (roots (get (removeAgent s a))) <->
            x ∈ names (roots (get s)) /\ x <> a.
Proof. intros Hnd x. apply removeAgent_names. exact Hnd. Qed.

Lemma removeAgent_removes_one_witness :
  "eng2" ∈ names (roots (get (removeAgent demoForest "vp"))) <->
  "eng2" ∈ names (roots (get demoForest)) /\ "eng2" <> "vp".
Proof.
  apply (removeAgent_removes_one demoForest "vp"). by_decide.
Defined.

(** X3. After [setParent(A, P)] on a tree without duplicate names, [A] is
    among the children of [P] exactly when [P] was in the tree, is not [A]
    itself and was not below [A]; in the other cases [A] is a root that
    stores [P] as its parent while [P] has no children. *)
Theorem setParent_under_parent (s : Store) (a pn : string) :
  NoDup (names (roots (get s))) ->
  let s' := setParent s a (Some pn) in
  let outside :=
    pn ∈ names (roots (get s)) /\ pn <> a /\
    forall node, findNode (roots (get s)) a = Some node -> pn ∉ names (children node) in
  getParent s' a = Some pn /\
  (outside ->
   exists parent,
     findNode (roots (get s')) pn = Some parent /\
     last (children parent) =
       Some (mkOrgNode a (Some pn) [] (length (children parent) - 1))) /\
  (~ outside ->
   getChildren s' pn = [] /\
   last (roots (get s')) = Some (mkOrgNode a (Some pn) [] (length (roots (get s')) - 1))).
Proof.
  intros Hnd. cbv zeta.
  assert (Hcut : pn ∈ names (prune (roots (get s)) a) <->
                 pn ∈ names (roots (get s)) /\ pn <> a /\
                 forall node, findNode (roots (get s)) a = Some node ->
                              pn ∉ names (children node)).
  { split.
    - intros Hp. split_and!.
      + exact (prune_names_sub _ _ _ Hp).
      + intros ->. exact (prune_not_in _ _ Hp).
      + intros node Hf Hc. exact (prune_subtree_gone _ _ _ _ Hnd Hf Hc Hp).
    - intros (Hin & Hne & Hout).
      destruct (findNode (roots (get s)) a) as [node|] eqn:Hf.
      + destruct (prune_complete _ _ _ _ Hnd Hf Hin) as [? | [Hc | ?]];
          [contradiction | | assumption].
        exfalso. exact (Hout _ eq_refl Hc).
      + apply findNode_None in Hf. rewrite prune_id by assumption. assumption. }
  split_and!.
  - unfold getParent, setParent. cbn [get save].
    destruct (setParentTree_find (get s) a (Some pn)) as [k ->]. reflexivity.
  - intros Hout. apply Hcut in Hout.
    destruct (findNode (prune (roots (get s)) a) pn) as [parent|] eqn:Hf;
      [|apply findNode_None in Hf; contradiction].
    rewrite <- removeFromTree_roots in Hf.
    destruct (attach_child _ _ (fun pos => mkOrgNode a (Some pn) [] pos) _ Hf) as (Hf' & _).
    eexists. split; [exact Hf'|].
    cbn [pushChild setChildren children]. rewrite last_snoc, length_app. cbn [length].
    do 2 f_equal. lia.
  - intros Hout. rewrite <- Hcut in Hout. apply findNode_None in Hout.
    rewrite <- removeFromTree_roots in Hout.
    unfold getChildren, setParent, setParentTree. cbn [get save].
    rewrite attach_root by eauto. unfold pushRoot. cbn [roots].
    rewrite findNode_app, Hout, findNode_cons. cbn [agentName children].
    rewrite last_snoc, length_app. cbn [length]. split.
    + destruct (String.eqb a pn); reflexivity.
    + do 2 f_equal. lia.
Qed.

Lemma setParent_under_parent_witness :
  getParent (setParent demoForest "vp" (Some "intern")) "vp" = Some "intern" /\
  getChildren (setParent demoForest "vp" (Some "intern")) "intern" = [].
Proof.
  assert (Hnd : NoDup (names (roots (get demoForest)))) by by_decide.
  destruct (setParent_under_parent demoForest "vp" "intern" Hnd) as (Hp & _ & Hroot).
  split; [exact Hp|]. apply Hroot.
  intros (_ & _ & Hout). apply (Hout _ eq_refl). by_decide.
Defined.

End OrgInvariants.

(* ===================================================================== *)
(** * The life cycle of an agent run *)
(* ===================================================================== *)

Module LifeCycle.
Import JSFacts Engine EngineFacts DelegationFacts.

Lemma completeAgent_running agentName taskId status result costUsd durationMs numTurns clock st :
  let st' := snd (completeAgent agentName taskId status result costUsd durationMs numTurns
                    clock st) in
  runningAgents st' = delete agentName (runningAgents st) /\
  concurrencyLimit st' = concurrencyLimit st.
Proof.
  cbv zeta. run_monad. destruct (TaskStorage.get _ taskId) as [task|]; cbn.
  - destruct (JS.truthy _ && JS.truthy _); cbn.
    + destruct (TaskStorage.get _ _); cbn; destruct (AgentStorage.get _ _); split; reflexivity.
    + destruct (AgentStorage.get _ _); split; reflexivity.
  - destruct (AgentStorage.get _ _); split; reflexivity.
Qed.

Lemma finish_task_running depsTaskId status result clock st :
  let st' := snd (finish_task depsTaskId status result clock st) in
  runningAgents st' = runningAgents st /\ concurrencyLimit st' = concurrencyLimit st.
Proof.
  cbv zeta. run_monad. destruct (TaskStorage.get _ depsTaskId) as [task|]; cbn.
  - destruct (JS.truthy _ && JS.truthy _); cbn; [|split; reflexivity].
    destruct (TaskStorage.get _ _); split; reflexivity.
  - split; reflexivity.
Qed.

Lemma finish_task_agents depsTaskId status result clock st :
  agentsOf (snd (finish_task depsTaskId status result clock st)) =
  match TaskStorage.get (tasksOf st) depsTaskId with
  | Some task =>
      let task' := finishedTask task status result clock in
      afterDelivery (agentsOf st) (TaskStorage.save (tasksOf st) task') task'
        (resultDeliveredAt clock) depsTaskId (Some result) status
  | None => agentsOf st
  end.
Proof.
  unfold agentsOf, tasksOf, afterDelivery. run_monad.
  destruct (TaskStorage.get _ depsTaskId) as [task|]; cbn; [|reflexivity].
  fold (finishedTask task status result clock).
  destruct (JS.truthy _ && JS.truthy _); cbn; [|reflexivity].
  destruct (TaskStorage.get _ _); reflexivity.
Qed.

Lemma get_afterDelivery dir tasks task now taskId result status name :
  AgentStorage.get (afterDelivery dir tasks task now taskId result status) name =
  AgentStorage.get dir name.
Proof.
  unfold afterDelivery. destruct (JS.truthy _ && JS.truthy _); [|reflexivity].
  destruct (TaskStorage.get _ _); [|reflexivity].
  apply StoreFacts.agent_get_deliver.
Qed.

(** ** The concurrency limit *)

Lemma step_within_limit (st : State) (op : Op) :
  (Z.of_nat (size (runningAgents st)) <= concurrencyLimit st)%Z ->
  (Z.of_nat (size (runningAgents (step st op))) <= concurrencyLimit (step st op))%Z /\
  concurrencyLimit (step st op) = concurrencyLimit st.
Proof.
  intros Hle.
  destruct op as [options clock | agent tid status result cost duration turns clock
                 | tid status result clock]; cbn [step].
  - destruct (Z_lt_ge_dec (Z.of_nat (size (runningAgents st))) (concurrencyLimit st))
      as [Hfree | Hfull].
    + rewrite spawnAgent_accepted by assumption. cbn [snd runningAgents concurrencyLimit].
      split; [|reflexivity]. rewrite map_size_insert.
      destruct (runningAgents st !! _); cbn [id]; lia.
    + rewrite spawnAgent_rejected by assumption. cbn [snd]. split; [assumption | reflexivity].
  - destruct (completeAgent_running agent tid status result cost duration turns clock st)
      as [-> ->].
    split; [|reflexivity]. rewrite map_size_delete.
    destruct (runningAgents st !! _); cbn [id]; lia.
  - destruct (finish_task_running tid status result clock st) as [-> ->].
    split; [assumption | reflexivity].
Qed.

(** X4. As long as the limit is not changed, no sequence of
    [spawnAgent], [completeAgent] and [finish_task] calls takes the number
    of running agents above the concurrency limit: an engine that starts
    within its limit stays within it, and a new engine never runs more
    than three agents. *)
Theorem running_within_limit (st : State) (ops : list Op) :
  (Z.of_nat (getRunningAgentCount st) <= concurrencyLimit st)%Z ->
  (Z.of_nat (getRunningAgentCount (run st ops)) <= concurrencyLimit st)%Z /\
  concurrencyLimit (run st ops) = concurrencyLimit st.
Proof.
  unfold getRunningAgentCount. revert st.
  induction ops as [|op ops IH]; intros st Hle; [split; [assumption | reflexivity]|].
  cbn [run fold_left]. destruct (step_within_limit st op Hle) as [Hle' Hlimit].
  destruct (IH (step st op) Hle') as [H1 H2]. fold (run (step st op) ops) in *.
  rewrite Hlimit in H1, H2. split; assumption.
Qed.

Lemma running_within_limit_witness :
  (Z.of_nat (getRunningAgentCount
     (run (create (mkWorkspace ∅ ∅ ∅ ∅ None))
        [demoSpawn "a1" "t1"; demoSpawn "a2" "t2"; demoSpawn "a3" "t3";
         demoSpawn "a4" "t4"; demoSpawn "a5" "t5"])) <= 3)%Z.
Proof.
  apply (running_within_limit (create (mkWorkspace ∅ ∅ ∅ ∅ None))). vm_compute. discriminate.
Defined.

(** ** A run from start to end *)

(** X5. When [spawnAgent] is accepted and [completeAgent] is then called
    for the same agent and task: in between, the agent record says
    [running] with the task as its current task, the task record says
    [running] with its start time, and the agent counts as running;
    afterwards the task record holds the start time, the terminal status,
    the result and the completion time, the agent record is [idle] with
    [currentTaskId = null], and the registry is what it was before the
    spawn, without the agent. *)
Theorem spawn_then_complete (options : SpawnOptions) (sclock : SpawnClock)
    (status : FinalStatus.t) (result : option string) (costUsd : option QArith_base.Q)
    (durationMs numTurns : option Z) (cclock : CompleteClock) (st : State) :
  (Z.of_nat (getRunningAgentCount st) < concurrencyLimit st)%Z ->
  let name := AgentConfig.name (agentConfig options) in
  let id := TaskState.id (task options) in
  let st1 := snd (spawnAgent options sclock st) in
  let st2 := snd (completeAgent name id status result costUsd durationMs numTurns cclock st1) in
  (isAgentRunning st1 name = true /\
   exists started busy,
     TaskStorage.get (tasksOf st1) id = Some started /\
     TaskState.status started = TaskStatus.running /\
     TaskState.startedAt started = Some (Date.toISOString (taskStartedAt sclock)) /\
     AgentStorage.get (agentsOf st1) name = Some busy /\
     AgentConfig.status busy = AgentStatus.running /\
     AgentConfig.currentTaskId busy = Some id) /\
  (exists done,
     TaskStorage.get (tasksOf st2) id = Some done /\
     done = completedTask
              (TaskState.start (task options) (Date.toISOString (taskStartedAt sclock)))
              status result costUsd durationMs numTurns cclock /\
     TaskState.id done = id /\
     TaskState.status done = FinalStatus.toStatus status /\
     TaskState.result done = result /\
     TaskState.startedAt done = Some (Date.toISOString (taskStartedAt sclock)) /\
     TaskState.completedAt done = Some (Date.toISOString (completedAt cclock)) /\
     (TaskState.assigneeId done, TaskState.prompt done, TaskState.createdAt done) =
     (TaskState.assigneeId (task options), TaskState.prompt (task options),
      TaskState.createdAt (task options))) /\
  (exists reset,
     AgentStorage.get (agentsOf st2) name = Some reset /\
     reset = AgentConfig.setRun (agentConfig options) AgentStatus.idle None
               (Date.toISOString (agentResetAt cclock)) /\
     AgentConfig.name reset = name /\
     AgentConfig.status reset = AgentStatus.idle /\
     AgentConfig.currentTaskId reset = None /\
     AgentConfig.updatedAt reset = Date.toISOString (agentResetAt cclock) /\
     (AgentConfig.displayName reset, AgentConfig.role reset, AgentConfig.createdAt reset) =
     (AgentConfig.displayName (agentConfig options), AgentConfig.role (agentConfig options),
      AgentConfig.createdAt (agentConfig options))) /\
  runningAgents st2 = delete name (runningAgents st) /\
  isAgentRunning st2 name = false.
Proof.
  intros Hfree. cbv zeta.
  set (name := AgentConfig.name (agentConfig options)).
  set (id := TaskState.id (task options)).
  set (st1 := snd (spawnAgent options sclock st)).
  assert (Hst1 : st1 = snd (spawnAgent options sclock st)) by reflexivity.
  rewrite spawnAgent_accepted in Hst1 by exact Hfree. cbn [snd] in Hst1.
  fold name id in Hst1.
  assert (Htask : TaskStorage.get (tasksOf st1) id =
                  Some (TaskState.start (task options)
                          (Date.toISOString (taskStartedAt sclock)))).
  { rewrite Hst1. unfold tasksOf at 1. cbn [workspace tasks].
    apply (StoreFacts.task_get_save_eq (tasksOf st)
             (TaskState.start (task options) (Date.toISOString (taskStartedAt sclock)))). }
  assert (Hagent : AgentStorage.get (agentsOf st1) name =
                   Some (AgentConfig.setRun (agentConfig options) AgentStatus.running
                           (Some id) (Date.toISOString (agentUpdatedAt sclock)))).
  { rewrite Hst1. unfold agentsOf at 1. cbn [workspace agents].
    apply (StoreFacts.agent_get_save_eq (agentsOf st)
             (AgentConfig.setRun (agentConfig options) AgentStatus.running (Some id)
                (Date.toISOString (agentUpdatedAt sclock)))). }
  assert (Hrun : runningAgents st1 =
                 <[name := mkRunningAgent name id (trackedAt sclock)]> (runningAgents st)).
  { rewrite Hst1. reflexivity. }
  split_and!.
  - unfold isAgentRunning. rewrite Hrun, lookup_insert_eq. reflexivity.
  - do 2 eexists. split; [exact Htask|]. split; [reflexivity|]. split; [reflexivity|].
    split; [exact Hagent|]. split; reflexivity.
  - eexists. split; [|split_and!; reflexivity].
    rewrite completeAgent_tasks, Htask.
    apply (StoreFacts.task_get_save_eq (tasksOf st1)
             (completedTask
                (TaskState.start (task options) (Date.toISOString (taskStartedAt sclock)))
                status result costUsd durationMs numTurns cclock)).
  - eexists. split; [|split_and!; reflexivity].
    rewrite completeAgent_agents, Htask. cbv zeta. unfold afterReset.
    rewrite get_afterDelivery, Hagent.
    apply (StoreFacts.agent_get_save_eq _
             (AgentConfig.setRun
                (AgentConfig.setRun (agentConfig options) AgentStatus.running (Some id)
                   (Date.toISOString (agentUpdatedAt sclock)))
                AgentStatus.idle None (Date.toISOString (agentResetAt cclock)))).
  - destruct (completeAgent_running name id status result costUsd durationMs numTurns
                cclock st1) as [-> _].
    rewrite Hrun. apply delete_insert_eq.
  - unfold isAgentRunning.
    destruct (completeAgent_running name id status result costUsd durationMs numTurns
                cclock st1) as [-> _].
    rewrite lookup_delete_eq. reflexivity.
Qed.

Lemma spawn_then_complete_witness :
  let st1 :=
    snd (spawnAgent (mkSpawnOptions (demoAgent "eng") (demoTask "T1" None "eng" None))
           (mkSpawnClock demoClock demoClock demoClock)
           (create (mkWorkspace ∅ ∅ ∅ ∅ None))) in
  let st2 :=
    snd (completeAgent "eng" "T1" FinalStatus.completed (Some "done") None None None
           (mkCompleteClock demoLater demoLater demoLater) st1) in
  isAgentRunning st1 "eng" = true /\
  AgentConfig.status <$> AgentStorage.get (agentsOf st1) "eng" = Some AgentStatus.running /\
  AgentConfig.status <$> AgentStorage.get (agentsOf st2) "eng" = Some AgentStatus.idle /\
  AgentConfig.currentTaskId <$> AgentStorage.get (agentsOf st2) "eng" = Some None /\
  TaskState.status <$> TaskStorage.get (tasksOf st2) "T1" = Some TaskStatus.completed /\
  TaskState.result <$> TaskStorage.get (tasksOf st2) "T1" = Some (Some "done") /\
  isAgentRunning st2 "eng" = false.
Proof.
  cbv zeta.
  destruct (spawn_then_complete
              (mkSpawnOptions (demoAgent "eng") (demoTask "T1" None "eng" None))
              (mkSpawnClock demoClock demoClock demoClock)
              FinalStatus.completed (Some "done") None None None
              (mkCompleteClock demoLater demoLater demoLater)
              (create (mkWorkspace ∅ ∅ ∅ ∅ None)))
    as ((H1 & started & busy & _ & _ & _ & Hbusy & Hrunning & _) &
        (done & Hdone & _ & _ & Hstatus & Hresult & _) &
        (reset & Hreset & _ & _ & Hidle & Hnone & _) & _ & H5).
  - vm_compute. reflexivity.
  - cbn [AgentConfig.name agentConfig demoAgent TaskState.id task demoTask] in *.
    rewrite Hbusy, Hdone, Hreset. cbn [fmap option_fmap option_map].
    rewrite Hrunning, Hidle, Hnone, Hstatus, Hresult.
    split_and!; [exact H1 | reflexivity .. | exact H5].
Defined.

(** ** finish_task and the agent *)

(** X6. The [finish_task] tool changes neither an agent record nor the
    registry of running agents: after it the agent is still marked running
    and still takes a slot of the concurrency limit, until [completeAgent]
    is called.  For a task id with no record it changes nothing at all and
    answers that the task is unknown. *)
Theorem finish_task_keeps_agent (depsTaskId : string) (status : FinalStatus.t)
    (result : string) (clock : FinishClock) (st : State) :
  let st' := snd (finish_task depsTaskId status result clock st) in
  (forall name, AgentStorage.get (agentsOf st') name = AgentStorage.get (agentsOf st) name) /\
  runningAgents st' = runningAgents st /\
  concurrencyLimit st' = concurrencyLimit st /\
  (TaskStorage.get (tasksOf st) depsTaskId = None ->
   finish_task depsTaskId status result clock st =
     (Ok ("Unknown task: " +:+ depsTaskId), st)).
Proof.
  cbv zeta. split_and!.
  - intros name. rewrite finish_task_agents.
    destruct (TaskStorage.get (tasksOf st) depsTaskId); [|reflexivity].
    apply get_afterDelivery.
  - apply finish_task_running.
  - apply finish_task_running.
  - unfold tasksOf. intros Hnone. run_monad. rewrite Hnone. reflexivity.
Qed.

End LifeCycle.

(* ===================================================================== *)
(** * Delivered results and their reading *)
(* ===================================================================== *)

Module PendingFacts.
Import JSFacts Engine EngineFacts DelegationFacts.

(** ** The expression that reads the child task id off a file name *)

Lemma allChars_app (p : ascii -> bool) (a b : string) :
  JS.allChars p (a +:+ b) = JS.allChars p a && JS.allChars p b.
Proof.
  induction a as [|x a IH]; [reflexivity|].
  rewrite app_cons. cbn [JS.allChars]. rewrite IH. apply andb_assoc.
Qed.

Lemma allChars_lastChar (p : ascii -> bool) (s : string) (c : ascii) :
  JS.allChars p s = true -> lastChar s = Some c -> p c = true.
Proof.
  induction s as [|x s IH]; [discriminate|]. cbn [JS.allChars lastChar].
  intros H. apply andb_true_iff in H as [Hx Hs].
  destruct s as [|y s]; [intros [= <-]; exact Hx | auto].
Qed.

Lemma hexGroup_sound (s w : string) :
  hexGroup s = Some w ->
  s = w +:+ ".md" /\ w <> "" /\ JS.allChars isHexOrHyphen w = true.
Proof.
  revert w. induction s as [|c s IH]; intros w; [discriminate|]. cbn [hexGroup].
  destruct (isHexOrHyphen c) eqn:Hc; [|discriminate].
  destruct (String.eqb_spec s ".md") as [-> | Hne].
  - intros [= <-]. split_and!; [reflexivity | discriminate |].
    cbn [JS.allChars]. rewrite Hc. reflexivity.
  - destruct (hexGroup s) as [w'|]; [|discriminate]. intros [= <-].
    destruct (IH w' eq_refl) as (-> & Hw & Hall). split_and!; [reflexivity | discriminate |].
    cbn [JS.allChars]. rewrite Hc, Hall. reflexivity.
Qed.

Lemma hexGroup_complete (w : string) :
  w <> "" -> JS.allChars isHexOrHyphen w = true -> hexGroup (w +:+ ".md") = Some w.
Proof.
  induction w as [|c w IH]; [congruence|]. intros _. cbn [JS.allChars].
  intros H. apply andb_true_iff in H as [Hc Hw].
  rewrite app_cons. cbn [hexGroup]. rewrite Hc.
  destruct w as [|d w].
  - rewrite app_nil_l, String.eqb_refl. reflexivity.
  - destruct (String.eqb_spec (String d w +:+ ".md") ".md") as [E | _].
    + apply (f_equal String.length) in E. rewrite length_app in E.
      cbn [String.length] in E. lia.
    + rewrite IH by (discriminate || assumption). reflexivity.
Qed.

(** The search for a match steps over a prefix at none of whose hyphens
    the group matches. *)
Lemma taskIdMatch_app (x tail : string) :
  (forall a b, x = a +:+ String "-" b -> hexGroup (b +:+ tail) = None) ->
  taskIdMatch (x +:+ tail) = taskIdMatch tail.
Proof.
  induction x as [|c x IH]; intros H; [reflexivity|].
  rewrite app_cons. cbn [taskIdMatch].
  rewrite IH by (intros a b ->; apply (H (String c a) b); reflexivity).
  destruct (Ascii.eqb_spec c "-") as [-> | _]; [|reflexivity].
  rewrite (H "" x) by reflexivity. reflexivity.
Qed.

Lemma taskIdMatch_stamped (x cid : string) :
  lastChar x = Some "Z"%char ->
  taskIdMatch (x +:+ "-" +:+ cid +:+ ".md") = taskIdMatch ("-" +:+ cid +:+ ".md").
Proof.
  intros Hlast. apply taskIdMatch_app. intros a b ->.
  destruct (hexGroup (b +:+ "-" +:+ cid +:+ ".md")) as [w|] eqn:Hg; [|reflexivity].
  exfalso. apply hexGroup_sound in Hg as (E & _ & Hall).
  rewrite <- !app_assoc in E. apply app_inj_r in E. subst w.
  rewrite !app_assoc, allChars_app in Hall. apply andb_true_iff in Hall as [Hb _].
  assert (Hb' : b <> "").
  { intros ->. rewrite lastChar_app in Hlast by discriminate. discriminate. }
  rewrite lastChar_app in Hlast by discriminate.
  change (String "-" b) with ("-" +:+ b) in Hlast.
  rewrite lastChar_app in Hlast by assumption.
  pose proof (allChars_lastChar _ _ _ Hb Hlast) as Hz. discriminate.
Qed.

Lemma taskIdMatch_length (s w : string) :
  taskIdMatch s = Some w -> String.length w + 4 <= String.length s.
Proof.
  induction s as [|c s IH]; [discriminate|]. cbn [taskIdMatch String.length].
  destruct (if Ascii.eqb c "-" then hexGroup s else None) as [w'|] eqn:Hg.
  - intros [= <-]. destruct (Ascii.eqb c "-"); [|discriminate].
    apply hexGroup_sound in Hg as (-> & _ & _). rewrite length_app. cbn. lia.
  - intros H. specialize (IH H). lia.
Qed.

Lemma stamp_lastChar (now : Date.t) : lastChar (DelegationFlow.stamp now) = Some "Z"%char.
Proof.
  rewrite DateFacts.stamp_eq.
  repeat (rewrite lastChar_app by discriminate). reflexivity.
Qed.

(** The cid read off the file name of a delivery. *)
Lemma taskIdMatch_fileName (now : Date.t) (cid : string) :
  default (DelegationFlow.fileName now cid) (taskIdMatch (DelegationFlow.fileName now cid)) = cid
  <-> cid <> "" /\ JS.allChars isHexOrHyphen cid = true.
Proof.
  unfold DelegationFlow.fileName.
  rewrite (taskIdMatch_stamped _ _ (stamp_lastChar now)).
  rewrite app_cons, app_nil_l. cbn [taskIdMatch]. rewrite Ascii.eqb_refl.
  destruct (hexGroup (cid +:+ ".md")) as [w|] eqn:Hg.
  - apply hexGroup_sound in Hg as (E & Hw & Hall). apply app_inj_r in E. subst w.
    cbn [default from_option]. unfold id. tauto.
  - split.
    + intros E. exfalso.
      destruct (taskIdMatch (cid +:+ ".md")) as [w|] eqn:Hm; cbn [default from_option] in E.
      * unfold id in E. subst w. apply taskIdMatch_length in Hm. rewrite length_app in Hm. cbn in Hm. lia.
      * apply (f_equal String.length) in E. rewrite !length_app in E.
        cbn [String.length] in E. rewrite length_app in E. lia.
    + intros [Hne Hall]. rewrite hexGroup_complete in Hg by assumption. discriminate.
Qed.

(** ** getPendingResults *)

Lemma pending_elem (ws : Workspace) (name entry content : string) :
  AgentStorage.mailbox (agents ws) name !! entry = Some content ->
  JS.endsWith ".md" entry = true ->
  PendingResult.mk (default entry (taskIdMatch entry)) content ∈ getPendingResults ws name.
Proof.
  intros Hfile Hmd. unfold getPendingResults.
  set (box := AgentStorage.mailbox (agents ws) name) in *.
  apply (FoldFacts.elem_fold_collect _
           (fun entry =>
              if negb (JS.endsWith ".md" entry) then []
              else match box !! entry with
                   | Some content =>
                       [PendingResult.mk (default entry (taskIdMatch entry)) content]
                   | None => []
                   end)).
  - intros acc x. destruct (negb _); [rewrite List.app_nil_r; reflexivity|].
    destruct (box !! x); [reflexivity | rewrite List.app_nil_r; reflexivity].
  - exists entry. split; [apply FoldFacts.elem_readdir; eauto|].
    rewrite Hmd, Hfile. cbn. apply list_elem_of_singleton. reflexivity.
Qed.

(** X7. After a delivery, [getPendingResults] of the receiving agent holds
    a result whose text is the body of the artifact; the child task id it
    reports is read back off the file name and is the id of the child task
    exactly when that id is a non-empty string of lower-case hexadecimal
    digits and hyphens, as the ids [randomUUID] makes are. *)
Theorem pending_result_after_delivery (ws : Workspace) (now : Date.t)
    (childTaskId : string) (childResult : option string) (childStatus : string)
    (parentTaskId parentAgentName : string) :
  let entry := DelegationFlow.fileName now childTaskId in
  let reported := default entry (taskIdMatch entry) in
  let ws' :=
    Tools.withAgents ws
      (DelegationFlow.handleChildCompletion (agents ws) now childTaskId childResult
         childStatus parentTaskId parentAgentName) in
  PendingResult.mk reported (DelegationFlow.body now childTaskId childResult childStatus)
    ∈ getPendingResults ws' parentAgentName /\
  (reported = childTaskId <->
   childTaskId <> "" /\ JS.allChars isHexOrHyphen childTaskId = true).
Proof.
  cbv zeta. split; [|apply taskIdMatch_fileName].
  apply pending_elem.
  - unfold Tools.withAgents. cbn [agents].
    rewrite StoreFacts.mailbox_deliver. apply FsFacts.writeAtomic_lookup.
  - rewrite fileName_md. apply endsWith_app.
Qed.

End PendingFacts.

(* ===================================================================== *)
(** * Delegation from end to end *)
(* ===================================================================== *)

Module DelegationRoundTrip.
Import JSFacts Engine EngineFacts DelegationFacts.

(** The parent task found after the child was saved has the assignee it
    had before. *)
Lemma parent_after_save (dir : TaskStorage.Dir) (pid id : string)
    (parent task task' : TaskState.t) :
  TaskStorage.get dir pid = Some parent ->
  TaskStorage.get dir id = Some task ->
  TaskState.id task' = id ->
  TaskState.assigneeId task' = TaskState.assigneeId task ->
  exists parent',
    TaskStorage.get (TaskStorage.save dir task') pid = Some parent' /\
    TaskState.assigneeId parent' = TaskState.assigneeId parent.
Proof.
  intros Hp Ht Hid Has. rewrite StoreFacts.task_get_save, Hid.
  case_decide as E.
  - subst pid. exists task'. split; [reflexivity|]. congruence.
  - exists parent. split; [assumption | reflexivity].
Qed.

(** The mailboxes after [finish_task] has delivered. *)
Lemma finish_task_mailbox depsTaskId status result clock st task pid delegator parent :
  TaskStorage.get (tasksOf st) depsTaskId = Some task ->
  TaskState.parentTaskId task = Some pid -> pid <> "" ->
  TaskState.delegatorId task = Some delegator -> delegator <> "" ->
  TaskStorage.get (TaskStorage.save (tasksOf st) (finishedTask task status result clock)) pid
    = Some parent ->
  forall name,
    AgentStorage.mailbox (agentsOf (snd (finish_task depsTaskId status result clock st))) name =
    if decide (name = TaskState.assigneeId parent) then
      Fs.writeAtomic (DelegationFlow.fileName (resultDeliveredAt clock) depsTaskId)
        (DelegationFlow.body (resultDeliveredAt clock) depsTaskId (Some result)
           (TaskStatus.toString (FinalStatus.toStatus status)))
        (AgentStorage.mailbox (agentsOf st) name)
    else AgentStorage.mailbox (agentsOf st) name.
Proof.
  intros Htask Hpid Hpid' Hdel Hdel' Hparent name.
  rewrite LifeCycle.finish_task_agents, Htask. cbv zeta. unfold afterDelivery.
  replace (TaskState.parentTaskId (finishedTask task status result clock)) with (Some pid)
    by (rewrite <- Hpid; reflexivity).
  replace (TaskState.delegatorId (finishedTask task status result clock))
    with (Some delegator) by (rewrite <- Hdel; reflexivity).
  rewrite !truthy_Some by assumption. cbn [andb from_option]. unfold id.
  rewrite Hparent.
  case_decide as E.
  - subst name. apply StoreFacts.mailbox_deliver.
  - apply StoreFacts.mailbox_deliver_ne. exact E.
Qed.

Lemma ltb_neq (a b : string) : String.ltb a b = true -> a <> b.
Proof.
  unfold String.ltb. intros H ->.
  pose proof (String.compare_antisym b b) as A.
  destruct (String.compare b b); discriminate.
Qed.

(** X8. When the [finish_task] tool and then [completeAgent] are called
    for the same delegated task, each of them delivers: the mailbox of the
    parent task's assignee ends up with two artifacts for the one child
    task, under the two time stamps, each with the status and result of
    the call that wrote it. *)
Theorem finish_then_complete_delivers_twice (agentName taskId : string)
    (status1 status2 : FinalStatus.t) (result1 : string) (result2 : option string)
    (costUsd : option QArith_base.Q) (durationMs numTurns : option Z)
    (fclock : FinishClock) (cclock : CompleteClock) (st : State)
    (task parent : TaskState.t) (pid delegator : string) :
  TaskStorage.get (tasksOf st) taskId = Some task ->
  TaskState.id task = taskId ->
  TaskState.parentTaskId task = Some pid -> pid <> "" ->
  TaskState.delegatorId task = Some delegator -> delegator <> "" ->
  TaskStorage.get (tasksOf st) pid = Some parent ->
  Date.valid (resultDeliveredAt fclock) -> Date.valid (deliveredAt cclock) ->
  Date.before (resultDeliveredAt fclock) (deliveredAt cclock) ->
  let st1 := snd (finish_task taskId status1 result1 fclock st) in
  let st2 := snd (completeAgent agentName taskId status2 result2 costUsd durationMs numTurns
                    cclock st1) in
  let box := AgentStorage.mailbox (agentsOf st2) (TaskState.assigneeId parent) in
  let first := DelegationFlow.fileName (resultDeliveredAt fclock) taskId in
  let second := DelegationFlow.fileName (deliveredAt cclock) taskId in
  first <> second /\
  box !! first =
    Some (DelegationFlow.body (resultDeliveredAt fclock) taskId (Some result1)
            (TaskStatus.toString (FinalStatus.toStatus status1))) /\
  box !! second =
    Some (DelegationFlow.body (deliveredAt cclock) taskId result2
            (TaskStatus.toString (FinalStatus.toStatus status2))).
Proof.
  intros Htask Hid Hpid Hpid' Hdel Hdel' Hparent Hv1 Hv2 Hbefore. cbv zeta.
  set (task1 := finishedTask task status1 result1 fclock).
  set (st1 := snd (finish_task taskId status1 result1 fclock st)).
  destruct (parent_after_save (tasksOf st) pid taskId parent task task1
              Hparent Htask Hid eq_refl) as (parent1 & Hparent1 & Has1).
  pose proof (finish_task_mailbox taskId status1 result1 fclock st task pid delegator
                parent1 Htask Hpid Hpid' Hdel Hdel' Hparent1) as Hbox1.
  fold st1 in Hbox1. rewrite Has1 in Hbox1.
  assert (Htasks1 : tasksOf st1 = TaskStorage.save (tasksOf st) task1).
  { unfold st1. rewrite finish_task_tasks, Htask. reflexivity. }
  assert (Htask1 : TaskStorage.get (tasksOf st1) taskId = Some task1).
  { rewrite Htasks1, <- Hid. apply (StoreFacts.task_get_save_eq (tasksOf st) task1). }
  set (task2 := completedTask task1 status2 result2 costUsd durationMs numTurns cclock).
  destruct (parent_after_save (tasksOf st1) pid taskId parent1 task1 task2
              ltac:(rewrite Htasks1; exact Hparent1) Htask1 Hid eq_refl)
    as (parent2 & Hparent2 & Has2).
  pose proof (completeAgent_mailbox agentName taskId status2 result2 costUsd durationMs
                numTurns cclock st1 task1 pid delegator parent2 Htask1 Hpid Hpid' Hdel Hdel'
                Hparent2 (TaskState.assigneeId parent)) as Hbox2.
  rewrite Has2, Has1 in Hbox2. rewrite decide_True in Hbox2 by reflexivity.
  specialize (Hbox1 (TaskState.assigneeId parent)).
  rewrite decide_True in Hbox1 by reflexivity.
  assert (Hne : DelegationFlow.fileName (resultDeliveredAt fclock) taskId <>
                DelegationFlow.fileName (deliveredAt cclock) taskId).
  { apply ltb_neq. apply DateFacts.fileName_sorted; assumption. }
  split_and!.
  - exact Hne.
  - rewrite Hbox2, FsFacts.writeAtomic_lookup_ne, Hbox1.
    + apply FsFacts.writeAtomic_lookup.
    + exact Hne.
    + rewrite !fileName_md. apply md_not_tmp.
  - rewrite Hbox2. apply FsFacts.writeAtomic_lookup.
Qed.

Lemma finish_then_complete_delivers_twice_witness :
  let st1 := snd (finish_task "T1" FinalStatus.completed "done"
                    (mkFinishClock demoClock demoClock) demoDelegation) in
  let st2 := snd (completeAgent "eng" "T1" FinalStatus.completed (Some "done") None None None
                    (mkCompleteClock demoLater demoLater demoLater) st1) in
  DelegationFlow.fileName demoClock "T1" <> DelegationFlow.fileName demoLater "T1" /\
  is_Some (AgentStorage.mailbox (agentsOf st2) "ceo" !! DelegationFlow.fileName demoClock "T1") /\
  is_Some (AgentStorage.mailbox (agentsOf st2) "ceo" !! DelegationFlow.fileName demoLater "T1").
Proof.
  cbv zeta.
  destruct (finish_then_complete_delivers_twice "eng" "T1" FinalStatus.completed
              FinalStatus.completed "done" (Some "done") None None None
              (mkFinishClock demoClock demoClock)
              (mkCompleteClock demoLater demoLater demoLater) demoDelegation
              (TaskState.start (demoTask "T1" (Some "T0") "eng" (Some "ceo"))
                 (Date.toISOString demoClock))
              (demoTask "T0" None "ceo" None) "T0" "ceo")
    as (Hne & H1 & H2).
  - vm_compute. reflexivity.
  - reflexivity.
  - reflexivity.
  - discriminate.
  - reflexivity.
  - discriminate.
  - vm_compute. reflexivity.
  - vm_compute. lia.
  - vm_compute. lia.
  - reflexivity.
  - split_and!; [exact Hne | eexists; exact H1 | eexists; exact H2].
Defined.

(** X9. A task that the [delegate_task] tool creates from within a task
    [P] and that is then finished with the [finish_task] tool reaches the
    agent [P] is assigned to: its pending results then hold the child task
    id and the body of the artifact.  The id is a fresh one made of
    lower-case hexadecimal digits and hyphens, and the delegating agent
    and [P] have non-empty names. *)
Theorem delegated_result_comes_back (deps : Tools.Deps) (args : Tools.DelegateTaskArgs.t)
    (id : string) (now : Date.t) (status : FinalStatus.t) (result : string)
    (clock : FinishClock) (st : State) (caller target : AgentConfig.t)
    (parent : TaskState.t) :
  AgentStorage.get (agentsOf st) (Tools.agentName deps) = Some caller ->
  AgentStorage.get (agentsOf st) (Tools.DelegateTaskArgs.targetAgent args) = Some target ->
  TaskStorage.get (tasksOf st) (Tools.taskId deps) = Some parent ->
  TaskStorage.get (tasksOf st) id = None ->
  Tools.agentName deps <> "" -> Tools.taskId deps <> "" ->
  id <> "" -> JS.allChars isHexOrHyphen id = true ->
  let delegated := Tools.delegate_task deps args id now (workspace st) in
  let st1 := mkState (Tools.disk delegated) (runningAgents st) (concurrencyLimit st)
               (emitted st) in
  let st2 := snd (finish_task id status result clock st1) in
  TaskStorage.get (tasksOf st1) id = Some (Tools.delegatedTask deps args target id now) /\
  PendingResult.mk id
    (DelegationFlow.body (resultDeliveredAt clock) id (Some result)
       (TaskStatus.toString (FinalStatus.toStatus status)))
    ∈ getPendingResults (workspace st2) (TaskState.assigneeId parent).
Proof.
  intros Hcaller Htarget Hparent Hfresh Hname Hpid Hid Hhex. cbv zeta.
  unfold agentsOf, tasksOf in Hcaller, Htarget, Hparent, Hfresh.
  set (task := Tools.delegatedTask deps args target id now).
  assert (Hdisk : Tools.disk (Tools.delegate_task deps args id now (workspace st)) =
                  Tools.withTasks (workspace st)
                    (TaskStorage.save (tasks (workspace st)) task)).
  { unfold Tools.delegate_task. rewrite Hcaller, Htarget. reflexivity. }
  rewrite Hdisk.
  set (st1 := mkState _ (runningAgents st) (concurrencyLimit st) (emitted st)).
  assert (Htask : TaskStorage.get (tasksOf st1) id = Some task).
  { apply (StoreFacts.task_get_save_eq (tasks (workspace st)) task). }
  split; [exact Htask|].
  assert (Hne : Tools.taskId deps <> id) by congruence.
  assert (Hparent1 :
            TaskStorage.get
              (TaskStorage.save (tasksOf st1) (finishedTask task status result clock))
              (Tools.taskId deps) = Some parent).
  { rewrite StoreFacts.task_get_save_ne by exact Hne.
    unfold st1, tasksOf. cbn [workspace Tools.withTasks tasks].
    rewrite StoreFacts.task_get_save_ne by exact Hne. exact Hparent. }
  assert (Hptid : TaskState.parentTaskId task = Some (Tools.taskId deps)).
  { unfold task, Tools.delegatedTask. cbn [TaskState.parentTaskId].
    rewrite truthy_Some by assumption. reflexivity. }
  pose proof (finish_task_mailbox id status result clock st1 task (Tools.taskId deps)
                (Tools.agentName deps) parent Htask Hptid Hpid eq_refl Hname Hparent1
                (TaskState.assigneeId parent)) as Hbox.
  rewrite decide_True in Hbox by reflexivity.
  set (entry := DelegationFlow.fileName (resultDeliveredAt clock) id) in *.
  replace id with (default entry (taskIdMatch entry)) at 1
    by (apply PendingFacts.taskIdMatch_fileName; split; assumption).
  apply PendingFacts.pending_elem.
  - unfold agentsOf in Hbox. rewrite Hbox. apply FsFacts.writeAtomic_lookup.
  - unfold entry. rewrite fileName_md. apply endsWith_app.
Qed.

Lemma delegated_result_comes_back_witness :
  let deps := Tools.mkDeps "/ws" "ceo" "T0" in
  let args := Tools.DelegateTaskArgs.mk "eng" "Fix the build" "It fails on main" None in
  let st :=
    setAgents (fun dir => AgentStorage.save (AgentStorage.save dir (demoAgent "ceo"))
                            (demoAgent "eng"))
      (setTasks (fun dir => TaskStorage.save dir (demoTask "T0" None "ceo" None))
         (create (mkWorkspace ∅ ∅ ∅ ∅ None))) in
  let delegated := Tools.delegate_task deps args "0a1b-2c3d" demoClock (workspace st) in
  let st1 := mkState (Tools.disk delegated) (runningAgents st) (concurrencyLimit st)
               (emitted st) in
  let st2 := snd (finish_task "0a1b-2c3d" FinalStatus.completed "built"
                    (mkFinishClock demoLater demoLater) st1) in
  PendingResult.mk "0a1b-2c3d"
    (DelegationFlow.body demoLater "0a1b-2c3d" (Some "built") "completed")
    ∈ getPendingResults (workspace st2) "ceo".
Proof.
  cbv zeta.
  refine (proj2 (delegated_result_comes_back (Tools.mkDeps "/ws" "ceo" "T0")
            (Tools.DelegateTaskArgs.mk "eng" "Fix the build" "It fails on main" None)
            "0a1b-2c3d" demoClock FinalStatus.completed "built"
            (mkFinishClock demoLater demoLater) _ (demoAgent "ceo") (demoAgent "eng")
            (demoTask "T0" None "ceo" None) _ _ _ _ _ _ _ _));
    [vm_compute; reflexivity | vm_compute; reflexivity | vm_compute; reflexivity
    | vm_compute; reflexivity | discriminate | discriminate | discriminate | reflexivity].
Defined.

End DelegationRoundTrip.

(* ===================================================================== *)
(** * What the stores list *)
(* ===================================================================== *)

Module StoreListing.
Import JSFacts SortFacts.

(** ** The id read back from a file name *)

Lemma drop_length (s : string) : JS.drop (String.length s) s = "".
Proof. induction s as [|c s IH]; [reflexivity | exact IH]. Qed.

Lemma startsWith_refl (s : string) : JS.startsWith s s = true.
Proof.
  induction s as [|c s IH]; [reflexivity|]. cbn [JS.startsWith].
  rewrite Ascii.eqb_refl, IH. reflexivity.
Qed.

(** A suffix that cannot overlap itself: where it starts inside a name
    that it ends, it starts inside the stem. *)
Definition unbordered (sep : string) : Prop :=
  forall s, JS.startsWith sep (s +:+ sep) = true -> s = "" \/ JS.startsWith sep s = true.

Lemma json_unbordered : unbordered ".json".
Proof.
  intros s H. destruct s as [|c1 [|c2 [|c3 [|c4 [|c5 s]]]]]; [left; reflexivity | ..];
    right; rewrite ?app_cons, ?app_nil_l in H; cbn [JS.startsWith] in *;
    repeat match type of H with
           | context [Ascii.eqb ?a ?b] =>
               destruct (Ascii.eqb_spec a b); try discriminate; subst; cbn [andb] in *
           end;
    try discriminate; try reflexivity; try congruence.
Qed.

Lemma md_unbordered : unbordered ".md".
Proof.
  intros s H. destruct s as [|c1 [|c2 [|c3 s]]]; [left; reflexivity | ..];
    right; rewrite ?app_cons, ?app_nil_l in H; cbn [JS.startsWith] in *;
    repeat match type of H with
           | context [Ascii.eqb ?a ?b] =>
               destruct (Ascii.eqb_spec a b); try discriminate; subst; cbn [andb] in *
           end;
    try discriminate; try reflexivity; try congruence.
Qed.

Lemma breakOn_suffix (sep stem : string) :
  unbordered sep -> JS.includes sep stem = false ->
  JS.breakOn sep (stem +:+ sep) = Some (stem, "").
Proof.
  intros Hsep. induction stem as [|c stem IH]; intros Hinc.
  - rewrite app_nil_l. destruct sep as [|d sep]; [reflexivity|].
    rewrite BoardFacts.breakOn_cons, startsWith_refl, drop_length. reflexivity.
  - cbn [JS.includes] in Hinc. apply orb_false_iff in Hinc as [Hhere Hlater].
    rewrite app_cons, BoardFacts.breakOn_cons, (IH Hlater).
    destruct (JS.startsWith sep (String c (stem +:+ sep))) eqn:Hs; [|reflexivity].
    exfalso. rewrite <- app_cons in Hs.
    destruct (Hsep _ Hs) as [E | E]; [discriminate | congruence].
Qed.

Lemma replaceFirst_suffix (sep stem : string) :
  unbordered sep -> JS.includes sep stem = false ->
  JS.replaceFirst sep "" (stem +:+ sep) = stem.
Proof.
  intros Hsep Hinc. unfold JS.replaceFirst. rewrite breakOn_suffix by assumption.
  rewrite app_nil_l. apply app_nil_r.
Qed.

Lemma json_not_tmp_name (stem : string) : JS.endsWith ".tmp" (stem +:+ ".json") = false.
Proof.
  destruct (JS.endsWith ".tmp" (stem +:+ ".json")) eqn:E; [|reflexivity].
  apply endsWith_lastChar in E; [|discriminate].
  rewrite lastChar_app in E by discriminate. discriminate.
Qed.

(** ** Tasks *)

(** What the loop of [TaskStorage.list] pushes for one entry. *)
Definition taskOf (dir : TaskStorage.Dir) (filter : option TaskStorage.Filter)
    (entry : string) : list TaskState.t :=
  if negb (JS.endsWith ".json" entry) || JS.endsWith ".tmp" entry then []
  else
    match TaskStorage.get dir (JS.replaceFirst ".json" "" entry) with
    | None => []
    | Some task => if TaskStorage.passes filter task then [task] else []
    end.

Lemma task_visit_collect dir filter acc entry :
  TaskStorage.visit dir filter acc entry = acc ++ taskOf dir filter entry.
Proof.
  unfold TaskStorage.visit, taskOf.
  destruct (negb _ || _); [rewrite List.app_nil_r; reflexivity|].
  destruct (TaskStorage.get dir _) as [task|]; [|rewrite List.app_nil_r; reflexivity].
  destruct (TaskStorage.passes filter task); [reflexivity | rewrite List.app_nil_r; reflexivity].
Qed.

Lemma elem_task_list getTime dir filter (x : TaskState.t) :
  x ∈ TaskStorage.list getTime dir filter <->
  exists entry, is_Some (dir !! entry) /\ x ∈ taskOf dir filter entry.
Proof.
  unfold TaskStorage.list.
  rewrite elem_sort, (FoldFacts.elem_fold_collect _ _ (task_visit_collect dir filter)).
  split; intros (entry & H1 & H2); exists entry; (split; [|exact H2]);
    apply FoldFacts.elem_readdir; exact H1.
Qed.

(** X10. [list(filter)] returns only tasks that are stored and pass the
    filter, and a task that was saved is listed whenever it passes the
    filter, provided its id does not contain the text [.json]: the id is
    read back from the file name by replacing the first [.json] in it. *)
Theorem saved_task_is_listed (getTime : string -> option Z) (dir : TaskStorage.Dir)
    (task : TaskState.t) (filter : option TaskStorage.Filter) :
  JS.includes ".json" (TaskState.id task) = false ->
  (forall x, x ∈ TaskStorage.list getTime dir filter ->
             TaskStorage.passes filter x = true /\ exists id, TaskStorage.get dir id = Some x) /\
  (task ∈ TaskStorage.list getTime (TaskStorage.save dir task) filter <->
   TaskStorage.passes filter task = true).
Proof.
  intros Hid.
  assert (Hsound : forall dir x, x ∈ TaskStorage.list getTime dir filter ->
                     TaskStorage.passes filter x = true /\
                     exists id, TaskStorage.get dir id = Some x).
  { clear dir. intros dir x Hx. apply elem_task_list in Hx as (entry & _ & Hx).
    unfold taskOf in Hx. destruct (negb _ || _); [inversion Hx|].
    destruct (TaskStorage.get dir _) as [t|] eqn:Hget; [|inversion Hx].
    destruct (TaskStorage.passes filter t) eqn:Hp; [|inversion Hx].
    apply list_elem_of_singleton in Hx. subst x. eauto. }
  split; [apply Hsound|]. split.
  - intros Hx. apply (Hsound _ _ Hx).
  - intros Hp. apply elem_task_list. exists (TaskState.id task +:+ ".json"). split.
    + unfold TaskStorage.save. rewrite FsFacts.writeAtomic_lookup. eauto.
    + unfold taskOf.
      rewrite endsWith_app, json_not_tmp_name, (replaceFirst_suffix _ _ json_unbordered Hid).
      cbn [negb orb]. rewrite StoreFacts.task_get_save_eq, Hp.
      apply list_elem_of_singleton. reflexivity.
Qed.

Lemma saved_task_is_listed_witness :
  EngineFacts.demoTask "t1" None "alice" None
    ∈ TaskStorage.list Date.parse
        (TaskStorage.save ∅ (EngineFacts.demoTask "t1" None "alice" None))
        (Some (TaskStorage.mkFilter (Some "alice") (Some "pending"))).
Proof.
  apply (saved_task_is_listed Date.parse ∅ (EngineFacts.demoTask "t1" None "alice" None));
    reflexivity.
Defined.

(** X11. [delete(id)] removes the file of the task and nothing else: the
    task can no longer be read or listed under that file, every other id
    reads as before, and deleting an id that has no file changes
    nothing. *)
Theorem deleted_task_is_gone (getTime : string -> option Z) (dir : TaskStorage.Dir)
    (id : string) (filter : option TaskStorage.Filter) :
  TaskStorage.get (TaskStorage.delete dir id) id = None /\
  (forall id', id' <> id ->
     TaskStorage.get (TaskStorage.delete dir id) id' = TaskStorage.get dir id') /\
  (forall x, x ∈ TaskStorage.list getTime (TaskStorage.delete dir id) filter ->
             exists id', id' <> id /\ TaskStorage.get dir id' = Some x) /\
  (TaskStorage.get dir id = None -> TaskStorage.delete dir id = dir).
Proof.
  unfold TaskStorage.get, TaskStorage.delete. split_and!.
  - apply lookup_delete_eq.
  - intros id' Hne. apply lookup_delete_ne. intros E. apply Hne.
    symmetry. exact (app_inj_r _ _ _ E).
  - intros x Hx. apply elem_task_list in Hx as (entry & _ & Hx).
    unfold taskOf in Hx. destruct (negb _ || _); [inversion Hx|].
    unfold TaskStorage.get in Hx.
    destruct (base.delete (id +:+ ".json") dir !! _) as [t|] eqn:Hget; [|inversion Hx].
    destruct (TaskStorage.passes filter t); [|inversion Hx].
    apply list_elem_of_singleton in Hx. subst x.
    apply lookup_delete_Some in Hget as [Hne Hget].
    eexists. split; [|exact Hget]. intros E. apply Hne. rewrite E. reflexivity.
  - intros Hnone. apply delete_id. exact Hnone.
Qed.

(** ** Agents *)

Definition agentOf (dir : AgentStorage.Dir) (name : string) : list AgentConfig.t :=
  match AgentStorage.get dir name with
  | Some agent => [agent]
  | None => []
  end.

Lemma elem_agent_list (dir : AgentStorage.Dir) (a : AgentConfig.t) :
  a ∈ AgentStorage.list dir <->
  exists name, Fs.isEntryName name = true /\ AgentStorage.get dir name = Some a.
Proof.
  unfold AgentStorage.list.
  rewrite (FoldFacts.elem_fold_collect _ (agentOf dir)).
  - split.
    + intros (name & Hname & Ha). unfold agentOf in Ha.
      destruct (AgentStorage.get dir name) as [b|] eqn:E; [|inversion Ha].
      apply list_elem_of_singleton in Ha. subst b.
      exists name. split; [exact (FoldFacts.subdirs_entry _ _ Hname) | exact E].
    + intros (name & Hname & Hget). exists name. split.
      * apply FoldFacts.elem_subdirs_entry; [exact Hname|].
        unfold AgentStorage.get in Hget. destruct (dir !! name); [eauto | discriminate].
      * unfold agentOf. rewrite Hget. apply list_elem_of_singleton. reflexivity.
  - intros acc name. unfold agentOf.
    destruct (AgentStorage.get dir name); [reflexivity | rewrite List.app_nil_r; reflexivity].
Qed.

(** The configurations [list()] returns, each once for the entry it was
    read under. *)
Lemma agent_list_eq (dir : AgentStorage.Dir) :
  AgentStorage.list dir = Fs.subdirs dir ≫= agentOf dir.
Proof.
  unfold AgentStorage.list. rewrite (FoldFacts.fold_collect _ (agentOf dir)); [reflexivity|].
  intros acc name. unfold agentOf.
  destruct (AgentStorage.get dir name); [reflexivity | rewrite List.app_nil_r; reflexivity].
Qed.

(** X12. [list()] returns exactly the configurations that [get] can read
    under a name that is one path segment, the name of an entry of
    [agents/] itself.  A saved configuration is read by [get] under its
    name, and [list()] returns it when the name is such a segment; a
    configuration saved under the empty name is the file
    [agents/config.json] and changes nothing in what [list()] returns.  A directory that holds only
    a mailbox is no agent: a delivery, which creates the directory of the
    receiving agent when it is missing, never changes what [list()]
    returns, and neither does [ensureAgentDir]. *)
Theorem agent_list_is_what_get_reads (dir : AgentStorage.Dir) (a : AgentConfig.t) :
  (a ∈ AgentStorage.list dir <->
   exists name, Fs.isEntryName name = true /\ AgentStorage.get dir name = Some a) /\
  (forall agent,
     AgentStorage.get (AgentStorage.save dir agent) (AgentConfig.name agent) = Some agent /\
     (Fs.isEntryName (AgentConfig.name agent) = true ->
      agent ∈ AgentStorage.list (AgentStorage.save dir agent)) /\
     (AgentConfig.name agent = "" ->
      (a ∈ AgentStorage.list (AgentStorage.save dir agent) <-> a ∈ AgentStorage.list dir))) /\
  (forall now childTaskId childResult childStatus parentTaskId parentAgentName,
     a ∈ AgentStorage.list
           (DelegationFlow.handleChildCompletion dir now childTaskId childResult childStatus
              parentTaskId parentAgentName) <->
     a ∈ AgentStorage.list dir) /\
  (forall name, a ∈ AgentStorage.list (AgentStorage.ensureAgentDir dir name) <->
                a ∈ AgentStorage.list dir).
Proof.
  split_and!.
  - apply elem_agent_list.
  - intros agent. split_and!.
    + apply StoreFacts.agent_get_save_eq.
    + intros Hname. apply elem_agent_list. exists (AgentConfig.name agent).
      split; [exact Hname | apply StoreFacts.agent_get_save_eq].
    + intros Hname. rewrite !elem_agent_list.
      assert (Hother : forall n, Fs.isEntryName n = true -> n <> AgentConfig.name agent).
      { intros n Hn ->. rewrite Hname in Hn. discriminate. }
      split; intros (n & Hn & H); exists n; (split; [exact Hn|]).
      * rewrite StoreFacts.agent_get_save_ne in H by auto. exact H.
      * rewrite StoreFacts.agent_get_save_ne by auto. exact H.
  - intros. rewrite !elem_agent_list.
    split; intros (name & Hn & H); exists name; (split; [exact Hn|]);
      [rewrite StoreFacts.agent_get_deliver in H | rewrite StoreFacts.agent_get_deliver];
      exact H.
  - intros name. rewrite !elem_agent_list.
    assert (Hget : forall n, AgentStorage.get (AgentStorage.ensureAgentDir dir name) n =
                             AgentStorage.get dir n).
    { intros n. unfold AgentStorage.ensureAgentDir, AgentStorage.get.
      destruct (dir !! name) eqn:E; [reflexivity|].
      destruct (decide (n = name)) as [->|Hne].
      - rewrite lookup_insert_eq, E. reflexivity.
      - rewrite lookup_insert_ne by congruence. reflexivity. }
    split; intros (n & Hn & H); exists n; (split; [exact Hn|]);
      [rewrite Hget in H | rewrite Hget]; exact H.
Qed.

(** A configuration saved under the empty name or a level below an entry
    is read by [get] and is not listed. *)
Example unlisted_agents :
  let dir :=
    AgentStorage.save
      (AgentStorage.save (AgentStorage.save ∅ (EngineFacts.demoAgent "dev"))
         (EngineFacts.demoAgent ""))
      (EngineFacts.demoAgent "a/b") in
  AgentConfig.name <$> AgentStorage.get dir "" = Some "" /\
  AgentConfig.name <$> AgentStorage.get dir "a/b" = Some "a/b" /\
  Fs.subdirs dir = ["a"; "dev"] /\
  AgentConfig.name <$> AgentStorage.list dir = ["dev"].
Proof. vm_compute. repeat split. Qed.

End StoreListing.

(* ===================================================================== *)
(** * Messages: sending, reading, marking *)
(* ===================================================================== *)

Module MessageFacts.
Import JSFacts SortFacts StoreListing.

(** The state [save] keeps: every message sits in the directory of its
    thread, in the file named after its id, and the id can be read back
    from the file name. *)
Definition wellFiled (dir : MessageStorage.Dir) : Prop :=
  map_Forall
    (fun threadId (thread : gmap string Message.t) =>
       map_Forall
         (fun entry m =>
            entry = Message.id m +:+ ".json" /\ Message.threadId m = threadId /\
            JS.includes ".json" (Message.id m) = false)
         thread)
    dir.

(** The fields [markRead] leaves alone. *)
Definition content (m : Message.t) :=
  (Message.id m, Message.fromAgentId m, Message.toAgentId m, Message.threadId m,
   Message.subject m, Message.body m, Message.type m, Message.createdAt m).

Lemma content_id m m' : content m' = content m -> Message.id m' = Message.id m.
Proof. unfold content. congruence. Qed.

Lemma content_setRead m now : content (Message.setRead m now) = content m.
Proof. reflexivity. Qed.

Lemma unread_setRead agentName m now :
  MessageStorage.isUnreadFor agentName (Message.setRead m now) = false.
Proof. unfold MessageStorage.isUnreadFor. cbn. apply andb_false_r. Qed.

Lemma no_tmp (dir : MessageStorage.Dir) threadId thread stem :
  wellFiled dir -> dir !! threadId = Some thread -> thread !! (stem +:+ ".tmp") = None.
Proof.
  intros Hwf Hth. destruct (thread !! (stem +:+ ".tmp")) as [x|] eqn:E; [|reflexivity].
  destruct (Hwf _ _ Hth _ _ E) as (Hk & _). symmetry in Hk.
  exfalso. exact (json_not_tmp _ _ Hk).
Qed.

(** ** save and markRead on a well-filed store *)

Lemma wellFiled_insert (dir : MessageStorage.Dir) threadId thread (m : Message.t) :
  wellFiled dir -> dir !! threadId = Some thread \/ (dir !! threadId = None /\ thread = ∅) ->
  Message.threadId m = threadId -> JS.includes ".json" (Message.id m) = false ->
  wellFiled (<[threadId := <[Message.id m +:+ ".json" := m]> thread]> dir).
Proof.
  intros Hwf Hth Htid Hid th thread' Hth' entry x Hx.
  destruct (decide (th = threadId)) as [->|Hne].
  - rewrite lookup_insert_eq in Hth'. injection Hth' as <-.
    destruct (decide (entry = Message.id m +:+ ".json")) as [->|Hk].
    + rewrite lookup_insert_eq in Hx. injection Hx as <-. auto.
    + rewrite lookup_insert_ne in Hx by congruence.
      destruct Hth as [Hth | [_ ->]]; [exact (Hwf _ _ Hth _ _ Hx) | discriminate].
  - rewrite lookup_insert_ne in Hth' by congruence. exact (Hwf _ _ Hth' _ _ Hx).
Qed.

Lemma save_eq (dir : MessageStorage.Dir) (m : Message.t) :
  wellFiled dir ->
  MessageStorage.save dir m =
  <[Message.threadId m :=
      <[Message.id m +:+ ".json" := m]> (MessageStorage.threadDir dir (Message.threadId m))]>
    dir.
Proof.
  intros Hwf. unfold MessageStorage.save. rewrite FsFacts.writeAtomic_eq.
  rewrite delete_id; [reflexivity|].
  unfold MessageStorage.threadDir.
  destruct (dir !! Message.threadId m) as [thread|] eqn:Hth; [|reflexivity].
  exact (no_tmp _ _ _ _ Hwf Hth).
Qed.

Lemma wellFiled_save (dir : MessageStorage.Dir) (m : Message.t) :
  wellFiled dir -> JS.includes ".json" (Message.id m) = false ->
  wellFiled (MessageStorage.save dir m).
Proof.
  intros Hwf Hid. rewrite save_eq by assumption.
  apply wellFiled_insert; [assumption | | reflexivity | assumption].
  unfold MessageStorage.threadDir.
  destruct (dir !! Message.threadId m); [left | right]; auto.
Qed.

Lemma markRead_found (dir : MessageStorage.Dir) (id threadId : string) (now : Date.t)
    thread (m : Message.t) :
  wellFiled dir -> dir !! threadId = Some thread -> thread !! (id +:+ ".json") = Some m ->
  MessageStorage.markRead dir id threadId now =
  <[threadId := <[id +:+ ".json" := Message.setRead m (Date.toISOString now)]> thread]> dir.
Proof.
  intros Hwf Hth Hm. destruct (Hwf _ _ Hth _ _ Hm) as (Hk & Htid & Hid).
  unfold MessageStorage.markRead, MessageStorage.get. rewrite Hth, Hm.
  rewrite save_eq by assumption. cbn [Message.setRead Message.threadId Message.id].
  unfold MessageStorage.threadDir. rewrite Htid, Hth, <- Hk. reflexivity.
Qed.

(** ** What a thread lists *)

Definition messageOf (dir : MessageStorage.Dir) (threadId entry : string) : list Message.t :=
  if negb (JS.endsWith ".json" entry) || JS.endsWith ".tmp" entry then []
  else
    match MessageStorage.get dir (JS.replaceFirst ".json" "" entry) threadId with
    | Some msg => [msg]
    | None => []
    end.

Lemma message_visit_collect dir threadId acc entry :
  MessageStorage.visit dir threadId acc entry = acc ++ messageOf dir threadId entry.
Proof.
  unfold MessageStorage.visit, messageOf.
  destruct (negb _ || _); [rewrite List.app_nil_r; reflexivity|].
  destruct (MessageStorage.get dir _ threadId);
    [reflexivity | rewrite List.app_nil_r; reflexivity].
Qed.

Lemma listed_when_filed getTime (dir : MessageStorage.Dir) threadId thread (m : Message.t) :
  dir !! threadId = Some thread ->
  thread !! (Message.id m +:+ ".json") = Some m ->
  JS.includes ".json" (Message.id m) = false ->
  m ∈ MessageStorage.listThread getTime dir threadId.
Proof.
  intros Hth Hm Hid. unfold MessageStorage.listThread. rewrite Hth.
  apply elem_sort.
  apply (FoldFacts.elem_fold_collect _ _ (message_visit_collect dir threadId)).
  exists (Message.id m +:+ ".json"). split; [apply FoldFacts.elem_readdir; eauto|].
  unfold messageOf.
  rewrite endsWith_app, json_not_tmp_name, (replaceFirst_suffix _ _ json_unbordered Hid).
  cbn [negb orb]. unfold MessageStorage.get. rewrite Hth, Hm.
  apply list_elem_of_singleton. reflexivity.
Qed.

Lemma elem_listThread getTime (dir : MessageStorage.Dir) threadId (m : Message.t) :
  wellFiled dir ->
  m ∈ MessageStorage.listThread getTime dir threadId <->
  exists thread, dir !! threadId = Some thread /\
                 thread !! (Message.id m +:+ ".json") = Some m.
Proof.
  intros Hwf. split.
  - intros Hm. apply ListingFacts.listThread_values in Hm as (thread & k & Hth & Hk).
    destruct (Hwf _ _ Hth _ _ Hk) as (-> & _). eauto.
  - intros (thread & Hth & Hm). destruct (Hwf _ _ Hth _ _ Hm) as (_ & _ & Hid).
    exact (listed_when_filed _ _ _ _ _ Hth Hm Hid).
Qed.

Lemma elem_getUnread getTime (dir : MessageStorage.Dir) agentName (m : Message.t) :
  m ∈ MessageStorage.getUnread getTime dir agentName <->
  exists threadId, threadId ∈ MessageStorage.listThreads dir /\
                   m ∈ MessageStorage.listThread getTime dir threadId /\
                   MessageStorage.isUnreadFor agentName m = true.
Proof.
  unfold MessageStorage.getUnread.
  rewrite elem_sort.
  rewrite (FoldFacts.elem_fold_collect _
             (fun threadId =>
                List.filter (MessageStorage.isUnreadFor agentName)
                  (MessageStorage.listThread getTime dir threadId)))
    by reflexivity.
  split; intros (th & H1 & H2); exists th.
  - apply list_elem_of_In, filter_In in H2 as [H2 H3].
    apply list_elem_of_In in H2. auto.
  - destruct H2 as [H2 H3]. split; [exact H1|].
    apply list_elem_of_In, filter_In. split; [apply list_elem_of_In; exact H2 | exact H3].
Qed.

(** X13. On a well-filed store, [markRead(id, thread)] rewrites the message
    with [status = read] and [readAt] set and leaves every other message
    as it was; for a message that does not exist it changes nothing. *)
Theorem markRead_marks_one (dir : MessageStorage.Dir) (id threadId : string) (now : Date.t) :
  wellFiled dir ->
  let dir' := MessageStorage.markRead dir id threadId now in
  wellFiled dir' /\
  (MessageStorage.get dir id threadId = None -> dir' = dir) /\
  (forall m, MessageStorage.get dir id threadId = Some m ->
             MessageStorage.get dir' id threadId =
               Some (Message.setRead m (Date.toISOString now))) /\
  (forall id' threadId', (id', threadId') <> (id, threadId) ->
     MessageStorage.get dir' id' threadId' = MessageStorage.get dir id' threadId').
Proof.
  intros Hwf. cbv zeta.
  destruct (MessageStorage.get dir id threadId) as [m|] eqn:Hget.
  - unfold MessageStorage.get in Hget.
    destruct (dir !! threadId) as [thread|] eqn:Hth; [|discriminate].
    rewrite (markRead_found _ _ _ now _ _ Hwf Hth Hget).
    destruct (Hwf _ _ Hth _ _ Hget) as (Hk & Htid & Hid).
    split_and!.
    + rewrite Hk. apply (wellFiled_insert dir threadId thread (Message.setRead m _)); auto.
    + discriminate.
    + intros m' [= <-]. unfold MessageStorage.get.
      rewrite !lookup_insert_eq. reflexivity.
    + intros id' th' Hne. unfold MessageStorage.get.
      destruct (decide (th' = threadId)) as [->|Hth'].
      * rewrite lookup_insert_eq, Hth. apply lookup_insert_ne.
        intros E. apply Hne. apply app_inj_r in E. congruence.
      * rewrite lookup_insert_ne by congruence. reflexivity.
  - unfold MessageStorage.markRead. rewrite Hget.
    split_and!; [assumption | reflexivity | discriminate | reflexivity].
Qed.

Lemma markRead_marks_one_witness :
  MessageStorage.get
    (MessageStorage.markRead ListingFacts.demoMessages "msg-old" "thread-1"
       EngineFacts.demoClock)
    "msg-old" "thread-1" =
  Some (Message.mk "msg-old" (Some "sender") "alice" "thread-1" (Some "Hello") "first"
          Message.direct Message.read "2024-01-01T00:00:00.000Z"
          (Some (Date.toISOString EngineFacts.demoClock))).
Proof.
  assert (Hwf : wellFiled ListingFacts.demoMessages) by by_decide.
  destruct (markRead_marks_one ListingFacts.demoMessages "msg-old" "thread-1"
              EngineFacts.demoClock Hwf) as (_ & _ & Hmarked & _).
  apply (Hmarked (Message.mk "msg-old" (Some "sender") "alice" "thread-1" (Some "Hello")
                    "first" Message.direct Message.pending "2024-01-01T00:00:00.000Z" None)).
  vm_compute. reflexivity.
Defined.

(** ** The loop of read_messages *)

Section MarkThread.
Variables (agentName threadId : string) (clock : nat -> Date.t) (orig : list Message.t).

(** Every message of the thread as first listed is still in its file, up
    to the fields that marking changes. *)
Definition kept (dir : MessageStorage.Dir) : Prop :=
  forall m, m ∈ orig ->
    exists thread m',
      dir !! threadId = Some thread /\
      thread !! (Message.id m +:+ ".json") = Some m' /\ content m' = content m.

Lemma markThread_marks (rest : list Message.t) :
  forall (dir : MessageStorage.Dir) (calls : nat),
    wellFiled dir -> kept dir ->
    (forall m, m ∈ rest -> m ∈ orig) ->
    (forall thread entry m,
       dir !! threadId = Some thread -> thread !! entry = Some m ->
       MessageStorage.isUnreadFor agentName m = true -> m ∈ rest) ->
    let dir' :=
      fst (fold_left
             (fun '(dir, calls) msg =>
                if MessageStorage.isUnreadFor agentName msg
                then (MessageStorage.markRead dir (Message.id msg) threadId (clock calls),
                      S calls)
                else (dir, calls))
             rest (dir, calls)) in
    wellFiled dir' /\ kept dir' /\
    (forall thread entry m,
       dir' !! threadId = Some thread -> thread !! entry = Some m ->
       MessageStorage.isUnreadFor agentName m = false) /\
    (forall threadId', threadId' <> threadId -> dir' !! threadId' = dir !! threadId').
Proof.
  induction rest as [|msg rest IH]; intros dir calls Hwf Hkept Hsub Hunread; cbv zeta.
  - cbn [fold_left fst]. split_and!; [assumption | assumption | | reflexivity].
    intros thread entry m Hth Hm.
    destruct (MessageStorage.isUnreadFor agentName m) eqn:E; [|reflexivity].
    specialize (Hunread _ _ _ Hth Hm E). inversion Hunread.
  - cbn [fold_left].
    destruct (MessageStorage.isUnreadFor agentName msg) eqn:Emsg.
    + destruct (Hkept msg) as (thread & m' & Hth & Hm' & Hc); [apply Hsub; left|].
      pose proof (content_id _ _ Hc) as Hid.
      destruct (Hwf _ _ Hth _ _ Hm') as (_ & Htid & Hinc).
      rewrite (markRead_found _ _ _ (clock calls) _ _ Hwf Hth Hm').
      set (marked := Message.setRead m' (Date.toISOString (clock calls))).
      set (dir1 := <[threadId := <[Message.id msg +:+ ".json" := marked]> thread]> dir).
      assert (Hwf1 : wellFiled dir1).
      { unfold dir1. rewrite <- Hid.
        apply (wellFiled_insert dir threadId thread marked); auto. }
      assert (Hkept1 : kept dir1).
      { intros x Hx. destruct (Hkept x Hx) as (thread0 & x' & Hth0 & Hx' & Hcx).
        rewrite Hth in Hth0. injection Hth0 as <-.
        exists (<[Message.id msg +:+ ".json" := marked]> thread).
        destruct (decide (Message.id x +:+ ".json" = Message.id msg +:+ ".json")) as [E|E].
        - exists marked. split_and!.
          + apply lookup_insert_eq.
          + rewrite E. apply lookup_insert_eq.
          + rewrite E in Hx'. rewrite Hm' in Hx'. injection Hx' as <-.
            unfold marked. rewrite content_setRead. exact Hcx.
        - exists x'. split_and!; [apply lookup_insert_eq | | exact Hcx].
          rewrite lookup_insert_ne by congruence. exact Hx'. }
      destruct (IH dir1 (S calls) Hwf1 Hkept1) as (H1 & H2 & H3 & H4).
      * intros m Hm. apply Hsub. right. exact Hm.
      * intros thread1 entry m Hth1 Hm Hun. unfold dir1 in Hth1.
        rewrite lookup_insert_eq in Hth1. injection Hth1 as <-.
        destruct (decide (entry = Message.id msg +:+ ".json")) as [->|Hne].
        -- rewrite lookup_insert_eq in Hm. injection Hm as <-.
           unfold marked in Hun. rewrite unread_setRead in Hun. discriminate.
        -- rewrite lookup_insert_ne in Hm by congruence.
           specialize (Hunread _ _ _ Hth Hm Hun).
           apply elem_of_cons in Hunread as [-> | Hin]; [|exact Hin].
           destruct (Hwf _ _ Hth _ _ Hm) as (-> & _). congruence.
      * split_and!; [exact H1 | exact H2 | exact H3 |].
        intros th' Hne. rewrite (H4 th' Hne). unfold dir1.
        apply lookup_insert_ne. congruence.
    + apply IH; [assumption | assumption | |].
      * intros m Hm. apply Hsub. right. exact Hm.
      * intros thread entry m Hth Hm Hun. specialize (Hunread _ _ _ Hth Hm Hun).
        apply elem_of_cons in Hunread as [-> | Hin]; [congruence | exact Hin].
Qed.

End MarkThread.

(** X14. On a well-filed store, [read_messages] with a thread id answers
    with the messages of the thread as they were before the call, and
    marks them: afterwards no message of the thread is unread for the
    calling agent, so [getUnread] returns none of that thread; every
    message of the thread is still there with its other fields unchanged,
    and no other thread is touched. *)
Theorem read_messages_marks_thread (deps : Tools.Deps) (threadId : string)
    (getTime : string -> option Z) (clock : nat -> Date.t) (ws : Engine.Workspace) :
  wellFiled (Engine.messages ws) -> threadId <> "" ->
  let before := MessageStorage.listThread getTime (Engine.messages ws) threadId in
  let out := Tools.read_messages deps (Some threadId) getTime clock ws in
  let dir' := Engine.messages (Tools.disk out) in
  Tools.reply out = Tools.Json (inl (map Tools.ThreadView.view before)) /\
  wellFiled dir' /\
  (forall m, m ∈ MessageStorage.listThread getTime dir' threadId ->
             MessageStorage.isUnreadFor (Tools.agentName deps) m = false) /\
  (forall m, m ∈ MessageStorage.getUnread getTime dir' (Tools.agentName deps) ->
             Message.threadId m <> threadId) /\
  (forall m, m ∈ before ->
             exists m', m' ∈ MessageStorage.listThread getTime dir' threadId /\
                        content m' = content m) /\
  (forall threadId', threadId' <> threadId ->
                     dir' !! threadId' = Engine.messages ws !! threadId').
Proof.
  intros Hwf Hne. cbv zeta. unfold Tools.read_messages.
  rewrite (DelegationFacts.truthy_Some _ Hne).
  cbn [Tools.reply Tools.disk Tools.withMessages Engine.messages default from_option].
  unfold id, Tools.markThread.
  set (dir := Engine.messages ws) in *.
  set (orig := MessageStorage.listThread getTime dir threadId).
  destruct (markThread_marks (Tools.agentName deps) threadId clock orig orig dir 0)
    as (Hwf' & Hkept & Hread & Hother).
  - exact Hwf.
  - intros m Hm. apply (elem_listThread _ _ _ _ Hwf) in Hm as (thread & Hth & Hfile).
    exists thread, m. auto.
  - auto.
  - intros thread entry m Hth Hm _. apply (elem_listThread _ _ _ _ Hwf).
    exists thread. split; [exact Hth|].
    destruct (Hwf _ _ Hth _ _ Hm) as (<- & _). exact Hm.
  - set (dir' := fst _) in *. split_and!.
    + reflexivity.
    + exact Hwf'.
    + intros m Hm. apply (elem_listThread _ _ _ _ Hwf') in Hm as (thread & Hth & Hfile).
      exact (Hread _ _ _ Hth Hfile).
    + intros m Hm Htid. apply elem_getUnread in Hm as (th & _ & Hin & Hun).
      pose proof Hin as Hin'.
      apply (elem_listThread _ _ _ _ Hwf') in Hin' as (thread & Hth & Hfile).
      destruct (Hwf' _ _ Hth _ _ Hfile) as (_ & E & _).
      rewrite Htid in E. subst th. rewrite (Hread _ _ _ Hth Hfile) in Hun. discriminate.
    + intros m Hm. destruct (Hkept m Hm) as (thread & m' & Hth & Hfile & Hc).
      exists m'. split; [|exact Hc].
      apply (elem_listThread _ _ _ _ Hwf'). exists thread. split; [exact Hth|].
      rewrite (content_id _ _ Hc). exact Hfile.
    + exact Hother.
Qed.

Lemma read_messages_marks_thread_witness :
  let ws := Engine.mkWorkspace ∅ ∅ ListingFacts.demoMessages ∅ None in
  let out :=
    Tools.read_messages (Tools.mkDeps "/ws" "alice" "T0") (Some "thread-1") Date.parse
      (fun _ => EngineFacts.demoClock) ws in
  Tools.reply out =
    Tools.Json (inl (map Tools.ThreadView.view
                       (MessageStorage.listThread Date.parse ListingFacts.demoMessages
                          "thread-1"))) /\
  (forall m,
     m ∈ MessageStorage.getUnread Date.parse (Engine.messages (Tools.disk out)) "alice" ->
     Message.threadId m <> "thread-1").
Proof.
  cbv zeta.
  destruct (read_messages_marks_thread (Tools.mkDeps "/ws" "alice" "T0") "thread-1"
              Date.parse (fun _ => EngineFacts.demoClock)
              (Engine.mkWorkspace ∅ ∅ ListingFacts.demoMessages ∅ None))
    as (Hreply & _ & _ & Hnone & _).
  - by_decide.
  - discriminate.
  - split; [exact Hreply | exact Hnone].
Defined.

(** X15. A message sent with [send_message] is filed in its thread:
    [listThread] of its thread id returns it, whatever else the store
    holds, provided the message id does not contain the text [.json]; a
    well-filed store stays well-filed.  The message is unread for the
    recipient, and [getUnread] of the recipient returns it when the
    thread id names a sub-directory of [messages/], as every generated
    thread id does; [getUnread] visits the threads of [listThreads]
    only, so what it returns lies in a thread of such a name. *)
Theorem sent_message_is_unread (deps : Tools.Deps) (args : Tools.SendMessageArgs.t)
    (newThread id : string) (now : Date.t) (getTime : string -> option Z)
    (ws : Engine.Workspace) :
  JS.includes ".json" id = false ->
  let message := Tools.sentMessage deps args newThread id now in
  let dir' := Engine.messages (Tools.disk (Tools.send_message deps args newThread id now ws)) in
  Message.threadId message = default newThread (Tools.SendMessageArgs.threadId args) /\
  Message.toAgentId message = Tools.SendMessageArgs.toAgent args /\
  Message.status message = Message.delivered /\
  Message.readAt message = None /\
  message ∈ MessageStorage.listThread getTime dir' (Message.threadId message) /\
  (Fs.isEntryName (Message.threadId message) = true ->
   Message.threadId message ∈ MessageStorage.listThreads dir' /\
   message ∈ MessageStorage.getUnread getTime dir' (Tools.SendMessageArgs.toAgent args)) /\
  (forall agentName m,
     m ∈ MessageStorage.getUnread getTime dir' agentName ->
     exists threadId,
       Fs.isEntryName threadId = true /\
       m ∈ MessageStorage.listThread getTime dir' threadId) /\
  (wellFiled (Engine.messages ws) -> wellFiled dir').
Proof.
  intros Hid. cbv zeta.
  set (message := Tools.sentMessage deps args newThread id now).
  cbn [Tools.send_message Tools.disk Tools.withMessages Engine.messages].
  fold message.
  assert (Hlisted : message ∈ MessageStorage.listThread getTime
                      (MessageStorage.save (Engine.messages ws) message)
                      (Message.threadId message)).
  { unfold MessageStorage.save.
    eapply listed_when_filed; [apply lookup_insert_eq | | exact Hid].
    apply FsFacts.writeAtomic_lookup. }
  split_and!; try reflexivity.
  - exact Hlisted.
  - intros Hentry.
    assert (Hthread : Message.threadId message
                        ∈ MessageStorage.listThreads
                            (MessageStorage.save (Engine.messages ws) message)).
    { apply FoldFacts.elem_subdirs_entry; [exact Hentry|].
      unfold MessageStorage.save. rewrite lookup_insert_eq. eauto. }
    split; [exact Hthread|].
    apply elem_getUnread. exists (Message.threadId message). split_and!.
    + exact Hthread.
    + exact Hlisted.
    + unfold MessageStorage.isUnreadFor, message, Tools.sentMessage.
      cbn [Message.toAgentId Message.status]. rewrite String.eqb_refl. reflexivity.
  - intros agentName m Hm. apply elem_getUnread in Hm as (threadId & Hthread & Hin & _).
    exists threadId. split; [exact (FoldFacts.subdirs_entry _ _ Hthread) | exact Hin].
  - intros Hwf. apply wellFiled_save; assumption.
Qed.

Lemma sent_message_is_unread_witness :
  let deps := Tools.mkDeps "/ws" "ceo" "T0" in
  let args := Tools.SendMessageArgs.mk "eng" None "Please review" None in
  let ws := Engine.mkWorkspace ∅ ∅ ListingFacts.demoMessages ∅ None in
  let out := Tools.send_message deps args "7f3a-00c1" "91bd-44e2" EngineFacts.demoClock ws in
  let message :=
    Tools.sentMessage deps args "7f3a-00c1" "91bd-44e2" EngineFacts.demoClock in
  Message.threadId message = "7f3a-00c1" /\
  message ∈ MessageStorage.getUnread Date.parse (Engine.messages (Tools.disk out)) "eng".
Proof.
  cbv zeta.
  destruct (sent_message_is_unread (Tools.mkDeps "/ws" "ceo" "T0")
              (Tools.SendMessageArgs.mk "eng" None "Please review" None)
              "7f3a-00c1" "91bd-44e2" EngineFacts.demoClock Date.parse
              (Engine.mkWorkspace ∅ ∅ ListingFacts.demoMessages ∅ None))
    as (Hthread & _ & _ & _ & _ & Hunread & _ & _).
  - reflexivity.
  - split; [exact Hthread|]. apply Hunread. reflexivity.
Defined.

(** With the empty thread id, which [send_message] keeps as it is given,
    the file is written into [messages/] itself: [listThread] of the
    empty id reads it, [listThreads] does not name a thread for it and
    [getUnread] of the recipient does not return it. *)
Example empty_thread_id_is_not_unread :
  let deps := Tools.mkDeps "/ws" "ceo" "T0" in
  let args := Tools.SendMessageArgs.mk "eng" None "Please review" (Some "") in
  let ws := Engine.mkWorkspace ∅ ∅ ∅ ∅ None in
  let out := Tools.send_message deps args "7f3a-00c1" "91bd-44e2" EngineFacts.demoClock ws in
  let message :=
    Tools.sentMessage deps args "7f3a-00c1" "91bd-44e2" EngineFacts.demoClock in
  MessageStorage.listThread Date.parse (Engine.messages (Tools.disk out)) "" = [message] /\
  MessageStorage.listThreads (Engine.messages (Tools.disk out)) = [] /\
  MessageStorage.getUnread Date.parse (Engine.messages (Tools.disk out)) "eng" = [].
Proof. vm_compute. repeat split. Qed.

End MessageFacts.

(* ===================================================================== *)
(** * The board: posting and querying *)
(* ===================================================================== *)

Module BoardListing.
Import JSFacts SortFacts StoreListing BoardFacts.

(** ** What the loops of [BoardStorage.list] collect *)

Definition itemOf (s : BoardStorage.t) (filter : option BoardStorage.Filter)
    (type entry : string) : list BoardItem.t :=
  if negb (JS.endsWith ".md" entry) then []
  else
    match BoardStorage.get s type (JS.replaceFirst ".md" "" entry) with
    | None => []
    | Some item =>
        if JS.truthy (filter ≫= BoardStorage.author) &&
           negb (bool_decide (Some (BoardItem.author item) = filter ≫= BoardStorage.author))
        then []
        else [item]
    end.

Lemma board_visit_collect s filter type acc entry :
  BoardStorage.visit s filter type acc entry = acc ++ itemOf s filter type entry.
Proof.
  unfold BoardStorage.visit, itemOf.
  destruct (negb _); [rewrite List.app_nil_r; reflexivity|].
  destruct (BoardStorage.get s type _) as [item|]; [|rewrite List.app_nil_r; reflexivity].
  destruct (_ && _); [rewrite List.app_nil_r; reflexivity | reflexivity].
Qed.

Definition itemsOfType (s : BoardStorage.t) (filter : option BoardStorage.Filter)
    (type : string) : list BoardItem.t :=
  match BOARD_TYPE_TO_FOLDER type with
  | None => []
  | Some folder =>
      match BoardStorage.folders s !! folder with
      | None => []
      | Some dir => Fs.readdir dir ≫= itemOf s filter type
      end
  end.

Lemma visitType_step s filter (type : string) (acc : list BoardItem.t) :
  is_Some (BOARD_TYPE_TO_FOLDER type) ->
  BoardStorage.visitType s filter (Some acc) type = Some (acc ++ itemsOfType s filter type).
Proof.
  intros [folder Hfolder]. unfold BoardStorage.visitType, itemsOfType. rewrite Hfolder.
  destruct (BoardStorage.folders s !! folder) as [dir|].
  - rewrite (FoldFacts.fold_collect _ _ (board_visit_collect s filter type)). reflexivity.
  - rewrite List.app_nil_r. reflexivity.
Qed.

Lemma visitType_valid s filter (types : list string) :
  (forall type, type ∈ types -> is_Some (BOARD_TYPE_TO_FOLDER type)) ->
  forall acc,
    fold_left (BoardStorage.visitType s filter) types (Some acc) =
    Some (acc ++ (types ≫= itemsOfType s filter)).
Proof.
  induction types as [|type types IH]; intros Hvalid acc; cbn [fold_left].
  - cbn. rewrite List.app_nil_r. reflexivity.
  - rewrite visitType_step by (apply Hvalid; left).
    rewrite IH by (intros ty H; apply Hvalid; right; exact H).
    rewrite <- List.app_assoc. reflexivity.
Qed.

(** The filter a caller builds from an item type of the enumeration. *)
Definition filterOf (type : option BoardItemType.t) (author : option string)
    (limit : option Z) : option BoardStorage.Filter :=
  Some (BoardStorage.mkFilter (BoardItemType.toString <$> type) author limit).

Definition typesOf (type : option BoardItemType.t) : list string :=
  match type with
  | Some t => [BoardItemType.toString t]
  | None => BoardStorage.BOARD_TYPES
  end.

Lemma folder_of_type (t : BoardItemType.t) :
  is_Some (BOARD_TYPE_TO_FOLDER (BoardItemType.toString t)).
Proof. destruct t; cbn; eauto. Qed.

Lemma typesOf_valid type ty : ty ∈ typesOf type -> is_Some (BOARD_TYPE_TO_FOLDER ty).
Proof.
  destruct type as [t|]; cbn [typesOf].
  - intros H. apply list_elem_of_singleton in H. subst ty. apply folder_of_type.
  - unfold BoardStorage.BOARD_TYPES. rewrite !elem_of_cons, elem_of_nil.
    intros [-> | [-> | [-> | [-> | []]]]]; cbn; eauto.
Qed.

(** Every item of the board that [list] would return without a limit, in
    the order of the answer. *)
Definition listing (getTime : string -> option Z) (s : BoardStorage.t)
    (type : option BoardItemType.t) (author : option string) : list BoardItem.t :=
  Sort.sort (BoardStorage.newestFirst getTime)
    (typesOf type ≫= itemsOfType s (filterOf type author None)).

Lemma list_eq getTime s type author limit :
  BoardStorage.list getTime s (filterOf type author limit) =
  Some (match limit with
        | Some n => if (n =? 0)%Z then listing getTime s type author
                    else JS.sliceTo n (listing getTime s type author)
        | None => listing getTime s type author
        end).
Proof.
  unfold BoardStorage.list, filterOf, listing. cbn [mbind option_bind BoardStorage.type
    BoardStorage.limit fmap option_fmap option_map].
  replace (match BoardItemType.toString <$> type with
           | Some ty => if JS.truthy (Some ty) then [ty] else BoardStorage.BOARD_TYPES
           | None => BoardStorage.BOARD_TYPES
           end) with (typesOf type) by (destruct type as [[]|]; reflexivity).
  rewrite (visitType_valid _ _ _ (typesOf_valid type)). cbn [app].
  destruct limit as [n|]; [destruct (n =? 0)%Z|]; reflexivity.
Qed.

Lemma elem_listing getTime s type author (x : BoardItem.t) :
  x ∈ listing getTime s type author <->
  exists ty folder dir entry,
    ty ∈ typesOf type /\ BOARD_TYPE_TO_FOLDER ty = Some folder /\
    BoardStorage.folders s !! folder = Some dir /\ is_Some (dir !! entry) /\
    x ∈ itemOf s (filterOf type author None) ty entry.
Proof.
  unfold listing. rewrite elem_sort, list_elem_of_bind. split.
  - intros (ty & Hx & Hty). unfold itemsOfType in Hx.
    destruct (BOARD_TYPE_TO_FOLDER ty) as [folder|] eqn:Hf; [|inversion Hx].
    destruct (BoardStorage.folders s !! folder) as [dir|] eqn:Hd; [|inversion Hx].
    apply list_elem_of_bind in Hx as (entry & Hx & He).
    apply FoldFacts.elem_readdir in He. exists ty, folder, dir, entry. auto.
  - intros (ty & folder & dir & entry & Hty & Hf & Hd & He & Hx).
    exists ty. split; [|exact Hty]. unfold itemsOfType. rewrite Hf, Hd.
    apply list_elem_of_bind. exists entry. split; [exact Hx|].
    apply FoldFacts.elem_readdir. exact He.
Qed.

Lemma listing_stored getTime s type author (x : BoardItem.t) :
  x ∈ listing getTime s type author ->
  (exists ty id, BoardStorage.get s ty id = Some x) /\
  (forall a, author = Some a -> a <> "" -> BoardItem.author x = a).
Proof.
  intros Hx. apply elem_listing in Hx as (ty & folder & dir & entry & _ & _ & _ & _ & Hx).
  unfold itemOf in Hx. destruct (negb _); [inversion Hx|].
  destruct (BoardStorage.get s ty _) as [item|] eqn:Hget; [|inversion Hx].
  cbn [filterOf mbind option_bind BoardStorage.author] in Hx.
  destruct (JS.truthy author && _) eqn:Hflt; [inversion Hx|].
  apply list_elem_of_singleton in Hx. subst x. split; [eauto|].
  intros a -> Ha. rewrite (DelegationFacts.truthy_Some _ Ha) in Hflt. cbn [andb] in Hflt.
  apply negb_false_iff, bool_decide_eq_true in Hflt. congruence.
Qed.

(** The [createdAt] a file of the board is read with, whatever its path. *)
Definition createdAtOf (content : string) : option string :=
  BoardItem.createdAt <$> BoardStorage.fromMarkdown content "".

(** Every [createdAt] on the board can be read as a date. *)
Definition readable (getTime : string -> option Z)
    (folders : gmap string (gmap string string)) : Prop :=
  map_Forall
    (fun _ (dir : gmap string string) =>
       map_Forall
         (fun _ content =>
            createdAtOf content = None \/ is_Some (createdAtOf content ≫= getTime))
         dir)
    folders.

Lemma createdAtOf_fromMarkdown (content filePath : string) (item : BoardItem.t) :
  BoardStorage.fromMarkdown content filePath = Some item ->
  createdAtOf content = Some (BoardItem.createdAt item).
Proof.
  unfold createdAtOf, BoardStorage.fromMarkdown.
  destruct (BoardStorage.matchDocument content) as [[frontmatter rest]|]; [|discriminate].
  destruct (String.eqb frontmatter ""); [discriminate|].
  intros [= <-]. reflexivity.
Qed.

Lemma readable_get getTime (s : BoardStorage.t) (ty id : string) (item : BoardItem.t) :
  readable getTime (BoardStorage.folders s) ->
  BoardStorage.get s ty id = Some item ->
  is_Some (getTime (BoardItem.createdAt item)).
Proof.
  intros Hr. unfold BoardStorage.get.
  destruct (BOARD_TYPE_TO_FOLDER ty) as [folder|]; [|discriminate].
  destruct (BoardStorage.folders s !! folder) as [dir|] eqn:Hd; [|discriminate].
  destruct (dir !! (id +:+ ".md")) as [content|] eqn:Hc; [|discriminate].
  intros Hitem. apply createdAtOf_fromMarkdown in Hitem.
  destruct (Hr _ _ Hd _ _ Hc) as [E | E]; [congruence|].
  rewrite Hitem in E. exact E.
Qed.

(** ** Order and limit *)

Lemma sorted_app {A : Type} (R : A -> A -> Prop) (l1 l2 : list A) :
  StronglySorted R (l1 ++ l2) ->
  StronglySorted R l1 /\ forall a b, a ∈ l1 -> b ∈ l2 -> R a b.
Proof.
  induction l1 as [|x l1 IH]; cbn [app]; intros Hs.
  - split; [constructor|]. intros a b Ha. inversion Ha.
  - apply StronglySorted_inv in Hs as [Hs Hall]. destruct (IH Hs) as [H1 H2].
    rewrite Forall_forall in Hall. split.
    + constructor; [exact H1|]. apply Forall_forall. intros y Hy. apply Hall.
      apply elem_of_app. left. exact Hy.
    + intros a b Ha Hb. apply elem_of_cons in Ha as [-> | Ha]; [|exact (H2 _ _ Ha Hb)].
      apply Hall. apply elem_of_app. right. exact Hb.
Qed.

(** X16. [query_board] answers with the newest items.  When every
    [createdAt] on the board can be read as a date, the answer is in
    descending order of [createdAt]; with a positive limit [n], ten when
    none is given, it holds the first [n] items of the full listing (all
    of them when there are fewer), and no item it leaves out is newer
    than one it returns.  A limit of zero returns the full listing, and
    an author that is given and not empty is the author of every item
    returned. *)
Theorem query_board_newest (deps : Tools.Deps) (type : option BoardItemType.t)
    (author : option string) (limit : option Z) (getTime : string -> option Z)
    (ws : Engine.Workspace) :
  readable getTime (Engine.board ws) ->
  let out := Tools.query_board deps type author limit getTime ws in
  let all := listing getTime (Tools.boardOf deps ws) type author in
  let n := default 10%Z limit in
  let newer := fun a b : BoardItem.t =>
                 notAfter getTime (BoardItem.createdAt b) (BoardItem.createdAt a) in
  Tools.disk out = ws /\
  StronglySorted newer all /\
  (forall x a, x ∈ all -> author = Some a -> a <> "" -> BoardItem.author x = a) /\
  (n = 0%Z -> Tools.reply out = Tools.Json (map Tools.BoardView.view all)) /\
  ((0 < n)%Z ->
   Tools.reply out = Tools.Json (map Tools.BoardView.view (take (Z.to_nat n) all)) /\
   forall a b, a ∈ take (Z.to_nat n) all -> b ∈ drop (Z.to_nat n) all -> newer a b).
Proof.
  intros Hdates. cbv zeta.
  assert (Hsorted : StronglySorted
            (fun a b => notAfter getTime (BoardItem.createdAt b) (BoardItem.createdAt a))
            (listing getTime (Tools.boardOf deps ws) type author)).
  { unfold listing. apply (sort_by_date getTime BoardItem.createdAt).
    intros x Hx.
    assert (Hin : x ∈ listing getTime (Tools.boardOf deps ws) type author)
      by (unfold listing; apply elem_sort; exact Hx).
    destruct (listing_stored _ _ _ _ _ Hin) as [(ty & id & Hget) _].
    exact (readable_get getTime (Tools.boardOf deps ws) _ _ _ Hdates Hget). }
  unfold Tools.query_board. fold (filterOf type author (Some (default 10%Z limit))).
  rewrite list_eq. cbn [Tools.disk Tools.reply]. split_and!.
  - destruct (default 10%Z limit =? 0)%Z; reflexivity.
  - exact Hsorted.
  - intros x a Hx Ha Hne. exact (proj2 (listing_stored _ _ _ _ _ Hx) a Ha Hne).
  - intros ->. reflexivity.
  - intros Hpos. destruct (Z.eqb_spec (default 10%Z limit) 0) as [E | _]; [lia|].
    split.
    + unfold JS.sliceTo. destruct (Z.ltb_spec (default 10%Z limit) 0); [lia | reflexivity].
    + intros a b Ha Hb.
      rewrite <- (take_drop (Z.to_nat (default 10%Z limit))
                    (listing getTime (Tools.boardOf deps ws) type author)) in Hsorted.
      exact (proj2 (sorted_app _ _ _ Hsorted) a b Ha Hb).
Qed.



(** ** Posting *)

Lemma oneLine_pad (w n : nat) : oneLine (Date.pad w n) = true.
Proof.
  revert n. induction w as [|w IH]; intros n; [reflexivity|]. cbn [Date.pad oneLine].
  rewrite IH, andb_true_r. unfold Date.digit.
  assert (H : n / 10 ^ w mod 10 < 10) by (apply Nat.mod_upper_bound; discriminate).
  destruct (n / 10 ^ w mod 10) as [|[|[|[|[|[|[|[|[|[|k]]]]]]]]]]; try reflexivity; lia.
Qed.

Lemma white_digit (n : nat) : JS.isWhite (Date.digit n) = false.
Proof.
  unfold Date.digit.
  assert (H : n mod 10 < 10) by (apply Nat.mod_upper_bound; discriminate).
  destruct (n mod 10) as [|[|[|[|[|[|[|[|[|[|k]]]]]]]]]]; try reflexivity; lia.
Qed.

Lemma trimEnd_app_Z (s : string) : JS.trimEnd (s +:+ "Z") = s +:+ "Z".
Proof.
  induction s as [|c s IH]; [reflexivity|]. rewrite app_cons. cbn [JS.trimEnd].
  rewrite IH. destruct (s +:+ "Z") eqn:E; [|reflexivity].
  destruct s; discriminate.
Qed.

(** The text [toISOString] prints is read back from the front matter as it
    was written. *)
Lemma plain_toISOString (d : Date.t) : plain (Date.toISOString d).
Proof.
  unfold Date.toISOString. split; [|split].
  - rewrite !oneLine_app, !oneLine_pad. reflexivity.
  - cbn [Date.pad]. rewrite app_cons. cbn [JS.trimStart]. rewrite white_digit. reflexivity.
  - rewrite <- !app_assoc. apply trimEnd_app_Z.
Qed.

(** X17. An item posted with [post_to_board] is on the board: [list]
    without a limit returns it, with the author, summary, body and time
    given and with [path] naming its file (the event the tool emits
    carries an empty path), when it is asked for every type or for the
    type of the item, and for every author or for the posting agent.  The
    id, the agent name and the summary hold no line feed and neither start
    nor end with white space, the body does not end with white space, and
    the id does not contain the text [.md]. *)
Theorem posted_item_is_listed (deps : Tools.Deps) (type : BoardItemType.t)
    (summary body id : string) (now : Date.t) (getTime : string -> option Z)
    (ws : Engine.Workspace) (askType : option BoardItemType.t) (askAuthor : option string) :
  plain id -> plain (Tools.agentName deps) -> plain summary ->
  JS.trimEnd body = body -> JS.includes ".md" id = false ->
  askType = None \/ askType = Some type ->
  askAuthor = None \/ askAuthor = Some (Tools.agentName deps) ->
  let out := Tools.post_to_board deps type summary body id now ws in
  exists folder items,
    BOARD_TYPE_TO_FOLDER (BoardItemType.toString type) = Some folder /\
    Tools.emitted out =
      [Tools.board_item_created (BoardItemType.toString type) (Tools.agentName deps) ""] /\
    BoardStorage.list getTime (Tools.boardOf deps (Tools.disk out))
      (filterOf askType askAuthor None) = Some items /\
    BoardItem.mk id (Some (BoardItemType.toString type)) (Tools.agentName deps) summary body
      (Date.toISOString now)
      (JS.pathJoin (JS.pathJoin (JS.pathJoin (Tools.basePath deps) "board") folder)
         (id +:+ ".md"))
      ∈ items.
Proof.
  intros Hid Hagent Hsummary Hbody Hmd Htype Hauthor. cbv zeta.
  destruct (folder_of_type type) as [folder Hfolder].
  set (item := Tools.postedItem deps type summary body id now).
  unfold Tools.post_to_board. fold item.
  unfold BoardStorage.save. change (BoardItem.type item) with (Some (BoardItemType.toString type)).
  cbn [mbind option_bind]. rewrite Hfolder.
  cbn [Tools.disk Tools.emitted Tools.withBoard Tools.boardOf Engine.board BoardStorage.folders
       BoardStorage.boardDir].
  set (boardDir := JS.pathJoin (Tools.basePath deps) "board").
  set (dir := Fs.writeAtomic (BoardItem.id item +:+ ".md") (BoardStorage.toMarkdown item) _).
  set (s' := Tools.boardOf deps (Tools.withBoard ws (<[folder:=dir]> (Engine.board ws)))).
  exists folder. eexists. split_and!; [reflexivity | reflexivity | apply list_eq |].
  cbn match. apply elem_listing.
  exists (BoardItemType.toString type), folder, dir, (id +:+ ".md"). split_and!.
  - destruct Htype as [-> | ->]; cbn [typesOf]; [|left].
    unfold BoardStorage.BOARD_TYPES. destruct type; cbn; rewrite !elem_of_cons; tauto.
  - exact Hfolder.
  - unfold s'. cbn [Tools.boardOf Tools.withBoard Engine.board BoardStorage.folders].
    apply lookup_insert_eq.
  - unfold dir. change (BoardItem.id item) with id. rewrite FsFacts.writeAtomic_lookup. eauto.
  - unfold itemOf. rewrite endsWith_app. cbn [negb].
    rewrite (replaceFirst_suffix _ _ md_unbordered Hmd).
    unfold BoardStorage.get. rewrite Hfolder. unfold s'.
    cbn [Tools.boardOf Tools.withBoard Engine.board BoardStorage.folders
         BoardStorage.boardDir].
    rewrite lookup_insert_eq.
    unfold dir. change (BoardItem.id item) with id. rewrite FsFacts.writeAtomic_lookup.
    rewrite (fromMarkdown_toMarkdown item (BoardItemType.toString type) folder);
      [| reflexivity | exact Hfolder | exact Hid | exact Hagent | exact Hsummary
       | apply plain_toISOString | exact Hbody].
    cbn [filterOf mbind option_bind BoardStorage.author BoardItem.author].
    change (BoardItem.author item) with (Tools.agentName deps).
    replace (JS.truthy askAuthor &&
             negb (bool_decide (Some (Tools.agentName deps) = askAuthor))) with false.
    + apply list_elem_of_singleton. reflexivity.
    + destruct Hauthor as [-> | ->]; [reflexivity|].
      rewrite bool_decide_eq_true_2 by reflexivity. cbn. rewrite andb_false_r. reflexivity.
Qed.

(** A board with two findings and a blocker, posted in this order. *)
Definition demoPosted : Engine.Workspace :=
  let deps := Tools.mkDeps "/ws" "eng" "T1" in
  let post type summary id now ws :=
    Tools.disk (Tools.post_to_board deps type summary "Details" id now ws) in
  post BoardItemType.blocker "API down" "c3" (Date.mk 2024 6 15 10 30 45 125)
    (post BoardItemType.finding "Second look" "b2" (Date.mk 2024 6 15 10 30 45 124)
       (post BoardItemType.finding "First look: all fine" "a1"
          (Date.mk 2024 6 15 10 30 45 123)
          (Engine.mkWorkspace ∅ ∅ ∅ ∅ None))).

Lemma posted_item_is_listed_witness :
  exists folder items,
    BOARD_TYPE_TO_FOLDER "finding" = Some folder /\
    Tools.emitted
      (Tools.post_to_board (Tools.mkDeps "/ws" "eng" "T1") BoardItemType.finding
         "Third look" "Details" "d4" EngineFacts.demoClock demoPosted) =
      [Tools.board_item_created "finding" "eng" ""] /\
    BoardStorage.list Date.parse
      (Tools.boardOf (Tools.mkDeps "/ws" "eng" "T1")
         (Tools.disk
            (Tools.post_to_board (Tools.mkDeps "/ws" "eng" "T1") BoardItemType.finding
               "Third look" "Details" "d4" EngineFacts.demoClock demoPosted)))
      (filterOf (Some BoardItemType.finding) None None) = Some items /\
    BoardItem.mk "d4" (Some "finding") "eng" "Third look" "Details"
      (Date.toISOString EngineFacts.demoClock)
      (JS.pathJoin (JS.pathJoin (JS.pathJoin "/ws" "board") folder) ("d4" +:+ ".md"))
      ∈ items.
Proof.
  apply (posted_item_is_listed (Tools.mkDeps "/ws" "eng" "T1") BoardItemType.finding
           "Third look" "Details" "d4" EngineFacts.demoClock Date.parse demoPosted
           (Some BoardItemType.finding) None);
    first [reflexivity | by repeat split | by right | by left].
Defined.

Lemma query_board_newest_witness :
  let deps := Tools.mkDeps "/ws" "eng" "T1" in
  let all := listing Date.parse (Tools.boardOf deps demoPosted) None None in
  StronglySorted
    (fun a b => notAfter Date.parse (BoardItem.createdAt b) (BoardItem.createdAt a)) all /\
  Tools.reply (Tools.query_board deps None None (Some 2%Z) Date.parse demoPosted) =
    Tools.Json (map Tools.BoardView.view (take 2 all)).
Proof.
  cbv zeta.
  destruct (query_board_newest (Tools.mkDeps "/ws" "eng" "T1") None None (Some 2%Z)
              Date.parse demoPosted) as (_ & Hsorted & _ & _ & Hlimit).
  - by_decide.
  - split; [exact Hsorted|]. apply Hlimit. reflexivity.
Defined.

Example query_board_example :
  match Tools.reply (Tools.query_board (Tools.mkDeps "/ws" "eng" "T1") None None (Some 2%Z)
                       Date.parse demoPosted) with
  | Tools.Json items => Tools.BoardView.id <$> items
  | _ => []
  end = ["c3"; "b2"].
Proof. vm_compute. reflexivity. Qed.

End BoardListing.

(* ===================================================================== *)
(** * The event bus *)
(* ===================================================================== *)

Module EventBusFacts.
Import EventBus.
Section Bus.
Context {Handler : Type} `{EqDecision Handler}.
Implicit Types (bus : EventBus.t Handler) (handler : Handler) (event : string)
  (set : EventBus.Entries Handler).

(** Every set of the map is an object made before, holds a handler and
    holds none twice, and no two events share a set. *)
Definition tidy bus : Prop :=
  (forall event ref,
     handlers bus !! event = Some ref ->
     ref < allocated bus /\ elements (setOf bus ref) <> [] /\ NoDup (elements (setOf bus ref))) /\
  (forall event1 event2 ref,
     handlers bus !! event1 = Some ref -> handlers bus !! event2 = Some ref ->
     event1 = event2).

(** Whether a call leaves [handler] subscribed to [event], given whether
    it was. *)
Definition remains event handler (was : bool) (op : EventBus.Op Handler) : bool :=
  match op with
  | On e h => if bool_decide (e = event /\ h = handler) then true else was
  | Off e h => if bool_decide (e = event /\ h = handler) then false else was
  | RemoveAllListeners => false
  end.

Lemma elements_app set1 set2 : elements (set1 ++ set2) = elements set1 ++ elements set2.
Proof. apply omap_app. Qed.

Lemma elements_setAdd handler set :
  elements (setAdd handler set) =
  if bool_decide (handler ∈ elements set) then elements set else elements set ++ [handler].
Proof.
  unfold setAdd. case_bool_decide; [reflexivity|]. rewrite elements_app. reflexivity.
Qed.

Lemma elements_setDelete handler set :
  elements (setDelete handler set) = List.filter (fun h => negb (bool_decide (h = handler))) (elements set).
Proof.
  induction set as [|[h|] set IH]; [reflexivity | |exact IH].
  cbn [setDelete map]. fold (setDelete handler set).
  destruct (decide (h = handler)) as [->|Hne].
  - rewrite bool_decide_eq_true_2 by reflexivity.
    change (elements (Some handler :: set)) with (handler :: elements set).
    cbn [List.filter]. rewrite bool_decide_eq_true_2 by reflexivity. exact IH.
  - rewrite bool_decide_eq_false_2 by congruence.
    change (elements (Some h :: ?s)) with (h :: elements s).
    cbn [List.filter]. rewrite bool_decide_eq_false_2 by exact Hne. cbn [negb].
    rewrite IH. reflexivity.
Qed.

Lemma elem_setDelete handler h set :
  h ∈ elements (setDelete handler set) <-> h ∈ elements set /\ h <> handler.
Proof.
  rewrite elements_setDelete, list_elem_of_In, filter_In, <- list_elem_of_In.
  rewrite negb_true_iff, bool_decide_eq_false. reflexivity.
Qed.

Lemma NoDup_setDelete handler set :
  NoDup (elements set) -> NoDup (elements (setDelete handler set)).
Proof.
  rewrite elements_setDelete. generalize (elements set). intros l Hnd.
  eapply sublist_NoDup; [exact Hnd|].
  induction l as [|h l IH]; [reflexivity|].
  apply NoDup_cons in Hnd as [_ Hnd]. cbn [List.filter].
  destruct (negb _); [apply sublist_skip | apply sublist_cons]; exact (IH Hnd).
Qed.

Lemma NoDup_setAdd handler set :
  NoDup (elements set) -> NoDup (elements (setAdd handler set)).
Proof.
  intros Hnd. rewrite elements_setAdd. case_bool_decide as Hin; [assumption|].
  apply NoDup_app. split_and!; [assumption | | apply NoDup_singleton].
  intros x Hx Hx'. apply list_elem_of_singleton in Hx'. subst x. contradiction.
Qed.

Lemma setAdd_not_empty handler set : elements (setAdd handler set) <> [].
Proof.
  rewrite elements_setAdd. case_bool_decide as Hin.
  - intros E. rewrite E in Hin. inversion Hin.
  - destruct (elements set); discriminate.
Qed.

(** [on] appends the handler to the handlers of the event, unless it is
    subscribed already, and leaves the other events alone. *)
Lemma subscribed_on bus event handler e :
  tidy bus ->
  subscribed (on bus event handler) e =
  if decide (e = event)
  then if bool_decide (handler ∈ subscribed bus event) then subscribed bus event
       else subscribed bus event ++ [handler]
  else subscribed bus e.
Proof.
  intros [Hsets Hinj]. unfold subscribed, entries, on.
  destruct (handlers bus !! event) as [ref|] eqn:Href; cbn [handlers objects].
  - case_decide as E.
    + subst e. rewrite lookup_insert_eq. unfold setOf at 1. cbn [objects].
      rewrite lookup_insert_eq. cbn [from_option]; unfold id. apply elements_setAdd.
    + rewrite lookup_insert_ne by congruence.
      destruct (handlers bus !! e) as [ref'|] eqn:Href'; [|reflexivity].
      unfold setOf. cbn [objects]. rewrite lookup_insert_ne; [reflexivity|].
      intros <-. apply E. exact (Hinj _ _ _ Href' Href).
  - case_decide as E.
    + subst e. rewrite lookup_insert_eq. unfold setOf at 1. cbn [objects].
      rewrite lookup_insert_eq. cbn [from_option]; unfold id. rewrite elements_setAdd.
      reflexivity.
    + rewrite lookup_insert_ne by congruence.
      destruct (handlers bus !! e) as [ref'|] eqn:Href'; [|reflexivity].
      unfold setOf. cbn [objects]. rewrite lookup_insert_ne; [reflexivity|].
      intros <-. destruct (Hsets _ _ Href') as [Hlt _]. lia.
Qed.

(** The unsubscribe function takes the handler out of the handlers of the
    event and leaves the other events alone. *)
Lemma subscribed_off bus event handler e :
  tidy bus ->
  subscribed (off bus event handler) e =
  if decide (e = event)
  then List.filter (fun h => negb (bool_decide (h = handler))) (subscribed bus event)
  else subscribed bus e.
Proof.
  intros [Hsets Hinj]. unfold subscribed, entries, off.
  destruct (handlers bus !! event) as [ref|] eqn:Href.
  - unfold size.
    destruct (elements (setDelete handler (setOf bus ref))) as [|h rest] eqn:Hdel;
      cbn [length Nat.eqb handlers objects].
    + case_decide as E.
      * subst e. rewrite lookup_delete_eq, <- elements_setDelete, Hdel. reflexivity.
      * rewrite lookup_delete_ne by congruence.
        destruct (handlers bus !! e) as [ref'|] eqn:Href'; [|reflexivity].
        unfold setOf. cbn [objects]. rewrite lookup_insert_ne; [reflexivity|].
        intros <-. apply E. exact (Hinj _ _ _ Href' Href).
    + case_decide as E.
      * subst e. rewrite Href. unfold setOf at 1. cbn [objects].
        rewrite lookup_insert_eq. cbn [from_option]; unfold id.
        apply elements_setDelete.
      * destruct (handlers bus !! e) as [ref'|] eqn:Href'; [|reflexivity].
        unfold setOf. cbn [objects]. rewrite lookup_insert_ne; [reflexivity|].
        intros <-. apply E. exact (Hinj _ _ _ Href' Href).
  - case_decide as E; [|reflexivity]. subst e. rewrite Href. reflexivity.
Qed.

Lemma step_tidy bus (op : EventBus.Op Handler) : tidy bus -> tidy (step bus op).
Proof.
  intros Htidy. pose proof Htidy as [Hsets Hinj].
  destruct op as [event handler | event handler |]; cbn [step].
  - unfold on. destruct (handlers bus !! event) as [ref|] eqn:Href.
    + split; cbn [handlers objects allocated].
      * intros e r He.
        assert (Hr : handlers bus !! e = Some r).
        { destruct (decide (e = event)) as [->|Hne];
            [rewrite lookup_insert_eq in He | rewrite lookup_insert_ne in He by congruence];
            congruence. }
        destruct (Hsets _ _ Hr) as (Hlt & Hne & Hnd). split; [exact Hlt|].
        unfold setOf. cbn [objects]. destruct (decide (r = ref)) as [->|Hother].
        -- rewrite lookup_insert_eq. cbn [from_option]; unfold id.
           split; [apply setAdd_not_empty | apply NoDup_setAdd; exact Hnd].
        -- rewrite lookup_insert_ne by congruence. split; assumption.
      * intros e1 e2 r H1 H2. apply (Hinj e1 e2 r).
        -- destruct (decide (e1 = event)) as [->|Hne];
             [rewrite lookup_insert_eq in H1 | rewrite lookup_insert_ne in H1 by congruence];
             congruence.
        -- destruct (decide (e2 = event)) as [->|Hne];
             [rewrite lookup_insert_eq in H2 | rewrite lookup_insert_ne in H2 by congruence];
             congruence.
    + split; cbn [handlers objects allocated].
      * intros e r He. unfold setOf. cbn [objects].
        destruct (decide (e = event)) as [->|Hne].
        -- rewrite lookup_insert_eq in He. injection He as <-.
           rewrite lookup_insert_eq. cbn [from_option]; unfold id.
           split_and!; [lia | apply setAdd_not_empty | apply NoDup_setAdd, NoDup_nil_2].
        -- rewrite lookup_insert_ne in He by congruence.
           destruct (Hsets _ _ He) as (Hlt & Hnonempty & Hnd).
           rewrite lookup_insert_ne by lia. split_and!; [lia | assumption | assumption].
      * intros e1 e2 r H1 H2.
        destruct (decide (e1 = event)) as [->|Hne1], (decide (e2 = event)) as [->|Hne2];
          [reflexivity | | |].
        -- rewrite lookup_insert_eq in H1. rewrite lookup_insert_ne in H2 by congruence.
           injection H1 as <-. destruct (Hsets _ _ H2) as [Hlt _]. lia.
        -- rewrite lookup_insert_eq in H2. rewrite lookup_insert_ne in H1 by congruence.
           injection H2 as <-. destruct (Hsets _ _ H1) as [Hlt _]. lia.
        -- rewrite lookup_insert_ne in H1, H2 by congruence. exact (Hinj _ _ _ H1 H2).
  - unfold off. destruct (handlers bus !! event) as [ref|] eqn:Href; [|exact Htidy].
    assert (Hkept : forall e r,
              handlers bus !! e = Some r -> r <> ref ->
              r < allocated bus /\
              elements (default [] (<[ref := setDelete handler (setOf bus ref)]> (objects bus) !! r))
                <> [] /\
              NoDup (elements
                       (default [] (<[ref := setDelete handler (setOf bus ref)]> (objects bus) !! r)))).
    { intros e r He Hne. rewrite lookup_insert_ne by congruence. exact (Hsets _ _ He). }
    unfold size.
    destruct (elements (setDelete handler (setOf bus ref))) as [|h rest] eqn:Hdel;
      cbn [length Nat.eqb].
    + split; cbn [handlers objects allocated].
      * intros e r He. apply lookup_delete_Some in He as [Hne He].
        apply (Hkept e r He). intros ->. apply Hne. exact (Hinj _ _ _ Href He).
      * intros e1 e2 r H1 H2. apply lookup_delete_Some in H1 as [_ H1].
        apply lookup_delete_Some in H2 as [_ H2]. exact (Hinj _ _ _ H1 H2).
    + split; cbn [handlers objects allocated]; [|exact Hinj].
      intros e r He. unfold setOf. cbn [objects].
      destruct (decide (r = ref)) as [->|Hother]; [|exact (Hkept e r He Hother)].
      rewrite lookup_insert_eq. cbn [from_option]; unfold id.
      change (from_option _ [] (objects bus !! ref)) with (setOf bus ref).
      destruct (Hsets _ _ He) as (Hlt & _ & Hnd).
      split_and!; [exact Hlt | rewrite Hdel; discriminate | apply NoDup_setDelete, Hnd].
  - split; cbn [removeAllListeners handlers]; intros *; rewrite lookup_empty; discriminate.
Qed.

Lemma step_subscribed bus (op : EventBus.Op Handler) event handler :
  tidy bus ->
  bool_decide (handler ∈ subscribed (step bus op) event) =
  remains event handler (bool_decide (handler ∈ subscribed bus event)) op.
Proof.
  intros Htidy. destruct op as [e h | e h |]; cbn [step remains].
  - rewrite subscribed_on by exact Htidy. destruct (decide (event = e)) as [<-|Hne].
    + destruct (decide (h = handler)) as [->|Hh].
      * rewrite (bool_decide_eq_true_2 (event = event /\ handler = handler)) by auto.
        apply bool_decide_eq_true. case_bool_decide; [assumption|].
        apply elem_of_app. right. apply list_elem_of_singleton. reflexivity.
      * rewrite (bool_decide_eq_false_2 (event = event /\ h = handler)) by tauto.
        apply bool_decide_ext. case_bool_decide; [reflexivity|].
        rewrite elem_of_app, list_elem_of_singleton. split; [|auto].
        intros [? | ->]; [assumption | contradiction].
    + rewrite (bool_decide_eq_false_2 (e = event /\ h = handler)) by (intros [? _]; congruence).
      reflexivity.
  - rewrite subscribed_off by exact Htidy. destruct (decide (event = e)) as [<-|Hne].
    + destruct (decide (h = handler)) as [->|Hh].
      * rewrite (bool_decide_eq_true_2 (event = event /\ handler = handler)) by auto.
        apply bool_decide_eq_false.
        rewrite list_elem_of_In, filter_In, negb_true_iff, bool_decide_eq_false. tauto.
      * rewrite (bool_decide_eq_false_2 (event = event /\ h = handler)) by tauto.
        apply bool_decide_ext.
        rewrite list_elem_of_In, filter_In, <- list_elem_of_In, negb_true_iff,
          bool_decide_eq_false.
        split; [tauto|]. intros Hin. split; [assumption|]. intros ->. contradiction.
    + rewrite (bool_decide_eq_false_2 (e = event /\ h = handler)) by (intros [? _]; congruence).
      reflexivity.
  - apply bool_decide_eq_false. unfold subscribed, entries, removeAllListeners.
    cbn [handlers]. rewrite lookup_empty. apply not_elem_of_nil.
Qed.

Lemma new_tidy : tidy (@EventBus.new Handler).
Proof. split; cbn [new handlers]; intros *; rewrite lookup_empty; discriminate. Qed.

Lemma run_tidy (ops : list (EventBus.Op Handler)) bus : tidy bus -> tidy (run bus ops).
Proof.
  revert bus. induction ops as [|op ops IH]; intros bus Htidy; [exact Htidy|].
  cbn [run fold_left]. apply IH, step_tidy, Htidy.
Qed.

Lemma run_subscribed (ops : list (EventBus.Op Handler)) bus event handler :
  tidy bus ->
  bool_decide (handler ∈ subscribed (run bus ops) event) =
  fold_left (remains event handler) ops (bool_decide (handler ∈ subscribed bus event)).
Proof.
  revert bus. induction ops as [|op ops IH]; intros bus Htidy; [reflexivity|].
  cbn [run fold_left]. rewrite <- step_subscribed by exact Htidy.
  apply IH, step_tidy, Htidy.
Qed.

(** ** The loop of [emit] *)

Section Emit.
Context {Payload Error : Type}.
Variable call : Handler -> Payload -> EventBus.t Handler -> Outcome Error * EventBus.t Handler.

(** The calls of the handlers of a list with one payload. *)
Definition callsOf (payload : Payload) (l : list Handler) : list (Handler * Payload) :=
  map (fun handler => (handler, payload)) l.

(** A handler that returns and leaves the bus as it is. *)
Definition quiet (payload : Payload) bus handler : Prop :=
  call handler payload bus = (Returned, bus).

(** Over entries whose handlers are quiet the loop makes one call for each
    handler and goes on behind them. *)
Lemma iterate_quiet payload bus ref (passed : EventBus.Entries Handler) :
  forall fuel index made rest,
    drop index (setOf bus ref) = passed ++ rest ->
    (forall handler, handler ∈ elements passed -> quiet payload bus handler) ->
    iterate call (length passed + fuel) ref index payload bus made =
    iterate call fuel ref (index + length passed) payload bus
      (made ++ callsOf payload (elements passed)).
Proof.
  induction passed as [|entry passed IH]; intros fuel index made rest Hdrop Hquiet.
  - cbn [length Nat.add elements omap callsOf map]. rewrite Nat.add_0_r, app_nil_r.
    reflexivity.
  - assert (Hentry : setOf bus ref !! index = Some entry).
    { rewrite <- (Nat.add_0_r index), <- lookup_drop, Hdrop. reflexivity. }
    assert (Hnext : drop (S index) (setOf bus ref) = passed ++ rest).
    { rewrite (drop_S _ _ _ Hentry) in Hdrop. injection Hdrop as Hdrop. exact Hdrop. }
    cbn [length Nat.add iterate]. rewrite Hentry.
    replace (index + S (length passed)) with (S index + length passed) by lia.
    destruct entry as [handler|].
    + rewrite (Hquiet handler) by (apply list_elem_of_here).
      rewrite (IH fuel (S index) _ rest Hnext).
      * change (elements (Some handler :: passed)) with (handler :: elements passed).
        cbn [callsOf map]. rewrite <- app_assoc. reflexivity.
      * intros h Hh. apply Hquiet. apply list_elem_of_further. exact Hh.
    + apply (IH fuel (S index) _ rest Hnext). exact Hquiet.
Qed.

(** The entries of a set split where its elements do. *)
Lemma elements_split set (before : list Handler) handler (later : list Handler) :
  elements set = before ++ handler :: later ->
  exists passed rest,
    set = passed ++ Some handler :: rest /\ elements passed = before /\
    elements rest = later.
Proof.
  revert before. induction set as [|[h|] set IH]; intros before Hset.
  - destruct before; discriminate.
  - change (elements (Some h :: set)) with (h :: elements set) in Hset.
    destruct before as [|b before].
    + injection Hset as -> Hset. exists [], set. auto.
    + injection Hset as -> Hset. destruct (IH _ Hset) as (passed & rest & -> & <- & <-).
      exists (Some b :: passed), rest. auto.
  - destruct (IH _ Hset) as (passed & rest & -> & <- & <-).
    exists (None :: passed), rest. auto.
Qed.

Lemma emit_quiet fuel bus event (payload : Payload) :
  length (entries bus event) < fuel ->
  (forall handler, handler ∈ subscribed bus event -> quiet payload bus handler) ->
  emit call fuel bus event payload =
  Some (mkEmitted Returned bus (callsOf payload (subscribed bus event))).
Proof.
  unfold emit, subscribed, entries. intros Hfuel Hquiet.
  destruct (handlers bus !! event) as [ref|]; [|reflexivity].
  replace fuel with (length (setOf bus ref) + S (fuel - S (length (setOf bus ref)))) by lia.
  rewrite (iterate_quiet payload bus ref (setOf bus ref) _ 0 [] []);
    [|rewrite app_nil_r; reflexivity | exact Hquiet].
  cbn [iterate Nat.add app]. rewrite lookup_ge_None_2 by lia. reflexivity.
Qed.

Lemma emit_throws fuel bus event (payload : Payload) before handler later error bus' :
  length (entries bus event) < fuel ->
  subscribed bus event = before ++ handler :: later ->
  (forall h, h ∈ before -> quiet payload bus h) ->
  call handler payload bus = (Threw error, bus') ->
  emit call fuel bus event payload =
  Some (mkEmitted (Threw error) bus' (callsOf payload (before ++ [handler]))).
Proof.
  unfold emit, subscribed, entries. intros Hfuel Hsplit Hquiet Hthrow.
  destruct (handlers bus !! event) as [ref|]; [|destruct before; discriminate].
  destruct (elements_split _ _ _ _ Hsplit) as (passed & rest & Hset & <- & _).
  assert (Hlen : length passed < length (setOf bus ref)).
  { rewrite Hset, length_app. cbn [length]. lia. }
  replace fuel with (length passed + S (fuel - S (length passed))) by lia.
  rewrite (iterate_quiet payload bus ref passed _ 0 [] (Some handler :: rest));
    [|exact Hset | exact Hquiet].
  cbn [iterate Nat.add app].
  replace (setOf bus ref !! length passed) with (Some (Some handler)).
  - rewrite Hthrow. unfold callsOf. rewrite map_app. reflexivity.
  - rewrite Hset. symmetry. apply list_lookup_middle. reflexivity.
Qed.

(** A handler that unsubscribes another one: the loop goes on over the
    same set, in which the entry of the other is now a hole. *)
Lemma emit_unsubscribes fuel bus event (payload : Payload) before handler later gone :
  tidy bus ->
  length (entries bus event) < fuel ->
  subscribed bus event = before ++ handler :: later ->
  (forall h, h ∈ before -> quiet payload bus h) ->
  call handler payload bus = (Returned, off bus event gone) ->
  gone ∈ later ->
  (forall h, h ∈ later -> h <> gone -> quiet payload (off bus event gone) h) ->
  emit call fuel bus event payload =
  Some (mkEmitted Returned (off bus event gone)
          (callsOf payload
             (before ++ handler :: List.filter (fun h => negb (bool_decide (h = gone))) later))).
Proof.
  intros [Hsets _] Hfuel Hsplit Hquiet Hcall Hgone Hlater.
  unfold emit. unfold subscribed, entries in Hsplit, Hfuel.
  destruct (handlers bus !! event) as [ref|] eqn:Href; [|destruct before; discriminate].
  destruct (Hsets _ _ Href) as (_ & _ & Hnd).
  destruct (elements_split _ _ _ _ Hsplit) as (passed & rest & Hset & Hpassed & Hrest).
  assert (Hne : handler <> gone).
  { intros ->. rewrite Hsplit in Hnd. apply NoDup_app in Hnd as (_ & _ & Hnd).
    apply NoDup_cons in Hnd as [Hnd _]. contradiction. }
  assert (Hoff : off bus event gone =
                 mk (handlers bus) (<[ref := setDelete gone (setOf bus ref)]> (objects bus))
                    (allocated bus)).
  { unfold off. rewrite Href. unfold size.
    destruct (elements (setDelete gone (setOf bus ref))) as [|h l] eqn:Hdel; [|reflexivity].
    assert (Hin : handler ∈ elements (setDelete gone (setOf bus ref))).
    { apply elem_setDelete. split; [|exact Hne]. rewrite Hsplit.
      apply elem_of_app. right. apply list_elem_of_here. }
    rewrite Hdel in Hin. inversion Hin. }
  assert (Hset' : setOf (off bus event gone) ref =
                  setDelete gone passed ++ Some handler :: setDelete gone rest).
  { rewrite Hoff. unfold setOf at 1. cbn [objects]. rewrite lookup_insert_eq.
    cbn [from_option]; unfold id. rewrite Hset. unfold setDelete. rewrite map_app.
    cbn [map]. rewrite bool_decide_eq_false_2 by congruence. reflexivity. }
  assert (Hlen : length (setOf bus ref) = length passed + S (length rest)).
  { rewrite Hset, length_app. reflexivity. }
  replace fuel
    with (length passed +
          S (length (setDelete gone rest) + S (fuel - S (S (length passed + length rest)))))
    by (unfold setDelete; rewrite length_map; lia).
  rewrite (iterate_quiet payload bus ref passed _ 0 [] (Some handler :: rest));
    [|exact Hset | rewrite Hpassed; exact Hquiet].
  cbn [iterate Nat.add app].
  replace (setOf bus ref !! length passed) with (Some (Some handler))
    by (rewrite Hset; symmetry; apply list_lookup_middle; reflexivity).
  rewrite Hcall.
  rewrite (iterate_quiet payload (off bus event gone) ref (setDelete gone rest) _
             (S (length passed)) _ []).
  - cbn [iterate]. rewrite lookup_ge_None_2.
    + f_equal. f_equal. rewrite Hpassed, elements_setDelete, Hrest.
      unfold callsOf. rewrite <- app_assoc, !map_app. reflexivity.
    + rewrite Hset', length_app. cbn [length]. unfold setDelete. rewrite !length_map. lia.
  - rewrite app_nil_r, Hset'.
    change (setDelete gone passed ++ Some handler :: setDelete gone rest)
      with (setDelete gone passed ++ [Some handler] ++ setDelete gone rest).
    rewrite app_assoc.
    replace (S (length passed)) with (length (setDelete gone passed ++ [Some handler]))
      by (rewrite length_app; unfold setDelete; rewrite length_map; cbn [length]; lia).
    apply drop_app_length.
  - intros h Hh. apply elem_setDelete in Hh as [Hh Hhne]. rewrite Hrest in Hh.
    apply Hlater; assumption.
Qed.

End Emit.

(** X18. The bus and its handlers.  After any sequence of [on], unsubscribe
    and [removeAllListeners] calls on a new bus, a handler is subscribed
    to an event exactly when the latest of these calls that concerns the
    handler and the event is an [on] with no [removeAllListeners] after
    it; no handler is subscribed twice, however often [on] was called for
    it, and the bus keeps no set without a handler.  [emit(event,
    payload)] calls the subscribed handlers in the order of their
    subscription, each once with the payload, returns and leaves the bus
    as it was, provided every one of them returns and leaves the bus as
    it is.  A handler that throws ends [emit]: the handlers before it,
    which return and leave the bus as it is, and the handler itself have
    been called, the handlers subscribed after it are not called, and
    [emit] throws what the handler threw.  A handler that unsubscribes a
    handler subscribed after it keeps that handler from being called. *)
Theorem emit_calls_the_subscribed {Payload Error : Type}
    (call : Handler -> Payload -> EventBus.t Handler -> Outcome Error * EventBus.t Handler)
    (ops : list (EventBus.Op Handler)) event (payload : Payload) :
  let bus := run new ops in
  (forall handler,
     handler ∈ subscribed bus event <-> fold_left (remains event handler) ops false = true) /\
  NoDup (subscribed bus event) /\
  (forall ref, handlers bus !! event = Some ref -> subscribed bus event <> []) /\
  (forall fuel,
     length (entries bus event) < fuel ->
     (forall handler, handler ∈ subscribed bus event -> quiet call payload bus handler) ->
     emit call fuel bus event payload =
     Some (mkEmitted Returned bus (callsOf payload (subscribed bus event)))) /\
  (forall fuel before handler later error bus',
     length (entries bus event) < fuel ->
     subscribed bus event = before ++ handler :: later ->
     (forall h, h ∈ before -> quiet call payload bus h) ->
     call handler payload bus = (Threw error, bus') ->
     emit call fuel bus event payload =
     Some (mkEmitted (Threw error) bus' (callsOf payload (before ++ [handler])))) /\
  (forall fuel before handler later gone,
     length (entries bus event) < fuel ->
     subscribed bus event = before ++ handler :: later ->
     (forall h, h ∈ before -> quiet call payload bus h) ->
     call handler payload bus = (Returned, off bus event gone) ->
     gone ∈ later ->
     (forall h, h ∈ later -> h <> gone -> quiet call payload (off bus event gone) h) ->
     emit call fuel bus event payload =
     Some (mkEmitted Returned (off bus event gone)
             (callsOf payload
                (before ++ handler ::
                   List.filter (fun h => negb (bool_decide (h = gone))) later)))).
Proof.
  cbv zeta.
  assert (Htidy : tidy (run (@new Handler) ops)) by apply run_tidy, new_tidy.
  split_and!.
  - intros handler.
    rewrite <- (bool_decide_eq_true (handler ∈ _)), run_subscribed by apply new_tidy.
    replace (bool_decide (handler ∈ subscribed new event)) with false; [reflexivity|].
    symmetry. apply bool_decide_eq_false. unfold subscribed, entries, new. cbn [handlers].
    rewrite lookup_empty. apply not_elem_of_nil.
  - unfold subscribed, entries.
    destruct (handlers (run new ops) !! event) as [ref|] eqn:Href; [|apply NoDup_nil_2].
    exact (proj2 (proj2 (proj1 Htidy _ _ Href))).
  - intros ref Href. unfold subscribed, entries. rewrite Href.
    exact (proj1 (proj2 (proj1 Htidy _ _ Href))).
  - intros fuel. apply emit_quiet.
  - intros fuel before handler later error bus'. apply emit_throws.
  - intros fuel before handler later gone. apply emit_unsubscribes. exact Htidy.
Qed.

End Bus.

(** ** Handlers at work *)

(** Handlers are numbered.  Handler 1 unsubscribes handler 2 from [foo],
    handler 3 throws, handler 5 empties the bus, handler 6 subscribes
    handler 7 to [foo]; the others return and leave the bus alone. *)
Definition demoCall (handler : nat) (payload : string) (bus : EventBus.t nat)
    : Outcome string * EventBus.t nat :=
  match handler with
  | 1 => (Returned, off bus "foo" 2)
  | 3 => (Threw "boom", bus)
  | 5 => (Returned, removeAllListeners bus)
  | 6 => (Returned, on bus "foo" 7)
  | _ => (Returned, bus)
  end.

Definition demoBus (handlers : list nat) : EventBus.t nat :=
  run new (map (On "foo") handlers).

Lemma emit_calls_the_subscribed_witness :
  emit demoCall 10 (demoBus [4; 8]) "foo" "payload" =
    Some (mkEmitted Returned (demoBus [4; 8]) [(4, "payload"); (8, "payload")]) /\
  emit demoCall 10 (demoBus [4; 3; 8]) "foo" "payload" =
    Some (mkEmitted (Threw "boom") (demoBus [4; 3; 8]) [(4, "payload"); (3, "payload")]) /\
  emit demoCall 10 (demoBus [4; 1; 2; 8]) "foo" "payload" =
    Some (mkEmitted Returned (off (demoBus [4; 1; 2; 8]) "foo" 2)
            [(4, "payload"); (1, "payload"); (8, "payload")]).
Proof.
  split_and!.
  - destruct (emit_calls_the_subscribed demoCall (map (On "foo") [4; 8]) "foo" "payload")
      as (_ & _ & _ & Hquiet & _).
    apply (Hquiet 10); [by_decide|].
    intros h Hh. apply list_elem_of_In in Hh. cbn in Hh.
    destruct Hh as [<- | [<- | []]]; reflexivity.
  - destruct (emit_calls_the_subscribed demoCall (map (On "foo") [4; 3; 8]) "foo" "payload")
      as (_ & _ & _ & _ & Hthrow & _).
    apply (Hthrow 10 [4] 3 [8] "boom"); [by_decide | reflexivity | | reflexivity].
    intros h Hh. apply list_elem_of_singleton in Hh. subst h. reflexivity.
  - destruct (emit_calls_the_subscribed demoCall (map (On "foo") [4; 1; 2; 8]) "foo"
                "payload") as (_ & _ & _ & _ & _ & Hgone).
    apply (Hgone 10 [4] 1 [2; 8] 2);
      [by_decide | reflexivity | | reflexivity | by_decide |].
    + intros h Hh. apply list_elem_of_singleton in Hh. subst h. reflexivity.
    + intros h Hh Hne. apply list_elem_of_In in Hh. cbn in Hh.
      destruct Hh as [<- | [<- | []]]; [contradiction | reflexivity].
Defined.

(** Subscribed twice and unsubscribed once, a handler is not called. *)
Example twice_on_once_off :
  let bus := run new [On "foo" 4; On "foo" 8; On "foo" 4; Off "foo" 4] in
  subscribed bus "foo" = [8] /\
  emit demoCall 10 bus "foo" "payload" = Some (mkEmitted Returned bus [(8, "payload")]).
Proof. vm_compute. split; reflexivity. Qed.

(** A handler that throws ends the loop: handler 8 is subscribed and is
    not called. *)
Example throwing_handler_ends_emit :
  (outcome <$> emit demoCall 10 (demoBus [4; 3; 8]) "foo" "payload",
   calls <$> emit demoCall 10 (demoBus [4; 3; 8]) "foo" "payload") =
  (Some (Threw "boom"), Some [(4, "payload"); (3, "payload")]).
Proof. vm_compute. reflexivity. Qed.

(** A handler unsubscribed during the loop is skipped; a handler
    subscribed during the loop is called in it; after
    [removeAllListeners] the loop still goes over the set it started
    with. *)
Example handlers_change_the_bus :
  calls <$> emit demoCall 10 (demoBus [1; 2; 4]) "foo" "payload" =
    Some [(1, "payload"); (4, "payload")] /\
  calls <$> emit demoCall 10 (demoBus [6; 4]) "foo" "payload" =
    Some [(6, "payload"); (4, "payload"); (7, "payload")] /\
  calls <$> emit demoCall 10 (demoBus [5; 4]) "foo" "payload" =
    Some [(5, "payload"); (4, "payload")] /\
  (after <$> emit demoCall 10 (demoBus [5; 4]) "foo" "payload") ≫=
    (fun bus => Some (subscribed bus "foo")) = Some [].
Proof. vm_compute. repeat split; reflexivity. Qed.

End EventBusFacts.

(* ===================================================================== *)
(** * What the tools do to the agent records *)
(* ===================================================================== *)

Module ToolFacts.
Import Engine EngineFacts.

(** The two fields the engine keeps for a run. *)
Definition runState (a : AgentConfig.t) : AgentStatus.t * option string :=
  (AgentConfig.status a, AgentConfig.currentTaskId a).

(** Every configuration sits in the directory named after it. *)
Definition filed (dir : AgentStorage.Dir) : Prop :=
  map_Forall
    (fun name d => default name (AgentConfig.name <$> AgentStorage.config d) = name) dir.

Lemma filed_get dir :
  filed dir <->
  forall name a, AgentStorage.get dir name = Some a -> AgentConfig.name a = name.
Proof.
  unfold filed, AgentStorage.get. split.
  - intros H name a Hget. destruct (dir !! name) as [d|] eqn:E; [|discriminate].
    specialize (H _ _ E). cbn in H. rewrite Hget in H. exact H.
  - intros H name d E. specialize (H name). rewrite E in H.
    destruct (AgentStorage.config d) as [a|]; cbn; [apply H|]; reflexivity.
Qed.

Lemma get_delete dir name k :
  AgentStorage.get (AgentStorage.delete dir name) k =
  if Fs.under name k then None else AgentStorage.get dir k.
Proof.
  unfold AgentStorage.get, AgentStorage.delete. rewrite FoldFacts.lookup_rmRecursive.
  destruct (Fs.under name k); reflexivity.
Qed.

Lemma get_ensureAgentDir dir name k :
  AgentStorage.get (AgentStorage.ensureAgentDir dir name) k = AgentStorage.get dir k.
Proof.
  unfold AgentStorage.ensureAgentDir, AgentStorage.get.
  destruct (dir !! name) eqn:E; [reflexivity|].
  destruct (decide (k = name)) as [->|Hne].
  - rewrite lookup_insert_eq, E. reflexivity.
  - rewrite lookup_insert_ne by congruence. reflexivity.
Qed.

Lemma get_save dir agent k :
  AgentStorage.get (AgentStorage.save dir agent) k =
  if decide (k = AgentConfig.name agent) then Some agent else AgentStorage.get dir k.
Proof.
  destruct (decide _) as [->|Hne].
  - apply StoreFacts.agent_get_save_eq.
  - apply StoreFacts.agent_get_save_ne. exact Hne.
Qed.

(** What a call may do to the record read under one name. *)
Inductive change (name : string) (before after : option AgentConfig.t) : Prop :=
| unchanged : after = before -> change name before after
| created a' :
    before = None -> after = Some a' -> AgentConfig.name a' = name ->
    runState a' = (AgentStatus.idle, None) -> change name before after
| updated a a' :
    before = Some a -> after = Some a' -> AgentConfig.name a' = name ->
    runState a' = runState a -> change name before after
| deleted a : before = Some a -> after = None -> change name before after.

Lemma finish_task_get depsTaskId status result clock st name :
  AgentStorage.get (agentsOf (snd (finish_task depsTaskId status result clock st))) name =
  AgentStorage.get (agentsOf st) name.
Proof.
  rewrite LifeCycle.finish_task_agents.
  destruct (TaskStorage.get _ _); [apply LifeCycle.get_afterDelivery | reflexivity].
Qed.

Lemma finish_task_org depsTaskId status result clock st :
  org (workspace (snd (finish_task depsTaskId status result clock st))) = org (workspace st).
Proof.
  run_monad. destruct (TaskStorage.get _ depsTaskId) as [task|]; cbn; [|reflexivity].
  destruct (JS.truthy _ && JS.truthy _); cbn; [|reflexivity].
  destruct (TaskStorage.get _ _); reflexivity.
Qed.

(** The calls that leave the directory [agents/] alone. *)
Definition keepsAgents (c : Tools.Call) : bool :=
  match c with
  | Tools.CreateAgent _ _ | Tools.UpdateAgent _ _ | Tools.DeleteAgent _
  | Tools.FinishTask _ _ _ => false
  | _ => true
  end.

Lemma call_agents deps c ws :
  keepsAgents c = true -> agents (Tools.call deps c ws) = agents ws.
Proof.
  destruct c as [args now | args now | target | target parent | department status
                 | args id now | status result clock | args newThread id now
                 | threadId getTime clock | type summary body id now
                 | type author limit getTime];
    cbn [keepsAgents Tools.call]; try discriminate; intros _.
  - unfold Tools.set_org_parent. repeat case_match; reflexivity.
  - reflexivity.
  - unfold Tools.delegate_task. repeat case_match; reflexivity.
  - reflexivity.
  - unfold Tools.read_messages. case_match; reflexivity.
  - unfold Tools.post_to_board. case_match; reflexivity.
  - unfold Tools.query_board. case_match; reflexivity.
Qed.

Lemma call_change deps c ws name :
  filed (agents ws) ->
  change name (AgentStorage.get (agents ws) name)
    (AgentStorage.get (agents (Tools.call deps c ws)) name).
Proof.
  intros Hfiled. rewrite filed_get in Hfiled.
  destruct (keepsAgents c) eqn:Hk;
    [apply unchanged; rewrite call_agents by exact Hk; reflexivity|].
  destruct c as [args now | args now | target | target parent | department status
                 | args id now | status result clock | args newThread id now
                 | threadId getTime clock | type summary body id now
                 | type author limit getTime];
    try discriminate; cbn [Tools.call].
  - unfold Tools.create_agent.
    destruct (AgentStorage.get (agents ws) (Tools.CreateAgentArgs.name args)) eqn:Hget;
      cbn [Tools.disk Tools.withAgents agents]; [apply unchanged; reflexivity|].
    rewrite get_ensureAgentDir, get_save. cbn [AgentConfig.name].
    destruct (decide _) as [->|Hne]; [|apply unchanged; reflexivity].
    rewrite Hget. eapply created; reflexivity.
  - unfold Tools.update_agent.
    destruct (AgentStorage.get (agents ws) (Tools.UpdateAgentArgs.agentName args))
      as [agent|] eqn:Hget;
      cbn [Tools.disk]; [|apply unchanged; reflexivity].
    destruct (negb _); cbn [Tools.disk Tools.withAgents agents];
      [apply unchanged; reflexivity|].
    rewrite get_save. cbn [AgentConfig.name]. rewrite (Hfiled _ _ Hget).
    destruct (decide _) as [->|Hne]; [|apply unchanged; reflexivity].
    rewrite Hget. eapply updated; reflexivity.
  - unfold Tools.delete_agent.
    destruct (AgentStorage.get (agents ws) target) as [agent|] eqn:Hget;
      cbn [Tools.disk]; [|apply unchanged; reflexivity].
    case_bool_decide as Hrun; cbn [Tools.disk Tools.withAgents Tools.withOrg agents];
      [apply unchanged; reflexivity|].
    rewrite get_delete. destruct (Fs.under target name); [|apply unchanged; reflexivity].
    destruct (AgentStorage.get (agents ws) name) as [a|] eqn:Ha;
      [eapply deleted; reflexivity | apply unchanged; reflexivity].
  - apply unchanged.
    apply (finish_task_get (Tools.taskId deps) status result clock (mkState ws ∅ 0%Z [])).
Qed.


Lemma change_filed dir dir' :
  filed dir ->
  (forall name, change name (AgentStorage.get dir name) (AgentStorage.get dir' name)) ->
  filed dir'.
Proof.
  rewrite !filed_get. intros Hfiled Hchange name a' Hget.
  destruct (Hchange name) as [Heq | b Hb Ha Hn _ | b b' Hb Ha Hn _ | b Hb Ha];
    rewrite Hget in *.
  - apply Hfiled. congruence.
  - congruence.
  - congruence.
  - discriminate.
Qed.

Lemma call_filed deps c ws : filed (agents ws) -> filed (agents (Tools.call deps c ws)).
Proof.
  intros Hfiled. apply (change_filed _ _ Hfiled). intros name.
  apply call_change. exact Hfiled.
Qed.

(** X19. No tool touches the run state of an agent.  On a workspace in
    which every agent configuration sits in the directory named after it,
    whatever calls of [create_agent], [update_agent], [delete_agent],
    [set_org_parent], [list_agents], [delegate_task], [finish_task],
    [send_message], [read_messages], [post_to_board] and [query_board] are
    made, every agent record read afterwards has the [status] and the
    [currentTaskId] the record of that name had before the calls, or is
    [idle] without a task (a record made by [create_agent]); and the
    configurations still sit under their names. *)
Theorem tools_keep_run_state (ws : Workspace) (calls : list (Tools.Deps * Tools.Call)) :
  filed (agents ws) ->
  filed (agents (Tools.session ws calls)) /\
  forall name agent',
    AgentStorage.get (agents (Tools.session ws calls)) name = Some agent' ->
    AgentConfig.name agent' = name /\
    (runState agent' = (AgentStatus.idle, None) \/
     exists agent,
       AgentStorage.get (agents ws) name = Some agent /\ runState agent' = runState agent).
Proof.
  unfold Tools.session. revert ws.
  induction calls as [|[deps c] calls IH]; intros ws Hfiled; cbn [fold_left fst snd].
  - split; [exact Hfiled|]. intros name agent' Hget. split; [|right; eauto].
    apply filed_get in Hget; assumption.
  - destruct (IH _ (call_filed deps c ws Hfiled)) as [Hfiled' Hrun].
    split; [exact Hfiled'|]. intros name agent' Hget.
    destruct (Hrun _ _ Hget) as [Hname [Hidle | (mid & Hmid & Hsame)]];
      (split; [exact Hname|]); [left; exact Hidle|].
    destruct (call_change deps c ws name Hfiled)
      as [Heq | b Hb Ha Hn Hr | b b' Hb Ha Hn Hr | b Hb Ha]; rewrite Hmid in *.
    + right. exists mid. split; [congruence | exact Hsame].
    + left. congruence.
    + right. exists b. split; [exact Hb | congruence].
    + discriminate.
Qed.

Definition demoRunning : AgentConfig.t :=
  AgentConfig.setRun (demoAgent "dev") AgentStatus.running (Some "t1") "2024-06-15T10:30:45.123Z".

Definition demoDeps (agent task : string) : Tools.Deps := Tools.mkDeps "/ws" agent task.

Definition demoCalls : list (Tools.Deps * Tools.Call) :=
  [(demoDeps "ceo" "t0",
    Tools.UpdateAgent (Tools.UpdateAgentArgs.mk "dev" None (Some "Tester") None None)
      demoLater);
   (demoDeps "ceo" "t0", Tools.DeleteAgent "dev");
   (demoDeps "ceo" "t0",
    Tools.CreateAgent (Tools.CreateAgentArgs.mk "dev" "Dev" "Engineer" "eng" AgentLevel.ic None)
      demoLater);
   (demoDeps "ceo" "t0", Tools.SetOrgParent "dev" None)].

Definition demoDisk : Workspace :=
  mkWorkspace (AgentStorage.save ∅ demoRunning) ∅ ∅ ∅ None.

Lemma tools_keep_run_state_witness :
  (AgentConfig.role <$> AgentStorage.get (agents (Tools.session demoDisk demoCalls)) "dev")
    = Some "Tester" /\
  (runState <$> AgentStorage.get (agents (Tools.session demoDisk demoCalls)) "dev")
    = Some (AgentStatus.running, Some "t1").
Proof.
  assert (Hfiled : filed (agents demoDisk)) by by_decide.
  destruct (tools_keep_run_state demoDisk demoCalls Hfiled) as [_ H].
  split; [vm_compute; reflexivity|].
  destruct (AgentStorage.get (agents (Tools.session demoDisk demoCalls)) "dev")
    as [agent'|] eqn:E; [|vm_compute in E; discriminate].
  destruct (H _ _ E) as [_ [Hidle | (agent & Hget & Hsame)]].
  - vm_compute in E. injection E as <-. vm_compute in Hidle. discriminate.
  - cbn [fmap option_fmap option_map]. rewrite Hsame.
    vm_compute in Hget. injection Hget as <-. reflexivity.
Defined.

End ToolFacts.

(* ===================================================================== *)
(** * Invariants of a workspace shared by the engine and the tools *)
(* ===================================================================== *)

Module WorkspaceInvariants.
Import Engine EngineFacts ToolFacts.

(** ** What the engine's methods do to the agent records and the org tree *)

Lemma spawnAgent_get options clock st name :
  AgentStorage.get (agentsOf (snd (spawnAgent options clock st))) name =
  AgentStorage.get (agentsOf st) name \/
  runningAgents (snd (spawnAgent options clock st)) =
    <[AgentConfig.name (agentConfig options) :=
        mkRunningAgent (AgentConfig.name (agentConfig options))
          (TaskState.id (task options)) (trackedAt clock)]> (runningAgents st) /\
  name = AgentConfig.name (agentConfig options) /\
  exists a',
    AgentStorage.get (agentsOf (snd (spawnAgent options clock st))) name = Some a' /\
    AgentConfig.name a' = name /\ AgentConfig.status a' = AgentStatus.running.
Proof.
  destruct (Z_lt_ge_dec (Z.of_nat (size (runningAgents st))) (concurrencyLimit st)).
  - rewrite spawnAgent_accepted by assumption. cbn [snd agentsOf workspace agents runningAgents].
    rewrite get_save. cbn [AgentConfig.name AgentConfig.setRun].
    destruct (decide _) as [->|Hne]; [right | left; reflexivity].
    split; [reflexivity|]. split; [reflexivity|]. eexists. split; [reflexivity|].
    split; reflexivity.
  - left. rewrite spawnAgent_rejected by assumption. reflexivity.
Qed.


Lemma spawnAgent_org options clock st :
  org (workspace (snd (spawnAgent options clock st))) = org (workspace st).
Proof.
  destruct (Z_lt_ge_dec (Z.of_nat (size (runningAgents st))) (concurrencyLimit st)).
  - rewrite spawnAgent_accepted by assumption. reflexivity.
  - rewrite spawnAgent_rejected by assumption. reflexivity.
Qed.

Lemma completeAgent_org agentName taskId status result costUsd durationMs numTurns clock st :
  org (workspace (snd (completeAgent agentName taskId status result costUsd durationMs
                         numTurns clock st))) = org (workspace st).
Proof.
  run_monad. destruct (TaskStorage.get _ taskId) as [task|]; cbn.
  - destruct (JS.truthy _ && JS.truthy _); cbn.
    + destruct (TaskStorage.get _ _); cbn; destruct (AgentStorage.get _ _); reflexivity.
    + destruct (AgentStorage.get _ _); reflexivity.
  - destruct (AgentStorage.get _ _); reflexivity.
Qed.

(** The record read under [name] after [completeAgent(agentName, ...)]:
    the one read before, idle again when it is the record read under
    [agentName]. *)
Lemma completeAgent_get agentName taskId status result costUsd durationMs numTurns clock st
    name :
  AgentStorage.get
    (agentsOf (snd (completeAgent agentName taskId status result costUsd durationMs numTurns
                      clock st))) name =
  match AgentStorage.get (agentsOf st) agentName with
  | Some agent =>
      if decide (name = AgentConfig.name agent)
      then Some (AgentConfig.setRun agent AgentStatus.idle None
                   (Date.toISOString (agentResetAt clock)))
      else AgentStorage.get (agentsOf st) name
  | None => AgentStorage.get (agentsOf st) name
  end.
Proof.
  rewrite completeAgent_agents. unfold afterReset.
  set (dir := match TaskStorage.get _ _ with Some _ => _ | None => _ end).
  assert (Hget : forall k, AgentStorage.get dir k = AgentStorage.get (agentsOf st) k).
  { intros k. subst dir. destruct (TaskStorage.get _ _); [|reflexivity].
    apply LifeCycle.get_afterDelivery. }
  rewrite Hget. destruct (AgentStorage.get (agentsOf st) agentName) as [agent|];
    [|apply Hget].
  rewrite get_save. cbn [AgentConfig.name AgentConfig.setRun].
  destruct (decide _); [reflexivity | apply Hget].
Qed.

(** ** The org chart names stored agents only *)

(** The calls that leave the org tree alone. *)
Definition keepsOrg (c : Tools.Call) : bool :=
  match c with
  | Tools.DeleteAgent _ | Tools.SetOrgParent _ _ => false
  | _ => true
  end.

Lemma call_org deps c ws : keepsOrg c = true -> org (Tools.call deps c ws) = org ws.
Proof.
  destruct c as [args now | args now | target | target parent | department status
                 | args id now | status result clock | args newThread id now
                 | threadId getTime clock | type summary body id now
                 | type author limit getTime];
    cbn [keepsOrg Tools.call]; try discriminate; intros _.
  - unfold Tools.create_agent. case_match; reflexivity.
  - unfold Tools.update_agent. repeat case_match; reflexivity.
  - reflexivity.
  - unfold Tools.delegate_task. repeat case_match; reflexivity.
  - apply (finish_task_org (Tools.taskId deps) status result clock (mkState ws ∅ 0%Z [])).
  - reflexivity.
  - unfold Tools.read_messages. case_match; reflexivity.
  - unfold Tools.post_to_board. case_match; reflexivity.
  - unfold Tools.query_board. case_match; reflexivity.
Qed.

(** The names of the org tree of a workspace. *)
Definition charted (ws : Workspace) : list string :=
  OrgStorage.names (OrgStorage.roots (OrgStorage.get (org ws))).

(** No name twice in the tree, and a record for every name in it. *)
Definition staffed (ws : Workspace) : Prop :=
  NoDup (charted ws) /\
  Forall (fun name => is_Some (AgentStorage.get (agents ws) name)) (charted ws).

Lemma setParent_names s a p x :
  x ∈ OrgStorage.names (OrgStorage.roots (OrgStorage.get (OrgStorage.setParent s a p))) ->
  x ∈ OrgStorage.names (OrgStorage.roots (OrgStorage.get s)) \/ x = a.
Proof.
  unfold OrgStorage.setParent, OrgStorage.setParentTree. cbn [OrgStorage.get OrgStorage.save].
  destruct (OrgFacts.attach_names_perm (OrgStorage.removeFromTree (OrgStorage.get s) a) p
              (fun pos => OrgStorage.mkOrgNode a p [] pos)) as [k ->].
  rewrite OrgFacts.removeFromTree_roots, elem_of_app, OrgFacts.names_cons.
  cbn [OrgStorage.agentName OrgStorage.children OrgStorage.names app].
  intros [H | H].
  - left. exact (OrgFacts.prune_names_sub _ _ _ H).
  - right. apply list_elem_of_singleton in H. exact H.
Qed.

(** The agent a call takes out of the tree or puts into it has the name
    of an entry of [agents/]. *)
Definition chartNames (action : Orchestration.Action) : bool :=
  match action with
  | Orchestration.ToolCall _ (Tools.DeleteAgent name) => Fs.isEntryName name
  | Orchestration.ToolCall _ (Tools.SetOrgParent name _) => Fs.isEntryName name
  | _ => true
  end.

(** No name twice in the tree, and every name in it is the name of an
    entry of [agents/] and has a record. *)
Definition wellStaffed (ws : Workspace) : Prop :=
  NoDup (charted ws) /\
  forall name, name ∈ charted ws ->
               Fs.isEntryName name = true /\ is_Some (AgentStorage.get (agents ws) name).

Lemma wellStaffed_iff ws :
  wellStaffed ws <->
  staffed ws /\ Forall (fun name => Fs.isEntryName name = true) (charted ws).
Proof.
  unfold wellStaffed, staffed. rewrite !Forall_forall. split.
  - intros [Hnd Hall]. split_and!; [exact Hnd | |]; intros x Hx; apply Hall, Hx.
  - intros [[Hnd Hrec] Hentry]. split; [exact Hnd|]. intros x Hx. split; auto.
Qed.

Lemma call_staffed deps c ws :
  chartNames (Orchestration.ToolCall deps c) = true ->
  wellStaffed ws -> wellStaffed (Tools.call deps c ws).
Proof.
  unfold wellStaffed, charted. intros Hc [Hnd Hall].
  destruct c as [args now | args now | target | target parent | department status
                 | args id now | status result clock | args newThread id now
                 | threadId getTime clock | type summary body id now
                 | type author limit getTime];
    try (rewrite call_org by reflexivity; split; [exact Hnd|]; intros x Hx;
         destruct (Hall x Hx) as [Hentry Hrec]; split; [exact Hentry|]).
  - cbn [Tools.call]. unfold Tools.create_agent.
    destruct (AgentStorage.get _ (Tools.CreateAgentArgs.name args));
      cbn [Tools.disk Tools.withAgents agents]; [exact Hrec|].
    rewrite get_ensureAgentDir, get_save. destruct (decide _); [eauto | exact Hrec].
  - cbn [Tools.call]. unfold Tools.update_agent.
    destruct (AgentStorage.get _ (Tools.UpdateAgentArgs.agentName args));
      cbn [Tools.disk]; [|exact Hrec].
    destruct (negb _); cbn [Tools.disk Tools.withAgents agents]; [exact Hrec|].
    rewrite get_save. destruct (decide _); [eauto | exact Hrec].
  - cbn [Tools.call]. unfold Tools.delete_agent.
    destruct (AgentStorage.get (agents ws) target) as [agent|];
      cbn [Tools.disk]; [|split; assumption].
    case_bool_decide; cbn [Tools.disk Tools.withAgents Tools.withOrg agents org];
      [split; assumption|].
    split; [apply (OrgInvariants.step_NoDup (org ws) (OrgStorage.RemoveAgent target) Hnd)|].
    intros x Hx. apply OrgInvariants.removeAgent_names in Hx as [Hx Hne]; [|exact Hnd].
    destruct (Hall x Hx) as [Hentry Hrec]. split; [exact Hentry|].
    rewrite get_delete. destruct (Fs.under target x) eqn:E; [|exact Hrec].
    apply FoldFacts.under_entry in E; [contradiction | exact Hc | exact Hentry].
  - cbn [Tools.call]. unfold Tools.set_org_parent.
    destruct (AgentStorage.get (agents ws) target) as [agent|] eqn:Hget;
      cbn [Tools.disk]; [|split; assumption].
    assert (Hset : NoDup (OrgStorage.names (OrgStorage.roots (OrgStorage.get
                     (OrgStorage.setParent (org ws) target parent)))) /\
                   forall x, x ∈ OrgStorage.names (OrgStorage.roots (OrgStorage.get
                     (OrgStorage.setParent (org ws) target parent))) ->
                   Fs.isEntryName x = true /\ is_Some (AgentStorage.get (agents ws) x)).
    { split; [apply (OrgInvariants.step_NoDup (org ws) (OrgStorage.SetParent target parent) Hnd)|].
      intros x Hx. apply setParent_names in Hx as [Hx | ->]; [apply Hall, Hx|].
      split; [exact Hc|]. rewrite Hget. eauto. }
    destruct parent as [parentName|]; [|exact Hset].
    destruct (AgentStorage.get (agents ws) parentName); [exact Hset | split; assumption].
  - rewrite call_agents by reflexivity. exact Hrec.
  - rewrite call_agents by reflexivity. exact Hrec.
  - cbn [Tools.call].
    change (agents (workspace ?s)) with (agentsOf s). rewrite finish_task_get. exact Hrec.
  - rewrite call_agents by reflexivity. exact Hrec.
  - rewrite call_agents by reflexivity. exact Hrec.
  - rewrite call_agents by reflexivity. exact Hrec.
  - rewrite call_agents by reflexivity. exact Hrec.
Qed.

Lemma step_staffed st action :
  chartNames action = true ->
  wellStaffed (workspace st) -> wellStaffed (workspace (Orchestration.step st action)).
Proof.
  destruct action as [op | deps c]; cbn [Orchestration.step workspace];
    [intros _|apply call_staffed].
  unfold wellStaffed, charted. intros [Hnd Hall].
  destruct op as [options clock | agent tid status result cost duration turns clock
                 | tid status result clock]; cbn [step].
  - rewrite spawnAgent_org. split; [exact Hnd|]. intros x Hx.
    destruct (Hall x Hx) as [Hentry Hrec]. split; [exact Hentry|].
    change (agents (workspace ?s)) with (agentsOf s).
    destruct (spawnAgent_get options clock st x) as [-> | (_ & _ & a' & -> & _)];
      [exact Hrec | eauto].
  - rewrite completeAgent_org. split; [exact Hnd|]. intros x Hx.
    destruct (Hall x Hx) as [Hentry Hrec]. split; [exact Hentry|].
    change (agents (workspace ?s)) with (agentsOf s). rewrite completeAgent_get.
    destruct (AgentStorage.get (agentsOf st) agent); [|exact Hrec].
    destruct (decide _); [eauto | exact Hrec].
  - rewrite finish_task_org. split; [exact Hnd|]. intros x Hx.
    destruct (Hall x Hx) as [Hentry Hrec]. split; [exact Hentry|].
    change (agents (workspace ?s)) with (agentsOf s). rewrite finish_task_get.
    exact Hrec.
Qed.

(** X20. The org chart never names an agent that has no record, as long
    as agents are named like entries of [agents/].  On a workspace whose
    org tree names no agent twice and only agents that have a record,
    under names that are one path segment each, whatever calls of the
    engine ([spawnAgent], [completeAgent], [finish_task]) and of the tools
    are made one after the other, with such a name in every call of
    [delete_agent] and of [set_org_parent], the tree still names no agent
    twice and only agents that have a record, under such names:
    [delete_agent] takes the agent out of the tree with its record, and
    [set_org_parent] puts in only an agent it has found. *)
Theorem org_chart_names_stored_agents (st : State) (actions : list Orchestration.Action) :
  staffed (workspace st) ->
  Forall (fun name => Fs.isEntryName name = true) (charted (workspace st)) ->
  Forall (fun action => chartNames action = true) actions ->
  let st' := Orchestration.run st actions in
  staffed (workspace st') /\
  Forall (fun name => Fs.isEntryName name = true) (charted (workspace st')).
Proof.
  intros Hstaffed Hentries Hactions. cbv zeta. apply wellStaffed_iff.
  assert (H : wellStaffed (workspace st)) by (apply wellStaffed_iff; split; assumption).
  clear Hstaffed Hentries. unfold Orchestration.run. revert st H.
  induction Hactions as [|action actions Haction _ IH]; intros st H; [exact H|].
  cbn [fold_left]. apply IH, step_staffed; assumption.
Qed.

Definition demoAgents : AgentStorage.Dir :=
  AgentStorage.save (AgentStorage.save ∅ (demoAgent "lead")) (demoAgent "dev").

Definition demoChart : list Orchestration.Action :=
  [Orchestration.ToolCall (demoDeps "ceo" "t0") (Tools.SetOrgParent "dev" (Some "lead"));
   Orchestration.ToolCall (demoDeps "ceo" "t0") (Tools.SetOrgParent "lead" None);
   Orchestration.ToolCall (demoDeps "ceo" "t0") (Tools.DeleteAgent "lead");
   Orchestration.EngineOp (demoSpawn "dev" "t1")].

Lemma org_chart_names_stored_agents_witness :
  staffed (workspace (Orchestration.run (create (mkWorkspace demoAgents ∅ ∅ ∅ None))
                        demoChart)).
Proof.
  apply (org_chart_names_stored_agents (create (mkWorkspace demoAgents ∅ ∅ ∅ None))
           demoChart).
  - by_decide.
  - by_decide.
  - by_decide.
Defined.

(** [delete_agent] of the agent with the empty name removes [agents/]
    itself: every record goes, and the tree keeps its names. *)
Example empty_name_deletes_every_record :
  let st :=
    create (mkWorkspace (AgentStorage.save demoAgents (demoAgent ""))
              ∅ ∅ ∅ (OrgStorage.setParent None "dev" None)) in
  let ws :=
    workspace (Orchestration.run st
                 [Orchestration.ToolCall (demoDeps "ceo" "t0") (Tools.DeleteAgent "")]) in
  staffed (workspace st) /\
  charted ws = ["dev"] /\
  AgentStorage.get (agents ws) "dev" = None /\
  AgentStorage.list (agents ws) = [].
Proof. cbv zeta. split; [by_decide|]. vm_compute. repeat split; reflexivity. Qed.

(** The names stored in [parentAgentName] are not covered: an agent put
    under a manager that was not in the tree keeps the manager's name when
    the manager is deleted, and [list_agents] prints it. *)
Example deleted_manager_is_still_named :
  let ws := workspace (Orchestration.run (create (mkWorkspace demoAgents ∅ ∅ ∅ None))
                         demoChart) in
  charted ws = ["dev"] /\
  AgentStorage.get (agents ws) "lead" = None /\
  OrgStorage.getParent (org ws) "dev" = Some "lead" /\
  getManager ws "dev" = None.
Proof. vm_compute. repeat split; reflexivity. Qed.

(** ** The agents the engine runs keep their records *)









(** [delete_agent] of an idle agent with the empty name removes the record
    of the agent that is running. *)
Example empty_name_deletes_the_running :
  let st :=
    Orchestration.run
      (create (mkWorkspace (AgentStorage.save demoAgents (demoAgent "")) ∅ ∅ ∅ None))
      [Orchestration.EngineOp (demoSpawn "dev" "t1");
       Orchestration.ToolCall (demoDeps "lead" "t0") (Tools.DeleteAgent "")] in
  isAgentRunning st "dev" = true /\
  AgentStorage.get (agents (workspace st)) "dev" = None.
Proof. vm_compute. split; reflexivity. Qed.

End WorkspaceInvariants.

(* ===================================================================== *)
(** * The well-formed org tree *)
(* ===================================================================== *)

Module OrgWellFormed.
Import OrgStorage OrgFacts.

(** ** parentsOk through the steps of setParent and removeAgent *)

Lemma parentsOk_app par l1 l2 :
  parentsOk par (l1 ++ l2) <-> parentsOk par l1 /\ parentsOk par l2.
Proof.
  induction l1 as [|n l1 IH].
  - split; [intros H; split; [exact I | exact H] | intros [_ H]; exact H].
  - change ((n :: l1) ++ l2) with (n :: (l1 ++ l2)). rewrite !parentsOk_cons, IH. tauto.
Qed.

Lemma parentsOk_elem par l c : parentsOk par l -> c ∈ l -> parentAgentName c = par.
Proof.
  induction l as [|n l IH]; [intros _ H; inversion H|].
  rewrite parentsOk_cons, elem_of_cons. intros (Hp & _ & Hr) [-> | Hin]; auto.
Qed.

Lemma parentsOk_subtrees par l :
  parentsOk par l -> Forall (fun c => parentsOk (Some (agentName c)) (children c)) l.
Proof.
  induction l as [|n l IH]; [constructor|].
  rewrite parentsOk_cons. intros (_ & Hc & Hr). constructor; auto.
Qed.

Lemma parentsOk_prune nodes a :
  forall par, parentsOk par nodes -> parentsOk par (prune nodes a).
Proof.
  induction nodes as [|n rest IHc IHr] using forest_ind; intros par; [auto|].
  rewrite prune_cons, parentsOk_cons. intros (Hp & Hc & Hr).
  destruct (isNot a n); [|apply IHr, Hr].
  rewrite parentsOk_cons. unfold setChildren. cbn [parentAgentName agentName children].
  split_and!; [exact Hp | apply IHc, Hc | apply IHr, Hr].
Qed.

Lemma parentsOk_push nodes pn mk :
  (forall k, parentsOk (Some pn) [mk k]) ->
  forall par rs,
    parentsOk par nodes -> mutateFound nodes pn (pushChild mk) = Some rs ->
    parentsOk par rs.
Proof.
  intros Hmk.
  induction nodes as [|n rest IHc IHr] using forest_ind; intros par rs;
    [intros _ H; discriminate H|].
  rewrite mutateFound_cons, parentsOk_cons. intros (Hp & Hc & Hr).
  destruct (String.eqb (agentName n) pn) eqn:En.
  - intros [= <-]. apply String.eqb_eq in En. rewrite parentsOk_cons.
    unfold pushChild, setChildren. cbn [parentAgentName agentName children].
    split_and!; [exact Hp | | exact Hr].
    rewrite parentsOk_app. split; [exact Hc|]. rewrite En. apply Hmk.
  - destruct (mutateFound (children n) pn (pushChild mk)) as [cs'|] eqn:Hm.
    + intros [= <-]. rewrite parentsOk_cons.
      unfold setChildren. cbn [parentAgentName agentName children].
      split_and!; [exact Hp | apply (IHc _ _ Hc eq_refl) | exact Hr].
    + destruct (mutateFound rest pn (pushChild mk)) as [rest'|] eqn:Hm'; [|discriminate].
      intros [= <-]. rewrite parentsOk_cons.
      split_and!; [exact Hp | exact Hc | apply (IHr _ _ Hr eq_refl)].
Qed.

Lemma attach_child_ok tree pn mk parent :
  findNode (roots tree) pn = Some parent ->
  (forall k, parentsOk (Some pn) [mk k]) ->
  parentsOk None (roots tree) ->
  parentsOk None (roots (attach tree (Some pn) mk)).
Proof.
  intros Hf Hmk Hok. unfold attach. rewrite Hf.
  destruct (mutateFound (roots tree) pn (pushChild mk)) as [rs|] eqn:Hm; [|exact Hok].
  cbn [roots]. exact (parentsOk_push _ _ _ Hmk _ _ Hok Hm).
Qed.

Lemma pushRoot_ok tree mk :
  (forall k, parentsOk None [mk k]) ->
  parentsOk None (roots tree) ->
  parentsOk None (roots (pushRoot mk tree)).
Proof.
  intros Hmk Hok. unfold pushRoot. cbn [roots]. rewrite parentsOk_app. split; [exact Hok|].
  apply Hmk.
Qed.

Lemma findNode_parentsOk nodes a node :
  forall par,
  parentsOk par nodes -> findNode nodes a = Some node ->
  parentsOk (Some (agentName node)) (children node).
Proof.
  induction nodes as [|n rest IHc IHr] using forest_ind; intros par;
    [intros _ H; discriminate H|].
  rewrite parentsOk_cons, findNode_cons. intros (Hp & Hc & Hr).
  destruct (String.eqb (agentName n) a); [intros [= <-]; exact Hc|].
  destruct (findNode (children n) a) as [found|] eqn:Hf.
  - intros [= <-]. exact (IHc _ Hc eq_refl).
  - intros Hrest. exact (IHr _ Hr Hrest).
Qed.

Lemma reattachAll_parentsOk p orphans :
  forall tree,
  Forall (fun c => parentsOk (Some (agentName c)) (children c)) orphans ->
  parentsOk None (roots tree) ->
  (forall pn, p = Some pn -> pn ∈ names (roots tree)) ->
  parentsOk None (roots (reattachAll p orphans tree)).
Proof.
  unfold reattachAll.
  induction orphans as [|c orphans IH]; intros tree Hsub Hok Hin; [exact Hok|].
  cbn [fold_left]. apply Forall_cons in Hsub as [Hc Hsub]. apply IH; [exact Hsub | |].
  - destruct p as [pn|].
    + destruct (findNode_is_Some _ _ (Hin pn eq_refl)) as [parent Hf].
      apply (attach_child_ok _ _ _ _ Hf); [|exact Hok].
      intros k. rewrite parentsOk_cons. unfold reparent.
      cbn [parentAgentName agentName children]. split_and!; [reflexivity | exact Hc | exact I].
    + rewrite attach_root by (left; reflexivity). apply pushRoot_ok; [|exact Hok].
      intros k. rewrite parentsOk_cons. unfold reparent.
      cbn [parentAgentName agentName children]. split_and!; [reflexivity | exact Hc | exact I].
  - intros pn ->. apply attach_names; [intros k; rewrite !reparent_names; reflexivity|].
    left. apply Hin. reflexivity.
Qed.

(** ** Where the nodes of a forest without duplicates are found *)

Lemma findNode_top l c : NoDup (names l) -> c ∈ l -> findNode l (agentName c) = Some c.
Proof.
  induction l as [|m l IH]; [intros _ H; inversion H|].
  rewrite names_cons, NoDup_cons, NoDup_app, not_elem_of_app, elem_of_cons, findNode_cons.
  intros ((Hmc & Hml) & Hdc & Hdisj & Hdl) [-> | Hin]; [rewrite String.eqb_refl; reflexivity|].
  destruct (elem_names_top _ _ Hin) as [Hc _].
  destruct (String.eqb (agentName m) (agentName c)) eqn:E.
  - apply String.eqb_eq in E. rewrite E in Hml. contradiction.
  - assert (Hnone : findNode (children m) (agentName c) = None).
    { apply findNode_None. intros H. exact (Hdisj _ H Hc). }
    rewrite Hnone. apply IH; assumption.
Qed.

Lemma findNode_child nodes p parent c :
  NoDup (names nodes) -> findNode nodes p = Some parent -> c ∈ children parent ->
  findNode nodes (agentName c) = Some c.
Proof.
  induction nodes as [|n rest IHc IHr] using forest_ind; [intros _ H; discriminate H|].
  rewrite names_cons, NoDup_cons, NoDup_app, not_elem_of_app, !findNode_cons.
  intros ((Hnc & Hnr) & Hdc & Hdisj & Hdr) Hf Hin.
  destruct (String.eqb (agentName n) p) eqn:Ep.
  - injection Hf as <-. destruct (elem_names_top _ _ Hin) as [Hc _].
    destruct (String.eqb (agentName n) (agentName c)) eqn:E.
    + apply String.eqb_eq in E. rewrite E in Hnc. contradiction.
    + rewrite (findNode_top _ _ Hdc Hin). reflexivity.
  - destruct (findNode (children n) p) as [found|] eqn:Hfc.
    + injection Hf as <-. pose proof (IHc Hdc eq_refl Hin) as Hfound.
      assert (Hc : agentName c ∈ names (children n)).
      { destruct (decide (agentName c ∈ names (children n))) as [|Hnot]; [assumption|].
        apply findNode_None in Hnot. congruence. }
      destruct (String.eqb (agentName n) (agentName c)) eqn:E.
      * apply String.eqb_eq in E. rewrite E in Hnc. contradiction.
      * rewrite Hfound. reflexivity.
    + pose proof (IHr Hdr Hf Hin) as Hfound.
      assert (Hc : agentName c ∈ names rest).
      { destruct (decide (agentName c ∈ names rest)) as [|Hnot]; [assumption|].
        apply findNode_None in Hnot. congruence. }
      destruct (String.eqb (agentName n) (agentName c)) eqn:E.
      * apply String.eqb_eq in E. rewrite E in Hnr. contradiction.
      * assert (Hnone : findNode (children n) (agentName c) = None).
        { apply findNode_None. intros H. exact (Hdisj _ H Hc). }
        rewrite Hnone. exact Hfound.
Qed.

(** ** The invariant and the two entry points *)

Lemma setParent_wellFormed (s : Store) (a : string) (p : option string) :
  wellFormed (get s) ->
  (wellFormed (get (setParent s a p)) <->
   p = None \/
   exists pn, p = Some pn /\ is_Some (findNode (roots (removeFromTree (get s) a)) pn)).
Proof.
  intros [Hnd Hok]. unfold wellFormed, setParent. cbn [get save]. split.
  - intros [_ Hok']. destruct p as [pn|]; [right | left; reflexivity].
    exists pn. split; [reflexivity|].
    destruct (findNode (roots (removeFromTree (get s) a)) pn) eqn:Hf; [eauto|].
    exfalso. unfold setParentTree in Hok'. rewrite attach_root in Hok' by (right; eauto).
    unfold pushRoot in Hok'. cbn [roots] in Hok'.
    apply parentsOk_app in Hok' as [_ Hlast]. apply parentsOk_cons in Hlast as [Hbad _].
    discriminate Hbad.
  - intros Hcond. split; [apply OrgInvariants.setParentTree_NoDup, Hnd|].
    assert (Hcut : parentsOk None (roots (removeFromTree (get s) a))).
    { rewrite removeFromTree_roots. apply parentsOk_prune, Hok. }
    unfold setParentTree. destruct Hcond as [-> | (pn & -> & [parent Hf])].
    + rewrite attach_root by (left; reflexivity). apply pushRoot_ok; [|exact Hcut].
      intros k. rewrite parentsOk_cons. cbn. auto.
    + apply (attach_child_ok _ _ _ _ Hf); [|exact Hcut].
      intros k. rewrite parentsOk_cons. cbn. auto.
Qed.

Lemma removeAgent_wellFormed (s : Store) (a : string) :
  wellFormed (get s) -> wellFormed (get (removeAgent s a)).
Proof.
  intros [Hnd Hok]. destruct (findNode (roots (get s)) a) as [node|] eqn:Hf.
  - split; [exact (OrgInvariants.step_NoDup s (RemoveAgent a) Hnd)|].
    rewrite (removeAgent_get _ _ _ Hf). apply reattachAll_parentsOk.
    + apply (parentsOk_subtrees (Some (agentName node))).
      exact (findNode_parentsOk _ _ _ _ Hok Hf).
    + rewrite removeFromTree_roots. apply parentsOk_prune, Hok.
    + intros pn Hp. rewrite removeFromTree_roots.
      destruct (findNode_structure _ _ _ None Hnd Hok Hf)
        as [[_ Hnone] | (parent & pn' & Hsome & Hfp & Hin)]; [congruence|].
      assert (pn' = pn) by congruence. subst pn'.
      pose proof (prune_parent _ _ _ _ Hnd Hfp Hin) as Hpruned.
      rewrite (findNode_Some_name _ _ _ Hf) in Hpruned.
      destruct (decide (pn ∈ names (prune (roots (get s)) a))) as [|Hnot]; [assumption|].
      apply findNode_None in Hnot. congruence.
  - unfold removeAgent, removeAgentTree. rewrite Hf. split; assumption.
Qed.

(** X22. The well-formed org tree (no agent name twice, every node storing
    the name of the node it hangs under, null at the top) is kept by
    [removeAgent] in every case, and by [setParent(A, P)] exactly when [P]
    is null or is still found once [A] and its subtree are detached: when
    [P] is absent, is [A] itself or sits below [A], the tree is left with a
    root that stores a parent. *)
Theorem wellFormed_kept (s : Store) (a : string) (p : option string) :
  wellFormed (get s) ->
  wellFormed (get (removeAgent s a)) /\
  (wellFormed (get (setParent s a p)) <->
   p = None \/
   exists pn, p = Some pn /\ is_Some (findNode (roots (removeFromTree (get s) a)) pn)).
Proof.
  intros Hwf. split; [apply removeAgent_wellFormed, Hwf | apply setParent_wellFormed, Hwf].
Qed.

Lemma demoForest_wellFormed : wellFormed (get demoForest).
Proof. split; [by_decide | vm_compute; tauto]. Qed.

Lemma wellFormed_kept_witness :
  wellFormed (get (removeAgent demoForest "vp")) /\
  wellFormed (get (setParent demoForest "eng2" (Some "cfo"))) /\
  ~ wellFormed (get (setParent demoForest "vp" (Some "intern"))).
Proof.
  split; [apply (wellFormed_kept demoForest "vp" None), demoForest_wellFormed|]. split.
  - apply (wellFormed_kept demoForest "eng2" (Some "cfo") demoForest_wellFormed).
    right. exists "cfo". split; [reflexivity | vm_compute; eauto].
  - intros H.
    apply (wellFormed_kept demoForest "vp" (Some "intern") demoForest_wellFormed) in H.
    destruct H as [H | (pn & [= <-] & [node Hnode])]; [discriminate H|].
    vm_compute in Hnode. discriminate Hnode.
Defined.

(** ** The two views of a well-formed tree *)

Lemma views_agree (s : Store) (a p : string) :
  wellFormed (get s) ->
  getParent s a = Some p <-> a ∈ map agentName (getChildren s p).
Proof.
  intros [Hnd Hok]. unfold getParent, getChildren. split.
  - destruct (findNode (roots (get s)) a) as [node|] eqn:Hf; [|discriminate].
    intros Hp.
    destruct (findNode_structure _ _ _ None Hnd Hok Hf)
      as [[_ Hnone] | (parent & pn & Hsome & Hfp & Hin)]; [congruence|].
    assert (pn = p) by congruence. subst pn. rewrite Hfp.
    apply list_elem_of_fmap. exists node. split; [|exact Hin].
    symmetry. exact (findNode_Some_name _ _ _ Hf).
  - destruct (findNode (roots (get s)) p) as [parent|] eqn:Hfp;
      [|intros H; inversion H].
    intros Hin. apply list_elem_of_fmap in Hin as (c & -> & Hin).
    rewrite (findNode_child _ _ _ _ Hnd Hfp Hin).
    rewrite (parentsOk_elem _ _ _ (findNode_parentsOk _ _ _ _ Hok Hfp) Hin).
    rewrite (findNode_Some_name _ _ _ Hfp). reflexivity.
Qed.

(** X23. On a workspace whose org tree is well formed, the answer of
    [list_agents] is consistent: an agent is listed with [parentAgentName]
    the name of a listed agent exactly when it is among the
    [directReports] of that agent; and in the store [getParent(A)] is [P]
    exactly when [A] is one of [getChildren(P)]. *)
Theorem list_agents_consistent (deps : Tools.Deps) (department : option string)
    (status : option AgentStatus.t) (ws : Engine.Workspace) :
  wellFormed (get (Engine.org ws)) ->
  (forall a p,
     getParent (Engine.org ws) a = Some p <->
     a ∈ map agentName (getChildren (Engine.org ws) p)) /\
  exists listed,
    Tools.reply (Tools.list_agents deps department status ws) = Tools.Json listed /\
    Tools.disk (Tools.list_agents deps department status ws) = ws /\
    forall report manager,
      report ∈ listed -> manager ∈ listed ->
      Tools.AgentSummary.parentAgentName report = Some (Tools.AgentSummary.name manager) <->
      Tools.AgentSummary.name report ∈ Tools.AgentSummary.directReports manager.
Proof.
  intros Hwf. split; [intros a p; apply views_agree, Hwf|].
  unfold Tools.list_agents. cbn [Tools.reply Tools.disk].
  eexists. split; [reflexivity|]. split; [reflexivity|].
  intros report manager Hr Hm.
  apply list_elem_of_fmap in Hr as (a & -> & _).
  apply list_elem_of_fmap in Hm as (b & -> & _).
  cbn [Tools.AgentSummary.parentAgentName Tools.AgentSummary.name
       Tools.AgentSummary.directReports].
  apply views_agree, Hwf.
Qed.

Definition demoStaff : AgentStorage.Dir :=
  AgentStorage.save (AgentStorage.save ∅ (EngineFacts.demoAgent "ceo"))
    (EngineFacts.demoAgent "vp").

Lemma list_agents_consistent_witness :
  exists listed,
    Tools.reply (Tools.list_agents (Tools.mkDeps "/ws" "ceo" "t0") None None
                   (Engine.mkWorkspace demoStaff ∅ ∅ ∅ demoForest)) = Tools.Json listed /\
    Tools.disk (Tools.list_agents (Tools.mkDeps "/ws" "ceo" "t0") None None
                  (Engine.mkWorkspace demoStaff ∅ ∅ ∅ demoForest)) =
      Engine.mkWorkspace demoStaff ∅ ∅ ∅ demoForest /\
    forall report manager,
      report ∈ listed -> manager ∈ listed ->
      Tools.AgentSummary.parentAgentName report = Some (Tools.AgentSummary.name manager) <->
      Tools.AgentSummary.name report ∈ Tools.AgentSummary.directReports manager.
Proof.
  apply (list_agents_consistent (Tools.mkDeps "/ws" "ceo" "t0") None None
           (Engine.mkWorkspace demoStaff ∅ ∅ ∅ demoForest)).
  exact demoForest_wellFormed.
Defined.

(** Without the invariant the two columns disagree: "dev" put under a
    manager that is not in the tree is listed with that manager, who is
    listed without reports. *)
Example list_agents_disagrees :
  let ws :=
    Engine.mkWorkspace demoStaff ∅ ∅ ∅
      (setParent (setParent None "vp" (Some "ceo")) "ceo" None) in
  match Tools.reply (Tools.list_agents (Tools.mkDeps "/ws" "ceo" "t0") None None ws) with
  | Tools.Json listed =>
      map (fun r => (Tools.AgentSummary.name r, Tools.AgentSummary.parentAgentName r,
                     Tools.AgentSummary.directReports r)) listed =
      [("ceo", None, []); ("vp", Some "ceo", [])]
  | _ => False
  end.
Proof. vm_compute. reflexivity. Qed.

End OrgWellFormed.

(* ===================================================================== *)
(** * The org section of the prompt *)
(* ===================================================================== *)

Module OrgSection.
Import Engine ToolFacts WorkspaceInvariants.

(** The report [getOrgReports] pushes for a child whose record is
    [agent]. *)
Definition reportOf (agent : AgentConfig.t) : OrgReport.t :=
  OrgReport.mk (AgentConfig.name agent) (AgentConfig.role agent) (AgentConfig.status agent)
    (AgentConfig.currentTaskId agent).

Definition reportsOn (ws : Workspace) (child : OrgStorage.OrgNode) (report : OrgReport.t)
    : Prop :=
  exists agent,
    AgentStorage.get (agents ws) (OrgStorage.agentName child) = Some agent /\
    AgentConfig.name agent = OrgStorage.agentName child /\
    report = reportOf agent.

Lemma reports_fold ws (children seen : list OrgStorage.OrgNode) (reports : list OrgReport.t) :
  Forall2 (reportsOn ws) seen reports ->
  (forall c, c ∈ children ->
     exists agent,
       AgentStorage.get (agents ws) (OrgStorage.agentName c) = Some agent /\
       AgentConfig.name agent = OrgStorage.agentName c) ->
  Forall2 (reportsOn ws) (seen ++ children)
    (fold_left
       (fun reports child =>
          match AgentStorage.get (agents ws) (OrgStorage.agentName child) with
          | Some agent =>
              reports ++ [OrgReport.mk (AgentConfig.name agent) (AgentConfig.role agent)
                            (AgentConfig.status agent) (AgentConfig.currentTaskId agent)]
          | None => reports
          end)
       children reports).
Proof.
  revert seen reports.
  induction children as [|c children IH]; intros seen reports Hseen Hall.
  - rewrite List.app_nil_r. exact Hseen.
  - cbn [fold_left]. destruct (Hall c) as (agent & Hget & Hname); [left|].
    rewrite Hget. replace (seen ++ c :: children) with ((seen ++ [c]) ++ children)
      by (rewrite <- List.app_assoc; reflexivity).
    apply IH.
    + apply Forall2_app; [exact Hseen|]. constructor; [|constructor].
      exists agent. split; [exact Hget|]. split; [exact Hname | reflexivity].
    + intros c' Hc'. apply Hall. right. exact Hc'.
Qed.

Lemma child_charted ws a c :
  c ∈ OrgStorage.getChildren (org ws) a -> OrgStorage.agentName c ∈ charted ws.
Proof.
  unfold OrgStorage.getChildren, charted.
  destruct (OrgStorage.findNode _ a) as [node|] eqn:Hf; [|intros H; inversion H].
  intros Hin. destruct (OrgFacts.elem_names_top _ _ Hin) as [Hc _].
  exact (OrgFacts.findNode_names_sub _ _ _ _ Hf Hc).
Qed.

(** X24. On a workspace whose org tree is well formed and names only
    agents that have a record, filed under their names, the org section
    the engine builds for a prompt is complete: [getOrgReports(A)] holds
    one report for each child of [A], in the order of the tree, with the
    name, role, status and current task of the child's record; and
    [getManager(A)] is the display name, role and status of the record of
    [getParent(A)], and null only when [A] has no parent or the parent is
    named by the empty string. *)
Theorem org_section_complete (ws : Workspace) (a : string) :
  OrgStorage.wellFormed (OrgStorage.get (org ws)) ->
  staffed ws ->
  filed (agents ws) ->
  Forall2 (reportsOn ws) (OrgStorage.getChildren (org ws) a) (getOrgReports ws a) /\
  match OrgStorage.getParent (org ws) a with
  | None => getManager ws a = None
  | Some p =>
      a ∈ map OrgStorage.agentName (OrgStorage.getChildren (org ws) p) /\
      exists parent,
        AgentStorage.get (agents ws) p = Some parent /\
        getManager ws a =
          if bool_decide (p = "") then None
          else Some (ManagerInfo.mk (AgentConfig.displayName parent) (AgentConfig.role parent)
                       (AgentConfig.status parent))
  end.
Proof.
  intros Hwf [_ Hall] Hfiled. rewrite Forall_forall in Hall. rewrite filed_get in Hfiled.
  split.
  - unfold getOrgReports.
    apply (reports_fold ws (OrgStorage.getChildren (org ws) a) [] []); [constructor|].
    intros c Hc. destruct (Hall _ (child_charted _ _ _ Hc)) as [agent Hget].
    exists agent. split; [exact Hget | exact (Hfiled _ _ Hget)].
  - unfold getManager.
    destruct (OrgStorage.getParent (org ws) a) as [p|] eqn:Hp; [|reflexivity].
    pose proof (proj1 (OrgWellFormed.views_agree _ _ _ Hwf) Hp) as Hchild.
    split; [exact Hchild|].
    assert (Hin : p ∈ charted ws).
    { unfold charted. unfold OrgStorage.getChildren in Hchild.
      destruct (OrgStorage.findNode _ p) as [node|] eqn:Hf; [|inversion Hchild].
      destruct (decide (p ∈ OrgStorage.names (OrgStorage.roots (OrgStorage.get (org ws)))))
        as [|Hnot]; [assumption|].
      apply OrgFacts.findNode_None in Hnot. congruence. }
    destruct (Hall _ Hin) as [parent Hget]. exists parent. split; [exact Hget|].
    cbn [default from_option]. unfold id. unfold JS.truthy.
    case_bool_decide as Hempty.
    + subst p. reflexivity.
    + destruct p as [|c p]; [contradiction|]. cbn. rewrite Hget. reflexivity.
Qed.

Definition demoOffice : Workspace :=
  mkWorkspace demoAgents ∅ ∅ ∅
    (OrgStorage.setParent (OrgStorage.setParent None "lead" None) "dev" (Some "lead")).

Lemma org_section_complete_witness :
  Forall2 (reportsOn demoOffice) (OrgStorage.getChildren (org demoOffice) "lead")
    (getOrgReports demoOffice "lead") /\
  getManager demoOffice "dev" = Some (ManagerInfo.mk "lead" "Engineer" AgentStatus.idle).
Proof.
  assert (Hwf : OrgStorage.wellFormed (OrgStorage.get (org demoOffice)))
    by (split; [by_decide | vm_compute; tauto]).
  assert (Hstaffed : staffed demoOffice) by by_decide.
  assert (Hfiled : filed (agents demoOffice)) by by_decide.
  split.
  - apply (org_section_complete demoOffice "lead" Hwf Hstaffed Hfiled).
  - destruct (org_section_complete demoOffice "dev" Hwf Hstaffed Hfiled) as [_ H].
    change (OrgStorage.getParent (org demoOffice) "dev") with (Some "lead") in H.
    destruct H as (_ & parent & Hget & ->).
    vm_compute in Hget. injection Hget as <-. reflexivity.
Defined.

End OrgSection.

(* ===================================================================== *)
(** * The limits of a board listing *)
(* ===================================================================== *)

Module BoardLimits.
Import BoardListing.

(** The four fields [getRecentBoardItems] keeps of an item. *)
Definition brief (item : BoardItem.t) : option string * string * string * string :=
  (BoardItem.type item, BoardItem.author item, BoardItem.summary item,
   BoardItem.createdAt item).

(** X25. A negative [limit] is not refused by [query_board]: with limit
    [-k] the answer is the full listing without its last [k] items (the
    oldest ones), and is empty when the board holds [k] items or fewer.
    [getRecentBoardItems] never fails and returns the type, author,
    summary and time of the first five items of the full listing of all
    types and authors, the items [query_board] returns with limit 5. *)
Theorem board_limits (deps : Tools.Deps) (type : option BoardItemType.t)
    (author : option string) (k : nat) (getTime : string -> option Z)
    (ws : Engine.Workspace) :
  let all := listing getTime (Tools.boardOf deps ws) type author in
  let recent := listing getTime (Tools.boardOf deps ws) None None in
  Tools.reply (Tools.query_board deps type author (Some (- Z.of_nat (S k))%Z) getTime ws) =
    Tools.Json (map Tools.BoardView.view (take (length all - S k) all)) /\
  (length all <= S k ->
   Tools.reply (Tools.query_board deps type author (Some (- Z.of_nat (S k))%Z) getTime ws) =
     Tools.Json []) /\
  Engine.getRecentBoardItems getTime (Tools.basePath deps) ws =
    Some (map brief (take 5 recent)) /\
  Tools.reply (Tools.query_board deps None None (Some 5%Z) getTime ws) =
    Tools.Json (map Tools.BoardView.view (take 5 recent)).
Proof.
  cbv zeta.
  assert (Hneg : Tools.reply
            (Tools.query_board deps type author (Some (- Z.of_nat (S k))%Z) getTime ws) =
          Tools.Json (map Tools.BoardView.view
            (take (length (listing getTime (Tools.boardOf deps ws) type author) - S k)
               (listing getTime (Tools.boardOf deps ws) type author)))).
  { unfold Tools.query_board.
    fold (filterOf type author (Some (default 10%Z (Some (- Z.of_nat (S k))%Z)))).
    rewrite list_eq. cbn [Tools.reply default from_option]. unfold id.
    destruct (Z.eqb_spec (- Z.of_nat (S k)) 0) as [E | _]; [lia|].
    unfold JS.sliceTo. destruct (Z.ltb_spec (- Z.of_nat (S k)) 0) as [_ | E]; [|lia].
    do 3 f_equal. lia. }
  split_and!.
  - exact Hneg.
  - intros Hfew. rewrite Hneg.
    replace (length _ - S k) with 0 by lia. reflexivity.
  - unfold Engine.getRecentBoardItems.
    change (BoardStorage.mk (JS.pathJoin (Tools.basePath deps) "board") (Engine.board ws))
      with (Tools.boardOf deps ws).
    change (Some (BoardStorage.mkFilter None None (Some 5%Z)))
      with (filterOf None None (Some 5%Z)).
    rewrite list_eq. reflexivity.
  - unfold Tools.query_board.
    fold (filterOf None None (Some (default 10%Z (Some 5%Z)))).
    rewrite list_eq. reflexivity.
Qed.

Example negative_limit_drops_the_oldest :
  match Tools.reply (Tools.query_board (Tools.mkDeps "/ws" "eng" "T1") None None
                       (Some (-1)%Z) Date.parse demoPosted) with
  | Tools.Json items => Tools.BoardView.id <$> items
  | _ => []
  end = ["c3"; "b2"].
Proof. vm_compute. reflexivity. Qed.

End BoardLimits.

(* ===================================================================== *)
(** * The mailbox is never cleared *)
(* ===================================================================== *)

Module MailboxFacts.
Import JSFacts Engine EngineFacts.














Definition demoInbox : State :=
  create (mkWorkspace
            (DelegationFlow.handleChildCompletion WorkspaceInvariants.demoAgents demoClock
               "c1" (Some "done") "completed" "p1" "lead")
            ∅ ∅ ∅ None).



(** [delete_agent] is the exception: it removes the directory of the
    agent with the mailbox in it. *)
Example delete_agent_clears_the_mailbox :
  getPendingResults
    (workspace (Orchestration.run demoInbox
                  [Orchestration.ToolCall (ToolFacts.demoDeps "ceo" "t0")
                     (Tools.DeleteAgent "lead")])) "lead" = [].
Proof. vm_compute. reflexivity. Qed.

(** So does [delete_agent] of an agent with the empty name, for every
    agent. *)
Example empty_name_clears_every_mailbox :
  let st :=
    create (mkWorkspace (AgentStorage.save (agents (workspace demoInbox)) (demoAgent ""))
              ∅ ∅ ∅ None) in
  getPendingResults (workspace st) "lead" <> [] /\
  getPendingResults
    (workspace (Orchestration.run st
                  [Orchestration.ToolCall (ToolFacts.demoDeps "ceo" "t0")
                     (Tools.DeleteAgent "")])) "lead" = [].
Proof. vm_compute. split; [discriminate | reflexivity]. Qed.

End MailboxFacts.

(* ===================================================================== *)
(** * An agent spawned while it is running *)
(* ===================================================================== *)

Module Respawn.
Import Engine EngineFacts.

(** X27. [spawnAgent] does not look whether the agent is already running.
    A second accepted spawn of the same agent for another task takes no
    new slot and replaces the entry of the first task in the registry;
    when [completeAgent] is then called for the first task, the agent is
    no longer counted as running and its record is idle without a task,
    while the record of the second task still says [running]. *)
Theorem second_spawn_shares_the_slot (first second : SpawnOptions) (clock1 clock2 : SpawnClock)
    (status : FinalStatus.t) (result : option string) (costUsd : option QArith_base.Q)
    (durationMs numTurns : option Z) (clock : CompleteClock) (st : State) :
  AgentConfig.name (agentConfig second) = AgentConfig.name (agentConfig first) ->
  TaskState.id (task second) <> TaskState.id (task first) ->
  (Z.of_nat (size (runningAgents st)) + 1 < concurrencyLimit st)%Z ->
  let agent := AgentConfig.name (agentConfig first) in
  let st1 := snd (spawnAgent first clock1 st) in
  let st2 := snd (spawnAgent second clock2 st1) in
  let st3 :=
    snd (completeAgent agent (TaskState.id (task first)) status result costUsd durationMs
           numTurns clock st2) in
  fst (spawnAgent second clock2 st1) = Ok (TaskState.id (task second)) /\
  getRunningAgentCount st2 = getRunningAgentCount st1 /\
  taskId <$> runningAgents st2 !! agent = Some (TaskState.id (task second)) /\
  isAgentRunning st3 agent = false /\
  ToolFacts.runState <$> AgentStorage.get (agentsOf st3) agent =
    Some (AgentStatus.idle, None) /\
  TaskState.status <$> TaskStorage.get (tasksOf st3) (TaskState.id (task second)) =
    Some TaskStatus.running.
Proof.
  intros Hname Hid Hfree. cbv zeta.
  assert (Hfree1 : (Z.of_nat (size (runningAgents st)) < concurrencyLimit st)%Z) by lia.
  rewrite (spawnAgent_accepted first clock1 st Hfree1). cbn [snd].
  set (st1 := mkState _ _ _ _).
  assert (Hfree2 : (Z.of_nat (size (runningAgents st1)) < concurrencyLimit st1)%Z).
  { subst st1. cbn [runningAgents concurrencyLimit]. rewrite map_size_insert.
    destruct (runningAgents st !! _); cbn [id]; lia. }
  rewrite (spawnAgent_accepted second clock2 st1 Hfree2). cbn [fst snd].
  set (st2 := mkState _ _ _ _).
  assert (Hagent : AgentStorage.get (agentsOf st2) (AgentConfig.name (agentConfig first)) =
                   Some (AgentConfig.setRun (agentConfig second) AgentStatus.running
                           (Some (TaskState.id (task second)))
                           (Date.toISOString (agentUpdatedAt clock2)))).
  { subst st2. cbn [agentsOf workspace agents]. rewrite ToolFacts.get_save.
    cbn [AgentConfig.name AgentConfig.setRun]. rewrite Hname.
    destruct (decide _); [reflexivity | congruence]. }
  assert (Htask1 : TaskStorage.get (tasksOf st2) (TaskState.id (task first)) =
                   Some (TaskState.start (task first)
                           (Date.toISOString (taskStartedAt clock1)))).
  { subst st2 st1. cbn [tasksOf workspace tasks].
    rewrite StoreFacts.task_get_save_ne by (cbn; congruence).
    apply (StoreFacts.task_get_save_eq _ (TaskState.start (task first) _)). }
  assert (Htask2 : TaskStorage.get (tasksOf st2) (TaskState.id (task second)) =
                   Some (TaskState.start (task second)
                           (Date.toISOString (taskStartedAt clock2)))).
  { subst st2. cbn [tasksOf workspace tasks].
    apply (StoreFacts.task_get_save_eq _ (TaskState.start (task second) _)). }
  split_and!.
  - reflexivity.
  - unfold getRunningAgentCount. subst st2 st1. cbn [runningAgents].
    rewrite Hname, insert_insert_eq, !map_size_insert. reflexivity.
  - subst st2. cbn [runningAgents]. rewrite Hname, lookup_insert_eq. reflexivity.
  - unfold isAgentRunning.
    destruct (LifeCycle.completeAgent_running (AgentConfig.name (agentConfig first))
                (TaskState.id (task first)) status result costUsd durationMs numTurns clock
                st2) as [-> _].
    rewrite lookup_delete_eq. apply bool_decide_eq_false. intros [r Hr]. discriminate Hr.
  - rewrite WorkspaceInvariants.completeAgent_get, Hagent.
    cbn [AgentConfig.name AgentConfig.setRun]. rewrite Hname.
    destruct (decide _); [reflexivity | congruence].
  - rewrite completeAgent_tasks, Htask1.
    rewrite StoreFacts.task_get_save_ne by (cbn; congruence).
    rewrite Htask2. reflexivity.
Qed.

Lemma second_spawn_shares_the_slot_witness :
  let st2 := run (create (mkWorkspace ∅ ∅ ∅ ∅ None)) [demoSpawn "dev" "t1"; demoSpawn "dev" "t2"] in
  let st3 :=
    snd (completeAgent "dev" "t1" FinalStatus.completed (Some "done") None None None
           (mkCompleteClock demoLater demoLater demoLater) st2) in
  getRunningAgentCount st2 = 1 /\
  isAgentRunning st3 "dev" = false /\
  TaskState.status <$> TaskStorage.get (tasksOf st3) "t2" = Some TaskStatus.running.
Proof.
  cbv zeta.
  destruct (second_spawn_shares_the_slot
              (mkSpawnOptions (demoAgent "dev") (demoTask "t1" None "dev" None))
              (mkSpawnOptions (demoAgent "dev") (demoTask "t2" None "dev" None))
              (mkSpawnClock demoClock demoClock demoClock)
              (mkSpawnClock demoClock demoClock demoClock)
              FinalStatus.completed (Some "done") None None None
              (mkCompleteClock demoLater demoLater demoLater)
              (create (mkWorkspace ∅ ∅ ∅ ∅ None)))
    as (_ & Hcount & _ & Hidle & _ & Hrunning).
  - reflexivity.
  - discriminate.
  - vm_compute. reflexivity.
  - split; [|split].
    + vm_compute. reflexivity.
    + exact Hidle.
    + exact Hrunning.
Defined.

End Respawn.
